(** * cubspack: three-dimensional bin packing

    A shallow embedding of the packing engine of [cubspack]
    (geometry.py, pack_algo.py, guillotine.py, maxcubs.py, packer.py)
    and the properties its specification states about it.

    Numbers are modelled as [Z] (the library is polymorphic in the
    numeric type; integers are one of the recommended instances).
    Python objects that are mutated in place become explicit state
    passing: a method returns the new object next to its result.  A
    raised exception is a value of [outcome]; the state it leaves behind
    is returned with it. *)

From Stdlib Require Import ZArith List Bool Lia String Permutation Sorted.
Import ListNotations.
Open Scope Z_scope.

(** ** Python results *)

Inductive exn : Set :=
| AssertionError
| TypeError
| ValueError
| IndexError
| Exception (msg : string).

(** [Ret a] is a normal return, [Raise e] an exception that propagates.
    [Unreached] marks the points of the model that no run of the source
    arrives at: the end of the fuel of a [while] loop that is given
    enough of it, and a reference that would have no referent.  That
    the dispatching [add_cub] and [pack()] never yield it is
    [add_cub_reached] and [pack_reached]. *)
Inductive outcome (A : Type) : Type :=
| Ret (a : A)
| Raise (e : exn)
| Unreached.
Arguments Ret {A} a.
Arguments Raise {A} e.
Arguments Unreached {A}.

(** An exception on its way through a caller of another result type.
    It is applied where the normal return has been dealt with. *)
Definition abort {A B : Type} (o : outcome A) : outcome B :=
  match o with
  | Raise e => Raise e
  | _ => Unreached
  end.

(** The values the various [add_cub] methods return: [None], a placed
    cuboid, or (Best-Fit dispatch) a boolean. *)
Inductive pyval (C : Type) : Type :=
| PyNone
| PyCub (c : C)
| PyBool (b : bool).
Arguments PyNone {C}.
Arguments PyCub {C} c.
Arguments PyBool {C} b.

(** [min(it, key=itemgetter(0))]: the first element with the least key;
    [None] stands for the [ValueError] of an empty iterable. *)
Fixpoint min_by_key {A : Type} (l : list (Z * A)) : option (Z * A) :=
  match l with
  | [] => None
  | e :: l' =>
      match min_by_key l' with
      | None => Some e
      | Some m => if fst m <? fst e then Some m else Some e
      end
  end.

(** Python's three-argument [min] and [max]. *)
Definition min3 (a b c : Z) : Z := Z.min (Z.min a b) c.
Definition max3 (a b c : Z) : Z := Z.max (Z.max a b) c.

(** [l[key]] for a list or a deque and an int [key]: a negative key
    counts from the end, and a key out of range raises [IndexError]. *)
Definition getitem {A : Type} (l : list A) (key : Z) : outcome A :=
  let n := Z.of_nat (List.length l) in
  let i := if key <? 0 then key + n else key in
  if (i <? 0) || (i >=? n) then Raise IndexError
  else
    match nth_error l (Z.to_nat i) with
    | Some a => Ret a
    | None => Unreached
    end.

(** ** geometry.py *)

Module geometry.

(** *** Point *)

Module Point.

Record Point : Set := mkPoint { x : Z; y : Z; z : Z }.

(** [__eq__] *)
Definition Point_eq (self other : Point) : bool :=
  (x self =? x other) && (y self =? y other) && (z self =? z other).

(** [distance] is the floating-point square root of this sum and has no
    counterpart over the integers. *)
Definition distance_squared (self point : Point) : Z :=
  (x self - x point) ^ 2 + (y self - y point) ^ 2 + (z self - z point) ^ 2.

End Point.

(** *** Segment and its subclasses *)

Module Segment.
Import Point.

(** [end] is a keyword, hence [end_]. *)
Record Segment : Set := mkSegment { start : Point; end_ : Point }.

(** [__eq__]: the [isinstance] test guards the expression [None] and
    decides nothing; the ends are compared in order. *)
Definition Segment_eq (self other : Segment) : bool :=
  Point_eq (start self) (start other) && Point_eq (end_ self) (end_ other).

Definition length_squared (self : Segment) : Z :=
  distance_squared (start self) (end_ self).

Definition top (self : Segment) : Z := Z.max (y (start self)) (y (end_ self)).
Definition bottom (self : Segment) : Z :=
  Z.min (y (start self)) (y (end_ self)).
Definition right (self : Segment) : Z :=
  Z.max (x (start self)) (x (end_ self)).
Definition left (self : Segment) : Z := Z.min (x (start self)) (x (end_ self)).
Definition ineye (self : Segment) : Z :=
  Z.max (z (start self)) (z (end_ self)).
Definition outeye (self : Segment) : Z :=
  Z.min (z (start self)) (z (end_ self)).

(** [HSegment(start, length)] and the [length] property of the class. *)
Definition HSegment (start_ : Point) (length : Z) : Segment :=
  mkSegment start_ (mkPoint (x start_ + length) (y start_) (z start_)).

Definition HSegment_length (self : Segment) : Z :=
  x (end_ self) - x (start self).

(** [VSegment(start, length)] and the [length] property of the class. *)
Definition VSegment (start_ : Point) (length : Z) : Segment :=
  mkSegment start_ (mkPoint (x start_) (y start_ + length) (z start_)).

Definition VSegment_length (self : Segment) : Z :=
  y (end_ self) - y (start self).

(** [DSegment.__init__] calls [super(VSegment, self).__init__], and a
    [DSegment] is no [VSegment]: the call raises [TypeError], so no
    in-depth segment is ever built. *)
Definition DSegment (start_ : Point) (length : Z) : outcome Segment :=
  Raise TypeError.

End Segment.

(** *** Cuboid *)

(** [rid] is an opaque identifier; [None] when absent. *)
Record Cuboid : Set := mkCuboid {
  x : Z; y : Z; z : Z;
  width : Z; height : Z; depth : Z;
  rid : option Z
}.

(** [Cuboid(x, y, z, width, height, depth)] with the default [rid]. *)
Definition Cuboid_ (x y z width height depth : Z) : Cuboid :=
  mkCuboid x y z width height depth None.

(** The constructor asserts [height >= 0 and width >= 0 and depth >= 0]. *)
Definition Cuboid_assert (width height depth : Z) : bool :=
  (height >=? 0) && (width >=? 0) && (depth >=? 0).

Definition bottom (c : Cuboid) : Z := y c.
Definition top (c : Cuboid) : Z := y c + height c.
Definition left (c : Cuboid) : Z := x c.
Definition right (c : Cuboid) : Z := x c + width c.
Definition outeye (c : Cuboid) : Z := z c.
Definition ineye (c : Cuboid) : Z := z c + depth c.

(** [__eq__]: structural over origin and size, ignoring [rid]. *)
Definition Cuboid_eq (a b : Cuboid) : bool :=
  (width a =? width b) && (height a =? height b) && (depth a =? depth b) &&
  (x a =? x b) && (y a =? y b) && (z a =? z b).

Definition volume (c : Cuboid) : Z := width c * height c * depth c.

Definition set_rid (c : Cuboid) (r : option Z) : Cuboid :=
  mkCuboid (x c) (y c) (z c) (width c) (height c) (depth c) r.

Definition contains (self cub : Cuboid) : bool :=
  (y cub >=? y self) &&
  (x cub >=? x self) &&
  (z cub >=? z self) &&
  (y cub + height cub <=? y self + height self) &&
  (x cub + width cub <=? x self + width self) &&
  (z cub + depth cub <=? z self + depth self).

Definition intersects (self cub : Cuboid) (edges : bool) : bool :=
  (* Not even touching *)
  if (bottom self >? top cub) || (top self <? bottom cub) ||
     (left self >? right cub) || (right self <? left cub) ||
     (outeye self >? ineye cub) || (ineye self <? outeye cub)
  then false
  (* Discard edge intersects *)
  else if negb edges &&
     ((bottom self =? top cub) || (top self =? bottom cub) ||
      (left self =? right cub) || (right self =? left cub) ||
      (outeye self =? ineye cub) || (ineye self =? outeye cub))
  then false
  (* Discard corner intersects *)
  else if
     (left self =? right cub) && (bottom self =? top cub) &&
       (outeye self =? ineye cub) ||
     (left self =? right cub) && (bottom cub =? top self) &&
       (outeye self =? ineye cub) ||
     (left self =? right cub) && (bottom self =? top cub) &&
       (outeye cub =? ineye self) ||
     (left self =? right cub) && (bottom cub =? top self) &&
       (outeye cub =? ineye self) ||
     (left cub =? right self) && (bottom self =? top cub) &&
       (outeye self =? ineye cub) ||
     (left cub =? right self) && (bottom cub =? top self) &&
       (outeye self =? ineye cub) ||
     (left cub =? right self) && (bottom self =? top cub) &&
       (outeye cub =? ineye self) ||
     (left cub =? right self) && (bottom cub =? top self) &&
       (outeye cub =? ineye self)
  then false
  else true.

Definition intersection (self cub : Cuboid) (edges : bool) : option Cuboid :=
  if negb (intersects self cub edges) then None
  else
    let bottom_ := Z.max (bottom self) (bottom cub) in
    let left_ := Z.max (left self) (left cub) in
    let top_ := Z.min (top self) (top cub) in
    let right_ := Z.min (right self) (right cub) in
    let outeye_ := Z.max (outeye self) (outeye cub) in
    let ineye_ := Z.min (ineye self) (ineye cub) in
    Some (Cuboid_ left_ bottom_ outeye_
            (right_ - left_) (top_ - bottom_) (ineye_ - outeye_)).

(** [join] mutates [self]; the model returns the boolean together with
    [self] as it is afterwards.  The depth test of the first two
    branches compares [self.depth] with itself, as the source does. *)
Definition join (self other : Cuboid) : bool * Cuboid :=
  if contains self other then (true, self)
  else if contains other self then
    (true, mkCuboid (x other) (y other) (z other)
             (width other) (height other) (depth other) (rid self))
  else if negb (intersects self other true) then (false, self)
  (* Other cuboid is Up/Down from this *)
  else if (left self =? left other) && (width self =? width other) &&
          (outeye self =? outeye other) && (depth self =? depth self) then
    let y_min := Z.min (bottom self) (bottom other) in
    let y_max := Z.max (top self) (top other) in
    (true, mkCuboid (x self) y_min (z self)
             (width self) (y_max - y_min) (depth self) (rid self))
  (* Other cuboid is Right/Left from this *)
  else if (bottom self =? bottom other) && (height self =? height other) &&
          (outeye self =? outeye other) && (depth self =? depth self) then
    let x_min := Z.min (left self) (left other) in
    let x_max := Z.max (right self) (right other) in
    (true, mkCuboid x_min (y self) (z self)
             (x_max - x_min) (height self) (depth self) (rid self))
  (* Other cuboid is in front of / behind this *)
  else if (bottom self =? bottom other) && (height self =? height other) &&
          (left self =? left other) && (width self =? width other) then
    let z_min := Z.min (outeye self) (outeye other) in
    let z_max := Z.max (ineye self) (ineye other) in
    (true, mkCuboid (x self) (y self) z_min
             (width self) (height self) (z_max - z_min) (rid self))
  else (false, self).

(** The eight corners, and [__iter__], which yields them in this order. *)
Definition corner_top_l (c : Cuboid) : Point.Point :=
  Point.mkPoint (left c) (top c) (outeye c).
Definition corner_top_r (c : Cuboid) : Point.Point :=
  Point.mkPoint (right c) (top c) (outeye c).
Definition corner_bot_r (c : Cuboid) : Point.Point :=
  Point.mkPoint (right c) (bottom c) (outeye c).
Definition corner_bot_l (c : Cuboid) : Point.Point :=
  Point.mkPoint (left c) (bottom c) (outeye c).
Definition corner_top_l_out (c : Cuboid) : Point.Point :=
  Point.mkPoint (left c) (top c) (ineye c).
Definition corner_top_r_out (c : Cuboid) : Point.Point :=
  Point.mkPoint (right c) (top c) (ineye c).
Definition corner_bot_r_out (c : Cuboid) : Point.Point :=
  Point.mkPoint (right c) (bottom c) (ineye c).
Definition corner_bot_l_out (c : Cuboid) : Point.Point :=
  Point.mkPoint (left c) (bottom c) (ineye c).

Definition Cuboid_iter (c : Cuboid) : list Point.Point :=
  [corner_top_l c; corner_top_r c; corner_bot_r c; corner_bot_l c;
   corner_top_l_out c; corner_top_r_out c; corner_bot_r_out c;
   corner_bot_l_out c].

(** [__lt__]: by volume. *)
Definition Cuboid_lt (self other : Cuboid) : bool :=
  volume self <? volume other.

(** The tuple [__hash__] hashes. *)
Definition hash_key (c : Cuboid) : Z * Z * Z * Z * Z * Z :=
  (x c, y c, z c, width c, height c, depth c).

(** [move] mutates the origin in place; the model returns the cuboid as
    it is afterwards. *)
Definition move (c : Cuboid) (x_ y_ z_ : Z) : Cuboid :=
  mkCuboid x_ y_ z_ (width c) (height c) (depth c) (rid c).

End geometry.

(** ** pack_algo.py *)

Module pack_algo.
Import geometry.

(** The concrete classes.  A Guillotine class combines one section
    selection criterion with one split rule; the MaxCubs classes differ
    in how a position is selected. *)
Inductive selection : Set := Bvf | Blsf | Bssf.
Inductive split_rule : Set := Sas | Las | Slas | Llas | Maxas | Minas.
Inductive maxcubs_class : Set :=
| MaxCubsBase | MaxCubsBl | MaxCubsBssf | MaxCubsBaf | MaxCubsBlsf.

Inductive algo : Set :=
| Guillotine (f : selection) (s : split_rule)
| MaxCubs (v : maxcubs_class).

(** A single-bin packer instance.  [_merge] and [_sections] are the
    attributes of the Guillotine classes, [_max_cubs] that of the
    MaxCubs classes. *)
Record PackingAlgorithm : Set := mkPackingAlgorithm {
  cls : algo;
  width : Z; height : Z; depth : Z;
  rot : bool;
  cuboids : list Cuboid;
  _surface : Cuboid;
  _merge : bool;
  _sections : list Cuboid;
  _max_cubs : list Cuboid
}.

Definition set_cuboids (self : PackingAlgorithm) (l : list Cuboid) :=
  mkPackingAlgorithm (cls self) (width self) (height self) (depth self)
    (rot self) l (_surface self) (_merge self) (_sections self)
    (_max_cubs self).

Definition set_sections (self : PackingAlgorithm) (l : list Cuboid) :=
  mkPackingAlgorithm (cls self) (width self) (height self) (depth self)
    (rot self) (cuboids self) (_surface self) (_merge self) l
    (_max_cubs self).

Definition set_max_cubs (self : PackingAlgorithm) (l : list Cuboid) :=
  mkPackingAlgorithm (cls self) (width self) (height self) (depth self)
    (rot self) (cuboids self) (_surface self) (_merge self)
    (_sections self) l.

(** [assert(width > 0 and height > 0 and depth > 0)] *)
Definition positive_dims (w h d : Z) : bool :=
  (w >? 0) && (h >? 0) && (d >? 0).

(** [if self.rot and w > self.width or h > self.height: w, h = h, w]:
    Python reads the condition as [(rot and w > W) or (h > H)]. *)
Definition _fits_volume (self : PackingAlgorithm) (width_ height_ depth_ : Z)
  : outcome bool :=
  if negb (positive_dims width_ height_ depth_) then Raise AssertionError
  else
    let '(w, h) :=
      if rot self && (width_ >? width self) || (height_ >? height self)
      then (height_, width_) else (width_, height_) in
    let d := depth_ in
    if (w >? width self) || (h >? height self) || (d >? depth self)
    then Ret false
    else Ret true.

(** [__len__], [__iter__] and [__getitem__] *)
Definition len (self : PackingAlgorithm) : nat := List.length (cuboids self).

Definition iter (self : PackingAlgorithm) : list Cuboid := cuboids self.

Definition PackingAlgorithm_getitem (self : PackingAlgorithm) (key : Z)
  : outcome Cuboid :=
  getitem (cuboids self) key.

Definition used_volume (self : PackingAlgorithm) : Z :=
  fold_right (fun c acc => volume c + acc) 0 (cuboids self).

Definition cubs_list (self : PackingAlgorithm)
  : list (Z * Z * Z * Z * Z * Z * option Z) :=
  map (fun c => (x c, y c, z c, geometry.width c, geometry.height c,
                 geometry.depth c, rid c)) (cuboids self).

(** [range(a, b)] *)
Definition range (a b : nat) : list nat := seq a (b - a).

(** [cuboids[i]]; the indices used below are always in range. *)
Definition item (l : list Cuboid) (i : nat) : Cuboid :=
  nth i l (Cuboid_ 0 0 0 0 0 0).

(** The volume tested against is built with [self.width] as its depth,
    and the pair loops run over [range(0, len-2)] and
    [range(c1+1, len-1)], as in the source. *)
Definition validate_packing (self : PackingAlgorithm) : outcome unit :=
  let volume := Cuboid_ 0 0 0 (width self) (height self) (width self) in
  if existsb (fun c => negb (contains volume c)) (cuboids self)
  then Raise (Exception "Cuboid placed outside volume.")
  else
    let cuboids_ := cuboids self in
    let n := List.length cuboids_ in
    if (n <=? 1)%nat then Ret tt
    else if existsb (fun c1 =>
                existsb (fun c2 =>
                   intersects (item cuboids_ c1) (item cuboids_ c2) false)
                  (range (c1 + 1) (n - 1)))
              (range 0 (n - 2))
    then Raise (Exception "Cuboid collision detected")
    else Ret tt.

Definition is_empty (self : PackingAlgorithm) : bool :=
  match cuboids self with [] => true | _ => false end.

(** The base-class [reset]. *)
Definition reset (self : PackingAlgorithm) : PackingAlgorithm :=
  set_cuboids self [].

End pack_algo.

(** ** guillotine.py *)

Module guillotine.
Import geometry.
Import pack_algo.

(** One pass of
    [[s for s in self._sections if not section.join(s)]]:
    [section] is extended in place while the list is traversed. *)
Fixpoint join_pass (section : Cuboid) (secs : list Cuboid)
  : Cuboid * list Cuboid :=
  match secs with
  | [] => (section, [])
  | s :: rest =>
      let '(joined, section1) := join section s in
      let '(section2, kept) := join_pass section1 rest in
      (section2, if joined then kept else s :: kept)
  end.

(** The [while] loop of [_add_section].  Every pass but the first runs
    only after the list has become shorter, so the [length secs + 2]
    units of fuel that [_add_section] gives are never used up: more
    fuel yields the same result ([merge_loop_fuel]). *)
Fixpoint merge_loop (fuel : nat) (merge : bool) (plen : nat)
    (section : Cuboid) (secs : list Cuboid) : Cuboid * list Cuboid :=
  match fuel with
  | O => (section, secs)
  | S fuel' =>
      if merge && negb (Nat.eqb (List.length secs) 0)
         && negb (Nat.eqb plen (List.length secs))
      then
        let plen1 := List.length secs in
        let '(section1, secs1) := join_pass section secs in
        merge_loop fuel' merge plen1 section1 secs1
      else (section, secs)
  end.

Definition _add_section (self : PackingAlgorithm) (section : Cuboid)
  : PackingAlgorithm :=
  let section0 := set_rid section (Some 0) in
  let secs := _sections self in
  let '(section1, secs1) :=
    merge_loop (List.length secs + 2) (_merge self) 0 section0 secs in
  set_sections self (secs1 ++ [section1]).

Definition _split_horizontal (self : PackingAlgorithm) (section : Cuboid)
    (width_ height_ depth_ : Z) : PackingAlgorithm :=
  let self1 :=
    if height_ <? geometry.height section then
      _add_section self (Cuboid_
        (x section) (y section + height_) (z section)
        (geometry.width section) (geometry.height section - height_)
        (geometry.depth section))
    else self in
  let self2 :=
    if width_ <? geometry.width section then
      _add_section self1 (Cuboid_
        (x section + width_) (y section) (z section)
        (geometry.width section - width_) height_
        (geometry.depth section))
    else self1 in
  if depth_ <? geometry.depth section then
    _add_section self2 (Cuboid_
      (x section) (y section) (z section + depth_)
      width_ height_ (geometry.depth section - depth_))
  else self2.

Definition _split_vertical (self : PackingAlgorithm) (section : Cuboid)
    (width_ height_ depth_ : Z) : PackingAlgorithm :=
  let self1 :=
    if height_ <? geometry.height section then
      _add_section self (Cuboid_
        (x section) (y section + height_) (z section)
        width_ (geometry.height section - height_)
        (geometry.depth section))
    else self in
  let self2 :=
    if width_ <? geometry.width section then
      _add_section self1 (Cuboid_
        (x section + width_) (y section) (z section)
        (geometry.width section - width_) (geometry.height section)
        (geometry.depth section))
    else self1 in
  if depth_ <? geometry.depth section then
    _add_section self2 (Cuboid_
      (x section) (y section) (z section + depth_)
      width_ height_ (geometry.depth section - depth_))
  else self2.

(** [_split] of the six split-rule classes.  [GuillotineMaxas] calls
    [_split_horizontal] and [_split_vertical] without the [depth]
    argument, which raises [TypeError] at the call. *)
Definition _split (rule : split_rule) (self : PackingAlgorithm)
    (section : Cuboid) (width_ height_ depth_ : Z)
  : PackingAlgorithm * outcome unit :=
  let sw := geometry.width section in
  let sh := geometry.height section in
  let sd := geometry.depth section in
  let horizontal :=
    (_split_horizontal self section width_ height_ depth_, Ret tt) in
  let vertical :=
    (_split_vertical self section width_ height_ depth_, Ret tt) in
  match rule with
  | Sas => if sw <? sh then horizontal else vertical
  | Las => if sw >=? sh then horizontal else vertical
  | Slas => if sw - width_ <? sh - height_ then horizontal else vertical
  | Llas => if sw - width_ >=? sh - height_ then horizontal else vertical
  | Maxas =>
      if width_ * ((sh - height_) + (sd - depth_)) <=?
         height_ * ((sw - width_) + (sd - depth_))
      then (self, Raise TypeError)
      else (self, Raise TypeError)
  | Minas =>
      if width_ * ((sh - height_) + (sd - depth_)) >=?
         height_ * ((sw - width_) + (sd - depth_))
      then horizontal else vertical
  end.

(** [_section_fitness] of the three selection classes. *)
Definition _section_fitness (f : selection) (section : Cuboid)
    (width_ height_ depth_ : Z) : option Z :=
  if (width_ >? geometry.width section) ||
     (height_ >? geometry.height section) ||
     (depth_ >? geometry.depth section)
  then None
  else
    match f with
    | Bvf => Some (volume section - width_ * height_ * depth_)
    | Blsf => Some (max3 (geometry.width section - width_)
                         (geometry.height section - height_)
                         (geometry.depth section - depth_))
    | Bssf => Some (min3 (geometry.width section - width_)
                         (geometry.height section - height_)
                         (geometry.depth section - depth_))
    end.

(** The candidates of one orientation: a generator over the sections
    whose fitness is not [None]. *)
Definition candidates (f : selection) (secs : list Cuboid)
    (w h d : Z) (rotated : bool) : list (Z * (Cuboid * bool)) :=
  flat_map (fun s =>
    match _section_fitness f s w h d with
    | Some v => [(v, (s, rotated))]
    | None => []
    end) secs.

(** Returns [None] where the source returns [(None, None)]. *)
Definition _select_fittest_section (f : selection) (self : PackingAlgorithm)
    (w h d : Z) : option (Cuboid * bool) :=
  let fitn := candidates f (_sections self) w h d false in
  let fitr := candidates f (_sections self) h w d true in
  let fitr := if negb (rot self) then [] else fitr in
  let fit := fitn ++ fitr in
  match min_by_key fit with
  | Some (_, (sec, rotated)) => Some (sec, rotated)
  | None => None
  end.

(** [list.remove]: drops the first element equal to [section];
    [None] stands for the [ValueError] of a missing element. *)
Fixpoint remove (section : Cuboid) (l : list Cuboid) : option (list Cuboid) :=
  match l with
  | [] => None
  | s :: rest =>
      if Cuboid_eq s section then Some rest
      else match remove section rest with
           | Some rest' => Some (s :: rest')
           | None => None
           end
  end.

Definition add_cub (f : selection) (rule : split_rule)
    (self : PackingAlgorithm) (width_ height_ depth_ : Z) (rid_ : option Z)
  : PackingAlgorithm * outcome (option Cuboid) :=
  if negb (positive_dims width_ height_ depth_)
  then (self, Raise AssertionError)
  else
    (* Obtain the best section to place the cuboid. *)
    match _select_fittest_section f self width_ height_ depth_ with
    | None => (self, Ret None)
    | Some (section, rotated) =>
        let '(width1, height1) :=
          if rotated then (height_, width_) else (width_, height_) in
        (* Remove section, split and store results *)
        match remove section (_sections self) with
        | None => (self, Raise ValueError)
        | Some secs =>
            let self1 := set_sections self secs in
            match _split rule self1 section width1 height1 depth_ with
            | (self2, Ret _) =>
                (* Store Cuboid in the selected position *)
                let cub := mkCuboid (x section) (y section) (z section)
                             width1 height1 depth_ rid_ in
                (set_cuboids self2 (cuboids self2 ++ [cub]), Ret (Some cub))
            | (self2, o) => (self2, abort o)
            end
        end
    end.

(** The assertion of [fitness] is a non-empty tuple and never fails. *)
Definition fitness (f : selection) (self : PackingAlgorithm)
    (width_ height_ depth_ : Z) : outcome (option Z) :=
  match _select_fittest_section f self width_ height_ depth_ with
  | None => Ret None
  | Some (section, rotated) =>
      if rotated
      then Ret (_section_fitness f section height_ width_ depth_)
      else Ret (_section_fitness f section width_ height_ depth_)
  end.

Definition reset (self : PackingAlgorithm) : PackingAlgorithm :=
  let self1 := pack_algo.reset self in
  let self2 := set_sections self1 [] in
  _add_section self2
    (Cuboid_ 0 0 0 (width self) (height self) (depth self)).

End guillotine.

(** ** maxcubs.py *)

Module maxcubs.
Import geometry.
Import pack_algo.

(** [MaxCubs._cub_fitness], the only fitness [_select_position] calls;
    no subclass overrides it. *)
Definition _cub_fitness (max_cub : Cuboid) (width_ height_ depth_ : Z)
  : option Z :=
  if (width_ <=? geometry.width max_cub) &&
     (height_ <=? geometry.height max_cub) &&
     (depth_ <=? geometry.depth max_cub)
  then Some 0
  else None.

(** [_rect_fitness] of [MaxCubsBssf], [MaxCubsBaf] and [MaxCubsBlsf]:
    defined by these classes and called from nowhere. *)
Definition _rect_fitness (v : maxcubs_class) (max_cub : Cuboid)
    (width_ height_ depth_ : Z) : option Z :=
  if (width_ >? geometry.width max_cub) ||
     (height_ >? geometry.height max_cub) ||
     (depth_ >? geometry.depth max_cub)
  then None
  else
    match v with
    | MaxCubsBssf => Some (min3 (geometry.width max_cub - width_)
                                (geometry.height max_cub - height_)
                                (geometry.depth max_cub - depth_))
    | MaxCubsBaf => Some (geometry.width max_cub * geometry.height max_cub *
                          geometry.depth max_cub - width_ * height_ * depth_)
    | MaxCubsBlsf => Some (max3 (geometry.width max_cub - width_)
                                (geometry.height max_cub - height_)
                                (geometry.depth max_cub - depth_))
    | _ => None
    end.

(** A candidate carries the oriented dimensions and the maximal cuboid. *)
Definition candidate : Set := (Z * Z * Z * Cuboid)%type.

(** [MaxCubs._select_position]: key [_cub_fitness]. *)
Definition candidates (max_cubs : list Cuboid) (w h d : Z)
  : list (Z * candidate) :=
  flat_map (fun m =>
    match _cub_fitness m w h d with
    | Some v => [(v, (w, h, d, m))]
    | None => []
    end) max_cubs.

(** [MaxCubsBl._select_position]: key [m.y + h], the first item of the
    tuple; [h] is the height of the orientation tried. *)
Definition candidates_bl (max_cubs : list Cuboid) (w h d : Z)
  : list (Z * candidate) :=
  flat_map (fun m =>
    match _cub_fitness m w h d with
    | Some _ => [(y m + h, (w, h, d, m))]
    | None => []
    end) max_cubs.

(** Returns [None] where the source returns [(None, None)]. *)
Definition _select_position (v : maxcubs_class) (self : PackingAlgorithm)
    (w h d : Z) : option (Cuboid * Cuboid) :=
  let cands := match v with
               | MaxCubsBl => candidates_bl
               | _ => candidates
               end in
  let fitn := cands (_max_cubs self) w h d in
  let fitr := cands (_max_cubs self) h w d in
  let fitr := if negb (rot self) then [] else fitr in
  let fit := fitn ++ fitr in
  match min_by_key fit with
  | Some (_, (w1, h1, d1, m)) =>
      Some (Cuboid_ (x m) (y m) (z m) w1 h1 d1, m)
  | None => None
  end.

Definition _generate_splits (m c : Cuboid) : list Cuboid :=
  (if left c >? left m then
     [Cuboid_ (left m) (bottom m) (outeye m)
        (left c - left m) (geometry.height m) (geometry.depth m)]
   else []) ++
  (if right c <? right m then
     [Cuboid_ (right c) (bottom m) (outeye m)
        (right m - right c) (geometry.height m) (geometry.depth m)]
   else []) ++
  (if top c <? top m then
     [Cuboid_ (left m) (top c) (outeye m)
        (geometry.width m) (top m - top c) (geometry.depth m)]
   else []) ++
  (if bottom c >? bottom m then
     [Cuboid_ (left m) (bottom m) (outeye m)
        (geometry.width m) (bottom c - bottom m) (geometry.depth m)]
   else []) ++
  (if ineye c <? ineye m then
     [Cuboid_ (left c) (bottom c) (ineye c)
        (geometry.width c) (geometry.height c) (ineye m - ineye c)]
   else []).

Definition _split (self : PackingAlgorithm) (cub : Cuboid)
  : PackingAlgorithm :=
  set_max_cubs self
    (flat_map (fun c =>
       if intersects c cub false then _generate_splits c cub else [c])
     (_max_cubs self)).

(** [itertools.combinations(l, 2)] *)
Fixpoint combinations2 (l : list Cuboid) : list (Cuboid * Cuboid) :=
  match l with
  | [] => []
  | a :: rest => map (fun b => (a, b)) rest ++ combinations2 rest
  end.

(** Membership in the set [contained]: by [__hash__] and [__eq__],
    that is by origin and size. *)
Definition member (m : Cuboid) (contained : list Cuboid) : bool :=
  existsb (fun c => Cuboid_eq m c) contained.

Definition _remove_duplicates (self : PackingAlgorithm) : PackingAlgorithm :=
  let contained :=
    fold_left (fun acc p =>
      let '(m1, m2) := p in
      if contains m1 m2 then m2 :: acc
      else if contains m2 m1 then m1 :: acc
      else acc) (combinations2 (_max_cubs self)) [] in
  set_max_cubs self
    (filter (fun m => negb (member m contained)) (_max_cubs self)).

Definition fitness (v : maxcubs_class) (self : PackingAlgorithm)
    (width_ height_ depth_ : Z) : outcome (option Z) :=
  if negb (positive_dims width_ height_ depth_) then Raise AssertionError
  else
    match _select_position v self width_ height_ depth_ with
    | None => Ret None
    | Some (cub, max_cub) =>
        Ret (_cub_fitness max_cub (geometry.width cub) (geometry.height cub)
               (geometry.depth cub))
    end.

Definition add_cub (v : maxcubs_class) (self : PackingAlgorithm)
    (width_ height_ depth_ : Z) (rid_ : option Z)
  : PackingAlgorithm * outcome (option Cuboid) :=
  if negb (positive_dims width_ height_ depth_)
  then (self, Raise AssertionError)
  else
    (* Search best position and orientation *)
    match _select_position v self width_ height_ depth_ with
    | None => (self, Ret None)
    | Some (cub, _) =>
        (* Subdivide all the max cuboids intersecting with the selected
           cuboid. *)
        let self1 := _split self cub in
        (* Remove any max_cub contained by another *)
        let self2 := _remove_duplicates self1 in
        (* Store and return cuboid position. *)
        let cub1 := set_rid cub rid_ in
        (set_cuboids self2 (cuboids self2 ++ [cub1]), Ret (Some cub1))
    end.

Definition reset (self : PackingAlgorithm) : PackingAlgorithm :=
  let self1 := pack_algo.reset self in
  set_max_cubs self1
    [Cuboid_ 0 0 0 (width self) (height self) (depth self)].

End maxcubs.

(** ** Method dispatch on the class of a bin *)

Module bin.
Import geometry.
Import pack_algo.

Definition reset (self : PackingAlgorithm) : PackingAlgorithm :=
  match cls self with
  | Guillotine _ _ => guillotine.reset self
  | MaxCubs _ => maxcubs.reset self
  end.

(** [__init__]: the construction of [_surface] asserts that the
    dimensions are not negative; then the attributes are set and the
    class's [reset] runs. *)
Definition init (c : algo) (width_ height_ depth_ : Z) (rot_ merge_ : bool)
  : outcome PackingAlgorithm :=
  if negb (Cuboid_assert width_ height_ depth_) then Raise AssertionError
  else
    Ret (reset (mkPackingAlgorithm c width_ height_ depth_ rot_ []
                  (Cuboid_ 0 0 0 width_ height_ depth_) merge_ [] [])).

Definition add_cub (self : PackingAlgorithm)
    (width_ height_ depth_ : Z) (rid_ : option Z)
  : PackingAlgorithm * outcome (option Cuboid) :=
  match cls self with
  | Guillotine f s => guillotine.add_cub f s self width_ height_ depth_ rid_
  | MaxCubs v => maxcubs.add_cub v self width_ height_ depth_ rid_
  end.

Definition fitness (self : PackingAlgorithm) (width_ height_ depth_ : Z)
  : outcome (option Z) :=
  match cls self with
  | Guillotine f _ => guillotine.fitness f self width_ height_ depth_
  | MaxCubs v => maxcubs.fitness v self width_ height_ depth_
  end.

(** The exported class names used below. *)
Definition GuillotineBssfSas : algo := Guillotine Bssf Sas.
Definition MaxCubsBssf_ : algo := MaxCubs MaxCubsBssf.

End bin.

(** ** packer.py: BinFactory *)

Module bin_factory.
Import geometry.
Import pack_algo.

(** [_rot] and [_merge] are the entries of [_algo_kwargs]: [add_bin]
    always sets [rot]; [merge] is present when the caller passed it. *)
Record BinFactory : Set := mkBinFactory {
  _width : Z; _height : Z; _depth : Z;
  _count : Z;
  _pack_algo : algo;
  _rot : bool;
  _merge : option bool;
  _ref_bin : option PackingAlgorithm
}.

Definition set_count (self : BinFactory) (n : Z) : BinFactory :=
  mkBinFactory (_width self) (_height self) (_depth self) n
    (_pack_algo self) (_rot self) (_merge self) (_ref_bin self).

Definition set_ref_bin (self : BinFactory) (b : option PackingAlgorithm)
  : BinFactory :=
  mkBinFactory (_width self) (_height self) (_depth self) (_count self)
    (_pack_algo self) (_rot self) (_merge self) b.

Definition _create_bin (self : BinFactory) : outcome PackingAlgorithm :=
  bin.init (_pack_algo self) (_width self) (_height self) (_depth self)
    (_rot self) (match _merge self with Some m => m | None => true end).

Definition is_empty (self : BinFactory) : bool := _count self <? 1.

(** Truth value of [self._ref_bin]: [None] is false, and a bin is as true
    as its [__len__], the number of cuboids placed in it. *)
Definition truthy (o : option PackingAlgorithm) : bool :=
  match o with
  | Some b => negb (Nat.eqb (List.length (cuboids b)) 0)
  | None => false
  end.

(** [if not self._ref_bin: self._ref_bin = self._create_bin()],
    followed by the read of [self._ref_bin]. *)
Definition ref_bin (self : BinFactory) : BinFactory * outcome PackingAlgorithm :=
  if negb (truthy (_ref_bin self)) then
    match _create_bin self with
    | Ret b => (set_ref_bin self (Some b), Ret b)
    | o => (self, abort o)
    end
  else
    match _ref_bin self with
    | Some b => (self, Ret b)
    | None => (self, Unreached)
    end.

Definition fitness (self : BinFactory) (width_ height_ depth_ : Z)
  : BinFactory * outcome (option Z) :=
  match ref_bin self with
  | (self1, Ret b) => (self1, bin.fitness b width_ height_ depth_)
  | (self1, o) => (self1, abort o)
  end.

Definition fits_inside (self : BinFactory) (width_ height_ depth_ : Z)
  : BinFactory * outcome bool :=
  match ref_bin self with
  | (self1, Ret b) => (self1, _fits_volume b width_ height_ depth_)
  | (self1, o) => (self1, abort o)
  end.

Definition new_bin (self : BinFactory)
  : BinFactory * outcome (option PackingAlgorithm) :=
  if _count self >? 0 then
    let self1 := set_count self (_count self - 1) in
    match _create_bin self1 with
    | Ret b => (self1, Ret (Some b))
    | o => (self1, abort o)
    end
  else (self, Ret None).

(** [__eq__] and [__lt__]: factories compare by the volume of their
    bins. *)
Definition BinFactory_eq (self other : BinFactory) : bool :=
  _width self * _height self * _depth self =?
  _width other * _height other * _depth other.

Definition BinFactory_lt (self other : BinFactory) : bool :=
  _width self * _height self * _depth self <?
  _width other * _height other * _depth other.

End bin_factory.

(** ** packer.py: the multi-bin packers *)

Module packer.
Import geometry.
Import pack_algo.
Import bin_factory.

(** The bin-selection heuristic is the mixin a packer class inherits
    its dispatching [add_cub] from. *)
Inductive bin_algo : Set := BNF | BFF | BBF | Global.

(** The state of [PackerOnline].  [_empty_bins] is an [OrderedDict]
    keyed by the values drawn from the counter [_bin_count]. *)
Record PackerOnline : Set := mkPackerOnline {
  _rotation : bool;
  _pack_algo : algo;
  _closed_bins : list PackingAlgorithm;
  _open_bins : list PackingAlgorithm;
  _empty_bins : list (nat * BinFactory);
  _bin_count : nat
}.

Definition set_closed_bins (self : PackerOnline) (l : list PackingAlgorithm) :=
  mkPackerOnline (_rotation self) (_pack_algo self) l (_open_bins self)
    (_empty_bins self) (_bin_count self).

Definition set_open_bins (self : PackerOnline) (l : list PackingAlgorithm) :=
  mkPackerOnline (_rotation self) (_pack_algo self) (_closed_bins self) l
    (_empty_bins self) (_bin_count self).

Definition set_empty_bins (self : PackerOnline) (l : list (nat * BinFactory)) :=
  mkPackerOnline (_rotation self) (_pack_algo self) (_closed_bins self)
    (_open_bins self) l (_bin_count self).

(** [__iter__]: closed bins, then open bins. *)
Definition bins (self : PackerOnline) : list PackingAlgorithm :=
  _closed_bins self ++ _open_bins self.

(** [__len__] *)
Definition PackerOnline_len (self : PackerOnline) : nat :=
  (List.length (_closed_bins self) + List.length (_open_bins self))%nat.

(** The argument of [__getitem__]: an int, or anything else. *)
Inductive index : Set :=
| IntKey (key : Z)
| OtherKey.

(** [__getitem__]: the bin in position [key], empty bins excluded. *)
Definition PackerOnline_getitem (self : PackerOnline) (key : index)
  : outcome PackingAlgorithm :=
  match key with
  | OtherKey => Raise TypeError
  | IntKey key0 =>
      let size := Z.of_nat (PackerOnline_len self) in
      let key1 := if key0 <? 0 then key0 + size else key0 in
      if negb ((0 <=? key1) && (key1 <? size)) then Raise IndexError
      else if key1 <? Z.of_nat (List.length (_closed_bins self))
      then getitem (_closed_bins self) key1
      else getitem (_open_bins self)
             (key1 - Z.of_nat (List.length (_closed_bins self)))
  end.

(** The [for] loop of [PackerOnline._new_open_bin] over the factories:
    the factories as the loop leaves them, the keys marked for deletion,
    and [new_bin]. *)
Fixpoint scan_factories (facs : list (nat * BinFactory)) (w h d : Z)
  : list (nat * BinFactory) * list nat * outcome (option PackingAlgorithm) :=
  match facs with
  | [] => ([], [], Ret None)
  | (key, binfac) :: rest =>
      match fits_inside binfac w h d with
      | (binfac1, Ret false) =>
          let '(rest1, del, res) := scan_factories rest w h d in
          ((key, binfac1) :: rest1, del, res)
      | (binfac1, Ret true) =>
          match new_bin binfac1 with
          | (binfac2, Ret None) =>
              let '(rest1, del, res) := scan_factories rest w h d in
              ((key, binfac2) :: rest1, del, res)
          | (binfac2, Ret (Some b)) =>
              ((key, binfac2) :: rest,
               if is_empty binfac2 then [key] else [],
               Ret (Some b))
          | (binfac2, o) => ((key, binfac2) :: rest, [], abort o)
          end
      | (binfac1, o) => ((key, binfac1) :: rest, [], abort o)
      end
  end.

(** [del self._empty_bins[f]] for every marked key. *)
Definition delete_keys (del : list nat) (facs : list (nat * BinFactory))
  : list (nat * BinFactory) :=
  filter (fun kf => negb (existsb (Nat.eqb (fst kf)) del)) facs.

Definition _new_open_bin (self : PackerOnline) (w h d : Z)
  : PackerOnline * outcome (option PackingAlgorithm) :=
  match scan_factories (_empty_bins self) w h d with
  | (facs, del, Ret None) =>
      (set_empty_bins self (delete_keys del facs), Ret None)
  | (facs, del, Ret (Some b)) =>
      (set_empty_bins (set_open_bins self (_open_bins self ++ [b]))
         (delete_keys del facs),
       Ret (Some b))
  | (facs, _, o) => (set_empty_bins self facs, o)
  end.

(** [self._new_open_bin(width, height, depth, rid=rid)] as a mixin calls
    it: [PackerGlobal] overrides the method with one that takes a single
    argument, so there the call raises [TypeError]. *)
Definition call_new_open_bin (k : bin_algo) (self : PackerOnline) (w h d : Z)
  : PackerOnline * outcome (option PackingAlgorithm) :=
  match k with
  | Global => (self, Raise TypeError)
  | _ => _new_open_bin self w h d
  end.

Definition add_bin (self : PackerOnline) (width_ height_ depth_ count : Z)
    (merge_ : option bool) : PackerOnline :=
  let bin_factory_ :=
    mkBinFactory width_ height_ depth_ count (_pack_algo self)
      (_rotation self) merge_ None in
  mkPackerOnline (_rotation self) (_pack_algo self) (_closed_bins self)
    (_open_bins self) (_empty_bins self ++ [(_bin_count self, bin_factory_)])
    (S (_bin_count self)).

Definition cub_list (self : PackerOnline)
  : list (nat * Z * Z * Z * Z * Z * Z * option Z) :=
  flat_map (fun nb : nat * PackingAlgorithm =>
    let '(bin_count, abin) := nb in
    map (fun cub => (bin_count, x cub, y cub, z cub, geometry.width cub,
                     geometry.height cub, geometry.depth cub, rid cub))
      (cuboids abin))
    (combine (seq 0 (List.length (bins self))) (bins self)).

Definition bin_list (self : PackerOnline) : list (Z * Z * Z) :=
  map (fun b => (width b, height b, depth b)) (bins self).

(** The first exception of the per-bin checks propagates. *)
Definition validate_packing (self : PackerOnline) : outcome unit :=
  fold_right (fun b acc =>
    match pack_algo.validate_packing b with
    | Ret _ => acc
    | o => o
    end) (Ret tt) (bins self).

Definition reset (self : PackerOnline) : PackerOnline :=
  mkPackerOnline (_rotation self) (_pack_algo self) [] [] [] 0.

(** [__init__] *)
Definition PackerOnline_init (pack_algo_ : algo) (rotation : bool)
  : PackerOnline :=
  reset (mkPackerOnline rotation pack_algo_ [] [] [] 0).

(** *** PackerBNFMixin.add_cub

    One unit of fuel per turn of the [while True] loop.  A turn that
    does not return closes an open bin, and a bin is opened only by
    taking it from a factory. *)
Fixpoint BNF_loop (fuel : nat) (k : bin_algo) (self : PackerOnline)
    (w h d : Z) (rid_ : option Z) : PackerOnline * outcome (pyval Cuboid) :=
  match fuel with
  | O => (self, Unreached)
  | S fuel' =>
      let rest_of_turn (self1 : PackerOnline) :=
        match _open_bins self1 with
        | [] => (self1, Raise IndexError)
        | b :: others =>
            match bin.add_cub b w h d rid_ with
            | (b1, Ret (Some cub)) =>
                (set_open_bins self1 (b1 :: others), Ret (PyCub cub))
            | (b1, Ret None) =>
                (* close this bin and try again *)
                BNF_loop fuel' k
                  (set_closed_bins (set_open_bins self1 others)
                     (_closed_bins self1 ++ [b1]))
                  w h d rid_
            | (b1, o) => (set_open_bins self1 (b1 :: others), abort o)
            end
        end in
      match _open_bins self with
      | [] =>
          match call_new_open_bin k self w h d with
          | (self1, Ret None) => (self1, Ret PyNone)
          | (self1, Ret (Some _)) => rest_of_turn self1
          | (self1, o) => (self1, abort o)
          end
      | _ => rest_of_turn self
      end
  end.

(** The bins the factories can still hand out. *)
Definition stock (facs : list (nat * BinFactory)) : nat :=
  fold_right (fun kf acc => (Z.to_nat (_count (snd kf)) + acc)%nat) O facs.

Definition BNF_add_cub (k : bin_algo) (self : PackerOnline)
    (w h d : Z) (rid_ : option Z) : PackerOnline * outcome (pyval Cuboid) :=
  BNF_loop (S (List.length (_open_bins self) + stock (_empty_bins self)))
    k self w h d rid_.

(** *** PackerBFFMixin.add_cub *)

(** [for b in self._open_bins: ...]: the bins as the loop leaves them
    and the cuboid of the first bin that took the item. *)
Fixpoint first_fit (open : list PackingAlgorithm) (w h d : Z)
    (rid_ : option Z) : list PackingAlgorithm * outcome (option Cuboid) :=
  match open with
  | [] => ([], Ret None)
  | b :: others =>
      match bin.add_cub b w h d rid_ with
      | (b1, Ret None) =>
          let '(others1, r) := first_fit others w h d rid_ in
          (b1 :: others1, r)
      | (b1, o) => (b1 :: others, o)
      end
  end.

(** [new_bin] is the object [_new_open_bin] has just appended to
    [_open_bins]: what [new_bin.add_cub] does to it shows in the last
    element of that list. *)
Definition set_last_open (self : PackerOnline) (b : PackingAlgorithm)
  : PackerOnline :=
  set_open_bins self (removelast (_open_bins self) ++ [b]).

Fixpoint BFF_loop (fuel : nat) (k : bin_algo) (self : PackerOnline)
    (w h d : Z) (rid_ : option Z) : PackerOnline * outcome (pyval Cuboid) :=
  match fuel with
  | O => (self, Unreached)
  | S fuel' =>
      match call_new_open_bin k self w h d with
      | (self1, Ret None) => (self1, Ret PyNone)
      | (self1, Ret (Some new_bin_)) =>
          match bin.add_cub new_bin_ w h d rid_ with
          | (b1, Ret (Some cub)) => (set_last_open self1 b1, Ret (PyCub cub))
          | (b1, Ret None) =>
              BFF_loop fuel' k (set_last_open self1 b1) w h d rid_
          | (b1, o) => (set_last_open self1 b1, abort o)
          end
      | (self1, o) => (self1, abort o)
      end
  end.

Definition BFF_add_cub (k : bin_algo) (self : PackerOnline)
    (w h d : Z) (rid_ : option Z) : PackerOnline * outcome (pyval Cuboid) :=
  match first_fit (_open_bins self) w h d rid_ with
  | (open, Ret (Some cub)) => (set_open_bins self open, Ret (PyCub cub))
  | (open, Ret None) =>
      let self1 := set_open_bins self open in
      BFF_loop (S (stock (_empty_bins self1))) k self1 w h d rid_
  | (open, o) => (set_open_bins self open, abort o)
  end.

(** *** PackerBBFMixin.add_cub *)

(** The generator [fit]: the fitness of every open bin that has one,
    paired with the position of the bin.  [min] consumes it in order, so
    the first exception of a [fitness] call propagates. *)
Fixpoint fit_open (open : list PackingAlgorithm) (i : nat) (w h d : Z)
  : outcome (list (Z * nat)) :=
  match open with
  | [] => Ret []
  | b :: others =>
      match bin.fitness b w h d with
      | Ret v =>
          match fit_open others (S i) w h d with
          | Ret l => Ret (match v with Some f => (f, i) :: l | None => l end)
          | o => o
          end
      | o => abort o
      end
  end.

(** Replaces the bin at position [i]. *)
Fixpoint update (l : list PackingAlgorithm) (i : nat) (b : PackingAlgorithm)
  : list PackingAlgorithm :=
  match l, i with
  | [], _ => []
  | _ :: l', O => b :: l'
  | a :: l', S i' => a :: update l' i' b
  end.

(** [if new_bin.add_cub(...): return True]: a placed cuboid is true,
    [None] is false. *)
Fixpoint BBF_loop (fuel : nat) (k : bin_algo) (self : PackerOnline)
    (w h d : Z) (rid_ : option Z) : PackerOnline * outcome (pyval Cuboid) :=
  match fuel with
  | O => (self, Unreached)
  | S fuel' =>
      match call_new_open_bin k self w h d with
      | (self1, Ret None) => (self1, Ret (PyBool false))
      | (self1, Ret (Some new_bin_)) =>
          match bin.add_cub new_bin_ w h d rid_ with
          | (b1, Ret (Some _)) => (set_last_open self1 b1, Ret (PyBool true))
          | (b1, Ret None) =>
              BBF_loop fuel' k (set_last_open self1 b1) w h d rid_
          | (b1, o) => (set_last_open self1 b1, abort o)
          end
      | (self1, o) => (self1, abort o)
      end
  end.

Definition BBF_add_cub (k : bin_algo) (self : PackerOnline)
    (w h d : Z) (rid_ : option Z) : PackerOnline * outcome (pyval Cuboid) :=
  match fit_open (_open_bins self) 0 w h d with
  | Ret fit =>
      match min_by_key fit with
      | Some (_, i) =>
          match nth_error (_open_bins self) i with
          | Some best_bin =>
              match bin.add_cub best_bin w h d rid_ with
              | (b1, Ret _) =>
                  (set_open_bins self (update (_open_bins self) i b1),
                   Ret (PyBool true))
              | (b1, Raise ValueError) =>
                  (* caught by the same handler *)
                  let self1 :=
                    set_open_bins self (update (_open_bins self) i b1) in
                  BBF_loop (S (stock (_empty_bins self1))) k self1 w h d rid_
              | (b1, o) =>
                  (set_open_bins self (update (_open_bins self) i b1), abort o)
              end
          | None => (self, Unreached)
          end
      | None =>
          (* ValueError of [min], caught: try the empty bins *)
          BBF_loop (S (stock (_empty_bins self))) k self w h d rid_
      end
  | o => (self, abort o)
  end.

(** The dispatching [add_cub] of a packer of heuristic [k];
    [PackerGlobal] inherits the one of [PackerBNFMixin]. *)
Definition add_cub (k : bin_algo) (self : PackerOnline)
    (w h d : Z) (rid_ : option Z) : PackerOnline * outcome (pyval Cuboid) :=
  match k with
  | BNF => BNF_add_cub k self w h d rid_
  | BFF => BFF_add_cub k self w h d rid_
  | BBF => BBF_add_cub k self w h d rid_
  | Global => BNF_add_cub k self w h d rid_
  end.

(** *** Sort keys

    [sorted(cublist, reverse=True, key=...)]: a stable sort, largest key
    first; items of equal key keep their order.  Tuple keys compare
    lexicographically. *)
Definition cub_item : Set := (Z * Z * Z * option Z)%type.

Fixpoint key_gtb (a b : list Z) : bool :=
  match a, b with
  | p :: a', q :: b' => (p >? q) || ((p =? q) && key_gtb a' b')
  | _ :: _, [] => true
  | [], _ => false
  end.

Fixpoint insert_desc (key : cub_item -> list Z) (c : cub_item)
    (l : list cub_item) : list cub_item :=
  match l with
  | [] => [c]
  | c' :: l' =>
      if key_gtb (key c') (key c) then c' :: insert_desc key c l'
      else c :: l
  end.

Definition sorted_desc (key : cub_item -> list Z) (l : list cub_item)
  : list cub_item :=
  fold_right (insert_desc key) [] l.

Definition dims (c : cub_item) : Z * Z * Z :=
  let '(w, h, d, _) := c in (w, h, d).

Definition SORT_VOLUME : list cub_item -> list cub_item :=
  sorted_desc (fun c => let '(c0, c1, c2) := dims c in [c0 * c1 * c2]).

Definition SORT_AREA : list cub_item -> list cub_item :=
  sorted_desc (fun c => let '(c0, c1, c2) := dims c in
    [2 * (c0 * c1) + 2 * (c0 * c2) + 2 * (c1 * c2)]).

Definition SORT_DIFF : list cub_item -> list cub_item :=
  sorted_desc (fun c => let '(c0, c1, c2) := dims c in
    [Z.abs (c0 - c1); Z.abs (c0 - c2); Z.abs (c1 - c2)]).

Definition SORT_SSIDE : list cub_item -> list cub_item :=
  sorted_desc (fun c => let '(c0, c1, c2) := dims c in
    [min3 c0 c1 c2; max3 c0 c1 c2]).

Definition SORT_LSIDE : list cub_item -> list cub_item :=
  sorted_desc (fun c => let '(c0, c1, c2) := dims c in
    [max3 c0 c1 c2; min3 c0 c1 c2]).

Definition SORT_NONE : list cub_item -> list cub_item := fun l => l.

(** *** Packer: the off-line packers *)

(** A queued bin template: width, height, depth, count, and the [merge]
    keyword when given. *)
Definition bin_item : Set := (Z * Z * Z * Z * option bool)%type.

(** [_sorted_cub] is a list in [Packer] and an [OrderedDict] keyed by
    position in [PackerGlobal]. *)
Inductive sorted_cub : Set :=
| CubList (l : list cub_item)
| CubDict (d : list (nat * cub_item)).

(** [base] is the inherited [PackerOnline] state and [heuristic] the
    mixin of the class. *)
Record Packer : Type := mkPacker {
  base : PackerOnline;
  heuristic : bin_algo;
  _sort_algo : list cub_item -> list cub_item;
  _avail_bins : list bin_item;
  _avail_cub : list cub_item;
  _sorted_cub : sorted_cub
}.

Definition set_base (self : Packer) (b : PackerOnline) : Packer :=
  mkPacker b (heuristic self) (_sort_algo self) (_avail_bins self)
    (_avail_cub self) (_sorted_cub self).

Definition set_sorted_cub (self : Packer) (s : sorted_cub) : Packer :=
  mkPacker (base self) (heuristic self) (_sort_algo self) (_avail_bins self)
    (_avail_cub self) s.

(** [__init__]; [PackerGlobal] fixes the sort key to [SORT_NONE]. *)
Definition Packer_init (k : bin_algo) (pack_algo_ : algo)
    (sort_algo : list cub_item -> list cub_item) (rotation : bool) : Packer :=
  mkPacker (PackerOnline_init pack_algo_ rotation) k
    (match k with Global => SORT_NONE | _ => sort_algo end)
    [] [] (CubList []).

Definition Packer_add_bin (self : Packer) (width_ height_ depth_ count : Z)
    (merge_ : option bool) : Packer :=
  mkPacker (base self) (heuristic self) (_sort_algo self)
    (_avail_bins self ++ [(width_, height_, depth_, count, merge_)])
    (_avail_cub self) (_sorted_cub self).

Definition Packer_add_cub (self : Packer) (width_ height_ depth_ : Z)
    (rid_ : option Z) : Packer :=
  mkPacker (base self) (heuristic self) (_sort_algo self) (_avail_bins self)
    (_avail_cub self ++ [(width_, height_, depth_, rid_)])
    (_sorted_cub self).

Definition _is_everything_ready (self : Packer) : bool :=
  negb (Nat.eqb (List.length (_avail_cub self)) 0) &&
  negb (Nat.eqb (List.length (_avail_bins self)) 0).

(** [for b in self._avail_bins: super().add_bin(...)] *)
Definition add_avail_bins (self : PackerOnline) (l : list bin_item)
  : PackerOnline :=
  fold_left (fun s b =>
    let '(width_, height_, depth_, count, merge_) := b in
    add_bin s width_ height_ depth_ count merge_) l self.

(** The packing loop: every sorted cuboid goes through the [add_cub]
    of the mixin, in order. *)
Fixpoint pack_sorted (k : bin_algo) (self : PackerOnline)
    (l : list cub_item) : PackerOnline * outcome unit :=
  match l with
  | [] => (self, Ret tt)
  | (w, h, d, rid_) :: rest =>
      match add_cub k self w h d rid_ with
      | (self1, Ret _) => pack_sorted k self1 rest
      | (self1, o) => (self1, abort o)
      end
  end.

Definition Packer_pack (self : Packer) : Packer * outcome unit :=
  let self0 := set_base self (reset (base self)) in
  if negb (_is_everything_ready self0) then (self0, Ret tt)
  else
    let base1 := add_avail_bins (base self0) (_avail_bins self0) in
    let sorted := _sort_algo self0 (_avail_cub self0) in
    let self1 := set_sorted_cub (set_base self0 base1) (CubList sorted) in
    let '(base2, r) := pack_sorted (heuristic self1) base1 sorted in
    (set_base self1 base2, r).

(** *** PackerGlobal *)

(** [_find_best_fit]: the key of the remaining cuboid of least fitness
    in [pbin]. *)
Fixpoint fit_remaining (pbin : PackingAlgorithm)
    (remaining : list (nat * cub_item)) : outcome (list (Z * nat)) :=
  match remaining with
  | [] => Ret []
  | (key, c) :: rest =>
      let '(c0, c1, c2) := dims c in
      match bin.fitness pbin c0 c1 c2 with
      | Ret v =>
          match fit_remaining pbin rest with
          | Ret l => Ret (match v with Some f => (f, key) :: l | None => l end)
          | o => o
          end
      | o => abort o
      end
  end.

Definition _find_best_fit (pbin : PackingAlgorithm)
    (remaining : list (nat * cub_item)) : outcome (option nat) :=
  match fit_remaining pbin remaining with
  | Ret fit =>
      match min_by_key fit with
      | Some (_, key) => Ret (Some key)
      | None => Ret None
      end
  | o => abort o
  end.

(** The inner [for] of [PackerGlobal._new_open_bin]: does one of the
    remaining cuboids fit the factory's bin? *)
Fixpoint a_cuboid_fits (binfac : BinFactory)
    (remaining : list (nat * cub_item)) : BinFactory * outcome bool :=
  match remaining with
  | [] => (binfac, Ret false)
  | (_, c) :: rest =>
      let '(c0, c1, c2) := dims c in
      match fits_inside binfac c0 c1 c2 with
      | (binfac1, Ret false) => a_cuboid_fits binfac1 rest
      | (binfac1, o) => (binfac1, o)
      end
  end.

Fixpoint scan_factories_global (facs : list (nat * BinFactory))
    (remaining : list (nat * cub_item))
  : list (nat * BinFactory) * list nat * outcome (option PackingAlgorithm) :=
  match facs with
  | [] => ([], [], Ret None)
  | (key, binfac) :: rest =>
      match a_cuboid_fits binfac remaining with
      | (binfac1, Ret false) =>
          let '(rest1, del, res) := scan_factories_global rest remaining in
          ((key, binfac1) :: rest1, key :: del, res)
      | (binfac1, Ret true) =>
          match new_bin binfac1 with
          | (binfac2, Ret None) =>
              let '(rest1, del, res) :=
                scan_factories_global rest remaining in
              ((key, binfac2) :: rest1, del, res)
          | (binfac2, Ret (Some b)) =>
              ((key, binfac2) :: rest,
               if is_empty binfac2 then [key] else [],
               Ret (Some b))
          | (binfac2, o) => ((key, binfac2) :: rest, [], abort o)
          end
      | (binfac1, o) => ((key, binfac1) :: rest, [], abort o)
      end
  end.

Definition Global_new_open_bin (self : PackerOnline)
    (remaining : list (nat * cub_item))
  : PackerOnline * outcome (option PackingAlgorithm) :=
  match scan_factories_global (_empty_bins self) remaining with
  | (facs, del, Ret None) =>
      (set_empty_bins self (delete_keys del facs), Ret None)
  | (facs, del, Ret (Some b)) =>
      (set_empty_bins (set_open_bins self (_open_bins self ++ [b]))
         (delete_keys del facs),
       Ret (Some b))
  | (facs, _, o) => (set_empty_bins self facs, o)
  end.

(** [self._sorted_cub[key]] and [del self._sorted_cub[key]] *)
Fixpoint lookup (key : nat) (d : list (nat * cub_item)) : option cub_item :=
  match d with
  | [] => None
  | (k, c) :: rest => if Nat.eqb k key then Some c else lookup key rest
  end.

Definition delete (key : nat) (d : list (nat * cub_item))
  : list (nat * cub_item) :=
  filter (fun kc => negb (Nat.eqb (fst kc) key)) d.

Fixpoint last_error (l : list PackingAlgorithm) : option PackingAlgorithm :=
  match l with
  | [] => None
  | [b] => Some b
  | _ :: l' => last_error l'
  end.

(** The inner [while True] of [PackerGlobal.pack].  [pbin] is the object
    [_new_open_bin] appended to [_open_bins]; nothing is appended while
    the loop runs and the mixin's [add_cub] takes bins from the left
    only, raising once the list is empty, so [pbin] is read as the last
    open bin.  Every turn that does not leave the loop deletes one
    remaining cuboid. *)
Fixpoint Global_fill (fuel : nat) (self : PackerOnline)
    (remaining : list (nat * cub_item))
  : PackerOnline * list (nat * cub_item) * outcome unit :=
  match fuel with
  | O => (self, remaining, Unreached)
  | S fuel' =>
      match last_error (_open_bins self) with
      | None => (self, remaining, Unreached)
      | Some pbin =>
          match _find_best_fit pbin remaining with
          | Ret None =>
              match _open_bins self with
              | [] => (self, remaining, Raise IndexError)
              | closed_bin :: others =>
                  (set_closed_bins (set_open_bins self others)
                     (_closed_bins self ++ [closed_bin]),
                   remaining, Ret tt)
              end
          | Ret (Some best_cub_key) =>
              match lookup best_cub_key remaining with
              | None => (self, remaining, Unreached)
              | Some (w, h, d, rid_) =>
                  let remaining1 := delete best_cub_key remaining in
                  match BNF_add_cub Global self w h d rid_ with
                  | (self1, Ret _) => Global_fill fuel' self1 remaining1
                  | (self1, o) => (self1, remaining1, abort o)
                  end
              end
          | o => (self, remaining, abort o)
          end
      end
  end.

(** The outer [while] of [PackerGlobal.pack]: every turn that does not
    leave the loop takes a bin from a factory. *)
Fixpoint Global_loop (fuel : nat) (self : PackerOnline)
    (remaining : list (nat * cub_item))
  : PackerOnline * list (nat * cub_item) * outcome unit :=
  match fuel with
  | O => (self, remaining, Unreached)
  | S fuel' =>
      if negb (Nat.eqb (List.length remaining) 0) then
        match Global_new_open_bin self remaining with
        | (self1, Ret None) => (self1, remaining, Ret tt)
        | (self1, Ret (Some _)) =>
            match Global_fill (S (List.length remaining)) self1 remaining with
            | (self2, remaining2, Ret _) =>
                Global_loop fuel' self2 remaining2
            | other => other
            end
        | (self1, o) => (self1, remaining, abort o)
        end
      else (self, remaining, Ret tt)
  end.

Definition enumerate (l : list cub_item) : list (nat * cub_item) :=
  combine (seq 0 (List.length l)) l.

Definition PackerGlobal_pack (self : Packer) : Packer * outcome unit :=
  let self0 := set_base self (reset (base self)) in
  if negb (_is_everything_ready self0) then (self0, Ret tt)
  else
    let base1 := add_avail_bins (base self0) (_avail_bins self0) in
    let sorted := enumerate (_sort_algo self0 (_avail_cub self0)) in
    let '(base2, remaining, r) :=
      Global_loop (S (stock (_empty_bins base1))) base1 sorted in
    (set_sorted_cub (set_base self0 base2) (CubDict remaining), r).

(** [pack()] of the class of [self]. *)
Definition pack (self : Packer) : Packer * outcome unit :=
  match heuristic self with
  | Global => PackerGlobal_pack self
  | _ => Packer_pack self
  end.

Definition Packer_cub_list (self : Packer) := cub_list (base self).
Definition Packer_bin_list (self : Packer) := bin_list (base self).

(** *** The packer factory *)

(** [Enum(tuple)] with [__getattr__ = tuple.index]: a member is its
    position in the tuple. *)
Definition PackingMode_Online : Z := 0.
Definition PackingMode_Offline : Z := 1.
Definition PackingBin_BNF : Z := 0.
Definition PackingBin_BFF : Z := 1.
Definition PackingBin_BBF : Z := 2.
Definition PackingBin_Global : Z := 3.

(** An instance of one of the seven packer classes: an on-line packer
    with its mixin, or an off-line packer. *)
Inductive packer_object : Type :=
| OnlinePacker (k : bin_algo) (p : PackerOnline)
| OfflinePacker (p : Packer).

Inductive newPacker_result : Type :=
| Built (p : packer_object)
| AttributeError (msg : string).

(** [sort_algo] is a sort key or [None].  On-line mode and the Global
    heuristic set it to [None]; a class built without it takes its
    default, [SORT_NONE]. *)
Definition newPacker (mode bin_algo_ : Z) (pack_algo_ : algo)
    (sort_algo : option (list cub_item -> list cub_item)) (rotation : bool)
  : newPacker_result :=
  let online (k : bin_algo) :=
    Built (OnlinePacker k (PackerOnline_init pack_algo_ rotation)) in
  let offline (k : bin_algo)
      (sort_algo1 : option (list cub_item -> list cub_item)) :=
    match sort_algo1 with
    | Some s => Built (OfflinePacker (Packer_init k pack_algo_ s rotation))
    | None =>
        Built (OfflinePacker (Packer_init k pack_algo_ SORT_NONE rotation))
    end in
  if mode =? PackingMode_Online then
    if bin_algo_ =? PackingBin_BNF then online BNF
    else if bin_algo_ =? PackingBin_BFF then online BFF
    else if bin_algo_ =? PackingBin_BBF then online BBF
    else AttributeError "Unsupported bin selection heuristic"
  else if mode =? PackingMode_Offline then
    if bin_algo_ =? PackingBin_BNF then offline BNF sort_algo
    else if bin_algo_ =? PackingBin_BFF then offline BFF sort_algo
    else if bin_algo_ =? PackingBin_BBF then offline BBF sort_algo
    else if bin_algo_ =? PackingBin_Global then offline Global None
    else AttributeError "Unsupported bin selection heuristic"
  else AttributeError "Unknown packing mode.".

End packer.

(** * Specification vocabulary *)

Module spec.
Import geometry.

(** A cuboid as its constructor admits it: no negative dimension. *)
Definition well_formed (c : Cuboid) : Prop :=
  0 <= width c /\ 0 <= height c /\ 0 <= depth c.

(** A cuboid of strictly positive dimensions. *)
Definition solid (c : Cuboid) : Prop :=
  0 < width c /\ 0 < height c /\ 0 < depth c.

(** The closed boxes touch or overlap on every axis. *)
Definition meets (a b : Cuboid) : Prop :=
  bottom a <= top b /\ bottom b <= top a /\
  left a <= right b /\ left b <= right a /\
  outeye a <= ineye b /\ outeye b <= ineye a.

(** The open boxes overlap on every axis: a strict intersection. *)
Definition overlap (a b : Cuboid) : Prop :=
  bottom a < top b /\ bottom b < top a /\
  left a < right b /\ left b < right a /\
  outeye a < ineye b /\ outeye b < ineye a.

(** The point [(px, py, pz)] belongs to the closed box. *)
Definition inside (c : Cuboid) (px py pz : Z) : Prop :=
  left c <= px <= right c /\
  bottom c <= py <= top c /\
  outeye c <= pz <= ineye c.

(** [u] is the union of [a] and [b] as sets of points. *)
Definition is_union (u a b : Cuboid) : Prop :=
  forall px py pz, inside u px py pz <-> inside a px py pz \/ inside b px py pz.

(** The least axis-aligned box around [a] and [b], carrying the
    identifier of [a]. *)
Definition hull (a b : Cuboid) : Cuboid :=
  let x_min := Z.min (left a) (left b) in
  let y_min := Z.min (bottom a) (bottom b) in
  let z_min := Z.min (outeye a) (outeye b) in
  mkCuboid x_min y_min z_min
    (Z.max (right a) (right b) - x_min)
    (Z.max (top a) (top b) - y_min)
    (Z.max (ineye a) (ineye b) - z_min)
    (rid a).

Definition same_x (a b : Cuboid) : Prop := left a = left b /\ width a = width b.
Definition same_y (a b : Cuboid) : Prop :=
  bottom a = bottom b /\ height a = height b.
Definition same_z (a b : Cuboid) : Prop :=
  outeye a = outeye b /\ depth a = depth b.

(** The two agree in position and extent on two axes and touch or
    overlap on the third, which concatenates. *)
Definition shares_face (a b : Cuboid) : Prop :=
  meets a b /\
  ((same_x a b /\ same_z a b) \/
   (same_y a b /\ same_z a b) \/
   (same_x a b /\ same_y a b)).

(** What [join] can do, read off its branches. *)
Inductive join_branch (A B : Cuboid) : bool * Cuboid -> Prop :=
| JoinContains :
    contains A B = true ->
    join_branch A B (true, A)
| JoinContained :
    contains B A = true ->
    join_branch A B
      (true, mkCuboid (x B) (y B) (z B) (width B) (height B) (depth B) (rid A))
| JoinApart :
    intersects A B true = false ->
    join_branch A B (false, A)
| JoinUpDown :
    contains A B = false -> contains B A = false -> meets A B ->
    same_x A B -> outeye A = outeye B ->
    join_branch A B
      (true, mkCuboid (x A) (Z.min (bottom A) (bottom B)) (z A) (width A)
               (Z.max (top A) (top B) - Z.min (bottom A) (bottom B))
               (depth A) (rid A))
| JoinRightLeft :
    contains A B = false -> contains B A = false -> meets A B ->
    same_y A B -> outeye A = outeye B ->
    join_branch A B
      (true, mkCuboid (Z.min (left A) (left B)) (y A) (z A)
               (Z.max (right A) (right B) - Z.min (left A) (left B))
               (height A) (depth A) (rid A))
| JoinFrontBack :
    contains A B = false -> contains B A = false -> meets A B ->
    same_x A B -> same_y A B ->
    join_branch A B
      (true, mkCuboid (x A) (y A) (Z.min (outeye A) (outeye B)) (width A)
               (height A)
               (Z.max (ineye A) (ineye B) - Z.min (outeye A) (outeye B))
               (rid A))
| JoinNoMatch :
    join_branch A B (false, A).

(** The claim on [join] as the specification words it. *)
Definition stated_join_law : Prop :=
  forall A B A' : Cuboid,
    well_formed A -> well_formed B ->
    (join A B = (true, A') -> is_union A' A B /\ shares_face A B) /\
    (join A B = (false, A') -> A' = A).

(** A cuboid as the six numbers [(x, y, z, width, height, depth)]. *)
Definition box (c : Cuboid) : Z * Z * Z * Z * Z * Z :=
  (x c, y c, z c, width c, height c, depth c).

(** The free region [s] can hold an item of the given dimensions. *)
Definition holds (s : Cuboid) (w h d : Z) : Prop :=
  w <= width s /\ h <= height s /\ d <= depth s.

(** The free regions of a bin: the sections of a Guillotine bin, the
    maximal cuboids of a MaxCubs bin. *)
Definition free_regions (b : pack_algo.PackingAlgorithm) : list Cuboid :=
  match pack_algo.cls b with
  | pack_algo.Guillotine _ _ => pack_algo._sections b
  | pack_algo.MaxCubs _ => pack_algo._max_cubs b
  end.

(** No free region of [b] can hold the item, neither as it is nor, when
    rotation is enabled, with width and height swapped. *)
Definition cannot_fit (b : pack_algo.PackingAlgorithm) (w h d : Z) : Prop :=
  forall s, In s (free_regions b) ->
    ~ holds s w h d /\ (pack_algo.rot b = true -> ~ holds s h w d).

(** A factory whose bins can be built and cannot hold the item. *)
Definition hopeless (w h d : Z) (f : bin_factory.BinFactory) : Prop :=
  exists b, bin_factory._create_bin f = Ret b /\ cannot_fit b w h d.

(** The item fits nowhere: in no open bin and in no bin a factory of
    the packer would hand out. *)
Definition fits_nowhere (p : packer.PackerOnline) (w h d : Z) : Prop :=
  Forall (fun b => cannot_fit b w h d) (packer._open_bins p) /\
  Forall (fun kf => hopeless w h d (snd kf)) (packer._empty_bins p).

(** What the dispatching [add_cub] of a heuristic returns for an item
    it could not place. *)
Definition failure_value (k : packer.bin_algo) : pyval Cuboid :=
  match k with
  | packer.BBF => PyBool false
  | _ => PyNone
  end.

(** The two factories hand out the same bins. *)
Definition same_stock (f f' : bin_factory.BinFactory) : Prop :=
  bin_factory._create_bin f' = bin_factory._create_bin f /\
  bin_factory._count f' = bin_factory._count f.

Definition all_hopeless (w h d : Z)
    (facs : list (nat * bin_factory.BinFactory)) : Prop :=
  Forall (fun kf => hopeless w h d (snd kf)) facs.

(** The rows of [cub_list] for the bins [l], numbered from [n]. *)
Definition cub_rows (n : nat) (l : list pack_algo.PackingAlgorithm) :=
  flat_map (fun nb : nat * pack_algo.PackingAlgorithm =>
    let '(bin_count, abin) := nb in
    map (fun cub => (bin_count, x cub, y cub, z cub, width cub,
                     height cub, depth cub, rid cub))
      (pack_algo.cuboids abin))
    (combine (seq n (List.length l)) l).

(** The configuration a packer is built with and never changes. *)
Definition config (o : packer.PackerOnline) : bool * pack_algo.algo :=
  (packer._rotation o, packer._pack_algo o).

(** The calls a client makes on an off-line packer. *)
Inductive call : Set :=
| AddBin (width_ height_ depth_ count : Z) (merge_ : option bool)
| AddCub (width_ height_ depth_ : Z) (rid_ : option Z)
| Pack.

(** One call; a [pack()] that raises leaves the packer as it is at the
    raise. *)
Definition do_call (p : packer.Packer) (c : call) : packer.Packer :=
  match c with
  | AddBin w h d count m => packer.Packer_add_bin p w h d count m
  | AddCub w h d r => packer.Packer_add_cub p w h d r
  | Pack => fst (packer.pack p)
  end.

Definition do_calls (p : packer.Packer) (calls : list call) : packer.Packer :=
  fold_left do_call calls p.

(** The bin templates and the items a sequence of calls supplies. *)
Definition bins_of (calls : list call) : list packer.bin_item :=
  flat_map (fun c =>
    match c with
    | AddBin w h d count m => [(w, h, d, count, m)]
    | _ => []
    end) calls.

Definition items_of (calls : list call) : list packer.cub_item :=
  flat_map (fun c =>
    match c with
    | AddCub w h d r => [(w, h, d, r)]
    | _ => []
    end) calls.

(** A run: a fresh packer, the client's calls, a final [pack()], and
    the [cub_list()] read afterwards. *)
Definition run (k : packer.bin_algo) (pack_algo_ : pack_algo.algo)
    (sort_algo : list packer.cub_item -> list packer.cub_item)
    (rotation : bool) (calls : list call) :=
  packer.Packer_cub_list
    (fst (packer.pack
            (do_calls (packer.Packer_init k pack_algo_ sort_algo rotation)
               calls))).

(** What [pack()] reads of a packer. *)
Definition pack_input (p : packer.Packer) :=
  (config (packer.base p), packer.heuristic p, packer._sort_algo p,
   packer._avail_bins p, packer._avail_cub p).

(** The open boxes do not overlap: no strict intersection. *)
Definition apart (a b : Cuboid) : Prop := ~ overlap a b.

(** [s] lies in [m]. *)
Definition sub (s m : Cuboid) : Prop :=
  left m <= left s /\ right s <= right m /\
  bottom m <= bottom s /\ top s <= top m /\
  outeye m <= outeye s /\ ineye s <= ineye m.

(** The volume of a bin as a cuboid at the origin. *)
Definition bin_volume (b : pack_algo.PackingAlgorithm) : Cuboid :=
  Cuboid_ 0 0 0 (pack_algo.width b) (pack_algo.height b) (pack_algo.depth b).

(** A free region as both families keep them: of positive size, inside
    the bin, and reaching the far face of the bin. *)
Definition free_ok (b : pack_algo.PackingAlgorithm) (s : Cuboid) : Prop :=
  solid s /\ sub s (bin_volume b) /\ ineye s = pack_algo.depth b.

(** The invariant of a bin: the placed items are of positive size, lie
    in the bin and are pairwise apart; the free regions are [free_ok]
    and apart from every placed item; the sections of a Guillotine bin
    are pairwise apart. *)
Record inv (b : pack_algo.PackingAlgorithm) : Prop := mkInv {
  inv_placed_solid : Forall solid (pack_algo.cuboids b);
  inv_placed_sub : Forall (fun c => sub c (bin_volume b)) (pack_algo.cuboids b);
  inv_placed_apart : ForallOrdPairs apart (pack_algo.cuboids b);
  inv_free_ok : Forall (free_ok b) (free_regions b);
  inv_free_placed :
    forall c, In c (pack_algo.cuboids b) ->
      Forall (fun s => apart s c) (free_regions b);
  inv_sections_apart :
    match pack_algo.cls b with
    | pack_algo.Guillotine _ _ => ForallOrdPairs apart (pack_algo._sections b)
    | pack_algo.MaxCubs _ => True
    end
}.

(** P1 and P2 of the specification: every placed item lies fully inside
    the bin, and no two placed items strictly intersect. *)
Definition packing_ok (b : pack_algo.PackingAlgorithm) : Prop :=
  (forall c, In c (pack_algo.cuboids b) -> contains (bin_volume b) c = true) /\
  (forall i j c1 c2, i <> j ->
     nth_error (pack_algo.cuboids b) i = Some c1 ->
     nth_error (pack_algo.cuboids b) j = Some c2 ->
     intersects c1 c2 false = false).

(** A sequence of [add_cub] calls on one bin; a call that raises leaves
    the bin as it is at the raise, and the caller carries on. *)
Fixpoint add_cubs (b : pack_algo.PackingAlgorithm)
    (items : list packer.cub_item) : pack_algo.PackingAlgorithm :=
  match items with
  | [] => b
  | (w, h, d, r) :: rest => add_cubs (fst (bin.add_cub b w h d r)) rest
  end.

Definition positive_item (c : packer.cub_item) : Prop :=
  let '(w, h, d, _) := c in 0 < w /\ 0 < h /\ 0 < d.

(** The sections [L] of a bin are as they should be: each [free_ok], and
    pairwise apart. *)
Definition sections_ok (b : pack_algo.PackingAlgorithm) (L : list Cuboid)
  : Prop :=
  Forall (free_ok b) L /\ ForallOrdPairs apart L.

(** No region of [L] overlaps [q]. *)
Definition clear_of (q : Cuboid) (L : list Cuboid) : Prop :=
  Forall (fun s => apart s q) L.

(** What a scan of the factories leaves: a result, no more stock than
    before, and less stock when a bin was handed out. *)
Definition scan_ok (facs : list (nat * bin_factory.BinFactory))
    (res : list (nat * bin_factory.BinFactory) * list nat
           * outcome (option pack_algo.PackingAlgorithm)) : Prop :=
  let '(facs', _, r) := res in
  r <> Unreached /\
  (packer.stock facs' <= packer.stock facs)%nat /\
  (forall b, r = Ret (Some b) -> (packer.stock facs' < packer.stock facs)%nat).

(** What opening a bin does to the packer. *)
Definition open_ok (p : packer.PackerOnline)
    (res : packer.PackerOnline * outcome (option pack_algo.PackingAlgorithm))
  : Prop :=
  let '(p', r) := res in
  r <> Unreached /\
  packer._closed_bins p' = packer._closed_bins p /\
  (packer.stock (packer._empty_bins p')
     <= packer.stock (packer._empty_bins p))%nat /\
  match r with
  | Ret (Some b) =>
      packer._open_bins p' = packer._open_bins p ++ [b] /\
      (packer.stock (packer._empty_bins p')
         < packer.stock (packer._empty_bins p))%nat
  | _ => packer._open_bins p' = packer._open_bins p
  end.

(** What a dispatching loop leaves: a result and no more stock; under
    [PackerGlobal], a normal return leaves an open bin. *)
Definition loop_ok (k : packer.bin_algo) (p : packer.PackerOnline)
    (res : packer.PackerOnline * outcome (pyval Cuboid)) : Prop :=
  let '(p', r) := res in
  r <> Unreached /\
  (packer.stock (packer._empty_bins p')
     <= packer.stock (packer._empty_bins p))%nat /\
  (k = packer.Global -> forall v, r = Ret v -> packer._open_bins p' <> []).

(** What the inner loop of [PackerGlobal.pack] leaves. *)
Definition fill_ok (p : packer.PackerOnline)
    (remaining : list (nat * packer.cub_item))
    (res : packer.PackerOnline * list (nat * packer.cub_item) * outcome unit)
  : Prop :=
  let '(p', remaining', r) := res in
  r <> Unreached /\
  (packer.stock (packer._empty_bins p')
     <= packer.stock (packer._empty_bins p))%nat.

(** *** Vocabulary of the further properties *)

(** The point [p] belongs to the closed box of [c]. *)
Definition at_point (c : Cuboid) (p : Point.Point) : Prop :=
  inside c (Point.x p) (Point.y p) (Point.z p).

(** The boxes touch end to end on every axis: they share one corner
    point at most. *)
Definition corner_touch (a b : Cuboid) : Prop :=
  (left a = right b \/ left b = right a) /\
  (bottom a = top b \/ bottom b = top a) /\
  (outeye a = ineye b \/ outeye b = ineye a).

(** [c] has the identifier and the dimensions of the item, with width
    and height swapped only if [rot] allows it. *)
Definition oriented (rot : bool) (w h d : Z) (rid_ : option Z) (c : Cuboid)
  : Prop :=
  rid c = rid_ /\ depth c = d /\
  ((width c = w /\ height c = h) \/
   (rot = true /\ width c = h /\ height c = w)).

(** The key [_select_position] minimises: the top of the item in [m]
    for Bottom-Left, the constant fitness otherwise. *)
Definition select_key (v : pack_algo.maxcubs_class) (m : Cuboid) (h : Z) : Z :=
  match v with
  | pack_algo.MaxCubsBl => y m + h
  | _ => 0
  end.

(** What a call of [add_cub] on a bin leaves. *)
Definition placed_by (b : pack_algo.PackingAlgorithm) (w h d : Z)
    (rid_ : option Z)
    (res : pack_algo.PackingAlgorithm * outcome (option Cuboid)) : Prop :=
  let '(b', r) := res in
  match r with
  | Ret (Some c) =>
      pack_algo.cuboids b' = pack_algo.cuboids b ++ [c] /\
      oriented (pack_algo.rot b) w h d rid_ c /\
      exists s, In s (free_regions b) /\
        x c = x s /\ y c = y s /\ z c = z s /\
        holds s (width c) (height c) (depth c)
  | Ret None => b' = b
  | _ => pack_algo.cuboids b' = pack_algo.cuboids b
  end.

(** The class, the rotation flag and the dimensions of a bin stay. *)
Definition same_kind (b b' : pack_algo.PackingAlgorithm) : Prop :=
  pack_algo.cls b' = pack_algo.cls b /\
  pack_algo.rot b' = pack_algo.rot b /\
  bin_volume b' = bin_volume b.

(** The classes that inherit [GuillotineMaxas._split]. *)
Definition is_maxas (c : pack_algo.algo) : bool :=
  match c with
  | pack_algo.Guillotine _ pack_algo.Maxas => true
  | _ => false
  end.

(** A bin as the packers keep it: within the invariant, or without
    volume and empty. *)
Definition good (b : pack_algo.PackingAlgorithm) : Prop :=
  inv b \/
  (pack_algo.cuboids b = [] /\ Forall (fun s => ~ solid s) (free_regions b)).

(** The placed items of a good bin. *)
Definition placed_ok (b : pack_algo.PackingAlgorithm) : Prop :=
  Forall solid (pack_algo.cuboids b) /\
  Forall (fun c => sub c (bin_volume b)) (pack_algo.cuboids b) /\
  ForallOrdPairs apart (pack_algo.cuboids b).

(** Counting unit cells. *)
Fixpoint sum_upto (n : nat) (f : Z -> Z) : Z :=
  match n with
  | O => 0
  | S n' => sum_upto n' f + f (Z.of_nat n')
  end.

(** 1 when [lo <= i < lo + len], 0 otherwise. *)
Definition in_range (lo len i : Z) : Z :=
  if (lo <=? i) && (i <? lo + len) then 1 else 0.

(** 1 when the unit cell at [(i, j, k)] lies in [c], 0 otherwise. *)
Definition cell (c : Cuboid) (i j k : Z) : Z :=
  in_range (x c) (width c) i * in_range (y c) (height c) j *
  in_range (z c) (depth c) k.

(** The sum of [f] over the unit cells of a [W] x [H] x [D] box. *)
Definition cells (W H D : nat) (f : Z -> Z -> Z -> Z) : Z :=
  sum_upto W (fun i => sum_upto H (fun j => sum_upto D (fun k => f i j k))).

(** How many of the cuboids of [l] the cell lies in. *)
Definition cover (l : list Cuboid) (i j k : Z) : Z :=
  fold_right (fun c acc => cell c i j k + acc) 0 l.

(** The volumes of the cuboids of [l], added up. *)
Definition total_volume (l : list Cuboid) : Z :=
  fold_right (fun c acc => volume c + acc) 0 l.

(** Placed and free volume add up to the volume of the bin. *)
Definition conserved (b : pack_algo.PackingAlgorithm) : Prop :=
  pack_algo.used_volume b + total_volume (pack_algo._sections b)
  = pack_algo.width b * pack_algo.height b * pack_algo.depth b.

(** Some other entry of [l] contains an entry equal to [m]. *)
Definition shadowed (l : list Cuboid) (m : Cuboid) : Prop :=
  exists i j a c, i <> j /\ nth_error l i = Some a /\ nth_error l j = Some c /\
    Cuboid_eq a m = true /\ contains c a = true.

(** One turn of the loop of [_remove_duplicates] over the pairs. *)
Definition mark (acc : list Cuboid) (p : Cuboid * Cuboid) : list Cuboid :=
  let '(m1, m2) := p in
  if contains m1 m2 then m2 :: acc
  else if contains m2 m1 then m1 :: acc
  else acc.

(** What a factory builds its bins from; [_count] and [_ref_bin] are
    the attributes that change. *)
Definition template (f : bin_factory.BinFactory) :=
  (bin_factory._width f, bin_factory._height f, bin_factory._depth f,
   bin_factory._pack_algo f, bin_factory._rot f, bin_factory._merge f).

(** Every bin of the packer is [Q], every factory [F]. *)
Definition keeps (Q : pack_algo.PackingAlgorithm -> Prop)
    (F : bin_factory.BinFactory -> Prop) (p : packer.PackerOnline) : Prop :=
  Forall Q (packer._closed_bins p) /\ Forall Q (packer._open_bins p) /\
  Forall (fun kf => F (snd kf)) (packer._empty_bins p).

(** Every factory of the list is [F]. *)
Definition facs_ok (F : bin_factory.BinFactory -> Prop)
    (facs : list (nat * bin_factory.BinFactory)) : Prop :=
  Forall (fun kf => F (snd kf)) facs.

(** Opening a bin: the packer stays as it should be, and the bin
    returned is the last open one, a [Q] and [Nw] one. *)
Definition opened (Q : pack_algo.PackingAlgorithm -> Prop)
    (F : bin_factory.BinFactory -> Prop)
    (Nw : pack_algo.PackingAlgorithm -> Prop) (p : packer.PackerOnline)
    (res : packer.PackerOnline * outcome (option pack_algo.PackingAlgorithm))
  : Prop :=
  let '(p', r) := res in
  keeps Q F p' /\
  packer._closed_bins p' = packer._closed_bins p /\
  match r with
  | Ret (Some b) =>
      packer._open_bins p' = packer._open_bins p ++ [b] /\ Q b /\ Nw b
  | _ => packer._open_bins p' = packer._open_bins p
  end.

(** The calls a client makes on an on-line packer. *)
Inductive online_call : Set :=
| OnAddBin (width_ height_ depth_ count : Z) (merge_ : option bool)
| OnAddCub (width_ height_ depth_ : Z) (rid_ : option Z).

(** One call on an on-line packer of heuristic [k]. *)
Definition do_online (k : packer.bin_algo) (p : packer.PackerOnline)
    (c : online_call) : packer.PackerOnline :=
  match c with
  | OnAddBin w h d count m => packer.add_bin p w h d count m
  | OnAddCub w h d r => fst (packer.add_cub k p w h d r)
  end.

(** A fresh on-line packer after the client's calls; a call that raises
    leaves the packer as it is at the raise. *)
Definition online_run (k : packer.bin_algo) (pack_algo_ : pack_algo.algo)
    (rotation : bool) (calls : list online_call) : packer.PackerOnline :=
  fold_left (do_online k) calls (packer.PackerOnline_init pack_algo_ rotation).

(** P1 and P2 for one bin, and no more volume placed than it has. *)
Definition valid_bin (b : pack_algo.PackingAlgorithm) : Prop :=
  packing_ok b /\
  pack_algo.used_volume b
    <= pack_algo.width b * pack_algo.height b * pack_algo.depth b.

(** A bin as the packers keep it, of no negative dimension. *)
Definition sound_bin (b : pack_algo.PackingAlgorithm) : Prop :=
  good b /\
  0 <= pack_algo.width b /\ 0 <= pack_algo.height b /\ 0 <= pack_algo.depth b.

(** Every bin of the packer is [sound_bin]. *)
Definition sound (p : packer.PackerOnline) : Prop :=
  keeps sound_bin (fun _ => True) p.

(** All the cuboids a packer has placed, bin after bin. *)
Definition placed (p : packer.PackerOnline) : list Cuboid :=
  flat_map pack_algo.cuboids (packer.bins p).

(** [l'] is [l] with the cuboid [oc], if there is one, put in. *)
Definition grows (oc : option Cuboid) (l l' : list Cuboid) : Prop :=
  match oc with
  | Some c => exists l1 l2, l = l1 ++ l2 /\ l' = l1 ++ c :: l2
  | None => l' = l
  end.

(** What the result of a dispatching [add_cub] says of the cuboid
    placed. *)
Definition reported (r : outcome (pyval Cuboid)) (oc : option Cuboid) : Prop :=
  match r with
  | Ret (PyCub c) => oc = Some c
  | Ret (PyBool true) => exists c, oc = Some c
  | _ => oc = None
  end.

(** Every bin and every factory of the packer has rotation flag [R]. *)
Definition rot_ok (R : bool) (p : packer.PackerOnline) : Prop :=
  keeps (fun b => pack_algo.rot b = R) (fun f => bin_factory._rot f = R) p.

(** What a dispatching [add_cub] for the item [(w, h, d, rid_)] leaves
    of a packer whose bins and factories have rotation flag [R]: the
    flags stay, closed bins stay closed, and the placed cuboids grow by
    the cuboid the result reports, an orientation of the item. *)
Definition dispatched (R : bool) (w h d : Z) (rid_ : option Z)
    (p : packer.PackerOnline)
    (res : packer.PackerOnline * outcome (pyval Cuboid)) : Prop :=
  let '(p', r) := res in
  rot_ok R p' /\
  (exists cl, packer._closed_bins p' = packer._closed_bins p ++ cl) /\
  exists oc,
    reported r oc /\ grows oc (placed p) (placed p') /\
    forall c, oc = Some c -> oriented R w h d rid_ c.

(** What a dispatching [add_cub] returns, by heuristic. *)
Definition returns_of (k : packer.bin_algo) (r : outcome (pyval Cuboid))
  : Prop :=
  match k, r with
  | packer.BBF, Ret (PyCub _) | packer.BBF, Ret PyNone => False
  | packer.BBF, _ => True
  | _, Ret (PyBool _) => False
  | _, _ => True
  end.

(** The packer's own flag and those of its bins and factories are [R]. *)
Definition uniform (R : bool) (p : packer.PackerOnline) : Prop :=
  packer._rotation p = R /\ rot_ok R p.

(** Cuboid [c] is item [it], as queued or turned. *)
Definition placement (rot : bool) (it : packer.cub_item) (c : Cuboid) : Prop :=
  let '(w, h, d, rid_) := it in oriented rot w h d rid_ c.

(** Of the queued [items], those of [todo] are still to be handled, and
    the cuboids [cubs] are placements of distinct other ones. *)
Definition accounted (rot : bool) (items todo : list packer.cub_item)
    (cubs : list Cuboid) : Prop :=
  exists taken rest,
    Permutation items (taken ++ rest ++ todo) /\
    Forall2 (placement rot) taken cubs.

(** The state of [PackerGlobal.pack]'s loops: bins, and the cuboids
    still in [_sorted_cub]. *)
Definition global_ok (R : bool) (items : list packer.cub_item)
    (p : packer.PackerOnline) (remaining : list (nat * packer.cub_item))
  : Prop :=
  rot_ok R p /\ NoDup (map fst remaining) /\
  accounted R items (map snd remaining) (placed p).

(** The bins a packer holds and those its factories can still hand
    out. *)
Definition cap (p : packer.PackerOnline) : nat :=
  (List.length (packer.bins p) + packer.stock (packer._empty_bins p))%nat.

(** The bins a list of templates supplies. *)
Definition supply (l : list packer.bin_item) : nat :=
  fold_right (fun b acc =>
    let '(_, _, _, count, _) := b in (Z.to_nat count + acc)%nat) O l.

(** The bins the [add_bin] calls of a client supply. *)
Definition online_supply (calls : list online_call) : nat :=
  fold_right (fun c acc =>
    match c with
    | OnAddBin _ _ _ count _ => (Z.to_nat count + acc)%nat
    | OnAddCub _ _ _ _ => acc
    end) O calls.

(** [a] does not come after [b] in a list sorted largest key first. *)
Definition key_ge (key : packer.cub_item -> list Z) (a b : packer.cub_item)
  : Prop :=
  packer.key_gtb (key b) (key a) = false.

(** The items of key [k]. *)
Definition of_key (key : packer.cub_item -> list Z) (k : list Z)
    (c : packer.cub_item) : bool :=
  if list_eq_dec Z.eq_dec (key c) k then true else false.

End spec.

(** * Properties *)

Import geometry.
Import spec.

(** ** Geometry *)

(** Whatever [edges] is, cuboids that intersect meet on every axis. *)
Lemma intersects_meets (a b : Cuboid) (e : bool) :
  intersects a b e = true -> meets a b.
Proof.
  unfold intersects, meets.
  destruct (_ || _ || _ || _ || _ || (ineye a <? outeye b)) eqn:Hs;
    [discriminate|].
  intros _. lia.
Qed.

(** With [edges=False], [intersects] is the overlap of the open boxes;
    the corner test never fires. *)
Lemma intersects_overlap (a b : Cuboid) :
  intersects a b false = true <-> overlap a b.
Proof.
  unfold intersects, overlap.
  destruct (_ || _ || _ || _ || _ || (ineye a <? outeye b)) eqn:Hs.
  { split; [discriminate|]. intros H. exfalso. lia. }
  cbn [negb andb].
  destruct (_ || _ || _ || _ || _ || (ineye a =? outeye b)) eqn:Ht.
  { split; [discriminate|]. intros H. exfalso. lia. }
  assert (H1 : (left a =? right b) = false) by lia.
  assert (H2 : (left b =? right a) = false) by lia.
  rewrite H1, H2. cbn [andb orb].
  split; [intros _; lia | reflexivity].
Qed.

(** [join] runs through one of its branches. *)
Lemma join_inv (A B : Cuboid) : join_branch A B (join A B).
Proof.
  unfold join.
  destruct (contains A B) eqn:HAB; [now constructor|].
  destruct (contains B A) eqn:HBA; [now constructor|].
  destruct (intersects A B true) eqn:HI; cbn [negb]; [|now constructor].
  apply intersects_meets in HI.
  destruct (_ && _ && _ && (depth A =? depth A)) eqn:H1.
  { apply JoinUpDown; auto; unfold same_x; lia. }
  clear H1.
  destruct (_ && _ && _ && (depth A =? depth A)) eqn:H2.
  { apply JoinRightLeft; auto; unfold same_y; lia. }
  clear H2.
  destruct (_ && _ && _ && _) eqn:H3.
  { apply JoinFrontBack; auto; unfold same_x, same_y; lia. }
  apply JoinNoMatch.
Qed.

Ltac geom :=
  unfold is_union, inside, hull, meets, overlap, same_x, same_y, same_z,
    well_formed, solid, contains, left, right, bottom, top, outeye, ineye in *;
  cbn [x y z width height depth rid] in *.

Lemma cuboid_eq_intro (a b : Cuboid) :
  x a = x b -> y a = y b -> z a = z b -> width a = width b ->
  height a = height b -> depth a = depth b -> rid a = rid b -> a = b.
Proof. destruct a, b; cbn; intros; subst; reflexivity. Qed.

(** C2, as the code has it.  For cuboids [A] and [B] that do not begin
    at the same [z] with different depths: if [A.join(B)] succeeds, [A]
    afterwards is the bounding box of the original [A] and [B] and
    equals their union point for point, and either one of the two
    contains the other or the two agree in position and extent on two
    axes and touch or overlap on the third; if [A.join(B)] fails, [A] is
    unchanged. *)
Theorem join_law (A B : Cuboid) :
  well_formed A -> well_formed B ->
  (outeye A = outeye B -> depth A = depth B) ->
  (forall A', join A B = (true, A') ->
     A' = hull A B /\ is_union A' A B /\
     (contains A B = true \/ contains B A = true \/ shares_face A B)) /\
  (forall A', join A B = (false, A') -> A' = A).
Proof.
  intros HA HB Hd.
  destruct (join_inv A B)
    as [H|H|H|H1 H2 Hm Hx Hz|H1 H2 Hm Hy Hz|H1 H2 Hm Hx Hy|];
    (split; intros A' E; inversion E; subst; clear E).
  - split; [|split; [|now left]].
    + apply cuboid_eq_intro; geom; solve [reflexivity | lia].
    + geom. intros; lia.
  - split; [|split; [|now (right; left)]].
    + apply cuboid_eq_intro; geom; solve [reflexivity | lia].
    + geom. intros; lia.
  - reflexivity.
  - specialize (Hd Hz).
    split; [|split].
    + apply cuboid_eq_intro; geom; solve [reflexivity | lia].
    + geom. intros; lia.
    + right; right. split; [exact Hm|]. left.
      split; [exact Hx|]. split; assumption.
  - specialize (Hd Hz).
    split; [|split].
    + apply cuboid_eq_intro; geom; solve [reflexivity | lia].
    + geom. intros; lia.
    + right; right. split; [exact Hm|]. right; left.
      split; [exact Hy|]. split; assumption.
  - split; [|split].
    + apply cuboid_eq_intro; geom; solve [reflexivity | lia].
    + geom. intros; lia.
    + right; right. split; [exact Hm|]. right; right. split; assumption.
  - reflexivity.
Qed.

(** [join_law] at a box of side 2 and the box of height 3 on top of it. *)
Lemma join_law_witness :
  (forall A', join (Cuboid_ 0 0 0 2 2 2) (Cuboid_ 0 2 0 2 3 2) = (true, A') ->
     A' = hull (Cuboid_ 0 0 0 2 2 2) (Cuboid_ 0 2 0 2 3 2) /\
     is_union A' (Cuboid_ 0 0 0 2 2 2) (Cuboid_ 0 2 0 2 3 2) /\
     (contains (Cuboid_ 0 0 0 2 2 2) (Cuboid_ 0 2 0 2 3 2) = true \/
      contains (Cuboid_ 0 2 0 2 3 2) (Cuboid_ 0 0 0 2 2 2) = true \/
      shares_face (Cuboid_ 0 0 0 2 2 2) (Cuboid_ 0 2 0 2 3 2))) /\
  (forall A', join (Cuboid_ 0 0 0 2 2 2) (Cuboid_ 0 2 0 2 3 2) = (false, A') ->
     A' = Cuboid_ 0 0 0 2 2 2).
Proof.
  apply (join_law (Cuboid_ 0 0 0 2 2 2) (Cuboid_ 0 2 0 2 3 2));
    unfold well_formed; cbn; lia.
Defined.

(** C2 as stated fails where one cuboid contains the other: the box of
    side 10 joins the box of side 2 lying inside it, and the two agree
    in extent on no axis. *)
Lemma join_containment_counterexample :
  well_formed (Cuboid_ 0 0 0 10 10 10) /\
  well_formed (Cuboid_ 1 1 1 2 2 2) /\
  join (Cuboid_ 0 0 0 10 10 10) (Cuboid_ 1 1 1 2 2 2)
    = (true, Cuboid_ 0 0 0 10 10 10) /\
  ~ shares_face (Cuboid_ 0 0 0 10 10 10) (Cuboid_ 1 1 1 2 2 2).
Proof.
  repeat split; try (cbn; lia).
  intros [_ [[[_ H] _]|[[[_ H] _]|[[_ H] _]]]]; cbn in H; lia.
Qed.

(** The stated law is refuted by that pair. *)
Lemma stated_join_law_fails : ~ stated_join_law.
Proof.
  intros H.
  destruct (H (Cuboid_ 0 0 0 10 10 10) (Cuboid_ 1 1 1 2 2 2)
              (Cuboid_ 0 0 0 10 10 10)) as [H1 _];
    try (unfold well_formed; cbn; lia).
  destruct (H1 eq_refl) as [_ [_ [[[_ E] _]|[[[_ E] _]|[[_ E] _]]]]];
    cbn in E; lia.
Qed.

(** The depth test that compares [self.depth] with itself: two stacked
    boxes of depths 2 and 5 are joined, and the result leaves out the
    point (0, 3, 4) of the deeper one. *)
Lemma join_depth_slip :
  join (Cuboid_ 0 0 0 2 2 2) (Cuboid_ 0 2 0 2 2 5)
    = (true, Cuboid_ 0 0 0 2 4 2) /\
  inside (Cuboid_ 0 2 0 2 2 5) 0 3 4 /\
  ~ inside (Cuboid_ 0 0 0 2 4 2) 0 3 4.
Proof.
  split; [reflexivity|]. unfold inside; cbn. lia.
Qed.

(** ** Scenarios on a single bin *)

(** C6, as the code has it.  In a bin (10,10,10) of [GuillotineBssfSas],
    with rotation and merge on or off, [add_cub(4,4,4)] places the item
    at (0,0,0,4,4,4); the section is as wide as it is high, so the
    short-axis rule splits vertically, and the free sections afterwards
    are (0,4,0,4,6,10), (4,0,0,6,10,10) and (0,0,4,4,4,6). *)
Theorem guillotine_sas_scenario (rot merge : bool) (rid_ : option Z) :
  exists b0 b1 c,
    bin.init bin.GuillotineBssfSas 10 10 10 rot merge = Ret b0 /\
    bin.add_cub b0 4 4 4 rid_ = (b1, Ret (Some c)) /\
    c = mkCuboid 0 0 0 4 4 4 rid_ /\
    pack_algo.cuboids b1 = [c] /\
    map box (pack_algo._sections b1) =
      [(0, 4, 0, 4, 6, 10); (4, 0, 0, 6, 10, 10); (0, 0, 4, 4, 4, 6)].
Proof.
  destruct rot, merge; do 3 eexists; repeat split; reflexivity.
Qed.

(** C6 as stated fails: after [add_cub(4,4,4)] in the bin (10,10,10) of
    [GuillotineBssfSas] the free sections are no rearrangement of
    (0,4,0,10,6,10), (4,0,0,6,4,10), (0,0,4,4,4,6). *)
Lemma guillotine_sas_counterexample :
  exists b0 b1 c,
    bin.init bin.GuillotineBssfSas 10 10 10 true true = Ret b0 /\
    bin.add_cub b0 4 4 4 None = (b1, Ret (Some c)) /\
    ~ Permutation (map box (pack_algo._sections b1))
        [(0, 4, 0, 10, 6, 10); (4, 0, 0, 6, 4, 10); (0, 0, 4, 4, 4, 6)].
Proof.
  do 3 eexists; repeat split; try reflexivity.
  intros P. apply Permutation_sym in P.
  apply (Permutation_in (0, 4, 0, 10, 6, 10)) in P; [|now left].
  cbn in P. repeat (destruct P as [P|P]; [discriminate|]). exact P.
Qed.

(** C7.  In a bin (10,10,10) of [MaxCubsBssf], [add_cub(4,4,4)] places
    the item at (0,0,0,4,4,4); the split of the whole bin yields the
    right, top and in-depth slabs only (no left and no bottom slab), and
    after duplicate pruning the maximal cuboids are exactly
    (4,0,0,6,10,10), (0,4,0,10,6,10) and (0,0,4,4,4,6). *)
Theorem maxcubs_scenario (rot merge : bool) (rid_ : option Z) :
  exists b0 b1 c,
    bin.init bin.MaxCubsBssf_ 10 10 10 rot merge = Ret b0 /\
    bin.add_cub b0 4 4 4 rid_ = (b1, Ret (Some c)) /\
    c = mkCuboid 0 0 0 4 4 4 rid_ /\
    pack_algo.cuboids b1 = [c] /\
    maxcubs._generate_splits (Cuboid_ 0 0 0 10 10 10) c =
      [Cuboid_ 4 0 0 6 10 10; Cuboid_ 0 4 0 10 6 10; Cuboid_ 0 0 4 4 4 6] /\
    pack_algo._max_cubs b1 =
      [Cuboid_ 4 0 0 6 10 10; Cuboid_ 0 4 0 10 6 10; Cuboid_ 0 0 4 4 4 6].
Proof.
  destruct rot, merge; do 3 eexists; repeat split; reflexivity.
Qed.

(** The fitness of every MaxCubs class is that of the base class: 0
    whenever the item fits. *)
Lemma maxcubs_fitness_zero (v : pack_algo.maxcubs_class)
    (b : pack_algo.PackingAlgorithm) (w h d f : Z) :
  maxcubs.fitness v b w h d = Ret (Some f) -> f = 0.
Proof.
  unfold maxcubs.fitness.
  destruct (negb _); [discriminate|].
  destruct (maxcubs._select_position v b w h d) as [[cub m]|]; [|discriminate].
  unfold maxcubs._cub_fitness. destruct (_ && _ && _); congruence.
Qed.

(** C3, the code at the scenario.  [MaxCubsBssf.fitness(5,5,5)] is 0 in
    the fresh bin (10,10,10) and in the fresh bin (6,6,6), where the
    short-side leftovers of [_rect_fitness] are 5 and 1; Best-Fit
    dispatch over the open bins (10,10,10), (6,6,6) therefore takes the
    first and places the item into the bin (10,10,10). *)
Theorem MaxCubsBssf_fitness_is_not_short_side :
  exists b10 b6 b10',
    bin.init bin.MaxCubsBssf_ 10 10 10 true true = Ret b10 /\
    bin.init bin.MaxCubsBssf_ 6 6 6 true true = Ret b6 /\
    bin.fitness b10 5 5 5 = Ret (Some 0) /\
    bin.fitness b6 5 5 5 = Ret (Some 0) /\
    maxcubs._rect_fitness pack_algo.MaxCubsBssf (Cuboid_ 0 0 0 10 10 10) 5 5 5
      = Some 5 /\
    maxcubs._rect_fitness pack_algo.MaxCubsBssf (Cuboid_ 0 0 0 6 6 6) 5 5 5
      = Some 1 /\
    packer.add_cub packer.BBF
      (packer.mkPackerOnline true bin.MaxCubsBssf_ [] [b10; b6] [] 0)
      5 5 5 None
      = (packer.mkPackerOnline true bin.MaxCubsBssf_ [] [b10'; b6] [] 0,
         Ret (PyBool true)) /\
    pack_algo.cuboids b10' = [Cuboid_ 0 0 0 5 5 5] /\
    pack_algo.cuboids b6 = [].
Proof.
  do 3 eexists. repeat split; reflexivity.
Qed.

(** C4, the code at a valid packing.  The bin (5,5,10) holds the single
    item (0,0,0,5,5,10), which lies within the bin; [validate_packing]
    tests it against a volume whose depth is the bin's width and
    raises. *)
Theorem validate_packing_rejects_deep_bin :
  exists b0 b1 c,
    bin.init bin.MaxCubsBssf_ 5 5 10 true true = Ret b0 /\
    bin.add_cub b0 5 5 10 None = (b1, Ret (Some c)) /\
    pack_algo.cuboids b1 = [c] /\
    contains (Cuboid_ 0 0 0 5 5 10) c = true /\
    pack_algo.validate_packing b1
      = Raise (Exception "Cuboid placed outside volume.").
Proof.
  do 3 eexists. repeat split; reflexivity.
Qed.

(** The pair loops of [validate_packing] stop one short: a placed list
    whose last item collides with another one passes. *)
Lemma validate_packing_skips_last_pair :
  exists b0,
    bin.init bin.MaxCubsBssf_ 10 10 10 true true = Ret b0 /\
    intersects (Cuboid_ 0 0 0 5 5 5) (Cuboid_ 0 0 0 5 5 5) false = true /\
    pack_algo.validate_packing
      (pack_algo.set_cuboids b0 [Cuboid_ 0 0 0 5 5 5; Cuboid_ 0 0 0 5 5 5])
      = Ret tt /\
    pack_algo.validate_packing
      (pack_algo.set_cuboids b0
         [Cuboid_ 5 5 5 1 1 1; Cuboid_ 0 0 0 5 5 5; Cuboid_ 0 0 0 5 5 5])
      = Ret tt.
Proof.
  eexists. repeat split; reflexivity.
Qed.

(** C8, the code at a bin (10,5,10) without rotation.  The item (3,8,1)
    is higher than the bin, yet [_fits_volume] and
    [BinFactory.fits_inside] swap its width and height and answer true;
    [add_cub] cannot place it. *)
Theorem fits_volume_swaps_without_rotation :
  exists b,
    bin.init bin.MaxCubsBssf_ 10 5 10 false true = Ret b /\
    pack_algo.rot b = false /\
    pack_algo._fits_volume b 3 8 1 = Ret true /\
    (8 <=? pack_algo.height b) = false /\
    snd (bin_factory.fits_inside
           (bin_factory.mkBinFactory 10 5 10 1 bin.MaxCubsBssf_ false None None)
           3 8 1) = Ret true /\
    bin.add_cub b 3 8 1 None = (b, Ret None).
Proof.
  eexists. repeat split; reflexivity.
Qed.

(** What [_fits_volume] answers when rotation is off: the item fits as
    it is, or it is too high and fits once width and height are
    swapped. *)
Lemma fits_volume_without_rotation
    (b : pack_algo.PackingAlgorithm) (w h d : Z) :
  pack_algo.rot b = false -> 0 < w -> 0 < h -> 0 < d ->
  (pack_algo._fits_volume b w h d = Ret true <->
   (w <= pack_algo.width b /\ h <= pack_algo.height b /\
    d <= pack_algo.depth b) \/
   (pack_algo.height b < h <= pack_algo.width b /\
    w <= pack_algo.height b /\ d <= pack_algo.depth b)).
Proof.
  intros Hr Hw Hh Hd. unfold pack_algo._fits_volume, pack_algo.positive_dims.
  rewrite Hr. cbn [andb orb].
  destruct (negb _) eqn:Hp; [lia|].
  destruct (h >? pack_algo.height b) eqn:E1;
    destruct (_ || _ || _) eqn:E2; split; intros H; try discriminate;
    try reflexivity; try lia.
Qed.

(** ** Items that cannot be placed *)

Section Unplaceable.

Variables w h d : Z.
Hypothesis positive : 0 < w /\ 0 < h /\ 0 < d.

Lemma positive_dims_true : pack_algo.positive_dims w h d = true.
Proof. unfold pack_algo.positive_dims. lia. Qed.

Lemma section_fitness_none (f : pack_algo.selection) (s : Cuboid) (a b c : Z) :
  ~ holds s a b c -> guillotine._section_fitness f s a b c = None.
Proof.
  unfold holds, guillotine._section_fitness. intros H.
  destruct (_ || _ || _) eqn:E; [reflexivity|]. exfalso. lia.
Qed.

Lemma cub_fitness_none (s : Cuboid) (a b c : Z) :
  ~ holds s a b c -> maxcubs._cub_fitness s a b c = None.
Proof.
  unfold holds, maxcubs._cub_fitness. intros H.
  destruct (_ && _ && _) eqn:E; [|reflexivity]. exfalso. lia.
Qed.

Lemma guillotine_candidates_nil (f : pack_algo.selection) (secs : list Cuboid)
    (a b c : Z) (r : bool) :
  (forall s, In s secs -> ~ holds s a b c) ->
  guillotine.candidates f secs a b c r = [].
Proof.
  unfold guillotine.candidates. induction secs as [|s secs IH]; intros H.
  - reflexivity.
  - cbn [flat_map]. rewrite section_fitness_none by (apply H; now left).
    apply IH. intros s' Hs'. apply H. now right.
Qed.

Lemma maxcubs_candidates_nil (l : list Cuboid) (a b c : Z) :
  (forall s, In s l -> ~ holds s a b c) ->
  maxcubs.candidates l a b c = [] /\ maxcubs.candidates_bl l a b c = [].
Proof.
  unfold maxcubs.candidates, maxcubs.candidates_bl.
  induction l as [|s l IH]; intros H.
  - split; reflexivity.
  - cbn [flat_map]. rewrite cub_fitness_none by (apply H; now left).
    apply IH. intros s' Hs'. apply H. now right.
Qed.

Lemma guillotine_select_none (f : pack_algo.selection) (s : pack_algo.split_rule)
    (b : pack_algo.PackingAlgorithm) :
  pack_algo.cls b = pack_algo.Guillotine f s -> cannot_fit b w h d ->
  guillotine._select_fittest_section f b w h d = None.
Proof.
  intros Hc Hn. unfold cannot_fit, free_regions in Hn. rewrite Hc in Hn.
  unfold guillotine._select_fittest_section.
  rewrite guillotine_candidates_nil by (intros s' Hs'; now apply Hn).
  destruct (pack_algo.rot b) eqn:Hr; cbn [negb app].
  - rewrite guillotine_candidates_nil; [reflexivity|].
    intros s' Hs'. now apply Hn.
  - reflexivity.
Qed.

Lemma maxcubs_select_none (v : pack_algo.maxcubs_class)
    (b : pack_algo.PackingAlgorithm) :
  pack_algo.cls b = pack_algo.MaxCubs v -> cannot_fit b w h d ->
  maxcubs._select_position v b w h d = None.
Proof.
  intros Hc Hn. unfold cannot_fit, free_regions in Hn. rewrite Hc in Hn.
  assert (Hn1 : forall s, In s (pack_algo._max_cubs b) -> ~ holds s w h d)
    by (intros s' Hs'; now apply Hn).
  destruct (maxcubs_candidates_nil _ _ _ _ Hn1) as [E1 E2].
  unfold maxcubs._select_position.
  destruct (pack_algo.rot b) eqn:Hr; cbn [negb].
  - assert (Hn2 : forall s, In s (pack_algo._max_cubs b) -> ~ holds s h w d)
      by (intros s' Hs'; now apply Hn).
    destruct (maxcubs_candidates_nil _ _ _ _ Hn2) as [E3 E4].
    destruct v; rewrite ?E1, ?E2, ?E3, ?E4; reflexivity.
  - destruct v; rewrite ?E1, ?E2; reflexivity.
Qed.

(** A single bin returns [None] and stays as it is. *)
Lemma single_bin_unplaceable (b : pack_algo.PackingAlgorithm) (rid_ : option Z) :
  cannot_fit b w h d -> bin.add_cub b w h d rid_ = (b, Ret None).
Proof.
  intros Hn. unfold bin.add_cub.
  destruct (pack_algo.cls b) as [f s|v] eqn:Hc.
  - unfold guillotine.add_cub. rewrite positive_dims_true. cbn [negb].
    now rewrite (guillotine_select_none f s b Hc Hn).
  - unfold maxcubs.add_cub. rewrite positive_dims_true. cbn [negb].
    now rewrite (maxcubs_select_none v b Hc Hn).
Qed.

Lemma single_bin_fitness_unplaceable (b : pack_algo.PackingAlgorithm) :
  cannot_fit b w h d -> bin.fitness b w h d = Ret None.
Proof.
  intros Hn. unfold bin.fitness.
  destruct (pack_algo.cls b) as [f s|v] eqn:Hc.
  - unfold guillotine.fitness.
    now rewrite (guillotine_select_none f s b Hc Hn).
  - unfold maxcubs.fitness. rewrite positive_dims_true. cbn [negb].
    now rewrite (maxcubs_select_none v b Hc Hn).
Qed.


(** A bin as its class builds it holds no cuboid. *)
Lemma add_section_cuboids (b : pack_algo.PackingAlgorithm) (s : Cuboid) :
  pack_algo.cuboids (guillotine._add_section b s) = pack_algo.cuboids b.
Proof.
  unfold guillotine._add_section.
  destruct (guillotine.merge_loop _ _ _ _ _). reflexivity.
Qed.

Lemma reset_cuboids (b : pack_algo.PackingAlgorithm) :
  pack_algo.cuboids (bin.reset b) = [].
Proof.
  unfold bin.reset. destruct (pack_algo.cls b).
  - unfold guillotine.reset. now rewrite add_section_cuboids.
  - reflexivity.
Qed.

Lemma init_cuboids (c : pack_algo.algo) (W H D : Z) (r m : bool)
    (b : pack_algo.PackingAlgorithm) :
  bin.init c W H D r m = Ret b -> pack_algo.cuboids b = [].
Proof.
  unfold bin.init. destruct (negb _); [discriminate|].
  intros E. inversion E. apply reset_cuboids.
Qed.

Lemma fits_volume_returns (b : pack_algo.PackingAlgorithm) :
  exists r, pack_algo._fits_volume b w h d = Ret r.
Proof.
  unfold pack_algo._fits_volume. rewrite positive_dims_true. cbn [negb].
  destruct (_ && _ || _); destruct (_ || _ || _); eexists; reflexivity.
Qed.

Lemma fits_inside_hopeless (f : bin_factory.BinFactory) :
  hopeless w h d f ->
  exists f' r, bin_factory.fits_inside f w h d = (f', Ret r) /\ same_stock f f'.
Proof.
  intros [b [Hb _]]. unfold bin_factory.fits_inside, bin_factory.ref_bin.
  destruct (negb _) eqn:T.
  - rewrite Hb. destruct (fits_volume_returns b) as [r Hr].
    exists (bin_factory.set_ref_bin f (Some b)), r. rewrite Hr.
    split; [reflexivity|]. split; reflexivity.
  - destruct (bin_factory._ref_bin f) as [b'|] eqn:E.
    + destruct (fits_volume_returns b') as [r Hr].
      exists f, r. rewrite Hr. split; [reflexivity|]. split; reflexivity.
    + cbn in T. discriminate T.
Qed.

Lemma hopeless_same_stock (f f' : bin_factory.BinFactory) :
  same_stock f f' -> hopeless w h d f -> hopeless w h d f'.
Proof.
  intros [Hc _] [b [Hb Hn]]. exists b. split; [congruence|exact Hn].
Qed.

Lemma new_bin_hopeless (f : bin_factory.BinFactory) :
  hopeless w h d f ->
  (bin_factory.new_bin f = (f, Ret None)) \/
  (exists b,
     bin_factory.new_bin f
       = (bin_factory.set_count f (bin_factory._count f - 1), Ret (Some b)) /\
     cannot_fit b w h d /\ pack_algo.cuboids b = [] /\
     0 < bin_factory._count f).
Proof.
  intros [b [Hb Hn]]. unfold bin_factory.new_bin.
  destruct (bin_factory._count f >? 0) eqn:E; [right|left; reflexivity].
  exists b.
  change (bin_factory._create_bin (bin_factory.set_count f (bin_factory._count f - 1)))
    with (bin_factory._create_bin f).
  rewrite Hb. split; [reflexivity|]. split; [exact Hn|]. split; [|lia].
  unfold bin_factory._create_bin in Hb. now apply init_cuboids in Hb.
Qed.

Lemma stock_cons (k : nat) (f : bin_factory.BinFactory)
    (rest : list (nat * bin_factory.BinFactory)) :
  packer.stock ((k, f) :: rest)
    = (Z.to_nat (bin_factory._count f) + packer.stock rest)%nat.
Proof. reflexivity. Qed.

(** A scan over hopeless factories: they stay hopeless, and a bin
    handed out is empty, cannot hold the item, and is gone from the
    stock. *)
Lemma scan_hopeless (facs : list (nat * bin_factory.BinFactory)) :
  all_hopeless w h d facs ->
  exists facs' del r,
    packer.scan_factories facs w h d = (facs', del, Ret r) /\
    all_hopeless w h d facs' /\
    match r with
    | Some b =>
        cannot_fit b w h d /\ pack_algo.cuboids b = [] /\
        (packer.stock facs' < packer.stock facs)%nat
    | None => (packer.stock facs' <= packer.stock facs)%nat
    end.
Proof.
  unfold all_hopeless.
  induction facs as [|[key f] rest IH]; intros HF.
  - exists [], [], None. repeat split; [constructor|cbn; lia].
  - inversion HF as [|? ? Hf Hrest]; subst. cbn [snd] in Hf.
    destruct (IH Hrest) as [rest' [del [r [E [HF' Hr]]]]].
    destruct (fits_inside_hopeless f Hf) as [f1 [fits [E1 S1]]].
    assert (Hf1 : hopeless w h d f1) by (eapply hopeless_same_stock; eauto).
    cbn [packer.scan_factories]. rewrite E1.
    destruct fits.
    + destruct (new_bin_hopeless f1 Hf1) as [E2|[b [E2 [Hn [Hc Hpos]]]]];
        rewrite E2.
      * rewrite E. exists ((key, f1) :: rest'), del, r.
        split; [reflexivity|]. split; [constructor; assumption|].
        destruct S1 as [_ S1]. rewrite !stock_cons, S1.
        destruct r; [intuition lia|lia].
      * eexists _, _, (Some b). split; [reflexivity|].
        split.
        { constructor; [|assumption]. cbn [snd].
          destruct Hf1 as [b' [Hb' Hn']]. exists b'. split; assumption. }
        split; [assumption|]. split; [assumption|].
        destruct S1 as [_ S1]. rewrite !stock_cons.
        cbn [bin_factory.set_count bin_factory._count]. rewrite <- S1. lia.
    + rewrite E. exists ((key, f1) :: rest'), del, r.
      split; [reflexivity|]. split; [constructor; assumption|].
      destruct S1 as [_ S1]. rewrite !stock_cons, S1.
      destruct r; [intuition lia|lia].
Qed.

Lemma delete_keys_hopeless (del : list nat)
    (facs : list (nat * bin_factory.BinFactory)) :
  all_hopeless w h d facs ->
  all_hopeless w h d (packer.delete_keys del facs) /\
  (packer.stock (packer.delete_keys del facs) <= packer.stock facs)%nat.
Proof.
  unfold all_hopeless, packer.delete_keys.
  induction facs as [|kf rest IH]; intros HF.
  - split; [constructor|cbn; lia].
  - inversion HF as [|? ? Hf Hrest]; subst.
    destruct (IH Hrest) as [H1 H2]. cbn [filter].
    destruct kf as [k f]. rewrite stock_cons.
    destruct (negb _); rewrite ?stock_cons;
      (split; [try constructor; assumption|lia]).
Qed.

Lemma new_open_bin_hopeless (p : packer.PackerOnline) :
  fits_nowhere p w h d ->
  exists p' r,
    packer._new_open_bin p w h d = (p', Ret r) /\
    all_hopeless w h d (packer._empty_bins p') /\
    packer._closed_bins p' = packer._closed_bins p /\
    match r with
    | Some b =>
        packer._open_bins p' = packer._open_bins p ++ [b] /\
        cannot_fit b w h d /\ pack_algo.cuboids b = [] /\
        (packer.stock (packer._empty_bins p')
           < packer.stock (packer._empty_bins p))%nat
    | None => packer._open_bins p' = packer._open_bins p
    end.
Proof.
  intros [_ HF]. unfold packer._new_open_bin.
  destruct (scan_hopeless _ HF) as [facs [del [r [E [HF' Hr]]]]].
  rewrite E.
  destruct (delete_keys_hopeless del facs HF') as [HD HS].
  destruct r as [b|].
  - eexists _, (Some b). split; [reflexivity|].
    cbn [packer._empty_bins packer._closed_bins packer._open_bins
           packer.set_empty_bins packer.set_open_bins].
    intuition lia.
  - eexists _, None. split; [reflexivity|].
    cbn [packer._empty_bins packer._closed_bins packer._open_bins
           packer.set_empty_bins packer.set_open_bins].
    intuition.
Qed.

End Unplaceable.

Lemma cub_list_rows (p : packer.PackerOnline) :
  packer.cub_list p = cub_rows 0 (packer.bins p).
Proof. reflexivity. Qed.

Lemma cub_rows_snoc_empty (l : list pack_algo.PackingAlgorithm)
    (b : pack_algo.PackingAlgorithm) (n : nat) :
  pack_algo.cuboids b = [] -> cub_rows n (l ++ [b]) = cub_rows n l.
Proof.
  intros Hb. revert n. induction l as [|a l IH]; intros n.
  - unfold cub_rows. cbn. now rewrite Hb.
  - unfold cub_rows in *. cbn [app List.length seq combine flat_map].
    now rewrite IH.
Qed.

Lemma cub_list_same_bins (p p' : packer.PackerOnline) :
  packer.bins p' = packer.bins p -> packer.cub_list p' = packer.cub_list p.
Proof. intros E. now rewrite !cub_list_rows, E. Qed.

Lemma cub_list_snoc_empty (p p' : packer.PackerOnline)
    (b : pack_algo.PackingAlgorithm) :
  pack_algo.cuboids b = [] -> packer.bins p' = packer.bins p ++ [b] ->
  packer.cub_list p' = packer.cub_list p.
Proof.
  intros Hb E. rewrite !cub_list_rows, E. now apply cub_rows_snoc_empty.
Qed.

Section UnplaceableDispatch.

Variables w h d : Z.
Hypothesis positive : 0 < w /\ 0 < h /\ 0 < d.
Variable rid_ : option Z.

Lemma call_new_open_bin_mixin (k : packer.bin_algo) (p : packer.PackerOnline) :
  k <> packer.Global ->
  packer.call_new_open_bin k p w h d = packer._new_open_bin p w h d.
Proof. destruct k; intros H; [reflexivity..|congruence]. Qed.

(** Next-Fit closes the open bins and the bins it opens, one after the
    other, and returns [None]. *)
Lemma BNF_loop_unplaceable (k : packer.bin_algo) :
  k <> packer.Global ->
  forall (fuel : nat) (p : packer.PackerOnline),
    fits_nowhere p w h d ->
    (List.length (packer._open_bins p) + packer.stock (packer._empty_bins p)
       < fuel)%nat ->
    exists p',
      packer.BNF_loop fuel k p w h d rid_ = (p', Ret PyNone) /\
      packer.cub_list p' = packer.cub_list p.
Proof.
  intros Hk. induction fuel as [|fuel IH]; intros p HN Hm; [lia|].
  pose proof HN as [HO HF].
  cbn [packer.BNF_loop].
  destruct (packer._open_bins p) as [|b others] eqn:Ho.
  - rewrite (call_new_open_bin_mixin k p Hk).
    destruct (new_open_bin_hopeless w h d positive p HN)
      as [p1 [r [E [HF1 [Hc Hr]]]]].
    rewrite E. destruct r as [b|].
    + destruct Hr as [Ho1 [Hn [Hb Hs]]]. rewrite Ho in Ho1. cbn [app] in Ho1.
      rewrite Ho1.
      rewrite (single_bin_unplaceable w h d positive b rid_ Hn).
      destruct (IH (packer.set_closed_bins (packer.set_open_bins p1 [])
                      (packer._closed_bins p1 ++ [b]))) as [p2 [E2 C2]].
      * split; [constructor|exact HF1].
      * cbn [packer._open_bins packer._empty_bins packer.set_closed_bins
               packer.set_open_bins List.length] in *. lia.
      * exists p2. split; [exact E2|]. rewrite C2.
        apply cub_list_snoc_empty with (b := b); [exact Hb|].
        unfold packer.bins. cbn. rewrite Hc, Ho, !app_nil_r. reflexivity.
    + exists p1. split; [reflexivity|]. apply cub_list_same_bins.
      unfold packer.bins. now rewrite Hc, Hr.
  - inversion HO as [|? ? Hn HO']; subst.
    rewrite (single_bin_unplaceable w h d positive b rid_ Hn).
    destruct (IH (packer.set_closed_bins (packer.set_open_bins p others)
                    (packer._closed_bins p ++ [b]))) as [p2 [E2 C2]].
    + split; [exact HO'|exact HF].
    + cbn [packer._open_bins packer._empty_bins packer.set_closed_bins
             packer.set_open_bins List.length] in *. lia.
    + exists p2. split; [exact E2|]. rewrite C2.
      apply cub_list_same_bins. unfold packer.bins. cbn.
      rewrite Ho, <- app_assoc. reflexivity.
Qed.

Lemma first_fit_unplaceable (open : list pack_algo.PackingAlgorithm) :
  Forall (fun b => cannot_fit b w h d) open ->
  packer.first_fit open w h d rid_ = (open, Ret None).
Proof.
  induction 1 as [|b others Hn _ IH]; [reflexivity|].
  cbn [packer.first_fit].
  rewrite (single_bin_unplaceable w h d positive b rid_ Hn), IH. reflexivity.
Qed.

Lemma fit_open_unplaceable (open : list pack_algo.PackingAlgorithm) (i : nat) :
  Forall (fun b => cannot_fit b w h d) open ->
  packer.fit_open open i w h d = Ret [].
Proof.
  intros H. revert i. induction H as [|b others Hn _ IH]; intros i;
    [reflexivity|].
  cbn [packer.fit_open].
  rewrite (single_bin_fitness_unplaceable w h d positive b Hn), IH. reflexivity.
Qed.

Lemma set_last_open_same (p : packer.PackerOnline)
    (l : list pack_algo.PackingAlgorithm) (b : pack_algo.PackingAlgorithm) :
  packer._open_bins p = l ++ [b] -> packer.set_last_open p b = p.
Proof.
  intros E. unfold packer.set_last_open, packer.set_open_bins.
  rewrite E, removelast_last. destruct p; cbn in *. now subst.
Qed.

(** The loop over the factories shared by First-Fit and Best-Fit. *)
Lemma new_bins_unplaceable (k : packer.bin_algo) :
  k <> packer.Global ->
  forall (fuel : nat) (p : packer.PackerOnline),
    fits_nowhere p w h d ->
    (packer.stock (packer._empty_bins p) < fuel)%nat ->
    exists p',
      packer.BFF_loop fuel k p w h d rid_ = (p', Ret PyNone) /\
      packer.BBF_loop fuel k p w h d rid_ = (p', Ret (PyBool false)) /\
      packer.cub_list p' = packer.cub_list p.
Proof.
  intros Hk. induction fuel as [|fuel IH]; intros p [HO HF] Hm; [lia|].
  cbn [packer.BFF_loop packer.BBF_loop].
  rewrite (call_new_open_bin_mixin k p Hk).
  destruct (new_open_bin_hopeless w h d positive p (conj HO HF))
    as [p1 [r [E [HF1 [Hc Hr]]]]].
  rewrite E. destruct r as [b|].
  - destruct Hr as [Ho1 [Hn [Hb Hs]]].
    rewrite (single_bin_unplaceable w h d positive b rid_ Hn).
    rewrite (set_last_open_same p1 _ b Ho1).
    destruct (IH p1) as [p2 [E2 [E3 C2]]].
    + split; [|exact HF1]. rewrite Ho1. apply Forall_app.
      split; [exact HO|]. constructor; [exact Hn|constructor].
    + lia.
    + exists p2. split; [exact E2|]. split; [exact E3|]. rewrite C2.
      apply cub_list_snoc_empty with (b := b); [exact Hb|].
      unfold packer.bins. rewrite Hc, Ho1, app_assoc. reflexivity.
  - exists p1. split; [reflexivity|]. split; [reflexivity|].
    apply cub_list_same_bins. unfold packer.bins. now rewrite Hc, Hr.
Qed.

Lemma set_open_bins_same (p : packer.PackerOnline) :
  packer.set_open_bins p (packer._open_bins p) = p.
Proof. destruct p; reflexivity. Qed.

Lemma dispatch_unplaceable (k : packer.bin_algo) (p : packer.PackerOnline) :
  k <> packer.Global -> fits_nowhere p w h d ->
  exists p',
    packer.add_cub k p w h d rid_ = (p', Ret (failure_value k)) /\
    packer.cub_list p' = packer.cub_list p.
Proof.
  intros Hk HN. destruct k; [| | |congruence]; cbn [packer.add_cub failure_value].
  - unfold packer.BNF_add_cub. apply BNF_loop_unplaceable; [exact Hk|exact HN|lia].
  - unfold packer.BFF_add_cub.
    rewrite (first_fit_unplaceable _ (proj1 HN)), set_open_bins_same.
    destruct (new_bins_unplaceable packer.BFF Hk
                (S (packer.stock (packer._empty_bins p))) p HN)
      as [p' [E [_ C]]]; [lia|].
    exists p'. split; assumption.
  - unfold packer.BBF_add_cub.
    rewrite (fit_open_unplaceable _ 0 (proj1 HN)). cbn [min_by_key].
    destruct (new_bins_unplaceable packer.BBF Hk
                (S (packer.stock (packer._empty_bins p))) p HN)
      as [p' [_ [E C]]]; [lia|].
    exists p'. split; assumption.
Qed.

End UnplaceableDispatch.

(** C5, as the code has it.  For an item of strictly positive
    dimensions: a single-bin [add_cub] on an item that no free region
    can hold returns [None] and leaves the bin as it was; the
    dispatching [add_cub] of Next-Fit and First-Fit on an item that
    fits in no open bin and in no bin of a factory returns [None], that
    of Best-Fit returns [False]; none of them raises, and [cub_list()]
    is the same afterwards. *)
Theorem add_cub_unplaceable (w h d : Z) (rid_ : option Z) :
  0 < w -> 0 < h -> 0 < d ->
  (forall b, cannot_fit b w h d -> bin.add_cub b w h d rid_ = (b, Ret None)) /\
  (forall k p, k <> packer.Global -> fits_nowhere p w h d ->
     exists p',
       packer.add_cub k p w h d rid_ = (p', Ret (failure_value k)) /\
       packer.cub_list p' = packer.cub_list p).
Proof.
  intros Hw Hh Hd. split.
  - intros b. apply single_bin_unplaceable. auto.
  - intros k p. apply dispatch_unplaceable. auto.
Qed.

(** [add_cub_unplaceable] at the item (2,2,2). *)
Lemma add_cub_unplaceable_witness :
  (forall b, cannot_fit b 2 2 2 -> bin.add_cub b 2 2 2 None = (b, Ret None)) /\
  (forall k p, k <> packer.Global -> fits_nowhere p 2 2 2 ->
     exists p',
       packer.add_cub k p 2 2 2 None = (p', Ret (failure_value k)) /\
       packer.cub_list p' = packer.cub_list p).
Proof. apply (add_cub_unplaceable 2 2 2 None); lia. Defined.

(** C5 as stated fails for Best-Fit: with the single bin template
    (1,1,1), [add_cub(2,2,2)] fits nowhere and returns [False], which is
    not [None]. *)
Lemma BBF_failure_counterexample :
  fits_nowhere
    (packer.add_bin (packer.PackerOnline_init bin.MaxCubsBssf_ true) 1 1 1 1 None)
    2 2 2 /\
  snd (packer.add_cub packer.BBF
         (packer.add_bin (packer.PackerOnline_init bin.MaxCubsBssf_ true)
            1 1 1 1 None)
         2 2 2 None) = Ret (PyBool false) /\
  @Ret (pyval Cuboid) (PyBool false) <> Ret PyNone.
Proof.
  split; [|split; [reflexivity|discriminate]].
  split; [constructor|].
  constructor; [|constructor]. eexists. split; [reflexivity|].
  intros s [<-|[]]. unfold holds; cbn. lia.
Qed.

(** Next-Fit and First-Fit with the bin template (1,1,1): the item
    (2,2,2) fits no bin, none is opened, and [None] is returned. *)
Example next_fit_first_fit_failure :
  snd (packer.add_cub packer.BNF
         (packer.add_bin (packer.PackerOnline_init bin.MaxCubsBssf_ true)
            1 1 1 1 None)
         2 2 2 None) = Ret PyNone /\
  snd (packer.add_cub packer.BFF
         (packer.add_bin (packer.PackerOnline_init bin.GuillotineBssfSas true)
            1 1 1 1 None)
         2 2 2 None) = Ret PyNone /\
  packer.cub_list
    (fst (packer.add_cub packer.BNF
            (packer.add_bin (packer.PackerOnline_init bin.MaxCubsBssf_ true)
               1 1 1 1 None)
            2 2 2 None)) = [].
Proof. repeat split; reflexivity. Qed.

(** Without rotation the template (10,5,10) lets the item (3,8,1)
    through [fits_inside]: Next-Fit opens the bin, fails to place the
    item, closes the bin and returns [None]; the empty bin shows in
    [bin_list()], not in [cub_list()]. *)
Example next_fit_opens_and_closes :
  snd (packer.add_cub packer.BNF
         (packer.add_bin (packer.PackerOnline_init bin.MaxCubsBssf_ false)
            10 5 10 1 None)
         3 8 1 None) = Ret PyNone /\
  packer.bin_list
    (fst (packer.add_cub packer.BNF
            (packer.add_bin (packer.PackerOnline_init bin.MaxCubsBssf_ false)
               10 5 10 1 None)
            3 8 1 None)) = [(10, 5, 10)] /\
  packer.cub_list
    (fst (packer.add_cub packer.BNF
            (packer.add_bin (packer.PackerOnline_init bin.MaxCubsBssf_ false)
               10 5 10 1 None)
            3 8 1 None)) = [].
Proof. repeat split; reflexivity. Qed.

(** ** The configuration of a packer is never changed *)

Ltac break_match :=
  match goal with
  | |- context [match ?t with _ => _ end] => destruct t eqn:?
  end.

Lemma new_open_bin_config (p p1 : packer.PackerOnline) (w h d : Z)
    (r : outcome (option pack_algo.PackingAlgorithm)) :
  packer._new_open_bin p w h d = (p1, r) -> config p1 = config p.
Proof.
  unfold packer._new_open_bin. repeat break_match; intros E; inversion E;
    reflexivity.
Qed.

Lemma call_new_open_bin_config (k : packer.bin_algo)
    (p p1 : packer.PackerOnline) (w h d : Z)
    (r : outcome (option pack_algo.PackingAlgorithm)) :
  packer.call_new_open_bin k p w h d = (p1, r) -> config p1 = config p.
Proof.
  destruct k; cbn [packer.call_new_open_bin];
    try apply new_open_bin_config.
  intros E; inversion E; reflexivity.
Qed.

Ltac config_step :=
  repeat match goal with
  | H : packer.call_new_open_bin _ _ _ _ _ = (_, _) |- _ =>
      apply call_new_open_bin_config in H
  | H : packer._new_open_bin _ _ _ _ = (_, _) |- _ =>
      apply new_open_bin_config in H
  end.

Lemma BNF_loop_config (k : packer.bin_algo) (w h d : Z) (rid_ : option Z)
    (fuel : nat) (p : packer.PackerOnline) :
  config (fst (packer.BNF_loop fuel k p w h d rid_)) = config p.
Proof.
  revert p. induction fuel as [|fuel IH]; intros p; [reflexivity|].
  cbn [packer.BNF_loop].
  repeat break_match; config_step; rewrite ?IH; cbn [fst]; try assumption;
    try reflexivity.
Qed.

Lemma BFF_loop_config (k : packer.bin_algo) (w h d : Z) (rid_ : option Z)
    (fuel : nat) (p : packer.PackerOnline) :
  config (fst (packer.BFF_loop fuel k p w h d rid_)) = config p.
Proof.
  revert p. induction fuel as [|fuel IH]; intros p; [reflexivity|].
  cbn [packer.BFF_loop].
  repeat break_match; config_step; rewrite ?IH; cbn [fst]; try assumption;
    try reflexivity.
Qed.

Lemma BBF_loop_config (k : packer.bin_algo) (w h d : Z) (rid_ : option Z)
    (fuel : nat) (p : packer.PackerOnline) :
  config (fst (packer.BBF_loop fuel k p w h d rid_)) = config p.
Proof.
  revert p. induction fuel as [|fuel IH]; intros p; [reflexivity|].
  cbn [packer.BBF_loop].
  repeat break_match; config_step; rewrite ?IH; cbn [fst]; try assumption;
    try reflexivity.
Qed.

Lemma add_cub_config (k : packer.bin_algo) (p : packer.PackerOnline)
    (w h d : Z) (rid_ : option Z) :
  config (fst (packer.add_cub k p w h d rid_)) = config p.
Proof.
  destruct k; cbn [packer.add_cub].
  - apply BNF_loop_config.
  - unfold packer.BFF_add_cub.
    repeat break_match; rewrite ?BFF_loop_config; reflexivity.
  - unfold packer.BBF_add_cub.
    repeat break_match; rewrite ?BBF_loop_config; reflexivity.
  - apply BNF_loop_config.
Qed.

Lemma pack_sorted_config (k : packer.bin_algo) (l : list packer.cub_item)
    (p : packer.PackerOnline) :
  config (fst (packer.pack_sorted k p l)) = config p.
Proof.
  revert p. induction l as [|[[[w h] d] r] l IH]; intros p; [reflexivity|].
  cbn [packer.pack_sorted].
  destruct (packer.add_cub k p w h d r) as [p1 o] eqn:E.
  assert (C : config p1 = config p)
    by (rewrite <- (add_cub_config k p w h d r), E; reflexivity).
  destruct o; rewrite ?IH; exact C.
Qed.

Lemma add_avail_bins_config (l : list packer.bin_item)
    (p : packer.PackerOnline) :
  config (packer.add_avail_bins p l) = config p.
Proof.
  unfold packer.add_avail_bins. revert p.
  induction l as [|[[[[w h] d] c] m] l IH]; intros p; [reflexivity|].
  cbn [fold_left]. now rewrite IH.
Qed.

Lemma Global_new_open_bin_config (p p1 : packer.PackerOnline)
    (rem : list (nat * packer.cub_item))
    (r : outcome (option pack_algo.PackingAlgorithm)) :
  packer.Global_new_open_bin p rem = (p1, r) -> config p1 = config p.
Proof.
  unfold packer.Global_new_open_bin. repeat break_match; intros E;
    inversion E; reflexivity.
Qed.

Lemma Global_fill_config (fuel : nat) (p : packer.PackerOnline)
    (rem : list (nat * packer.cub_item)) :
  config (fst (fst (packer.Global_fill fuel p rem))) = config p.
Proof.
  revert p rem. induction fuel as [|fuel IH]; intros p rem; [reflexivity|].
  cbn [packer.Global_fill].
  repeat break_match; rewrite ?IH; cbn [fst]; try reflexivity;
    match goal with
    | H : packer.BNF_add_cub ?k ?p ?w ?h ?d ?r = (?p1, _) |- _ =>
        change (config p1 = config p);
        rewrite <- (BNF_loop_config k w h d r
                      (S (List.length (packer._open_bins p)
                          + packer.stock (packer._empty_bins p))) p);
        unfold packer.BNF_add_cub in H; rewrite H; reflexivity
    end.
Qed.

Lemma Global_loop_config (fuel : nat) (p : packer.PackerOnline)
    (rem : list (nat * packer.cub_item)) :
  config (fst (fst (packer.Global_loop fuel p rem))) = config p.
Proof.
  revert p rem. induction fuel as [|fuel IH]; intros p rem; [reflexivity|].
  cbn [packer.Global_loop].
  destruct (negb _); [|reflexivity].
  destruct (packer.Global_new_open_bin p rem) as [p1 r] eqn:E.
  apply Global_new_open_bin_config in E.
  destruct r as [[b|]| |]; try exact E.
  destruct (packer.Global_fill _ p1 rem) as [[p2 rem2] o] eqn:E2.
  assert (C : config p2 = config p).
  { rewrite <- E, <- (Global_fill_config (S (List.length rem)) p1 rem), E2.
    reflexivity. }
  destruct o; rewrite ?IH; exact C.
Qed.

(** ** [pack()] is a function of the queued bins and items *)

Lemma reset_config (a b : packer.PackerOnline) :
  config a = config b -> packer.reset a = packer.reset b.
Proof. unfold config, packer.reset. intros E. inversion E. reflexivity. Qed.

(** Packers that agree on what [pack()] reads are packed alike. *)
Lemma pack_input_sound (p q : packer.Packer) :
  pack_input p = pack_input q ->
  packer.base (fst (packer.pack p)) = packer.base (fst (packer.pack q)) /\
  snd (packer.pack p) = snd (packer.pack q).
Proof.
  unfold pack_input. intros E.
  pose proof (f_equal (fun t => fst (fst (fst (fst t)))) E) as Hc.
  pose proof (f_equal (fun t => snd (fst (fst (fst t)))) E) as Hk.
  pose proof (f_equal (fun t => snd (fst (fst t))) E) as Hs.
  pose proof (f_equal (fun t => snd (fst t)) E) as Hb.
  pose proof (f_equal snd E) as Hi.
  cbn [fst snd] in Hc, Hk, Hs, Hb, Hi. clear E.
  apply reset_config in Hc.
  unfold packer.pack. rewrite Hk.
  destruct (packer.heuristic q) eqn:Hq;
    unfold packer.Packer_pack, packer.PackerGlobal_pack,
      packer._is_everything_ready;
    cbn [packer.base packer.set_base packer._avail_cub packer._avail_bins
           packer._sort_algo packer.heuristic packer.set_sorted_cub];
    rewrite ?Hc, ?Hs, ?Hb, ?Hi, ?Hk, ?Hq;
    destruct (negb _); cbn [fst snd packer.base packer.set_base];
    try (split; reflexivity);
    repeat break_match; cbn [fst snd packer.base packer.set_base
                               packer.set_sorted_cub];
    split; reflexivity.
Qed.

(** [pack()] changes nothing of what it reads. *)
Lemma pack_input_kept (p : packer.Packer) :
  pack_input (fst (packer.pack p)) = pack_input p.
Proof.
  unfold pack_input, packer.pack.
  destruct (packer.heuristic p) eqn:Hk;
    unfold packer.Packer_pack, packer.PackerGlobal_pack;
    (destruct (negb _); [cbn; rewrite Hk; reflexivity|]).
  1-3: destruct (packer.pack_sorted _ _ _) as [b2 r] eqn:E;
       cbn [fst packer.base packer.set_base packer.set_sorted_cub
              packer.heuristic packer._sort_algo packer._avail_bins
              packer._avail_cub];
       rewrite Hk;
       match type of E with
       | packer.pack_sorted ?k ?b ?l = _ =>
           pose proof (pack_sorted_config k l b) as C
       end;
       rewrite E in C; cbn [fst] in C;
       rewrite C, add_avail_bins_config; reflexivity.
  destruct (packer.Global_loop _ _ _) as [[b2 rem] r] eqn:E.
  cbn [fst packer.base packer.set_base packer.set_sorted_cub
         packer.heuristic packer._sort_algo packer._avail_bins
         packer._avail_cub].
  rewrite Hk.
  match type of E with
  | packer.Global_loop ?f ?b ?l = _ =>
      pose proof (Global_loop_config f b l) as C
  end.
  rewrite E in C. cbn [fst] in C. rewrite C, add_avail_bins_config.
  reflexivity.
Qed.

(** The calls of a client only append to the queues. *)
Lemma do_calls_input (calls : list call) (p : packer.Packer) :
  pack_input (do_calls p calls) =
  (config (packer.base p), packer.heuristic p, packer._sort_algo p,
   packer._avail_bins p ++ bins_of calls,
   packer._avail_cub p ++ items_of calls).
Proof.
  unfold do_calls. revert p.
  induction calls as [|c calls IH]; intros p.
  - cbn. now rewrite !app_nil_r.
  - cbn [fold_left]. rewrite IH. destruct c as [w h d n m|w h d r|].
    + cbn. now rewrite <- app_assoc.
    + cbn. now rewrite <- app_assoc.
    + pose proof (pack_input_kept p) as K. unfold pack_input in K.
      cbn [do_call bins_of items_of flat_map app].
      pose proof (f_equal (fun t => fst (fst (fst (fst t)))) K) as Hc.
      pose proof (f_equal (fun t => snd (fst (fst (fst t)))) K) as Hk.
      pose proof (f_equal (fun t => snd (fst (fst t))) K) as Hs.
      pose proof (f_equal (fun t => snd (fst t)) K) as Hb.
      pose proof (f_equal snd K) as Hi.
      cbn [fst snd] in Hc, Hk, Hs, Hb, Hi.
      rewrite Hc, Hk, Hs, Hb, Hi. reflexivity.
Qed.

(** C9.  The [cub_list()] read after [pack()] is determined by the
    configuration (bin-selection heuristic, single-bin algorithm, sort
    key, rotation flag) and by the bin templates and items supplied:
    two runs that supply the same templates and the same items, however
    their calls are interleaved and whatever earlier [pack()] calls they
    made, produce identical output. *)
Theorem pack_deterministic (k : packer.bin_algo) (pack_algo_ : pack_algo.algo)
    (sort_algo : list packer.cub_item -> list packer.cub_item)
    (rotation : bool) (calls1 calls2 : list call) :
  bins_of calls1 = bins_of calls2 ->
  items_of calls1 = items_of calls2 ->
  run k pack_algo_ sort_algo rotation calls1
    = run k pack_algo_ sort_algo rotation calls2.
Proof.
  intros Hb Hi. unfold run, packer.Packer_cub_list.
  apply (f_equal packer.cub_list).
  apply pack_input_sound. rewrite !do_calls_input, Hb, Hi. reflexivity.
Qed.

(** [pack_deterministic] at two runs of Best-Fit over [MaxCubsBssf]
    that queue one bin and two items in different orders, one of them
    packing in between. *)
Lemma pack_deterministic_witness :
  run packer.BBF bin.MaxCubsBssf_ packer.SORT_VOLUME true
    [AddBin 10 10 10 1 None; AddCub 4 4 4 (Some 1); AddCub 2 2 2 (Some 2)]
  = run packer.BBF bin.MaxCubsBssf_ packer.SORT_VOLUME true
    [AddCub 4 4 4 (Some 1); Pack; AddBin 10 10 10 1 None; AddCub 2 2 2 (Some 2)].
Proof.
  apply (pack_deterministic packer.BBF bin.MaxCubsBssf_ packer.SORT_VOLUME true);
    reflexivity.
Defined.

(** C10.  For every off-line packer, in whatever state, a second
    [pack()] right after a first one leaves [cub_list()] and
    [bin_list()] as the first call left them, and ends as the first one
    ended. *)
Theorem pack_idempotent (p : packer.Packer) :
  packer.Packer_cub_list (fst (packer.pack (fst (packer.pack p))))
    = packer.Packer_cub_list (fst (packer.pack p)) /\
  packer.Packer_bin_list (fst (packer.pack (fst (packer.pack p))))
    = packer.Packer_bin_list (fst (packer.pack p)) /\
  snd (packer.pack (fst (packer.pack p))) = snd (packer.pack p).
Proof.
  destruct (pack_input_sound (fst (packer.pack p)) p (pack_input_kept p))
    as [Hb Ho].
  unfold packer.Packer_cub_list, packer.Packer_bin_list.
  rewrite Hb. repeat split. exact Ho.
Qed.


(** ** Containment and non-overlap of the placed items *)

Ltac boxes :=
  unfold free_ok, apart, overlap, sub, solid, holds, bin_volume, meets,
    same_x, same_y, same_z, Cuboid_eq, contains, Cuboid_, set_rid,
    left, right, bottom, top, outeye, ineye in *;
  cbn [x y z width height depth rid
       pack_algo.width pack_algo.height pack_algo.depth
       pack_algo.set_cuboids pack_algo.set_sections pack_algo.set_max_cubs
       maxcubs._remove_duplicates maxcubs._split] in *.

Lemma apart_sym (a b : Cuboid) : apart a b -> apart b a.
Proof. boxes. lia. Qed.

Lemma apart_sub (s m q : Cuboid) : sub s m -> apart m q -> apart s q.
Proof. boxes. lia. Qed.

Lemma sub_trans (a b c : Cuboid) : sub a b -> sub b c -> sub a c.
Proof. boxes. lia. Qed.

Lemma sub_contains (m s : Cuboid) : sub s m <-> contains m s = true.
Proof. boxes. lia. Qed.

Lemma apart_intersects (a b : Cuboid) :
  apart a b <-> intersects a b false = false.
Proof.
  unfold apart. rewrite <- intersects_overlap.
  destruct (intersects a b false); split; congruence.
Qed.

Lemma Cuboid_eq_apart (a b q : Cuboid) :
  Cuboid_eq a b = true -> apart q a -> apart q b.
Proof. boxes. lia. Qed.

Lemma min_by_key_In {A : Type} (l : list (Z * A)) (e : Z * A) :
  min_by_key l = Some e -> In e l.
Proof.
  revert e. induction l as [|a l IH]; intros e; cbn [min_by_key].
  - discriminate.
  - destruct (min_by_key l) as [m|].
    + destruct (fst m <? fst a); intros E; inversion E; subst.
      * right. now apply IH.
      * now left.
    + intros E; inversion E. now left.
Qed.

Lemma FOP_snoc {A : Type} (R : A -> A -> Prop) (l : list A) (c : A) :
  ForallOrdPairs R l -> Forall (fun a => R a c) l ->
  ForallOrdPairs R (l ++ [c]).
Proof.
  induction 1 as [|a l Ha Hl IH]; intros Hc; cbn [app].
  - repeat constructor.
  - inversion Hc; subst. constructor.
    + apply Forall_app. split; [assumption|]. now repeat constructor.
    + now apply IH.
Qed.

Lemma FOP_nth {A : Type} (R : A -> A -> Prop) (l : list A) :
  ForallOrdPairs R l -> (forall a b, R a b -> R b a) ->
  forall i j a b, i <> j -> nth_error l i = Some a -> nth_error l j = Some b ->
    R a b.
Proof.
  intros H Hsym. induction H as [|c l Hc Hl IH]; intros i j a b Hij Hi Hj.
  - destruct i; discriminate.
  - destruct i as [|i], j as [|j]; cbn in Hi, Hj.
    + congruence.
    + inversion Hi; subst. apply nth_error_In in Hj.
      rewrite Forall_forall in Hc. now apply Hc.
    + inversion Hj; subst. apply nth_error_In in Hi.
      rewrite Forall_forall in Hc. apply Hsym. now apply Hc.
    + apply (IH i j); auto.
Qed.

(** The invariant gives P1 and P2. *)
Lemma inv_packing_ok (b : pack_algo.PackingAlgorithm) : inv b -> packing_ok b.
Proof.
  intros I. split.
  - intros c Hc. apply sub_contains.
    pose proof (inv_placed_sub b I) as H. rewrite Forall_forall in H. auto.
  - intros i j c1 c2 Hij H1 H2. apply apart_intersects.
    apply (FOP_nth apart _ (inv_placed_apart b I) apart_sym i j); assumption.
Qed.

(** *** Maximal cuboids *)

Lemma cub_fitness_holds (m : Cuboid) (a b c v : Z) :
  maxcubs._cub_fitness m a b c = Some v -> holds m a b c.
Proof.
  unfold maxcubs._cub_fitness, holds.
  destruct (_ && _ && _) eqn:E; [|discriminate]. intros _. lia.
Qed.

Lemma maxcubs_candidates_In (l : list Cuboid) (a b c k w1 h1 d1 : Z)
    (m : Cuboid) :
  In (k, (w1, h1, d1, m)) (maxcubs.candidates l a b c) \/
  In (k, (w1, h1, d1, m)) (maxcubs.candidates_bl l a b c) ->
  In m l /\ w1 = a /\ h1 = b /\ d1 = c /\ holds m a b c.
Proof.
  unfold maxcubs.candidates, maxcubs.candidates_bl.
  intros [H|H]; apply in_flat_map in H; destruct H as [m' [Hm H]];
    destruct (maxcubs._cub_fitness m' a b c) as [v|] eqn:E;
    try contradiction;
    destruct H as [H|[]]; inversion H; subst;
    (split; [assumption|]); repeat (split; [reflexivity|]);
    eapply cub_fitness_holds; eassumption.
Qed.

(** The position selected lies at the origin of one of the maximal
    cuboids, which holds the item in the orientation chosen. *)
Lemma select_position_spec (v : pack_algo.maxcubs_class)
    (b : pack_algo.PackingAlgorithm) (w h d : Z) (cub m : Cuboid) :
  maxcubs._select_position v b w h d = Some (cub, m) ->
  In m (pack_algo._max_cubs b) /\
  exists w1 h1,
    cub = Cuboid_ (x m) (y m) (z m) w1 h1 d /\ holds m w1 h1 d /\
    ((w1 = w /\ h1 = h) \/ (w1 = h /\ h1 = w)).
Proof.
  unfold maxcubs._select_position.
  set (cands := match v with
                | pack_algo.MaxCubsBl => maxcubs.candidates_bl
                | _ => maxcubs.candidates
                end).
  destruct (min_by_key _) as [[k [[[w1 h1] d1] m']]|] eqn:E; [|discriminate].
  intros H. inversion H; subst. clear H.
  apply min_by_key_In in E. apply in_app_or in E.
  assert (C : forall a b0 c,
             In (k, (w1, h1, d1, m)) (cands (pack_algo._max_cubs b) a b0 c) ->
             In m (pack_algo._max_cubs b) /\ w1 = a /\ h1 = b0 /\ d1 = c /\
             holds m a b0 c).
  { intros a b0 c Hin. apply maxcubs_candidates_In with (k := k).
    subst cands. destruct v; auto. }
  destruct E as [E|E].
  - apply C in E. destruct E as [Hm [-> [-> [-> Hh]]]].
    split; [assumption|]. exists w, h. auto.
  - destruct (negb (pack_algo.rot b)); [contradiction|].
    apply C in E. destruct E as [Hm [-> [-> [-> Hh]]]].
    split; [assumption|]. exists h, w. auto.
Qed.

Lemma In_singleton_if {A : Type} (c : bool) (a s : A) :
  In s (if c then [a] else []) -> c = true /\ s = a.
Proof. destruct c; cbn; [intros [H|[]]; auto|intros []]. Qed.

(** Every slab cut from [m] around a cuboid [c] placed in the maximal
    cuboid [M] is a good free region, apart from [c], and lies in [m] or,
    for the in-depth slab, in [M]. *)
Lemma generate_splits_spec (b : pack_algo.PackingAlgorithm) (m M c s : Cuboid) :
  free_ok b m -> free_ok b M -> solid c -> sub c M -> overlap m c ->
  In s (maxcubs._generate_splits m c) ->
  free_ok b s /\ apart s c /\ (sub s m \/ sub s M).
Proof.
  intros Hm HM Hc Hsub Hov. unfold maxcubs._generate_splits. intros H.
  repeat (apply in_app_or in H; destruct H as [H|H]);
    apply In_singleton_if in H; destruct H as [G ->];
    boxes; lia.
Qed.

Lemma maxcubs_new_regions (b : pack_algo.PackingAlgorithm) (cub m s : Cuboid) :
  inv b -> free_regions b = pack_algo._max_cubs b ->
  In m (pack_algo._max_cubs b) -> solid cub -> sub cub m ->
  In s (pack_algo._max_cubs (maxcubs._remove_duplicates (maxcubs._split b cub))) ->
  free_ok b s /\ apart s cub /\
  (forall c, In c (pack_algo.cuboids b) -> apart s c).
Proof.
  intros I HF Hm Hc Hsub Hs.
  pose proof (inv_free_ok b I) as Hok. rewrite HF, Forall_forall in Hok.
  pose proof (inv_free_placed b I) as Hpl.
  assert (Hpl' : forall r c, In r (pack_algo._max_cubs b) ->
                   In c (pack_algo.cuboids b) -> apart r c).
  { intros r c Hr Hcc. specialize (Hpl c Hcc).
    rewrite HF, Forall_forall in Hpl. auto. }
  unfold maxcubs._remove_duplicates, maxcubs._split in Hs.
  cbn [pack_algo._max_cubs pack_algo.set_max_cubs] in Hs.
  apply filter_In in Hs. destruct Hs as [Hs _].
  apply in_flat_map in Hs. destruct Hs as [m' [Hm' Hs]].
  destruct (intersects m' cub false) eqn:E.
  - apply intersects_overlap in E.
    destruct (generate_splits_spec b m' m cub s) as [H1 [H2 H3]]; auto.
    split; [assumption|]. split; [assumption|].
    intros c Hcc. destruct H3 as [H3|H3];
      eapply apart_sub; try exact H3; auto.
  - destruct Hs as [<-|[]].
    split; [auto|]. split; [now apply apart_intersects|]. auto.
Qed.

(** [MaxCubs.add_cub] keeps the invariant. *)
Lemma maxcubs_add_cub_inv (v : pack_algo.maxcubs_class)
    (b : pack_algo.PackingAlgorithm) (w h d : Z) (rid_ : option Z) :
  pack_algo.cls b = pack_algo.MaxCubs v -> inv b ->
  0 < w -> 0 < h -> 0 < d ->
  inv (fst (maxcubs.add_cub v b w h d rid_)).
Proof.
  intros Hcls I Hw Hh Hd. unfold maxcubs.add_cub.
  destruct (negb _); [exact I|].
  destruct (maxcubs._select_position v b w h d) as [[cub m]|] eqn:E;
    [|exact I].
  apply select_position_spec in E.
  destruct E as [Hm [w1 [h1 [-> [Hh1 Hor]]]]].
  assert (HF : free_regions b = pack_algo._max_cubs b)
    by (unfold free_regions; now rewrite Hcls).
  pose proof (inv_free_ok b I) as Hok. rewrite HF, Forall_forall in Hok.
  pose proof (Hok m Hm) as Hmok.
  set (cub := Cuboid_ (x m) (y m) (z m) w1 h1 d) in *.
  assert (Hsolid : solid cub) by (subst cub; boxes; lia).
  assert (Hsub : sub cub m) by (subst cub; boxes; lia).
  assert (Hbin : sub cub (bin_volume b)).
  { eapply sub_trans; [exact Hsub|]. apply Hmok. }
  assert (Hold : forall c, In c (pack_algo.cuboids b) -> apart c cub).
  { intros c Hc. apply apart_sym. eapply apart_sub; [exact Hsub|].
    pose proof (inv_free_placed b I c Hc) as Hpl.
    rewrite HF, Forall_forall in Hpl. auto. }
  pose proof (maxcubs_new_regions b cub m) as Hnew.
  cbn [fst].
  constructor;
    cbn [pack_algo.cuboids pack_algo.set_cuboids pack_algo.cls
           maxcubs._remove_duplicates maxcubs._split pack_algo.set_max_cubs].
  - apply Forall_app. split; [apply (inv_placed_solid b I)|].
    constructor; [|constructor]. subst cub; boxes; lia.
  - apply Forall_app. split; [apply (inv_placed_sub b I)|].
    constructor; [|constructor]. revert Hbin. subst cub; boxes; lia.
  - apply FOP_snoc; [apply (inv_placed_apart b I)|].
    apply Forall_forall. intros c Hc. specialize (Hold c Hc).
    revert Hold. subst cub; boxes; lia.
  - unfold free_regions.
    cbn [pack_algo.cls pack_algo.set_cuboids maxcubs._remove_duplicates
           maxcubs._split pack_algo.set_max_cubs].
    rewrite Hcls. apply Forall_forall. intros s Hs.
    destruct (Hnew s) as [H1 _]; auto.
  - intros c Hc. unfold free_regions.
    cbn [pack_algo.cls pack_algo.set_cuboids maxcubs._remove_duplicates
           maxcubs._split pack_algo.set_max_cubs].
    rewrite Hcls. apply Forall_forall. intros s Hs.
    destruct (Hnew s) as [_ [H2 H3]]; auto.
    apply in_app_or in Hc. destruct Hc as [Hc|[<-|[]]]; [auto|].
    revert H2. subst cub; boxes; lia.
  - now rewrite Hcls.
Qed.

(** *** Guillotine sections *)

Lemma section_fitness_holds (f : pack_algo.selection) (s : Cuboid)
    (a b c v : Z) :
  guillotine._section_fitness f s a b c = Some v -> holds s a b c.
Proof.
  unfold guillotine._section_fitness, holds.
  destruct (_ || _ || _) eqn:E; [discriminate|]. intros _. lia.
Qed.

Lemma guillotine_candidates_In (f : pack_algo.selection) (l : list Cuboid)
    (a b c k : Z) (r r' : bool) (s : Cuboid) :
  In (k, (s, r')) (guillotine.candidates f l a b c r) ->
  In s l /\ r' = r /\ holds s a b c.
Proof.
  unfold guillotine.candidates. intros H.
  apply in_flat_map in H. destruct H as [s' [Hs H]].
  destruct (guillotine._section_fitness f s' a b c) as [v|] eqn:E;
    [|contradiction].
  destruct H as [H|[]]. inversion H; subst.
  split; [assumption|]. split; [reflexivity|].
  eapply section_fitness_holds; eassumption.
Qed.

(** The section selected is one of the list and holds the item in the
    orientation chosen. *)
Lemma select_fittest_spec (f : pack_algo.selection)
    (b : pack_algo.PackingAlgorithm) (w h d : Z) (sec : Cuboid) (rotated : bool) :
  guillotine._select_fittest_section f b w h d = Some (sec, rotated) ->
  In sec (pack_algo._sections b) /\
  holds sec (if rotated then h else w) (if rotated then w else h) d.
Proof.
  unfold guillotine._select_fittest_section.
  destruct (min_by_key _) as [[k [s r]]|] eqn:E; [|discriminate].
  intros H. inversion H; subst. clear H.
  apply min_by_key_In in E. apply in_app_or in E. destruct E as [E|E].
  - apply guillotine_candidates_In in E. destruct E as [Hs [-> Hh]]. auto.
  - destruct (negb (pack_algo.rot b)); [contradiction|].
    apply guillotine_candidates_In in E. destruct E as [Hs [-> Hh]]. auto.
Qed.

Lemma Cuboid_eq_refl (c : Cuboid) : Cuboid_eq c c = true.
Proof. unfold Cuboid_eq. lia. Qed.

(** Taking a section out of the list: what is left is apart from it. *)
Lemma remove_spec (b : pack_algo.PackingAlgorithm) (sec : Cuboid)
    (l : list Cuboid) :
  sections_ok b l -> In sec l ->
  exists secs,
    guillotine.remove sec l = Some secs /\
    sections_ok b secs /\ clear_of sec secs /\ incl secs l.
Proof.
  intros [Hok Hap]. revert Hok.
  induction Hap as [|s rest Hs Hrest IH]; intros Hok Hin; [contradiction|].
  inversion Hok as [|? ? Hs_ok Hrest_ok]; subst.
  cbn [guillotine.remove].
  destruct (Cuboid_eq s sec) eqn:E.
  - exists rest. split; [reflexivity|]. split; [split; assumption|].
    split; [|apply incl_tl, incl_refl].
    unfold clear_of. rewrite Forall_forall in *. intros r Hr.
    apply Cuboid_eq_apart with (a := s); [exact E|].
    apply apart_sym. auto.
  - destruct Hin as [->|Hin]; [rewrite Cuboid_eq_refl in E; discriminate|].
    destruct (IH Hrest_ok Hin) as [secs [E1 [[H1 H2] [H3 H4]]]].
    rewrite E1. exists (s :: secs). split; [reflexivity|].
    split; [split|].
    + constructor; assumption.
    + constructor; [|assumption].
      rewrite Forall_forall in *. intros r Hr. apply Hs. now apply H4.
    + split.
      * constructor; [|assumption]. rewrite Forall_forall in Hs. auto.
      * intros r [<-|Hr]; [now left|right; now apply H4].
Qed.

(** One [join] of the new section with an old one: the result is a
    good free region and covers nothing that the two did not cover.
    Both reach the far face of the bin, so equal [z] means equal depth. *)
Lemma join_step (b : pack_algo.PackingAlgorithm) (sec s sec1 : Cuboid)
    (joined : bool) :
  join sec s = (joined, sec1) -> free_ok b sec -> free_ok b s ->
  free_ok b sec1 /\
  (joined = false -> sec1 = sec) /\
  (forall q, solid q -> apart sec q -> apart s q -> apart sec1 q).
Proof.
  intros E Hsec Hs. pose proof (join_inv sec s) as J. rewrite E in J.
  inversion J; subst; clear J E;
    (split; [|split; [try reflexivity; try discriminate|]]);
    try intros q Hq H1 H2; try assumption;
    boxes; lia.
Qed.

(** One pass of the merge loop over the sections. *)
Lemma join_pass_spec (b : pack_algo.PackingAlgorithm) (secs : list Cuboid) :
  forall sec sec' kept,
    guillotine.join_pass sec secs = (sec', kept) ->
    free_ok b sec -> sections_ok b secs -> clear_of sec secs ->
    free_ok b sec' /\ sections_ok b kept /\ clear_of sec' kept /\
    incl kept secs /\
    (forall q, solid q -> apart sec q -> clear_of q secs -> apart sec' q).
Proof.
  induction secs as [|s rest IH]; intros sec sec' kept E Hsec [Hok Hap] Hcl.
  - cbn in E. inversion E; subst.
    split; [assumption|]. split; [split; constructor|].
    split; [constructor|]. split; [apply incl_refl|].
    intros q _ H _. exact H.
  - cbn [guillotine.join_pass] in E.
    destruct (join sec s) as [joined sec1] eqn:EJ.
    destruct (guillotine.join_pass sec1 rest) as [sec2 kept'] eqn:EP.
    inversion E; subst; clear E.
    inversion Hok as [|? ? Hs_ok Hrest_ok]; subst.
    inversion Hap as [|? ? Hs_ap Hrest_ap]; subst.
    inversion Hcl as [|? ? Hs_cl Hrest_cl]; subst.
    destruct (join_step b sec s sec1 joined EJ Hsec Hs_ok) as [H1 [H2 H3]].
    assert (Hcl1 : clear_of sec1 rest).
    { unfold clear_of. rewrite Forall_forall in *. intros r Hr.
      apply apart_sym. apply H3.
      - apply (Hrest_ok r Hr).
      - apply apart_sym. auto.
      - auto. }
    destruct (IH sec1 sec' kept' EP H1 (conj Hrest_ok Hrest_ap) Hcl1)
      as [G1 [[G2 G2'] [G3 [G4 G5]]]].
    assert (Cov : forall q, solid q -> apart sec q -> clear_of q (s :: rest) ->
                    apart sec' q).
    { intros q Hq Hsq Hcq. inversion Hcq; subst.
      apply G5; auto. }
    destruct joined.
    + split; [assumption|]. split; [split; assumption|].
      split; [assumption|]. split; [now apply incl_tl|]. exact Cov.
    + specialize (H2 eq_refl). subst sec1.
      split; [assumption|]. split; [split|].
      * constructor; assumption.
      * constructor; [|assumption].
        rewrite Forall_forall in *. intros r Hr. apply Hs_ap. now apply G4.
      * split.
        { constructor; [|assumption]. apply apart_sym.
          apply G5; [apply Hs_ok|now apply apart_sym|].
          unfold clear_of. rewrite Forall_forall in *. intros r Hr.
          apply apart_sym. auto. }
        split; [|exact Cov].
        intros r [<-|Hr]; [now left|right; now apply G4].
Qed.

Lemma clear_of_incl (q : Cuboid) (l l' : list Cuboid) :
  incl l' l -> clear_of q l -> clear_of q l'.
Proof.
  unfold clear_of. rewrite !Forall_forall. intros Hi H s Hs. auto.
Qed.

(** The merge loop, whatever its fuel. *)
Lemma merge_loop_spec (b : pack_algo.PackingAlgorithm) (fuel : nat) :
  forall merge plen sec secs sec' secs',
    guillotine.merge_loop fuel merge plen sec secs = (sec', secs') ->
    free_ok b sec -> sections_ok b secs -> clear_of sec secs ->
    free_ok b sec' /\ sections_ok b secs' /\ clear_of sec' secs' /\
    incl secs' secs /\
    (forall q, solid q -> apart sec q -> clear_of q secs -> apart sec' q).
Proof.
  induction fuel as [|fuel IH]; intros merge plen sec secs sec' secs' E
    Hsec Hok Hcl; cbn [guillotine.merge_loop] in E.
  - inversion E; subst.
    repeat (split; [assumption|]). split; [apply incl_refl|].
    intros q _ H _. exact H.
  - destruct (_ && _ && _).
    + destruct (guillotine.join_pass sec secs) as [sec1 secs1] eqn:EP.
      destruct (join_pass_spec b secs sec sec1 secs1 EP Hsec Hok Hcl)
        as [H1 [H2 [H3 [H4 H5]]]].
      destruct (IH _ _ _ _ _ _ E H1 H2 H3) as [G1 [G2 [G3 [G4 G5]]]].
      repeat (split; [assumption|]).
      split; [intros r Hr; auto|].
      intros q Hq Hsq Hcq. apply G5; auto.
      eapply clear_of_incl; eassumption.
    + inversion E; subst.
      repeat (split; [assumption|]). split; [apply incl_refl|].
      intros q _ H _. exact H.
Qed.

(** Adding a section [n] that is clear of the sections [L]. *)
Lemma add_step (b : pack_algo.PackingAlgorithm) (L : list Cuboid) (n : Cuboid) :
  sections_ok b L -> free_ok b n -> clear_of n L ->
  exists L',
    guillotine._add_section (pack_algo.set_sections b L) n
      = pack_algo.set_sections b L' /\
    sections_ok b L' /\
    (forall q, solid q -> apart n q -> clear_of q L -> clear_of q L').
Proof.
  intros Hok Hn Hcl. unfold guillotine._add_section.
  cbn [pack_algo._sections pack_algo.set_sections pack_algo._merge].
  destruct (guillotine.merge_loop _ _ _ _ _) as [sec1 secs1] eqn:E.
  apply (merge_loop_spec b) in E; [| | exact Hok |].
  - destruct E as [G1 [[G2 G2'] [G3 [G4 G5]]]].
    exists (secs1 ++ [sec1]). split; [reflexivity|]. split; [split|].
    + apply Forall_app. split; [assumption|].
      constructor; [assumption|constructor].
    + apply FOP_snoc; assumption.
    + intros q Hq Hnq Hcq. unfold clear_of. apply Forall_app. split.
      * eapply clear_of_incl; eassumption.
      * constructor; [|constructor]. apply G5; auto.
  - revert Hn. boxes. lia.
  - revert Hcl. unfold clear_of. apply Forall_impl. intros a. boxes. lia.
Qed.

Lemma add_step_if (c : bool) (b : pack_algo.PackingAlgorithm)
    (L : list Cuboid) (n : Cuboid) :
  sections_ok b L -> (c = true -> free_ok b n /\ clear_of n L) ->
  exists L',
    (if c then guillotine._add_section (pack_algo.set_sections b L) n
     else pack_algo.set_sections b L)
      = pack_algo.set_sections b L' /\
    sections_ok b L' /\
    (forall q, solid q -> (c = true -> apart n q) -> clear_of q L ->
       clear_of q L').
Proof.
  intros Hok Hc. destruct c.
  - destruct (Hc eq_refl) as [Hn Hcl].
    destruct (add_step b L n Hok Hn Hcl) as [L' [E [H1 H2]]].
    exists L'. repeat (split; [assumption|]). intros q Hq Hnq. auto.
  - exists L. split; [reflexivity|]. split; [assumption|]. auto.
Qed.

Lemma clear_of_sub (s m : Cuboid) (L : list Cuboid) :
  sub s m -> clear_of m L -> clear_of s L.
Proof.
  unfold clear_of. intros Hs. apply Forall_impl. intros a Ha.
  apply apart_sym. eapply apart_sub; [exact Hs|]. now apply apart_sym.
Qed.

(** The up to three sections a split adds, each inside the section
    [sec] that was taken out, apart from the placed cuboid and from one
    another. *)
Lemma three_adds (b : pack_algo.PackingAlgorithm) (S0 : list Cuboid)
    (sec cub : Cuboid) (c1 c2 c3 : bool) (n1 n2 n3 : Cuboid) :
  sections_ok b S0 -> clear_of sec S0 -> solid cub -> sub cub sec ->
  (c1 = true -> free_ok b n1 /\ sub n1 sec /\ apart n1 cub) ->
  (c2 = true -> free_ok b n2 /\ sub n2 sec /\ apart n2 cub) ->
  (c3 = true -> free_ok b n3 /\ sub n3 sec /\ apart n3 cub) ->
  (c1 = true -> c2 = true -> apart n1 n2) ->
  (c1 = true -> c3 = true -> apart n1 n3) ->
  (c2 = true -> c3 = true -> apart n2 n3) ->
  exists L,
    (let self1 :=
       if c1 then guillotine._add_section (pack_algo.set_sections b S0) n1
       else pack_algo.set_sections b S0 in
     let self2 :=
       if c2 then guillotine._add_section self1 n2 else self1 in
     if c3 then guillotine._add_section self2 n3 else self2)
      = pack_algo.set_sections b L /\
    sections_ok b L /\ clear_of cub L /\
    (forall q, solid q -> apart sec q -> clear_of q S0 -> clear_of q L).
Proof.
  intros Hok Hcl Hcub Hsub H1 H2 H3 H12 H13 H23.
  destruct (add_step_if c1 b S0 n1 Hok) as [L1 [E1 [Ok1 Cov1]]].
  { intros C. destruct (H1 C) as [G1 [G2 _]]. split; [assumption|].
    eapply clear_of_sub; eassumption. }
  destruct (add_step_if c2 b L1 n2 Ok1) as [L2 [E2 [Ok2 Cov2]]].
  { intros C. destruct (H2 C) as [G1 [G2 _]]. split; [assumption|].
    apply Cov1; [apply G1|auto|]. eapply clear_of_sub; eassumption. }
  destruct (add_step_if c3 b L2 n3 Ok2) as [L3 [E3 [Ok3 Cov3]]].
  { intros C. destruct (H3 C) as [G1 [G2 _]]. split; [assumption|].
    apply Cov2; [apply G1|auto|].
    apply Cov1; [apply G1|auto|]. eapply clear_of_sub; eassumption. }
  exists L3. cbv zeta. rewrite E1, E2, E3.
  split; [reflexivity|]. split; [assumption|].
  assert (Cov : forall q, solid q ->
                  (c1 = true -> apart n1 q) -> (c2 = true -> apart n2 q) ->
                  (c3 = true -> apart n3 q) -> clear_of q S0 -> clear_of q L3)
    by (intros; auto).
  split.
  - apply Cov; auto.
    + intros C. apply H1; assumption.
    + intros C. apply H2; assumption.
    + intros C. apply H3; assumption.
    + eapply clear_of_sub; eassumption.
  - intros q Hq Hsq Hcq. apply Cov; auto; intros C; apply apart_sub with (m := sec);
      auto; [apply H1|apply H2|apply H3]; assumption.
Qed.

Lemma split_spec (horizontal : bool) (b : pack_algo.PackingAlgorithm)
    (S0 : list Cuboid) (sec : Cuboid) (w1 h1 d : Z) (r : option Z) :
  sections_ok b S0 -> free_ok b sec -> clear_of sec S0 ->
  0 < w1 -> 0 < h1 -> 0 < d -> holds sec w1 h1 d ->
  exists L,
    (if horizontal
     then guillotine._split_horizontal (pack_algo.set_sections b S0) sec w1 h1 d
     else guillotine._split_vertical (pack_algo.set_sections b S0) sec w1 h1 d)
      = pack_algo.set_sections b L /\
    sections_ok b L /\
    clear_of (mkCuboid (x sec) (y sec) (z sec) w1 h1 d r) L /\
    (forall q, solid q -> apart sec q -> clear_of q S0 -> clear_of q L).
Proof.
  intros Hok Hsec Hcl Hw Hh Hd Hholds.
  destruct horizontal;
    [unfold guillotine._split_horizontal|unfold guillotine._split_vertical];
    apply three_adds with (sec := sec); auto;
    try (intros C); try (intros C'); boxes; lia.
Qed.

Lemma inv_guillotine_intro (b : pack_algo.PackingAlgorithm)
    (f : pack_algo.selection) (rule : pack_algo.split_rule)
    (L placed : list Cuboid) :
  pack_algo.cls b = pack_algo.Guillotine f rule ->
  Forall solid placed ->
  Forall (fun c => sub c (bin_volume b)) placed ->
  ForallOrdPairs apart placed ->
  sections_ok b L ->
  (forall c, In c placed -> clear_of c L) ->
  inv (pack_algo.set_cuboids (pack_algo.set_sections b L) placed).
Proof.
  intros Hcls H1 H2 H3 [H4 H5] H6.
  constructor; unfold free_regions;
    cbn [pack_algo.cuboids pack_algo.set_cuboids pack_algo.set_sections
           pack_algo.cls pack_algo._sections];
    rewrite ?Hcls; auto.
Qed.

Lemma inv_guillotine_elim (b : pack_algo.PackingAlgorithm)
    (f : pack_algo.selection) (rule : pack_algo.split_rule) :
  pack_algo.cls b = pack_algo.Guillotine f rule -> inv b ->
  sections_ok b (pack_algo._sections b) /\
  (forall c, In c (pack_algo.cuboids b) -> clear_of c (pack_algo._sections b)).
Proof.
  intros Hcls I.
  pose proof (inv_free_ok b I) as H1.
  pose proof (inv_free_placed b I) as H2.
  pose proof (inv_sections_apart b I) as H3.
  unfold free_regions in *. rewrite Hcls in *.
  split; [split; assumption|exact H2].
Qed.

Lemma set_cuboids_same (b : pack_algo.PackingAlgorithm) (L : list Cuboid) :
  pack_algo.set_cuboids (pack_algo.set_sections b L) (pack_algo.cuboids b)
    = pack_algo.set_sections b L.
Proof. reflexivity. Qed.

(** [Guillotine.add_cub] keeps the invariant, also when [_split]
    raises. *)
Lemma guillotine_add_cub_inv (f : pack_algo.selection)
    (rule : pack_algo.split_rule) (b : pack_algo.PackingAlgorithm)
    (w h d : Z) (rid_ : option Z) :
  pack_algo.cls b = pack_algo.Guillotine f rule -> inv b ->
  0 < w -> 0 < h -> 0 < d ->
  inv (fst (guillotine.add_cub f rule b w h d rid_)).
Proof.
  intros Hcls I Hw Hh Hd. unfold guillotine.add_cub.
  destruct (negb _); [exact I|].
  destruct (guillotine._select_fittest_section f b w h d)
    as [[sec rotated]|] eqn:E; [|exact I].
  apply select_fittest_spec in E. destruct E as [Hin Hholds].
  destruct (inv_guillotine_elim b f rule Hcls I) as [Hok Hplaced].
  destruct (remove_spec b sec _ Hok Hin) as [secs [ER [Hok1 [Hcl1 Hincl]]]].
  rewrite ER.
  assert (Hsec : free_ok b sec).
  { destruct Hok as [Hok _]. rewrite Forall_forall in Hok. auto. }
  assert (Hstay : inv (pack_algo.set_sections b secs)).
  { rewrite <- set_cuboids_same.
    apply (inv_guillotine_intro b f rule); auto.
    - apply (inv_placed_solid b I).
    - apply (inv_placed_sub b I).
    - apply (inv_placed_apart b I).
    - intros c Hc. eapply clear_of_incl; [exact Hincl|]. auto. }
  set (w1 := if rotated then h else w) in *.
  set (h1 := if rotated then w else h) in *.
  assert (Hw1 : 0 < w1) by (subst w1; destruct rotated; assumption).
  assert (Hh1 : 0 < h1) by (subst h1; destruct rotated; assumption).
  replace (if rotated then (h, w) else (w, h)) with (w1, h1)
    by (subst w1 h1; destruct rotated; reflexivity).
  assert (Hplace : forall L,
    sections_ok b L ->
    clear_of (mkCuboid (x sec) (y sec) (z sec) w1 h1 d rid_) L ->
    (forall q, solid q -> apart sec q -> clear_of q secs -> clear_of q L) ->
    inv (pack_algo.set_cuboids (pack_algo.set_sections b L)
           (pack_algo.cuboids b
              ++ [mkCuboid (x sec) (y sec) (z sec) w1 h1 d rid_]))).
  { intros L HL Hcub Hcov.
    pose proof (inv_placed_solid b I) as P1.
    pose proof (inv_placed_sub b I) as P2.
    apply (inv_guillotine_intro b f rule); auto.
    - apply Forall_app. split; [assumption|].
      constructor; [|constructor]. boxes. lia.
    - apply Forall_app. split; [assumption|].
      constructor; [|constructor]. revert Hsec Hholds. boxes. lia.
    - apply FOP_snoc; [apply (inv_placed_apart b I)|].
      apply Forall_forall. intros c Hc.
      specialize (Hplaced c Hc). unfold clear_of in Hplaced.
      rewrite Forall_forall in Hplaced. specialize (Hplaced sec Hin).
      revert Hplaced Hholds. boxes. lia.
    - intros c Hc. apply in_app_or in Hc. destruct Hc as [Hc|[<-|[]]].
      + apply Hcov.
        * rewrite Forall_forall in P1. auto.
        * apply apart_sym.
          specialize (Hplaced c Hc). unfold clear_of in Hplaced.
          rewrite Forall_forall in Hplaced. apply apart_sym. auto.
        * eapply clear_of_incl; [exact Hincl|]. auto.
      + exact Hcub. }
  destruct (split_spec true b secs sec w1 h1 d rid_ Hok1 Hsec Hcl1 Hw1 Hh1 Hd
              Hholds) as [LH [EH [OkH [CubH CovH]]]].
  destruct (split_spec false b secs sec w1 h1 d rid_ Hok1 Hsec Hcl1 Hw1 Hh1 Hd
              Hholds) as [LV [EV [OkV [CubV CovV]]]].
  cbv beta iota in EH, EV.
  unfold guillotine._split. rewrite EH, EV.
  destruct rule;
    repeat match goal with
    | |- context [if ?c then _ else _] => destruct c
    end;
    cbn [fst abort pack_algo.cuboids pack_algo.set_sections];
    auto.
Qed.

(** *** Every bin, every sequence of items *)

Lemma bin_add_cub_inv (b : pack_algo.PackingAlgorithm) (w h d : Z)
    (rid_ : option Z) :
  inv b -> 0 < w -> 0 < h -> 0 < d -> inv (fst (bin.add_cub b w h d rid_)).
Proof.
  intros I Hw Hh Hd. unfold bin.add_cub.
  destruct (pack_algo.cls b) as [f rule|v] eqn:Hcls.
  - now apply guillotine_add_cub_inv.
  - now apply maxcubs_add_cub_inv.
Qed.

Lemma add_cubs_inv (items : list packer.cub_item) :
  forall b, inv b -> Forall positive_item items -> inv (add_cubs b items).
Proof.
  induction items as [|[[[w h] d] r] items IH]; intros b I Hp; [exact I|].
  inversion Hp as [|? ? Hpos Hrest]; subst.
  cbn [positive_item] in Hpos. destruct Hpos as [Hw [Hh Hd]].
  cbn [add_cubs]. apply IH; [|assumption]. now apply bin_add_cub_inv.
Qed.

(** A bin without volume: its free regions hold nothing, and nothing is
    ever placed. *)
Lemma add_cubs_degenerate (items : list packer.cub_item) :
  forall b,
    Forall (fun s => ~ solid s) (free_regions b) ->
    Forall positive_item items -> add_cubs b items = b.
Proof.
  induction items as [|[[[w h] d] r] items IH]; intros b Hb Hp; [reflexivity|].
  inversion Hp as [|? ? Hpos Hrest]; subst.
  cbn [add_cubs].
  rewrite (single_bin_unplaceable w h d Hpos b r).
  - cbn [fst]. now apply IH.
  - intros s Hs. rewrite Forall_forall in Hb. specialize (Hb s Hs).
    cbn [positive_item] in Hpos. split; [|intros _]; intros Hh';
      apply Hb; revert Hh'; boxes; lia.
Qed.

(** A bin as [__init__] leaves it: empty, with the whole volume as its
    one free region. *)
Lemma init_shape (c : pack_algo.algo) (W H D : Z) (r m : bool)
    (b0 : pack_algo.PackingAlgorithm) :
  bin.init c W H D r m = Ret b0 ->
  pack_algo.cuboids b0 = [] /\
  pack_algo.cls b0 = c /\
  pack_algo.width b0 = W /\ pack_algo.height b0 = H /\
  pack_algo.depth b0 = D /\
  exists rid0, free_regions b0 = [mkCuboid 0 0 0 W H D rid0].
Proof.
  unfold bin.init. destruct (negb _); [discriminate|].
  intros E. inversion E; subst; clear E.
  unfold bin.reset, free_regions. destruct c as [f rule|v];
    cbn [pack_algo.cls].
  - unfold guillotine.reset, guillotine._add_section.
    cbn [pack_algo._sections pack_algo.set_sections pack_algo.reset
           pack_algo.set_cuboids pack_algo._merge List.length Nat.add
           guillotine.merge_loop Nat.eqb negb].
    rewrite andb_false_r. cbn. repeat split. eexists. reflexivity.
  - cbn. repeat split. eexists. reflexivity.
Qed.

(** A bin of positive dimensions starts within the invariant. *)
Lemma init_inv (c : pack_algo.algo) (W H D : Z) (r m : bool)
    (b0 : pack_algo.PackingAlgorithm) :
  bin.init c W H D r m = Ret b0 -> 0 < W -> 0 < H -> 0 < D -> inv b0.
Proof.
  intros E HW HH HD.
  destruct (init_shape c W H D r m b0 E)
    as [Hc [Hcls [Hw [Hh [Hd [rid0 Hf]]]]]].
  assert (Hok : free_ok b0 (mkCuboid 0 0 0 W H D rid0)).
  { unfold free_ok, bin_volume. rewrite Hw, Hh, Hd. boxes. lia. }
  constructor; rewrite ?Hc, ?Hf.
  - constructor.
  - constructor.
  - constructor.
  - constructor; [exact Hok|constructor].
  - intros c0 [].
  - rewrite Hcls. destruct c; [|exact I].
    unfold free_regions in Hf. rewrite Hcls in Hf. rewrite Hf.
    repeat constructor.
Qed.

(** *** The dimensions of a bin are never changed *)

Lemma add_section_volume (b : pack_algo.PackingAlgorithm) (n : Cuboid) :
  bin_volume (guillotine._add_section b n) = bin_volume b.
Proof.
  unfold guillotine._add_section.
  destruct (guillotine.merge_loop _ _ _ _ _). reflexivity.
Qed.

Lemma guillotine_split_volume (rule : pack_algo.split_rule)
    (b : pack_algo.PackingAlgorithm) (sec : Cuboid) (w h d : Z) :
  bin_volume (fst (guillotine._split rule b sec w h d)) = bin_volume b.
Proof.
  unfold guillotine._split, guillotine._split_horizontal,
    guillotine._split_vertical.
  destruct rule; repeat break_match; cbn [fst];
    rewrite ?add_section_volume; reflexivity.
Qed.

Lemma bin_add_cub_volume (b : pack_algo.PackingAlgorithm) (w h d : Z)
    (r : option Z) :
  bin_volume (fst (bin.add_cub b w h d r)) = bin_volume b.
Proof.
  unfold bin.add_cub. destruct (pack_algo.cls b) as [f rule|v].
  - unfold guillotine.add_cub.
    destruct (negb _); [reflexivity|].
    destruct (guillotine._select_fittest_section f b w h d) as [[sec rot]|];
      [|reflexivity].
    destruct (if rot then (h, w) else (w, h)) as [w1 h1].
    destruct (guillotine.remove sec _) as [secs|]; [|reflexivity].
    pose proof (guillotine_split_volume rule
                  (pack_algo.set_sections b secs) sec w1 h1 d) as S.
    destruct (guillotine._split rule _ sec w1 h1 d) as [b2 o].
    cbn [fst] in S. destruct o; cbn [fst]; exact S.
  - unfold maxcubs.add_cub. repeat break_match; reflexivity.
Qed.

Lemma add_cubs_volume (items : list packer.cub_item) :
  forall b, bin_volume (add_cubs b items) = bin_volume b.
Proof.
  induction items as [|[[[w h] d] r] items IH]; intros b; [reflexivity|].
  cbn [add_cubs]. now rewrite IH, bin_add_cub_volume.
Qed.

(** C1.  For every single-bin algorithm (every Guillotine class, with
    merge on or off, and every MaxCubs class), every bin that can be
    built and every sequence of [add_cub] calls with strictly positive
    dimensions: after the calls the bin has the dimensions it was built
    with, every placed item lies fully inside it, and no two placed
    items strictly intersect.  A sequence contains each of its
    prefixes, so this holds after each call, whatever it returned. *)
Theorem placed_items_inside_and_apart (c : pack_algo.algo) (W H D : Z)
    (r m : bool) (b0 : pack_algo.PackingAlgorithm)
    (items : list packer.cub_item) :
  bin.init c W H D r m = Ret b0 ->
  Forall positive_item items ->
  bin_volume (add_cubs b0 items) = Cuboid_ 0 0 0 W H D /\
  packing_ok (add_cubs b0 items).
Proof.
  intros E Hp.
  destruct (init_shape c W H D r m b0 E)
    as [Hc [_ [Hw [Hh [Hd [rid0 Hf]]]]]].
  split.
  { rewrite add_cubs_volume. unfold bin_volume. now rewrite Hw, Hh, Hd. }
  destruct (Z_lt_le_dec 0 W) as [HW|HW];
    [destruct (Z_lt_le_dec 0 H) as [HH|HH];
     [destruct (Z_lt_le_dec 0 D) as [HD|HD]|]|].
  1: { apply inv_packing_ok, add_cubs_inv; [|assumption].
       eapply init_inv; eassumption. }
  all: rewrite add_cubs_degenerate; auto;
       [ unfold packing_ok; rewrite Hc; split;
         [intros c0 []|intros [|i] j c1 c2 _ Hi; discriminate]
       | rewrite Hf; constructor; [|constructor]; boxes; lia ].
Qed.

(** [placed_items_inside_and_apart] at a bin (10,10,10) of
    [GuillotineBssfSas] with merge and three items. *)
Lemma placed_items_inside_and_apart_witness :
  bin_volume
    (add_cubs
       (bin.reset
          (pack_algo.mkPackingAlgorithm bin.GuillotineBssfSas 10 10 10 true []
             (Cuboid_ 0 0 0 10 10 10) true [] []))
       [(4, 4, 4, Some 1); (6, 6, 6, Some 2); (4, 6, 10, None)])
    = Cuboid_ 0 0 0 10 10 10 /\
  packing_ok
    (add_cubs
       (bin.reset
          (pack_algo.mkPackingAlgorithm bin.GuillotineBssfSas 10 10 10 true []
             (Cuboid_ 0 0 0 10 10 10) true [] []))
       [(4, 4, 4, Some 1); (6, 6, 6, Some 2); (4, 6, 10, None)]).
Proof.
  apply (placed_items_inside_and_apart bin.GuillotineBssfSas 10 10 10 true true).
  - reflexivity.
  - repeat constructor.
Defined.

(** ** The loops are given enough fuel *)

Lemma join_pass_length (secs : list Cuboid) :
  forall sec,
    (List.length (snd (guillotine.join_pass sec secs)) <= List.length secs)%nat.
Proof.
  induction secs as [|s rest IH]; intros sec; cbn [guillotine.join_pass].
  - cbn. lia.
  - destruct (join sec s) as [joined sec1].
    specialize (IH sec1).
    destruct (guillotine.join_pass sec1 rest) as [sec2 kept].
    destruct joined; cbn [snd List.length] in *; lia.
Qed.

(** The result of the merge loop does not depend on the fuel, once
    there is as much of it as [_add_section] gives. *)
Lemma merge_loop_fuel (fuel1 : nat) :
  forall fuel2 merge plen sec secs,
    (List.length secs + 2 <= fuel1 \/
     plen = List.length secs /\ 1 <= fuel1)%nat ->
    (List.length secs + 2 <= fuel2 \/
     plen = List.length secs /\ 1 <= fuel2)%nat ->
    guillotine.merge_loop fuel1 merge plen sec secs
      = guillotine.merge_loop fuel2 merge plen sec secs.
Proof.
  induction fuel1 as [|fuel1 IH]; intros fuel2 merge plen sec secs H1 H2;
    [lia|].
  destruct fuel2 as [|fuel2]; [lia|].
  cbn [guillotine.merge_loop].
  destruct (Nat.eqb plen (List.length secs)) eqn:E.
  - rewrite andb_false_r. reflexivity.
  - apply Nat.eqb_neq in E.
    destruct (merge && negb (Nat.eqb (List.length secs) 0)); cbn [andb negb];
      [|reflexivity].
    pose proof (join_pass_length secs sec) as Hlen.
    destruct (guillotine.join_pass sec secs) as [sec1 secs1].
    cbn [snd] in Hlen. apply IH; lia.
Qed.

Lemma guillotine_split_reached (rule : pack_algo.split_rule)
    (b : pack_algo.PackingAlgorithm) (sec : Cuboid) (w h d : Z) :
  snd (guillotine._split rule b sec w h d) <> Unreached.
Proof.
  unfold guillotine._split. destruct rule; repeat break_match; cbn; congruence.
Qed.

Lemma bin_add_cub_reached (b : pack_algo.PackingAlgorithm) (w h d : Z)
    (r : option Z) :
  snd (bin.add_cub b w h d r) <> Unreached.
Proof.
  unfold bin.add_cub. destruct (pack_algo.cls b) as [f rule|v].
  - unfold guillotine.add_cub.
    destruct (negb _); [cbn; congruence|].
    destruct (guillotine._select_fittest_section f b w h d) as [[sec rot]|];
      [|cbn; congruence].
    destruct (if rot then (h, w) else (w, h)) as [w1 h1].
    destruct (guillotine.remove sec _) as [secs|]; [|cbn; congruence].
    pose proof (guillotine_split_reached rule
                  (pack_algo.set_sections b secs) sec w1 h1 d) as S.
    destruct (guillotine._split rule _ sec w1 h1 d) as [b2 o].
    cbn [snd] in S. destruct o; cbn; congruence.
  - unfold maxcubs.add_cub. repeat break_match; cbn; congruence.
Qed.

Lemma bin_fitness_reached (b : pack_algo.PackingAlgorithm) (w h d : Z) :
  bin.fitness b w h d <> Unreached.
Proof.
  unfold bin.fitness, guillotine.fitness, maxcubs.fitness.
  repeat break_match; congruence.
Qed.

Lemma fits_volume_reached (b : pack_algo.PackingAlgorithm) (w h d : Z) :
  pack_algo._fits_volume b w h d <> Unreached.
Proof. unfold pack_algo._fits_volume. repeat break_match; congruence. Qed.

Lemma create_bin_reached (f : bin_factory.BinFactory) :
  bin_factory._create_bin f <> Unreached.
Proof.
  unfold bin_factory._create_bin, bin.init. destruct (negb _); congruence.
Qed.

Lemma fits_inside_spec (f : bin_factory.BinFactory) (w h d : Z) :
  snd (bin_factory.fits_inside f w h d) <> Unreached /\
  bin_factory._count (fst (bin_factory.fits_inside f w h d))
    = bin_factory._count f.
Proof.
  unfold bin_factory.fits_inside, bin_factory.ref_bin.
  pose proof (create_bin_reached f) as C.
  destruct (negb (bin_factory.truthy (bin_factory._ref_bin f))) eqn:T.
  - destruct (bin_factory._create_bin f) as [rb|e|];
      cbn [fst snd abort bin_factory._count bin_factory.set_ref_bin];
      [ split; [apply fits_volume_reached|reflexivity]
      | split; [congruence|reflexivity]
      | congruence ].
  - destruct (bin_factory._ref_bin f) as [rb|]; [|discriminate].
    cbn [fst snd]. split; [apply fits_volume_reached|reflexivity].
Qed.

Lemma new_bin_spec (f : bin_factory.BinFactory) :
  snd (bin_factory.new_bin f) <> Unreached /\
  (Z.to_nat (bin_factory._count (fst (bin_factory.new_bin f)))
     <= Z.to_nat (bin_factory._count f))%nat /\
  (forall b, snd (bin_factory.new_bin f) = Ret (Some b) ->
     (Z.to_nat (bin_factory._count (fst (bin_factory.new_bin f)))
        < Z.to_nat (bin_factory._count f))%nat).
Proof.
  unfold bin_factory.new_bin.
  destruct (bin_factory._count f >? 0) eqn:E.
  - pose proof (create_bin_reached
                  (bin_factory.set_count f (bin_factory._count f - 1))) as C.
    destruct (bin_factory._create_bin _) as [rb|e|]; cbn [fst snd abort
      bin_factory._count bin_factory.set_count]; [| |congruence];
      (split; [congruence|]); (split; [lia|]); intros; lia.
  - cbn [fst snd]. split; [congruence|]. split; [lia|]. discriminate.
Qed.

Lemma scan_factories_ok (facs : list (nat * bin_factory.BinFactory))
    (w h d : Z) :
  scan_ok facs (packer.scan_factories facs w h d).
Proof.
  induction facs as [|[key f] rest IH]; cbn [packer.scan_factories].
  - cbn. split; [congruence|]. split; [lia|]. discriminate.
  - destruct (fits_inside_spec f w h d) as [F1 F2].
    destruct (bin_factory.fits_inside f w h d) as [f1 r1].
    cbn [fst snd] in F1, F2.
    destruct (packer.scan_factories rest w h d) as [[rest1 del] res].
    destruct IH as [I1 [I2 I3]].
    destruct r1 as [[|]|e|]; [| | |congruence].
    + destruct (new_bin_spec f1) as [N1 [N2 N3]].
      destruct (bin_factory.new_bin f1) as [f2 r2].
      cbn [fst snd] in N1, N2, N3.
      destruct r2 as [[b|]|e|]; [| | |congruence]; unfold scan_ok;
        rewrite !stock_cons.
      * split; [congruence|]. split; [lia|]. intros b' _.
        specialize (N3 b eq_refl). lia.
      * split; [assumption|]. split; [lia|]. intros b' Hb.
        specialize (I3 b' Hb). lia.
      * cbn [abort]. split; [congruence|]. split; [lia|]. discriminate.
    + unfold scan_ok. rewrite !stock_cons.
      split; [assumption|]. split; [lia|]. intros b' Hb.
      specialize (I3 b' Hb). lia.
    + unfold scan_ok. rewrite !stock_cons. cbn [abort].
      split; [congruence|]. split; [lia|]. discriminate.
Qed.

Lemma a_cuboid_fits_spec (remaining : list (nat * packer.cub_item)) :
  forall f,
    snd (packer.a_cuboid_fits f remaining) <> Unreached /\
    bin_factory._count (fst (packer.a_cuboid_fits f remaining))
      = bin_factory._count f.
Proof.
  induction remaining as [|[k [[[w h] d] r]] rest IH]; intros f;
    cbn [packer.a_cuboid_fits packer.dims].
  - cbn. split; [congruence|reflexivity].
  - destruct (fits_inside_spec f w h d) as [F1 F2].
    destruct (bin_factory.fits_inside f w h d) as [f1 r1].
    cbn [fst snd] in F1, F2.
    destruct r1 as [[|]|e|]; cbn [fst snd]; try (split; congruence).
    destruct (IH f1) as [I1 I2]. split; [assumption|congruence].
Qed.

Lemma scan_factories_global_ok (facs : list (nat * bin_factory.BinFactory))
    (remaining : list (nat * packer.cub_item)) :
  scan_ok facs (packer.scan_factories_global facs remaining).
Proof.
  induction facs as [|[key f] rest IH]; cbn [packer.scan_factories_global].
  - cbn. split; [congruence|]. split; [lia|]. discriminate.
  - destruct (a_cuboid_fits_spec remaining f) as [F1 F2].
    destruct (packer.a_cuboid_fits f remaining) as [f1 r1].
    cbn [fst snd] in F1, F2.
    destruct (packer.scan_factories_global rest remaining)
      as [[rest1 del] res].
    destruct IH as [I1 [I2 I3]].
    destruct r1 as [[|]|e|]; [| | |congruence].
    + destruct (new_bin_spec f1) as [N1 [N2 N3]].
      destruct (bin_factory.new_bin f1) as [f2 r2].
      cbn [fst snd] in N1, N2, N3.
      destruct r2 as [[b|]|e|]; [| | |congruence]; unfold scan_ok;
        rewrite !stock_cons.
      * split; [congruence|]. split; [lia|]. intros b' _.
        specialize (N3 b eq_refl). lia.
      * split; [assumption|]. split; [lia|]. intros b' Hb.
        specialize (I3 b' Hb). lia.
      * cbn [abort]. split; [congruence|]. split; [lia|]. discriminate.
    + unfold scan_ok. rewrite !stock_cons.
      split; [assumption|]. split; [lia|]. intros b' Hb.
      specialize (I3 b' Hb). lia.
    + unfold scan_ok. rewrite !stock_cons. cbn [abort].
      split; [congruence|]. split; [lia|]. discriminate.
Qed.

Lemma delete_keys_stock (del : list nat)
    (facs : list (nat * bin_factory.BinFactory)) :
  (packer.stock (packer.delete_keys del facs) <= packer.stock facs)%nat.
Proof.
  unfold packer.delete_keys. induction facs as [|[k f] rest IH]; cbn [filter].
  - lia.
  - destruct (negb _); rewrite !stock_cons; lia.
Qed.

Lemma scan_open_ok (p : packer.PackerOnline)
    (res : list (nat * bin_factory.BinFactory) * list nat
           * outcome (option pack_algo.PackingAlgorithm)) :
  scan_ok (packer._empty_bins p) res ->
  open_ok p
    (match res with
     | (facs, del, Ret None) =>
         (packer.set_empty_bins p (packer.delete_keys del facs), Ret None)
     | (facs, del, Ret (Some b)) =>
         (packer.set_empty_bins
            (packer.set_open_bins p (packer._open_bins p ++ [b]))
            (packer.delete_keys del facs),
          Ret (Some b))
     | (facs, _, o) => (packer.set_empty_bins p facs, o)
     end).
Proof.
  destruct res as [[facs del] r]. intros [S1 [S2 S3]].
  pose proof (delete_keys_stock del facs) as D.
  destruct r as [[b|]|e|]; [| | |congruence]; unfold open_ok;
    cbn [packer._closed_bins packer._open_bins packer._empty_bins
           packer.set_empty_bins packer.set_open_bins].
  - specialize (S3 b eq_refl). repeat split; try congruence; lia.
  - repeat split; try congruence; lia.
  - repeat split; try congruence; lia.
Qed.

Lemma new_open_bin_ok (p : packer.PackerOnline) (w h d : Z) :
  open_ok p (packer._new_open_bin p w h d).
Proof. apply scan_open_ok, scan_factories_ok. Qed.

Lemma Global_new_open_bin_ok (p : packer.PackerOnline)
    (remaining : list (nat * packer.cub_item)) :
  open_ok p (packer.Global_new_open_bin p remaining).
Proof. apply scan_open_ok, scan_factories_global_ok. Qed.

Lemma call_new_open_bin_ok (k : packer.bin_algo) (p : packer.PackerOnline)
    (w h d : Z) :
  open_ok p (packer.call_new_open_bin k p w h d).
Proof.
  destruct k; try apply new_open_bin_ok.
  cbn. repeat split; try congruence; lia.
Qed.

Section Reached.

Variables w h d : Z.
Variable rid_ : option Z.

(** Next-Fit stops before its fuel does: every turn that goes on
    closes a bin, and a bin that is opened comes out of the stock. *)
Lemma BNF_loop_ok (k : packer.bin_algo) (fuel : nat) :
  forall p,
    (List.length (packer._open_bins p) + packer.stock (packer._empty_bins p)
       < fuel)%nat ->
    loop_ok k p (packer.BNF_loop fuel k p w h d rid_).
Proof.
  induction fuel as [|fuel IH]; intros p Hm; [lia|].
  assert (Turn : forall p1 b others,
    packer._open_bins p1 = b :: others ->
    (List.length others + packer.stock (packer._empty_bins p1) < fuel)%nat ->
    (packer.stock (packer._empty_bins p1)
       <= packer.stock (packer._empty_bins p))%nat ->
    loop_ok k p
      (match bin.add_cub b w h d rid_ with
       | (b1, Ret (Some cub)) =>
           (packer.set_open_bins p1 (b1 :: others), Ret (PyCub cub))
       | (b1, Ret None) =>
           packer.BNF_loop fuel k
             (packer.set_closed_bins (packer.set_open_bins p1 others)
                (packer._closed_bins p1 ++ [b1]))
             w h d rid_
       | (b1, o) => (packer.set_open_bins p1 (b1 :: others), abort o)
       end)).
  { intros p1 b others Ho Hf Hs.
    pose proof (bin_add_cub_reached b w h d rid_) as R.
    destruct (bin.add_cub b w h d rid_) as [b1 o]. cbn [snd] in R.
    destruct o as [[cub|]|e|]; [| | |congruence].
    - unfold loop_ok.
      cbn [packer._open_bins packer._empty_bins packer.set_open_bins].
      split; [congruence|]. split; [lia|]. intros _ v _. discriminate.
    - specialize (IH (packer.set_closed_bins (packer.set_open_bins p1 others)
                        (packer._closed_bins p1 ++ [b1]))).
      cbn [packer._open_bins packer._empty_bins packer.set_closed_bins
             packer.set_open_bins] in IH.
      specialize (IH Hf).
      destruct (packer.BNF_loop fuel k _ w h d rid_) as [p2 r2].
      unfold loop_ok in *.
      cbn [packer._open_bins packer._empty_bins packer.set_closed_bins
             packer.set_open_bins] in IH.
      destruct IH as [I1 [I2 I3]].
      split; [assumption|]. split; [lia|]. assumption.
    - unfold loop_ok.
      cbn [packer._open_bins packer._empty_bins packer.set_open_bins abort].
      split; [congruence|]. split; [lia|]. intros _ v E. discriminate. }
  cbn [packer.BNF_loop].
  destruct (packer._open_bins p) as [|b others] eqn:Ho.
  - pose proof (call_new_open_bin_ok k p w h d) as O.
    destruct (packer.call_new_open_bin k p w h d) as [p1 r1] eqn:EC.
    unfold open_ok in O. destruct O as [O1 [O2 [O3 O4]]].
    destruct r1 as [[b|]|e|]; [| | |congruence].
    + destruct O4 as [O4 O5]. rewrite Ho in O4. cbn [app] in O4.
      rewrite O4. apply (Turn p1 b []); auto; cbn [List.length] in *; lia.
    + unfold loop_ok. split; [congruence|]. split; [lia|].
      intros ->. cbn in EC. discriminate.
    + unfold loop_ok. cbn [abort]. split; [congruence|]. split; [lia|].
      intros _ v E. discriminate.
  - apply (Turn p b others); auto. cbn [List.length] in Hm. lia.
Qed.

(** So do the loops of First-Fit and Best-Fit over the factories. *)
Lemma new_bins_loop_reached (k : packer.bin_algo) (fuel : nat) :
  forall p,
    (packer.stock (packer._empty_bins p) < fuel)%nat ->
    snd (packer.BFF_loop fuel k p w h d rid_) <> Unreached /\
    snd (packer.BBF_loop fuel k p w h d rid_) <> Unreached.
Proof.
  induction fuel as [|fuel IH]; intros p Hm; [lia|].
  cbn [packer.BFF_loop packer.BBF_loop].
  pose proof (call_new_open_bin_ok k p w h d) as O.
  destruct (packer.call_new_open_bin k p w h d) as [p1 r1].
  unfold open_ok in O. destruct O as [O1 [O2 [O3 O4]]].
  destruct r1 as [[b|]|e|]; [| | |congruence]; cbn [snd abort];
    try (split; congruence).
  destruct O4 as [O4 O5].
  pose proof (bin_add_cub_reached b w h d rid_) as R.
  destruct (bin.add_cub b w h d rid_) as [b1 o]. cbn [snd] in R.
  destruct o as [[cub|]|e|]; [| | |congruence]; cbn [snd abort];
    try (split; congruence).
  apply IH. unfold packer.set_last_open.
  cbn [packer._empty_bins packer.set_open_bins]. lia.
Qed.

Lemma first_fit_reached (open : list pack_algo.PackingAlgorithm) :
  snd (packer.first_fit open w h d rid_) <> Unreached.
Proof.
  induction open as [|b others IH]; cbn [packer.first_fit].
  - cbn. congruence.
  - pose proof (bin_add_cub_reached b w h d rid_) as R.
    destruct (bin.add_cub b w h d rid_) as [b1 o]. cbn [snd] in R.
    destruct o as [[cub|]|e|]; [| | |congruence]; cbn [snd];
      try congruence.
    destruct (packer.first_fit others w h d rid_) as [others1 r].
    exact IH.
Qed.

Lemma fit_open_spec (open : list pack_algo.PackingAlgorithm) :
  forall i,
    packer.fit_open open i w h d <> Unreached /\
    (forall l, packer.fit_open open i w h d = Ret l ->
       Forall (fun e => (i <= snd e < i + List.length open)%nat) l).
Proof.
  induction open as [|b others IH]; intros i; cbn [packer.fit_open].
  - split; [congruence|]. intros l E. inversion E. constructor.
  - pose proof (bin_fitness_reached b w h d) as R.
    destruct (bin.fitness b w h d) as [v|e|]; [| |congruence].
    + destruct (IH (S i)) as [I1 I2].
      destruct (packer.fit_open others (S i) w h d) as [l'|e|];
        [| |congruence].
      * split; [congruence|]. intros l E. inversion E; subst; clear E.
        specialize (I2 l' eq_refl).
        assert (I2' : Forall (fun e : Z * nat =>
                  (i <= snd e < i + List.length (b :: others))%nat) l').
        { revert I2. apply Forall_impl. intros a. cbn [List.length]. lia. }
        destruct v; [constructor|]; auto. cbn [snd List.length]. lia.
      * split; [congruence|]. discriminate.
    + cbn [abort]. split; [congruence|]. discriminate.
Qed.

(** The dispatching [add_cub] of every heuristic returns or raises. *)
Lemma add_cub_reached (k : packer.bin_algo) (p : packer.PackerOnline) :
  snd (packer.add_cub k p w h d rid_) <> Unreached.
Proof.
  assert (B : forall k', snd (packer.BNF_add_cub k' p w h d rid_) <> Unreached).
  { intros k'. unfold packer.BNF_add_cub.
    pose proof (BNF_loop_ok k'
      (S (List.length (packer._open_bins p)
          + packer.stock (packer._empty_bins p))) p) as L.
    destruct (packer.BNF_loop _ k' p w h d rid_) as [p' r].
    apply L. lia. }
  destruct k; cbn [packer.add_cub]; try apply B.
  - unfold packer.BFF_add_cub.
    pose proof (first_fit_reached (packer._open_bins p)) as F.
    destruct (packer.first_fit _ w h d rid_) as [open o]. cbn [snd] in F.
    destruct o as [[cub|]|e|]; [| | |congruence]; cbn [snd abort];
      try congruence.
    apply new_bins_loop_reached.
    cbn [packer._empty_bins packer.set_open_bins]. lia.
  - unfold packer.BBF_add_cub.
    destruct (fit_open_spec (packer._open_bins p) 0) as [F1 F2].
    destruct (packer.fit_open _ 0 w h d) as [fit|e|]; [| |congruence];
      [|cbn; congruence].
    specialize (F2 fit eq_refl).
    destruct (min_by_key fit) as [[f i]|] eqn:EM.
    + apply min_by_key_In in EM. rewrite Forall_forall in F2.
      specialize (F2 _ EM). cbn [snd] in F2.
      destruct (nth_error (packer._open_bins p) i) as [best|] eqn:EN.
      * pose proof (bin_add_cub_reached best w h d rid_) as R.
        destruct (bin.add_cub best w h d rid_) as [b1 o]. cbn [snd] in R.
        destruct o as [v|e|]; [| |congruence]; [cbn; congruence|].
        destruct e; cbn [snd abort]; try congruence.
        apply new_bins_loop_reached.
        cbn [packer._empty_bins packer.set_open_bins]. lia.
      * apply nth_error_None in EN. lia.
    + apply new_bins_loop_reached. lia.
Qed.

End Reached.

Lemma pack_sorted_reached (k : packer.bin_algo) (l : list packer.cub_item) :
  forall p, snd (packer.pack_sorted k p l) <> Unreached.
Proof.
  induction l as [|[[[w h] d] r] l IH]; intros p; cbn [packer.pack_sorted].
  - cbn. congruence.
  - pose proof (add_cub_reached w h d r k p) as R.
    destruct (packer.add_cub k p w h d r) as [p1 o]. cbn [snd] in R.
    destruct o as [v|e|]; [| |congruence]; [apply IH|cbn; congruence].
Qed.

Lemma last_error_None (l : list pack_algo.PackingAlgorithm) :
  packer.last_error l = None -> l = [].
Proof.
  induction l as [|a l IH]; [reflexivity|].
  cbn [packer.last_error]. destruct l as [|a' l']; [discriminate|].
  intros E. specialize (IH E). discriminate.
Qed.

Lemma fit_remaining_spec (pbin : pack_algo.PackingAlgorithm)
    (remaining : list (nat * packer.cub_item)) :
  packer.fit_remaining pbin remaining <> Unreached /\
  (forall l, packer.fit_remaining pbin remaining = Ret l ->
     Forall (fun e => exists c, In (snd e, c) remaining) l).
Proof.
  induction remaining as [|[key c] rest [I1 I2]];
    cbn [packer.fit_remaining].
  - split; [congruence|]. intros l E. inversion E. constructor.
  - destruct (packer.dims c) as [[c0 c1] c2].
    pose proof (bin_fitness_reached pbin c0 c1 c2) as R.
    destruct (bin.fitness pbin c0 c1 c2) as [v|e|]; [| |congruence].
    + destruct (packer.fit_remaining pbin rest) as [l'|e|]; [| |congruence].
      * split; [congruence|]. intros l E. inversion E; subst; clear E.
        specialize (I2 l' eq_refl).
        assert (I2' : Forall (fun e : Z * nat =>
                  exists c', In (snd e, c') ((key, c) :: rest)) l').
        { revert I2. apply Forall_impl. intros a [c' Hc'].
          exists c'. now right. }
        destruct v; [constructor|]; auto. exists c. now left.
      * split; [congruence|]. discriminate.
    + cbn [abort]. split; [congruence|]. discriminate.
Qed.

Lemma lookup_In (key : nat) (c : packer.cub_item)
    (remaining : list (nat * packer.cub_item)) :
  In (key, c) remaining ->
  packer.lookup key remaining <> None /\
  (List.length (packer.delete key remaining) < List.length remaining)%nat.
Proof.
  unfold packer.delete.
  induction remaining as [|[k c'] rest IH]; intros H; [contradiction|].
  cbn [packer.lookup filter fst].
  assert (L : (List.length (filter (fun kc : nat * packer.cub_item =>
                 negb (Nat.eqb (fst kc) key)) rest) <= List.length rest)%nat)
    by apply filter_length_le.
  destruct (Nat.eqb k key) eqn:E; cbn [negb List.length].
  - split; [congruence|lia].
  - destruct H as [H|H].
    + inversion H; subst. rewrite Nat.eqb_refl in E. discriminate.
    + destruct (IH H) as [I1 I2]. split; [assumption|lia].
Qed.

(** The inner loop of [PackerGlobal.pack] deletes a remaining cuboid
    at every turn that goes on, and finds [pbin] among the open bins. *)
Lemma Global_fill_ok (fuel : nat) :
  forall p remaining,
    (List.length remaining < fuel)%nat -> packer._open_bins p <> [] ->
    fill_ok p remaining (packer.Global_fill fuel p remaining).
Proof.
  induction fuel as [|fuel IH]; intros p remaining Hm Ho; [lia|].
  cbn [packer.Global_fill].
  destruct (packer.last_error (packer._open_bins p)) as [pbin|] eqn:EL;
    [|apply last_error_None in EL; contradiction].
  unfold packer._find_best_fit.
  destruct (fit_remaining_spec pbin remaining) as [F1 F2].
  destruct (packer.fit_remaining pbin remaining) as [fit|e|]; [| |congruence];
    [|unfold fill_ok; cbn [abort]; split; [congruence|lia]].
  specialize (F2 fit eq_refl).
  destruct (min_by_key fit) as [[f key]|] eqn:EM.
  - apply min_by_key_In in EM. rewrite Forall_forall in F2.
    destruct (F2 _ EM) as [c Hc]. cbn [snd] in Hc.
    destruct (lookup_In key c remaining Hc) as [L1 L2].
    destruct (packer.lookup key remaining) as [[[[w h] d] r]|];
      [|congruence].
    unfold packer.BNF_add_cub.
    pose proof (BNF_loop_ok w h d r packer.Global
      (S (List.length (packer._open_bins p)
          + packer.stock (packer._empty_bins p))) p) as B.
    destruct (packer.BNF_loop _ packer.Global p w h d r) as [p1 o].
    unfold loop_ok in B. destruct B as [B1 [B2 B3]]; [lia|].
    destruct o as [v|e|]; [| |congruence].
    + specialize (IH p1 (packer.delete key remaining)).
      destruct (packer.Global_fill fuel p1 _) as [[p2 rem2] r2].
      unfold fill_ok in *. destruct IH as [I1 I2]; [lia|eauto|].
      split; [assumption|lia].
    + unfold fill_ok. cbn [abort]. split; [congruence|lia].
  - destruct (packer._open_bins p) as [|b others]; [contradiction|].
    unfold fill_ok.
    cbn [packer._empty_bins packer.set_closed_bins packer.set_open_bins].
    split; [congruence|lia].
Qed.

(** The outer loop takes a bin out of the stock at every turn that
    goes on. *)
Lemma Global_loop_reached (fuel : nat) :
  forall p remaining,
    (packer.stock (packer._empty_bins p) < fuel)%nat ->
    snd (packer.Global_loop fuel p remaining) <> Unreached.
Proof.
  induction fuel as [|fuel IH]; intros p remaining Hm; [lia|].
  cbn [packer.Global_loop].
  destruct (negb _); [|cbn; congruence].
  pose proof (Global_new_open_bin_ok p remaining) as O.
  destruct (packer.Global_new_open_bin p remaining) as [p1 r1].
  unfold open_ok in O. destruct O as [O1 [O2 [O3 O4]]].
  destruct r1 as [[b|]|e|]; [| | |congruence];
    [|cbn; congruence|cbn; congruence].
  destruct O4 as [O4 O5].
  pose proof (Global_fill_ok (S (List.length remaining)) p1 remaining) as F.
  destruct (packer.Global_fill _ p1 remaining) as [[p2 rem2] r2].
  unfold fill_ok in F. destruct F as [F1 F2]; [lia| |].
  { rewrite O4. destruct (packer._open_bins p); discriminate. }
  destruct r2 as [v|e|]; [| |congruence]; [|cbn; congruence].
  apply IH. lia.
Qed.

(** [pack()] comes to an end: it returns or raises. *)
Theorem pack_reached (p : packer.Packer) :
  snd (packer.pack p) <> Unreached.
Proof.
  unfold packer.pack.
  destruct (packer.heuristic p) eqn:Hk;
    unfold packer.Packer_pack, packer.PackerGlobal_pack;
    (destruct (negb _); [cbn; congruence|]).
  1-3: match goal with
       | |- context [packer.pack_sorted ?k ?b ?l] =>
           pose proof (pack_sorted_reached k l b) as R;
           destruct (packer.pack_sorted k b l) as [b2 r]
       end; exact R.
  match goal with
  | |- context [packer.Global_loop ?f ?b ?l] =>
      pose proof (Global_loop_reached f b l) as R;
      destruct (packer.Global_loop f b l) as [[b2 rem] r]
  end.
  apply R. lia.
Qed.

(** * Further properties of the code *)

(** ** Geometry: containment, intersection and join *)

(** X1 ([Cuboid.contains], [Cuboid.__eq__]). Cuboid.contains is reflexive
    and transitive, and two cuboids contain each other exactly when __eq__
    holds (same origin and size; rid is ignored). *)
Theorem contains_is_an_order (a b c : Cuboid) :
  contains a a = true /\
  (contains a b = true -> contains b c = true -> contains a c = true) /\
  contains a b && contains b a = Cuboid_eq a b.
Proof.
  unfold contains, Cuboid_eq. repeat split; lia.
Qed.

Lemma intersects_edges (a b : Cuboid) :
  intersects a b true = true <-> meets a b /\ ~ corner_touch a b.
Proof.
  unfold intersects, meets, corner_touch.
  destruct (_ || _ || _ || _ || _ || (ineye a <? outeye b)) eqn:Hs.
  { split; [discriminate|]. intros H. exfalso. lia. }
  cbn [negb andb].
  destruct (left a =? right b) eqn:E1; destruct (left b =? right a) eqn:E2;
  destruct (bottom a =? top b) eqn:E3; destruct (bottom b =? top a) eqn:E4;
  destruct (outeye a =? ineye b) eqn:E5; destruct (outeye b =? ineye a) eqn:E6;
  cbn [andb orb]; (split; [try discriminate; intros _; lia | try reflexivity; intros H; exfalso; lia]).
Qed.

(** X2 ([Cuboid.intersects]). intersects with edges=False is true exactly
    when the two boxes overlap strictly on all three axes; with edges=True
    it is true exactly when the closed boxes meet on all three axes and do
    not touch end to end on every axis (contact in a single corner). *)
Theorem intersects_characterised (a b : Cuboid) :
  (intersects a b false = true <-> overlap a b) /\
  (intersects a b true = true <-> meets a b /\ ~ corner_touch a b).
Proof. split; [apply intersects_overlap | apply intersects_edges]. Qed.

Lemma intersects_sym (a b : Cuboid) (e : bool) :
  intersects a b e = intersects b a e.
Proof.
  apply eq_true_iff_eq. destruct e.
  - rewrite !intersects_edges. unfold meets, corner_touch. lia.
  - rewrite !intersects_overlap. unfold overlap. lia.
Qed.

(** X3 ([Cuboid.intersects], [Cuboid.intersection]). intersects and
    intersection give the same result when receiver and argument are
    swapped, for either value of edges. *)
Theorem intersects_symmetric (a b : Cuboid) (e : bool) :
  intersects a b e = intersects b a e /\
  intersection a b e = intersection b a e.
Proof.
  split; [apply intersects_sym|].
  unfold intersection. rewrite (intersects_sym a b e).
  destruct (intersects b a e); cbn [negb]; [|reflexivity].
  f_equal. unfold Cuboid_. f_equal; lia.
Qed.

(** X4 ([Cuboid.intersection], [Cuboid.contains]). For cuboids without
    negative dimension, a cuboid returned by intersection has no negative
    dimension, is contained in both cuboids and contains every cuboid that
    both contain; with edges=False and both of positive size, it has
    positive size. *)
Theorem intersection_is_greatest_common_part (a b c : Cuboid) (e : bool) :
  well_formed a -> well_formed b -> intersection a b e = Some c ->
  Cuboid_assert (width c) (height c) (depth c) = true /\
  contains a c = true /\ contains b c = true /\
  (forall q, contains a q = true -> contains b q = true ->
     contains c q = true) /\
  (e = false -> solid a -> solid b -> solid c).
Proof.
  intros Ha Hb E. unfold intersection in E.
  destruct (intersects a b e) eqn:HI; cbn [negb] in E; [|discriminate].
  injection E as <-.
  pose proof (intersects_meets _ _ _ HI) as Hm.
  unfold Cuboid_assert, Cuboid_.
  split; [geom; lia|].
  split; [geom; lia|].
  split; [geom; lia|].
  split.
  - intros q H1 H2. geom. lia.
  - intros -> Sa Sb. apply intersects_overlap in HI. geom; lia.
Qed.

Lemma intersection_is_greatest_common_part_witness :
  Cuboid_assert 2 3 4 = true /\
  contains (Cuboid_ 0 0 0 4 4 4) (Cuboid_ 2 1 0 2 3 4) = true /\
  contains (Cuboid_ 2 1 0 5 5 5) (Cuboid_ 2 1 0 2 3 4) = true /\
  (forall q, contains (Cuboid_ 0 0 0 4 4 4) q = true ->
     contains (Cuboid_ 2 1 0 5 5 5) q = true ->
     contains (Cuboid_ 2 1 0 2 3 4) q = true) /\
  (false = false -> solid (Cuboid_ 0 0 0 4 4 4) ->
   solid (Cuboid_ 2 1 0 5 5 5) -> solid (Cuboid_ 2 1 0 2 3 4)).
Proof.
  apply (intersection_is_greatest_common_part
           (Cuboid_ 0 0 0 4 4 4) (Cuboid_ 2 1 0 5 5 5) (Cuboid_ 2 1 0 2 3 4)
           false); [unfold well_formed; cbn; lia .. | reflexivity].
Defined.

(** X5 ([Cuboid.join]). Whatever join returns, the receiver afterwards
    contains the receiver as it was and keeps its rid; if neither cuboid has
    a negative dimension, neither has the receiver afterwards. *)
Theorem join_grows (A B : Cuboid) :
  contains (snd (join A B)) A = true /\
  rid (snd (join A B)) = rid A /\
  (well_formed A -> well_formed B -> well_formed (snd (join A B))).
Proof.
  destruct (join_inv A B)
    as [H|H|H|H1 H2 Hm Hx Hz|H1 H2 Hm Hy Hz|H1 H2 Hm Hx Hy|];
    cbn [snd]; (split; [|split; [reflexivity|]]); geom; try lia.
Qed.

Lemma join_true_intersects (A B : Cuboid) :
  fst (join A B) = true -> contains A B = false -> contains B A = false ->
  intersects A B true = true.
Proof.
  unfold join. intros H H1 H2. rewrite H1, H2 in H.
  destruct (intersects A B true); [reflexivity|]. cbn in H. discriminate.
Qed.

Lemma join_eval_contains (A B : Cuboid) :
  contains A B = true -> join A B = (true, A).
Proof. unfold join. intros ->. reflexivity. Qed.

Lemma contains_false (m s : Cuboid) : contains m s = false <-> ~ sub s m.
Proof. rewrite sub_contains. destruct (contains m s); split; congruence. Qed.

Ltac corner := unfold corner_touch, meets, sub in *; geom.

(** X6 ([Cuboid.join]). After a successful join of cuboids without negative
    dimension, joining the same cuboid once more succeeds and leaves the
    receiver as it is. *)
Theorem join_absorbs (A B : Cuboid) :
  well_formed A -> well_formed B -> fst (join A B) = true ->
  join (snd (join A B)) B = (true, snd (join A B)).
Proof.
  intros HA HB Hj.
  destruct (contains A B) eqn:C1.
  { rewrite (join_eval_contains A B C1). cbn [snd].
    apply join_eval_contains, C1. }
  destruct (contains B A) eqn:C2.
  { assert (E : join A B =
      (true, mkCuboid (x B) (y B) (z B) (width B) (height B) (depth B) (rid A)))
      by (unfold join; rewrite C1, C2; reflexivity).
    rewrite E. cbn [snd]. apply join_eval_contains. geom; lia. }
  pose proof (join_true_intersects A B Hj C1 C2) as HI.
  apply intersects_edges in HI. destruct HI as [Hm Hc].
  revert Hj.
  destruct (join_inv A B)
    as [H|H|H|_ _ _ Hx Hz|_ _ _ Hy Hz|_ _ _ Hx Hy|]; cbn [fst snd];
    try congruence; intros _; apply contains_false in C1, C2.
  - (* up/down *)
    match goal with |- join ?A' B = _ => set (A1 := A') end.
    destruct (contains A1 B) eqn:D1; [apply join_eval_contains, D1|].
    assert (D1p : ~ sub B A1) by (apply contains_false, D1).
    assert (D2 : contains B A1 = false).
    { apply contains_false. clear D1. subst A1. corner. lia. }
    assert (D3 : intersects A1 B true = true).
    { apply intersects_edges. clear D1 D2. subst A1. corner. lia. }
    unfold join. rewrite D1, D2, D3. cbn [negb]. clear D1 D2 D3.
    assert (E : (left A1 =? left B) && (width A1 =? width B) &&
                (outeye A1 =? outeye B) && (depth A1 =? depth A1) = true)
      by (subst A1; geom; lia).
    rewrite E. f_equal. subst A1. apply cuboid_eq_intro; geom; solve [reflexivity|lia].
  - (* right/left *)
    match goal with |- join ?A' B = _ => set (A1 := A') end.
    destruct (contains A1 B) eqn:D1; [apply join_eval_contains, D1|].
    assert (D1p : ~ sub B A1) by (apply contains_false, D1).
    assert (D2 : contains B A1 = false).
    { apply contains_false. clear D1. subst A1. corner. lia. }
    assert (D3 : intersects A1 B true = true).
    { apply intersects_edges. clear D1 D2. subst A1. corner. lia. }
    unfold join. rewrite D1, D2, D3. cbn [negb]. clear D1 D2 D3.
    destruct ((left A1 =? left B) && (width A1 =? width B) &&
              (outeye A1 =? outeye B) && (depth A1 =? depth A1)) eqn:E.
    { f_equal. subst A1. apply cuboid_eq_intro; geom; solve [reflexivity|lia]. }
    assert (E2 : (bottom A1 =? bottom B) && (height A1 =? height B) &&
                (outeye A1 =? outeye B) && (depth A1 =? depth A1) = true)
      by (subst A1; geom; lia).
    rewrite E2. f_equal. subst A1. apply cuboid_eq_intro; geom; solve [reflexivity|lia].
  - (* front/back *)
    apply join_eval_contains. geom. lia.
Qed.

Lemma join_absorbs_witness :
  join (snd (join (Cuboid_ 0 0 0 2 2 2) (Cuboid_ 0 2 0 2 3 2)))
    (Cuboid_ 0 2 0 2 3 2)
  = (true, snd (join (Cuboid_ 0 0 0 2 2 2) (Cuboid_ 0 2 0 2 3 2))).
Proof.
  apply (join_absorbs (Cuboid_ 0 0 0 2 2 2) (Cuboid_ 0 2 0 2 3 2));
    [unfold well_formed; cbn; lia .. | reflexivity].
Defined.

(** X7 ([Cuboid.contains], [Cuboid.__iter__], the eight corner properties).
    For a cuboid cub without negative dimension, contains(cub) is true
    exactly when each of the eight corner points that iterating cub yields
    lies in the closed box of the receiver. *)
Theorem contains_corners (self cub : Cuboid) :
  well_formed cub ->
  (contains self cub = true <-> Forall (at_point self) (Cuboid_iter cub)).
Proof.
  intros Hw. rewrite <- sub_contains.
  unfold Cuboid_iter, corner_top_l, corner_top_r, corner_bot_r, corner_bot_l,
    corner_top_l_out, corner_top_r_out, corner_bot_r_out, corner_bot_l_out.
  split.
  - intros H. repeat constructor; unfold at_point, sub in *; geom;
      cbn [Point.x Point.y Point.z]; lia.
  - intros H.
    inversion H as [|? ? H1 H']; subst; clear H.
    do 5 (inversion H' as [|? ? _ H'']; subst; clear H'; rename H'' into H').
    inversion H' as [|? ? H7 _]; subst; clear H'.
    unfold at_point, sub in *; geom; cbn [Point.x Point.y Point.z] in *; lia.
Qed.

Lemma contains_corners_witness :
  contains (Cuboid_ 0 0 0 10 10 10) (Cuboid_ 1 2 3 4 5 6) = true <->
  Forall (at_point (Cuboid_ 0 0 0 10 10 10)) (Cuboid_iter (Cuboid_ 1 2 3 4 5 6)).
Proof.
  apply (contains_corners (Cuboid_ 0 0 0 10 10 10) (Cuboid_ 1 2 3 4 5 6)).
  unfold well_formed; cbn; lia.
Defined.

(** X8 ([Cuboid.contains], [Cuboid.volume], [Cuboid.__lt__]). A cuboid
    without negative dimension that another one contains has no larger
    volume than its container, so the container is never __lt__ it. *)
Theorem contains_volume (a b : Cuboid) :
  well_formed b -> contains a b = true ->
  volume b <= volume a /\ Cuboid_lt a b = false.
Proof.
  intros Hw H. apply sub_contains in H.
  assert (V : volume b <= volume a).
  { unfold volume, sub in *. geom.
    assert (width b <= width a) by lia.
    assert (height b <= height a) by lia.
    assert (depth b <= depth a) by lia.
    assert (0 <= width b * height b) by nia.
    assert (width b * height b <= width a * height a) by nia.
    nia. }
  split; [exact V|]. unfold Cuboid_lt. lia.
Qed.

Lemma contains_volume_witness :
  volume (Cuboid_ 1 2 3 4 5 6) <= volume (Cuboid_ 0 0 0 10 10 10) /\
  Cuboid_lt (Cuboid_ 0 0 0 10 10 10) (Cuboid_ 1 2 3 4 5 6) = false.
Proof.
  apply (contains_volume (Cuboid_ 0 0 0 10 10 10) (Cuboid_ 1 2 3 4 5 6));
    [unfold well_formed; cbn; lia | reflexivity].
Defined.

(** X9 ([Point.distance_squared], [Point.__eq__]). Point.distance_squared is
    symmetric, never negative, and zero exactly when the two points are
    __eq__. *)
Theorem distance_squared_metric (p q : Point.Point) :
  Point.distance_squared p q = Point.distance_squared q p /\
  0 <= Point.distance_squared p q /\
  (Point.distance_squared p q =? 0) = Point.Point_eq p q.
Proof.
  unfold Point.distance_squared, Point.Point_eq.
  split; [ring|]. split; [nia|].
  apply eq_true_iff_eq. rewrite Z.eqb_eq, !andb_true_iff, !Z.eqb_eq.
  split; [|intros [[-> ->] ->]; ring].
  intros H. nia.
Qed.

(** ** The free region a bin selects *)

Lemma min_by_key_least {A : Type} (l : list (Z * A)) :
  forall e, min_by_key l = Some e -> forall e', In e' l -> fst e <= fst e'.
Proof.
  induction l as [|a l IH]; intros e E e' Hin; [contradiction|].
  cbn [min_by_key] in E.
  destruct (min_by_key l) as [m|] eqn:Em.
  - specialize (IH m eq_refl).
    destruct (fst m <? fst a) eqn:C; inversion E; subst; clear E;
      destruct Hin as [<-|Hin]; try lia.
    + auto.
    + specialize (IH e' Hin). lia.
  - inversion E; subst. destruct Hin as [<-|Hin]; [lia|].
    destruct l; [contradiction|]. cbn in Em.
    destruct (min_by_key l) as [m|]; [destruct (fst m <? fst p)|]; discriminate.
Qed.

Lemma min_by_key_none {A : Type} (l : list (Z * A)) :
  min_by_key l = None <-> l = [].
Proof.
  split; [|intros ->; reflexivity].
  destruct l as [|a l]; [reflexivity|]. cbn.
  destruct (min_by_key l) as [m|]; [destruct (fst m <? fst a)|]; discriminate.
Qed.

Lemma guillotine_candidates_iff (f : pack_algo.selection) (l : list Cuboid)
    (a b c k : Z) (r r' : bool) (s : Cuboid) :
  In (k, (s, r')) (guillotine.candidates f l a b c r) <->
  In s l /\ r' = r /\ guillotine._section_fitness f s a b c = Some k.
Proof.
  unfold guillotine.candidates. rewrite in_flat_map. split.
  - intros [s' [Hs H]].
    destruct (guillotine._section_fitness f s' a b c) as [v|] eqn:E;
      [|contradiction].
    destruct H as [H|[]]. inversion H; subst. auto.
  - intros [Hs [-> E]]. exists s. split; [assumption|].
    rewrite E. now left.
Qed.

Lemma select_fittest_full (f : pack_algo.selection)
    (b : pack_algo.PackingAlgorithm) (w h d : Z) (sec : Cuboid)
    (rotated : bool) :
  guillotine._select_fittest_section f b w h d = Some (sec, rotated) ->
  In sec (pack_algo._sections b) /\
  (rotated = true -> pack_algo.rot b = true) /\
  exists v,
    guillotine._section_fitness f sec
      (if rotated then h else w) (if rotated then w else h) d = Some v /\
    (forall s v', In s (pack_algo._sections b) ->
       guillotine._section_fitness f s w h d = Some v' -> v <= v') /\
    (pack_algo.rot b = true ->
     forall s v', In s (pack_algo._sections b) ->
       guillotine._section_fitness f s h w d = Some v' -> v <= v').
Proof.
  unfold guillotine._select_fittest_section.
  destruct (min_by_key _) as [[k [s r]]|] eqn:E; [|discriminate].
  intros H. inversion H; subst. clear H.
  pose proof (min_by_key_least _ _ E) as Hmin. cbn [fst] in Hmin.
  apply min_by_key_In in E. apply in_app_or in E.
  assert (Hn : forall s v', In s (pack_algo._sections b) ->
            guillotine._section_fitness f s w h d = Some v' -> k <= v').
  { intros s v' Hs Hv. apply (Hmin (v', (s, false))).
    apply in_or_app. left. apply guillotine_candidates_iff. auto. }
  assert (Hr : pack_algo.rot b = true ->
            forall s v', In s (pack_algo._sections b) ->
            guillotine._section_fitness f s h w d = Some v' -> k <= v').
  { intros R s v' Hs Hv. apply (Hmin (v', (s, true))).
    apply in_or_app. right. rewrite R. cbn [negb].
    apply guillotine_candidates_iff. auto. }
  destruct E as [E|E].
  - apply guillotine_candidates_iff in E. destruct E as [Hs [-> Hf]].
    split; [assumption|]. split; [discriminate|]. exists k. auto.
  - destruct (pack_algo.rot b) eqn:R; cbn [negb] in E; [|contradiction].
    apply guillotine_candidates_iff in E. destruct E as [Hs [-> Hf]].
    split; [assumption|]. split; [reflexivity|]. exists k. auto.
Qed.

Lemma select_fittest_none (f : pack_algo.selection)
    (b : pack_algo.PackingAlgorithm) (w h d : Z) :
  guillotine._select_fittest_section f b w h d = None <->
  (forall s, In s (pack_algo._sections b) ->
     guillotine._section_fitness f s w h d = None /\
     (pack_algo.rot b = true -> guillotine._section_fitness f s h w d = None)).
Proof.
  unfold guillotine._select_fittest_section.
  destruct (min_by_key _) as [[k [s r]]|] eqn:E.
  - split; [discriminate|]. intros H. exfalso.
    apply min_by_key_In in E. apply in_app_or in E. destruct E as [E|E].
    + apply guillotine_candidates_iff in E. destruct E as [Hs [_ Hf]].
      destruct (H s Hs) as [H1 _]. congruence.
    + destruct (pack_algo.rot b) eqn:R; cbn [negb] in E; [|contradiction].
      apply guillotine_candidates_iff in E. destruct E as [Hs [_ Hf]].
      destruct (H s Hs) as [_ H2]. specialize (H2 eq_refl). congruence.
  - split; [|reflexivity]. intros _ s Hs.
    apply min_by_key_none in E. apply app_eq_nil in E. destruct E as [E1 E2].
    split.
    + destruct (guillotine._section_fitness f s w h d) as [v|] eqn:Ef;
        [|reflexivity].
      assert (In (v, (s, false))
                (guillotine.candidates f (pack_algo._sections b) w h d false))
        by (apply guillotine_candidates_iff; auto).
      rewrite E1 in H. contradiction.
    + intros R. rewrite R in E2. cbn [negb] in E2.
      destruct (guillotine._section_fitness f s h w d) as [v|] eqn:Ef;
        [|reflexivity].
      assert (In (v, (s, true))
                (guillotine.candidates f (pack_algo._sections b) h w d true))
        by (apply guillotine_candidates_iff; auto).
      rewrite E2 in H. contradiction.
Qed.

Lemma cub_fitness_iff (m : Cuboid) (a b c : Z) (v : Z) :
  maxcubs._cub_fitness m a b c = Some v <-> v = 0 /\ holds m a b c.
Proof.
  unfold maxcubs._cub_fitness, holds.
  destruct (_ && _ && _) eqn:E.
  - split; [intros H; inversion H; split; [reflexivity|lia]|].
    intros [-> _]. reflexivity.
  - split; [discriminate|]. intros [_ H]. exfalso. lia.
Qed.

Lemma maxcubs_candidates_iff (v : pack_algo.maxcubs_class) (l : list Cuboid)
    (a b c k w1 h1 d1 : Z) (m : Cuboid) :
  In (k, (w1, h1, d1, m))
     ((match v with
       | pack_algo.MaxCubsBl => maxcubs.candidates_bl
       | _ => maxcubs.candidates
       end) l a b c) <->
  In m l /\ w1 = a /\ h1 = b /\ d1 = c /\ holds m a b c /\
  k = select_key v m b.
Proof.
  assert (B : In (k, (w1, h1, d1, m)) (maxcubs.candidates_bl l a b c) <->
              In m l /\ w1 = a /\ h1 = b /\ d1 = c /\ holds m a b c /\
              k = y m + b).
  { unfold maxcubs.candidates_bl. rewrite in_flat_map. split.
    - intros [m' [Hm H]].
      destruct (maxcubs._cub_fitness m' a b c) as [f|] eqn:E; [|contradiction].
      destruct H as [H|[]]. inversion H; subst.
      apply cub_fitness_iff in E. tauto.
    - intros [Hm [-> [-> [-> [Hh ->]]]]]. exists m. split; [assumption|].
      destruct (maxcubs._cub_fitness m a b c) as [f|] eqn:E; [now left|].
      assert (E' : maxcubs._cub_fitness m a b c = Some 0)
        by (apply cub_fitness_iff; auto).
      congruence. }
  assert (N : In (k, (w1, h1, d1, m)) (maxcubs.candidates l a b c) <->
              In m l /\ w1 = a /\ h1 = b /\ d1 = c /\ holds m a b c /\
              k = 0).
  { unfold maxcubs.candidates. rewrite in_flat_map. split.
    - intros [m' [Hm H]].
      destruct (maxcubs._cub_fitness m' a b c) as [f|] eqn:E; [|contradiction].
      destruct H as [H|[]]. inversion H; subst.
      apply cub_fitness_iff in E. tauto.
    - intros [Hm [-> [-> [-> [Hh ->]]]]]. exists m. split; [assumption|].
      assert (E' : maxcubs._cub_fitness m a b c = Some 0)
        by (apply cub_fitness_iff; auto).
      rewrite E'. now left. }
  destruct v; cbn [select_key]; assumption.
Qed.

Lemma select_position_full (v : pack_algo.maxcubs_class)
    (b : pack_algo.PackingAlgorithm) (w h d : Z) (cub m : Cuboid) :
  maxcubs._select_position v b w h d = Some (cub, m) ->
  In m (pack_algo._max_cubs b) /\
  exists w1 h1,
    cub = Cuboid_ (x m) (y m) (z m) w1 h1 d /\ holds m w1 h1 d /\
    ((w1 = w /\ h1 = h) \/ (pack_algo.rot b = true /\ w1 = h /\ h1 = w)) /\
    (forall m', In m' (pack_algo._max_cubs b) -> holds m' w h d ->
       select_key v m h1 <= select_key v m' h) /\
    (pack_algo.rot b = true ->
     forall m', In m' (pack_algo._max_cubs b) -> holds m' h w d ->
       select_key v m h1 <= select_key v m' w).
Proof.
  unfold maxcubs._select_position.
  set (cands := match v with
                | pack_algo.MaxCubsBl => maxcubs.candidates_bl
                | _ => maxcubs.candidates
                end).
  destruct (min_by_key _) as [[k [[[w1 h1] d1] m']]|] eqn:E; [|discriminate].
  intros H. inversion H; subst. clear H.
  pose proof (min_by_key_least _ _ E) as Hmin. cbn [fst] in Hmin.
  apply min_by_key_In in E. apply in_app_or in E.
  assert (Hn : forall m', In m' (pack_algo._max_cubs b) -> holds m' w h d ->
                 k <= select_key v m' h).
  { intros m' Hm Hh. apply (Hmin (select_key v m' h, (w, h, d, m'))).
    apply in_or_app. left. apply maxcubs_candidates_iff. tauto. }
  assert (Hr : pack_algo.rot b = true ->
               forall m', In m' (pack_algo._max_cubs b) -> holds m' h w d ->
                 k <= select_key v m' w).
  { intros R m' Hm Hh. apply (Hmin (select_key v m' w, (h, w, d, m'))).
    apply in_or_app. right. rewrite R. cbn [negb].
    apply maxcubs_candidates_iff. tauto. }
  destruct E as [E|E].
  - apply maxcubs_candidates_iff in E.
    destruct E as [Hm [-> [-> [-> [Hh ->]]]]].
    split; [assumption|]. exists w, h.
    split; [reflexivity|]. split; [assumption|].
    split; [left; split; reflexivity|]. split; assumption.
  - destruct (pack_algo.rot b) eqn:R; cbn [negb] in E; [|contradiction].
    apply maxcubs_candidates_iff in E.
    destruct E as [Hm [-> [-> [-> [Hh ->]]]]].
    split; [assumption|]. exists h, w.
    split; [reflexivity|]. split; [assumption|].
    split; [right; repeat split; reflexivity|]. split; assumption.
Qed.

Lemma select_position_none (v : pack_algo.maxcubs_class)
    (b : pack_algo.PackingAlgorithm) (w h d : Z) :
  maxcubs._select_position v b w h d = None <->
  (forall m, In m (pack_algo._max_cubs b) ->
     ~ holds m w h d /\ (pack_algo.rot b = true -> ~ holds m h w d)).
Proof.
  unfold maxcubs._select_position.
  set (cands := match v with
                | pack_algo.MaxCubsBl => maxcubs.candidates_bl
                | _ => maxcubs.candidates
                end).
  destruct (min_by_key _) as [[k [[[w1 h1] d1] m']]|] eqn:E.
  - split; [discriminate|]. intros H. exfalso.
    apply min_by_key_In in E. apply in_app_or in E. destruct E as [E|E].
    + apply maxcubs_candidates_iff in E. destruct E as [Hm [_ [_ [_ [Hh _]]]]].
      destruct (H m' Hm) as [H1 _]. contradiction.
    + destruct (pack_algo.rot b) eqn:R; cbn [negb] in E; [|contradiction].
      apply maxcubs_candidates_iff in E. destruct E as [Hm [_ [_ [_ [Hh _]]]]].
      destruct (H m' Hm) as [_ H2]. now apply H2.
  - split; [|reflexivity]. intros _ m Hm.
    apply min_by_key_none in E. apply app_eq_nil in E. destruct E as [E1 E2].
    split.
    + intros Hh.
      assert (In (select_key v m h, (w, h, d, m))
                (cands (pack_algo._max_cubs b) w h d))
        by (apply maxcubs_candidates_iff; tauto).
      rewrite E1 in H. contradiction.
    + intros R Hh. rewrite R in E2. cbn [negb] in E2.
      assert (In (select_key v m w, (h, w, d, m))
                (cands (pack_algo._max_cubs b) h w d))
        by (apply maxcubs_candidates_iff; tauto).
      rewrite E2 in H. contradiction.
Qed.

(** ** What [add_cub] leaves of a bin *)

Lemma remove_In (sec : Cuboid) (l : list Cuboid) :
  In sec l -> exists secs, guillotine.remove sec l = Some secs.
Proof.
  induction l as [|s l IH]; [contradiction|]. intros Hin.
  cbn [guillotine.remove]. destruct (Cuboid_eq s sec) eqn:E; [eauto|].
  destruct Hin as [->|Hin]; [rewrite Cuboid_eq_refl in E; discriminate|].
  destruct (IH Hin) as [secs ->]. eauto.
Qed.

Lemma guillotine_split_cuboids (rule : pack_algo.split_rule)
    (b : pack_algo.PackingAlgorithm) (sec : Cuboid) (w h d : Z) :
  pack_algo.cuboids (fst (guillotine._split rule b sec w h d))
    = pack_algo.cuboids b.
Proof.
  unfold guillotine._split, guillotine._split_horizontal,
    guillotine._split_vertical.
  destruct rule; repeat break_match; cbn [fst];
    rewrite ?add_section_cuboids; reflexivity.
Qed.

Lemma guillotine_add_cub_post (f : pack_algo.selection)
    (rule : pack_algo.split_rule) (b : pack_algo.PackingAlgorithm)
    (w h d : Z) (rid_ : option Z) :
  pack_algo.cls b = pack_algo.Guillotine f rule ->
  placed_by b w h d rid_ (guillotine.add_cub f rule b w h d rid_).
Proof.
  intros Hcls. unfold guillotine.add_cub, placed_by.
  destruct (negb _); [reflexivity|].
  destruct (guillotine._select_fittest_section f b w h d)
    as [[sec rotated]|] eqn:E; [|reflexivity].
  apply select_fittest_full in E. destruct E as [Hin [Hrot [v [Hv _]]]].
  apply section_fitness_holds in Hv.
  destruct (remove_In sec _ Hin) as [secs ER]. rewrite ER.
  set (w1 := if rotated then h else w) in *.
  set (h1 := if rotated then w else h) in *.
  replace (if rotated then (h, w) else (w, h)) with (w1, h1)
    by (subst w1 h1; destruct rotated; reflexivity).
  pose proof (guillotine_split_cuboids rule (pack_algo.set_sections b secs)
                sec w1 h1 d) as S.
  destruct (guillotine._split rule _ sec w1 h1 d) as [b2 o].
  cbn [fst] in S. cbn [pack_algo.cuboids pack_algo.set_sections] in S.
  destruct o as [[]|e|]; cbn [abort]; try exact S.
  cbn [pack_algo.cuboids pack_algo.set_cuboids]. rewrite S.
  split; [reflexivity|]. split.
  - unfold oriented. cbn [rid depth width height].
    split; [reflexivity|]. split; [reflexivity|].
    subst w1 h1. destruct rotated; [right|left]; auto.
  - exists sec. unfold free_regions. rewrite Hcls.
    cbn [x y z width height depth]. auto 10.
Qed.

Lemma maxcubs_add_cub_post (v : pack_algo.maxcubs_class)
    (b : pack_algo.PackingAlgorithm) (w h d : Z) (rid_ : option Z) :
  pack_algo.cls b = pack_algo.MaxCubs v ->
  placed_by b w h d rid_ (maxcubs.add_cub v b w h d rid_).
Proof.
  intros Hcls. unfold maxcubs.add_cub, placed_by.
  destruct (negb _); [reflexivity|].
  destruct (maxcubs._select_position v b w h d) as [[cub m]|] eqn:E;
    [|reflexivity].
  apply select_position_full in E.
  destruct E as [Hin [w1 [h1 [-> [Hh [Hor _]]]]]].
  cbn [pack_algo.cuboids pack_algo.set_cuboids maxcubs._remove_duplicates
       maxcubs._split pack_algo.set_max_cubs].
  split; [reflexivity|]. split.
  - unfold oriented, set_rid, Cuboid_. cbn [rid depth width height].
    split; [reflexivity|]. split; [reflexivity|].
    destruct Hor as [[-> ->]|[R [-> ->]]]; [left|right]; auto.
  - exists m. unfold free_regions. rewrite Hcls.
    unfold set_rid, Cuboid_. cbn [x y z width height depth]. auto 10.
Qed.

Lemma bin_add_cub_post (b : pack_algo.PackingAlgorithm) (w h d : Z)
    (rid_ : option Z) :
  placed_by b w h d rid_ (bin.add_cub b w h d rid_).
Proof.
  unfold bin.add_cub. destruct (pack_algo.cls b) as [f rule|v] eqn:Hcls.
  - now apply guillotine_add_cub_post.
  - now apply maxcubs_add_cub_post.
Qed.

Lemma add_section_kind (b : pack_algo.PackingAlgorithm) (n : Cuboid) :
  same_kind b (guillotine._add_section b n).
Proof.
  unfold guillotine._add_section, same_kind.
  destruct (guillotine.merge_loop _ _ _ _ _). repeat split.
Qed.

Lemma same_kind_refl (b : pack_algo.PackingAlgorithm) : same_kind b b.
Proof. repeat split. Qed.

Lemma same_kind_trans (a b c : pack_algo.PackingAlgorithm) :
  same_kind a b -> same_kind b c -> same_kind a c.
Proof. unfold same_kind. intros [H1 [H2 H3]] [H4 [H5 H6]]. repeat split; congruence. Qed.

Lemma guillotine_split_kind (rule : pack_algo.split_rule)
    (b : pack_algo.PackingAlgorithm) (sec : Cuboid) (w h d : Z) :
  same_kind b (fst (guillotine._split rule b sec w h d)).
Proof.
  unfold guillotine._split, guillotine._split_horizontal,
    guillotine._split_vertical.
  destruct rule; repeat break_match; cbn [fst];
    repeat first [apply same_kind_refl
                 | eapply same_kind_trans; [|apply add_section_kind]].
Qed.

Lemma bin_add_cub_kind (b : pack_algo.PackingAlgorithm) (w h d : Z)
    (r : option Z) :
  same_kind b (fst (bin.add_cub b w h d r)).
Proof.
  unfold bin.add_cub. destruct (pack_algo.cls b) as [f rule|v] eqn:Hcls.
  - unfold guillotine.add_cub.
    destruct (negb _); [apply same_kind_refl|].
    destruct (guillotine._select_fittest_section f b w h d) as [[sec rot]|];
      [|apply same_kind_refl].
    destruct (if rot then (h, w) else (w, h)) as [w1 h1].
    destruct (guillotine.remove sec _) as [secs|]; [|apply same_kind_refl].
    pose proof (guillotine_split_kind rule
                  (pack_algo.set_sections b secs) sec w1 h1 d) as S.
    destruct (guillotine._split rule _ sec w1 h1 d) as [b2 o].
    cbn [fst] in S. destruct o; cbn [fst]; exact S.
  - unfold maxcubs.add_cub. repeat break_match; cbn [fst]; repeat split.
Qed.

(** ** Indexing *)

Lemma getitem_nth {A : Type} (l : list A) (i : nat) (a : A) :
  nth_error l i = Some a -> getitem l (Z.of_nat i) = Ret a.
Proof.
  intros H. unfold getitem.
  assert (Hi : (i < List.length l)%nat) by (apply nth_error_Some; congruence).
  apply Nat2Z.inj_lt in Hi.
  pose proof (Nat2Z.is_nonneg i) as Hi0.
  destruct (Z.of_nat i <? 0) eqn:E; [exfalso; lia|].
  destruct ((Z.of_nat i <? 0) || (Z.of_nat i >=? Z.of_nat (List.length l)))
    eqn:E2; [exfalso; lia|].
  rewrite Nat2Z.id, H. reflexivity.
Qed.

Lemma getitem_last {A : Type} (l : list A) (a : A) :
  getitem (l ++ [a]) (-1) = Ret a.
Proof.
  unfold getitem. rewrite length_app. cbn [List.length].
  change (-1 <? 0) with true. cbv iota.
  rewrite Nat2Z.inj_add. change (Z.of_nat 1) with 1.
  replace (-1 + (Z.of_nat (List.length l) + 1)) with (Z.of_nat (List.length l))
    by lia.
  pose proof (Nat2Z.is_nonneg (List.length l)) as Hn.
  destruct (_ || _) eqn:E; [exfalso; lia|].
  rewrite Nat2Z.id, nth_error_app2, Nat.sub_diag by lia. reflexivity.
Qed.

Lemma getitem_app_front {A : Type} (l l' : list A) (i : Z) :
  0 <= i < Z.of_nat (List.length l) -> getitem (l ++ l') i = getitem l i.
Proof.
  intros Hi. unfold getitem. rewrite length_app, Nat2Z.inj_add.
  pose proof (Nat2Z.is_nonneg (List.length l')) as Hn.
  destruct (i <? 0) eqn:E; [exfalso; lia|].
  destruct ((i <? 0) ||
            (i >=? Z.of_nat (List.length l) + Z.of_nat (List.length l')))
    eqn:E1; [exfalso; lia|].
  destruct ((i <? 0) || (i >=? Z.of_nat (List.length l))) eqn:E2;
    [exfalso; lia|].
  rewrite nth_error_app1 by lia. reflexivity.
Qed.

Lemma getitem_out {A : Type} (l : list A) (i : Z) :
  i < - Z.of_nat (List.length l) \/ Z.of_nat (List.length l) <= i ->
  getitem l i = Raise IndexError.
Proof.
  intros Hi. unfold getitem.
  pose proof (Nat2Z.is_nonneg (List.length l)) as Hn.
  destruct (i <? 0) eqn:E.
  - destruct (_ || _) eqn:E1; [reflexivity|exfalso; lia].
  - destruct (_ || _) eqn:E1; [reflexivity|exfalso; lia].
Qed.

(** X10 ([Guillotine.add_cub], [MaxCubs.add_cub],
    [PackingAlgorithm.__len__], [PackingAlgorithm.__getitem__],
    [PackingAlgorithm.__iter__]). add_cub of a bin of any class: when it
    returns a cuboid, len(bin) grows by one, bin[-1] is that cuboid, bin[i]
    is unchanged for the earlier indices, and the cuboid has the rid and
    depth of the item and its width and height, swapped only if the bin
    allows rotation; when it returns None the bin is unchanged; when it
    raises, the placed cuboids are unchanged. *)
Theorem add_cub_outcome (b : pack_algo.PackingAlgorithm) (w h d : Z)
    (rid_ : option Z) :
  let '(b', r) := bin.add_cub b w h d rid_ in
  match r with
  | Ret (Some c) =>
      pack_algo.len b' = S (pack_algo.len b) /\
      pack_algo.PackingAlgorithm_getitem b' (-1) = Ret c /\
      (forall i, 0 <= i < Z.of_nat (pack_algo.len b) ->
         pack_algo.PackingAlgorithm_getitem b' i
           = pack_algo.PackingAlgorithm_getitem b i) /\
      oriented (pack_algo.rot b) w h d rid_ c
  | Ret None => b' = b
  | _ => pack_algo.iter b' = pack_algo.iter b
  end.
Proof.
  pose proof (bin_add_cub_post b w h d rid_) as P. unfold placed_by in P.
  destruct (bin.add_cub b w h d rid_) as [b' r].
  destruct r as [[c|]|e|]; try exact P.
  destruct P as [Hc [Ho _]].
  unfold pack_algo.len, pack_algo.PackingAlgorithm_getitem. rewrite Hc.
  split; [rewrite length_app; cbn; lia|].
  split; [apply getitem_last|].
  split; [|exact Ho].
  intros i Hi. now apply getitem_app_front.
Qed.

(** ** Placement fails only when nothing fits *)

Lemma holds_dec (s : Cuboid) (w h d : Z) : holds s w h d \/ ~ holds s w h d.
Proof. unfold holds. lia. Qed.

Lemma section_fitness_some (f : pack_algo.selection) (s : Cuboid) (a b c : Z) :
  holds s a b c -> exists v, guillotine._section_fitness f s a b c = Some v.
Proof.
  unfold guillotine._section_fitness, holds. intros H.
  destruct (_ || _ || _) eqn:E; [lia|]. destruct f; eauto.
Qed.

Lemma section_fitness_nonneg (f : pack_algo.selection) (s : Cuboid)
    (a b c v : Z) :
  0 < a -> 0 < b -> 0 < c ->
  guillotine._section_fitness f s a b c = Some v -> 0 <= v.
Proof.
  unfold guillotine._section_fitness. intros Ha Hb Hc.
  destruct (_ || _ || _) eqn:E; [discriminate|].
  destruct f; intros H; inversion H; subst; clear H.
  - unfold volume.
    assert (a <= width s) by lia. assert (b <= height s) by lia.
    assert (c <= depth s) by lia.
    assert (a * b <= width s * height s) by nia.
    assert (0 < a * b) by nia. nia.
  - unfold max3. lia.
  - unfold min3. lia.
Qed.

Lemma guillotine_select_cannot_fit (f : pack_algo.selection)
    (rule : pack_algo.split_rule) (b : pack_algo.PackingAlgorithm) (w h d : Z) :
  pack_algo.cls b = pack_algo.Guillotine f rule ->
  (guillotine._select_fittest_section f b w h d = None <-> cannot_fit b w h d).
Proof.
  intros Hcls. rewrite select_fittest_none.
  unfold cannot_fit, free_regions. rewrite Hcls.
  split; intros H s Hs; destruct (H s Hs) as [H1 H2]; split.
  - intros Hh. destruct (section_fitness_some f s w h d Hh). congruence.
  - intros R Hh. specialize (H2 R).
    destruct (section_fitness_some f s h w d Hh). congruence.
  - destruct (guillotine._section_fitness f s w h d) eqn:E; [|reflexivity].
    apply section_fitness_holds in E. contradiction.
  - intros R. specialize (H2 R).
    destruct (guillotine._section_fitness f s h w d) eqn:E; [|reflexivity].
    apply section_fitness_holds in E. contradiction.
Qed.

Lemma maxcubs_select_cannot_fit (v : pack_algo.maxcubs_class)
    (b : pack_algo.PackingAlgorithm) (w h d : Z) :
  pack_algo.cls b = pack_algo.MaxCubs v ->
  (maxcubs._select_position v b w h d = None <-> cannot_fit b w h d).
Proof.
  intros Hcls. rewrite select_position_none.
  unfold cannot_fit, free_regions. rewrite Hcls. reflexivity.
Qed.

Lemma guillotine_split_snd (rule : pack_algo.split_rule)
    (b : pack_algo.PackingAlgorithm) (sec : Cuboid) (w h d : Z) :
  snd (guillotine._split rule b sec w h d) =
  match rule with
  | pack_algo.Maxas => Raise TypeError
  | _ => Ret tt
  end.
Proof.
  unfold guillotine._split.
  destruct rule;
    repeat match goal with
    | |- context [if ?c then _ else _] => destruct c
    end; reflexivity.
Qed.

(** [add_cub] and [fitness] of a bin against what its free regions hold. *)
Lemma bin_add_cub_cases (b : pack_algo.PackingAlgorithm) (w h d : Z)
    (rid_ : option Z) :
  0 < w -> 0 < h -> 0 < d ->
  (cannot_fit b w h d /\
   bin.add_cub b w h d rid_ = (b, Ret None) /\
   bin.fitness b w h d = Ret None) \/
  (~ cannot_fit b w h d /\
   (exists v, bin.fitness b w h d = Ret (Some v) /\ 0 <= v) /\
   if is_maxas (pack_algo.cls b)
   then snd (bin.add_cub b w h d rid_) = Raise TypeError
   else exists c, snd (bin.add_cub b w h d rid_) = Ret (Some c)).
Proof.
  intros Hw Hh Hd.
  assert (Hpos : pack_algo.positive_dims w h d = true)
    by (unfold pack_algo.positive_dims; lia).
  unfold bin.add_cub, bin.fitness.
  destruct (pack_algo.cls b) as [f rule|v] eqn:Hcls.
  - pose proof (guillotine_select_cannot_fit f rule b w h d Hcls) as HS.
    unfold guillotine.add_cub, guillotine.fitness. rewrite Hpos. cbn [negb].
    destruct (guillotine._select_fittest_section f b w h d)
      as [[sec rotated]|] eqn:E.
    + right. split; [intros C; apply HS in C; discriminate|].
      apply select_fittest_full in E. destruct E as [Hin [_ [k [Hk _]]]].
      split.
      * exists k. split.
        -- destruct rotated; rewrite Hk; reflexivity.
        -- eapply section_fitness_nonneg; [| | |exact Hk];
             destruct rotated; assumption.
      * destruct (remove_In sec _ Hin) as [secs ->].
        destruct (if rotated then (h, w) else (w, h)) as [w1 h1].
        pose proof (guillotine_split_snd rule
                      (pack_algo.set_sections b secs) sec w1 h1 d) as S.
        destruct (guillotine._split rule _ sec w1 h1 d) as [b2 o].
        cbn [snd] in S. subst o.
        destruct rule; cbn [is_maxas snd abort]; eauto.
    + left. split; [now apply HS|]. split; reflexivity.
  - pose proof (maxcubs_select_cannot_fit v b w h d Hcls) as HS.
    unfold maxcubs.add_cub, maxcubs.fitness. rewrite Hpos. cbn [negb].
    destruct (maxcubs._select_position v b w h d) as [[cub m]|] eqn:E.
    + right. split; [intros C; apply HS in C; discriminate|].
      apply select_position_full in E.
      destruct E as [Hin [w1 [h1 [-> [Hhold _]]]]].
      split.
      * exists 0. split; [|lia]. f_equal.
        unfold Cuboid_. cbn [width height depth].
        apply cub_fitness_iff. auto.
      * cbn [is_maxas snd]. eauto.
    + left. split; [now apply HS|]. split; reflexivity.
Qed.

(** X11 ([Guillotine.add_cub], [Guillotine._select_fittest_section],
    [Guillotine.fitness], [MaxCubs._select_position], [MaxCubs.fitness],
    [MaxCubs.add_cub]). For an item of positive dimensions, add_cub of a bin
    returns None exactly when no free region of the bin (section or maximal
    cuboid) can hold the item as given or, with rotation enabled, with width
    and height swapped; fitness returns None in exactly the same case. *)
Theorem placement_fails_only_when_nothing_fits
    (b : pack_algo.PackingAlgorithm) (w h d : Z) (rid_ : option Z) :
  0 < w -> 0 < h -> 0 < d ->
  (snd (bin.add_cub b w h d rid_) = Ret None <-> cannot_fit b w h d) /\
  (bin.fitness b w h d = Ret None <-> cannot_fit b w h d).
Proof.
  intros Hw Hh Hd.
  destruct (bin_add_cub_cases b w h d rid_ Hw Hh Hd)
    as [[C [E1 E2]]|[C [[v [E2 _]] E1]]].
  - rewrite E1, E2. cbn [snd]. tauto.
  - rewrite E2. split; (split; [|tauto]); intros H; exfalso.
    + destruct (is_maxas _); [|destruct E1 as [c E1]]; congruence.
    + discriminate.
Qed.

Lemma placement_fails_only_when_nothing_fits_witness :
  (snd (bin.add_cub
          (bin.reset (pack_algo.mkPackingAlgorithm bin.MaxCubsBssf_ 10 10 10
                        true [] (Cuboid_ 0 0 0 10 10 10) true [] []))
          12 4 4 None) = Ret None
   <-> cannot_fit
         (bin.reset (pack_algo.mkPackingAlgorithm bin.MaxCubsBssf_ 10 10 10
                       true [] (Cuboid_ 0 0 0 10 10 10) true [] []))
         12 4 4) /\
  (bin.fitness
     (bin.reset (pack_algo.mkPackingAlgorithm bin.MaxCubsBssf_ 10 10 10
                   true [] (Cuboid_ 0 0 0 10 10 10) true [] []))
     12 4 4 = Ret None
   <-> cannot_fit
         (bin.reset (pack_algo.mkPackingAlgorithm bin.MaxCubsBssf_ 10 10 10
                       true [] (Cuboid_ 0 0 0 10 10 10) true [] []))
         12 4 4).
Proof.
  apply (placement_fails_only_when_nothing_fits
           (bin.reset (pack_algo.mkPackingAlgorithm bin.MaxCubsBssf_ 10 10 10
                         true [] (Cuboid_ 0 0 0 10 10 10) true [] []))
           12 4 4 None); lia.
Defined.

(** X12 ([Guillotine.fitness], [Guillotine.add_cub],
    [GuillotineMaxas._split], [MaxCubs.fitness], [MaxCubs.add_cub]). For an
    item of positive dimensions, when fitness of a bin returns a number, the
    number is not negative and add_cub on that bin places the item; the
    exception is a GuillotineMaxas bin, where add_cub then raises TypeError. *)
Theorem fitness_predicts_add_cub
    (b : pack_algo.PackingAlgorithm) (w h d v : Z) (rid_ : option Z) :
  0 < w -> 0 < h -> 0 < d ->
  bin.fitness b w h d = Ret (Some v) ->
  0 <= v /\
  if is_maxas (pack_algo.cls b)
  then snd (bin.add_cub b w h d rid_) = Raise TypeError
  else exists c, snd (bin.add_cub b w h d rid_) = Ret (Some c).
Proof.
  intros Hw Hh Hd E.
  destruct (bin_add_cub_cases b w h d rid_ Hw Hh Hd)
    as [[C [E1 E2]]|[C [[v' [E2 Hv]] E1]]]; [congruence|].
  split; [congruence|exact E1].
Qed.

Lemma fitness_predicts_add_cub_witness :
  0 <= 4 /\
  exists c,
    snd (bin.add_cub
           (bin.reset (pack_algo.mkPackingAlgorithm bin.GuillotineBssfSas
                         10 10 10 true [] (Cuboid_ 0 0 0 10 10 10) true [] []))
           4 5 6 (Some 7)) = Ret (Some c).
Proof.
  apply (fitness_predicts_add_cub
           (bin.reset (pack_algo.mkPackingAlgorithm bin.GuillotineBssfSas
                         10 10 10 true [] (Cuboid_ 0 0 0 10 10 10) true [] []))
           4 5 6 4 (Some 7)); [lia|lia|lia|reflexivity].
Defined.

(** ** The placement is the fittest one *)

(** X13 ([Guillotine._select_fittest_section], [Guillotine.add_cub],
    [Guillotine.fitness]). A cuboid placed by Guillotine.add_cub sits at the
    origin of a section of the bin; the _section_fitness of that section for
    the placed dimensions is the value fitness returns for the item, and no
    section has a smaller fitness for the item as given or, with rotation
    enabled, turned. *)
Theorem guillotine_places_at_least_fitness (f : pack_algo.selection)
    (rule : pack_algo.split_rule) (b b' : pack_algo.PackingAlgorithm)
    (w h d : Z) (rid_ : option Z) (c : Cuboid) :
  guillotine.add_cub f rule b w h d rid_ = (b', Ret (Some c)) ->
  exists s v,
    In s (pack_algo._sections b) /\
    x c = x s /\ y c = y s /\ z c = z s /\
    guillotine._section_fitness f s (width c) (height c) (depth c) = Some v /\
    guillotine.fitness f b w h d = Ret (Some v) /\
    (forall s' v', In s' (pack_algo._sections b) ->
       guillotine._section_fitness f s' w h d = Some v' -> v <= v') /\
    (pack_algo.rot b = true ->
     forall s' v', In s' (pack_algo._sections b) ->
       guillotine._section_fitness f s' h w d = Some v' -> v <= v').
Proof.
  unfold guillotine.add_cub, guillotine.fitness.
  destruct (negb _); [discriminate|].
  destruct (guillotine._select_fittest_section f b w h d)
    as [[sec rotated]|] eqn:E; [|discriminate].
  apply select_fittest_full in E.
  destruct E as [Hin [Hrot [v [Hv [Hn Hr]]]]].
  destruct (if rotated then (h, w) else (w, h)) as [w1 h1] eqn:Ew.
  destruct (guillotine.remove sec _) as [secs|]; [|discriminate].
  destruct (guillotine._split rule _ sec w1 h1 d) as [b2 o].
  destruct o as [[]|e|]; cbn [abort]; try discriminate.
  intros H. inversion H; subst; clear H.
  exists sec, v. cbn [x y z width height depth].
  split; [assumption|]. repeat (split; [reflexivity|]).
  destruct rotated; inversion Ew; subst;
    (split; [assumption|]); (split; [now rewrite Hv|]); split; assumption.
Qed.

Lemma guillotine_places_at_least_fitness_witness :
  exists s v,
    In s [mkCuboid 0 0 0 10 10 10 (Some 0)] /\
    0 = x s /\ 0 = y s /\ 0 = z s /\
    guillotine._section_fitness pack_algo.Bssf s 4 5 6 = Some v /\
    guillotine.fitness pack_algo.Bssf
      (bin.reset (pack_algo.mkPackingAlgorithm bin.GuillotineBssfSas 10 10 10
                    true [] (Cuboid_ 0 0 0 10 10 10) true [] []))
      4 5 6 = Ret (Some v) /\
    (forall s' v', In s' [mkCuboid 0 0 0 10 10 10 (Some 0)] ->
       guillotine._section_fitness pack_algo.Bssf s' 4 5 6 = Some v' ->
       v <= v') /\
    (true = true ->
     forall s' v', In s' [mkCuboid 0 0 0 10 10 10 (Some 0)] ->
       guillotine._section_fitness pack_algo.Bssf s' 5 4 6 = Some v' ->
       v <= v').
Proof.
  apply (guillotine_places_at_least_fitness pack_algo.Bssf pack_algo.Sas
           (bin.reset (pack_algo.mkPackingAlgorithm bin.GuillotineBssfSas
                         10 10 10 true [] (Cuboid_ 0 0 0 10 10 10) true [] []))
           (fst (guillotine.add_cub pack_algo.Bssf pack_algo.Sas
              (bin.reset (pack_algo.mkPackingAlgorithm bin.GuillotineBssfSas
                            10 10 10 true [] (Cuboid_ 0 0 0 10 10 10) true [] []))
              4 5 6 None))
           4 5 6 None (mkCuboid 0 0 0 4 5 6 None)).
  reflexivity.
Defined.

(** X14 ([MaxCubsBl._select_position], [MaxCubs.add_cub]). MaxCubsBl.add_cub
    places the cuboid so that its top (y + height) is not above the top it
    would have in any maximal cuboid that can hold the item, as given or,
    with rotation enabled, turned. *)
Theorem bottom_left_picks_lowest_top (b b' : pack_algo.PackingAlgorithm)
    (w h d : Z) (rid_ : option Z) (c : Cuboid) :
  maxcubs.add_cub pack_algo.MaxCubsBl b w h d rid_ = (b', Ret (Some c)) ->
  forall m, In m (pack_algo._max_cubs b) ->
    (holds m w h d -> top c <= y m + h) /\
    (pack_algo.rot b = true -> holds m h w d -> top c <= y m + w).
Proof.
  unfold maxcubs.add_cub.
  destruct (negb _); [discriminate|].
  destruct (maxcubs._select_position pack_algo.MaxCubsBl b w h d)
    as [[cub m0]|] eqn:E; [|discriminate].
  apply select_position_full in E.
  destruct E as [Hin [w1 [h1 [-> [Hh [Hor [Hn Hr]]]]]]].
  intros H. inversion H; subst; clear H.
  intros m Hm. unfold top, set_rid, Cuboid_. cbn [y height].
  cbn [select_key] in Hn, Hr. split.
  - intros Hm'. now apply Hn.
  - intros R Hm'. now apply Hr.
Qed.

Lemma bottom_left_picks_lowest_top_witness :
  (holds (Cuboid_ 0 0 0 10 10 10) 4 5 6 ->
   top (mkCuboid 0 0 0 5 4 6 None) <= y (Cuboid_ 0 0 0 10 10 10) + 5) /\
  (true = true -> holds (Cuboid_ 0 0 0 10 10 10) 5 4 6 ->
   top (mkCuboid 0 0 0 5 4 6 None) <= y (Cuboid_ 0 0 0 10 10 10) + 4).
Proof.
  apply (bottom_left_picks_lowest_top
           (bin.reset (pack_algo.mkPackingAlgorithm
                         (pack_algo.MaxCubs pack_algo.MaxCubsBl) 10 10 10
                         true [] (Cuboid_ 0 0 0 10 10 10) true [] []))
           (fst (maxcubs.add_cub pack_algo.MaxCubsBl
                   (bin.reset (pack_algo.mkPackingAlgorithm
                                 (pack_algo.MaxCubs pack_algo.MaxCubsBl)
                                 10 10 10 true []
                                 (Cuboid_ 0 0 0 10 10 10) true [] []))
                   4 5 6 None))
           4 5 6 None (mkCuboid 0 0 0 5 4 6 None));
    [reflexivity|left; reflexivity].
Defined.

Lemma add_cub_not_positive (b : pack_algo.PackingAlgorithm) (w h d : Z)
    (rid_ : option Z) :
  pack_algo.positive_dims w h d = false ->
  bin.add_cub b w h d rid_ = (b, Raise AssertionError).
Proof.
  intros H. unfold bin.add_cub, guillotine.add_cub, maxcubs.add_cub.
  rewrite H. destruct (pack_algo.cls b); reflexivity.
Qed.

Lemma bin_add_cub_good (b : pack_algo.PackingAlgorithm) (w h d : Z)
    (rid_ : option Z) :
  good b -> good (fst (bin.add_cub b w h d rid_)).
Proof.
  intros G.
  destruct (pack_algo.positive_dims w h d) eqn:P.
  2: { rewrite add_cub_not_positive by assumption. exact G. }
  assert (Hpos : 0 < w /\ 0 < h /\ 0 < d)
    by (unfold pack_algo.positive_dims in P; lia).
  destruct G as [I|[Hc Hf]].
  - left. destruct Hpos as [Hw [Hh Hd]]. now apply bin_add_cub_inv.
  - rewrite (single_bin_unplaceable w h d Hpos b rid_).
    + right. split; assumption.
    + intros s Hs. rewrite Forall_forall in Hf. specialize (Hf s Hs).
      split; [|intros _]; intros Hh'; apply Hf; revert Hh'; boxes; lia.
Qed.

Lemma add_cubs_good (items : list packer.cub_item) :
  forall b, good b -> good (add_cubs b items).
Proof.
  induction items as [|[[[w h] d] r] items IH]; intros b G; [exact G|].
  cbn [add_cubs]. apply IH. now apply bin_add_cub_good.
Qed.

Lemma init_good (c : pack_algo.algo) (W H D : Z) (r m : bool)
    (b0 : pack_algo.PackingAlgorithm) :
  bin.init c W H D r m = Ret b0 -> good b0.
Proof.
  intros E.
  destruct (init_shape c W H D r m b0 E)
    as [Hc [_ [Hw [Hh [Hd [rid0 Hf]]]]]].
  destruct (Z_lt_le_dec 0 W) as [HW|HW];
    [destruct (Z_lt_le_dec 0 H) as [HH|HH];
     [destruct (Z_lt_le_dec 0 D) as [HD|HD]|]|].
  1: { left. eapply init_inv; eassumption. }
  all: right; split; [assumption|];
       rewrite Hf; constructor; [|constructor]; boxes; lia.
Qed.

Lemma init_dims (c : pack_algo.algo) (W H D : Z) (r m : bool)
    (b0 : pack_algo.PackingAlgorithm) :
  bin.init c W H D r m = Ret b0 -> 0 <= W /\ 0 <= H /\ 0 <= D.
Proof.
  unfold bin.init, Cuboid_assert.
  destruct (_ && _ && _) eqn:E; cbn [negb]; [|discriminate]. intros _. lia.
Qed.

Lemma good_placed_ok (b : pack_algo.PackingAlgorithm) : good b -> placed_ok b.
Proof.
  intros [I|[Hc _]].
  - split; [apply (inv_placed_solid b I)|].
    split; [apply (inv_placed_sub b I)|apply (inv_placed_apart b I)].
  - unfold placed_ok. rewrite Hc. repeat constructor.
Qed.

Lemma placed_ok_packing_ok (b : pack_algo.PackingAlgorithm) :
  placed_ok b -> packing_ok b.
Proof.
  intros [_ [Hs Ha]]. split.
  - intros c Hc. apply sub_contains. rewrite Forall_forall in Hs. auto.
  - intros i j c1 c2 Hij H1 H2. apply apart_intersects.
    apply (FOP_nth apart _ Ha apart_sym i j); assumption.
Qed.

(** ** The Maxas split rule *)

Lemma maxas_add_cub_cuboids (f : pack_algo.selection)
    (b : pack_algo.PackingAlgorithm) (w h d : Z) (rid_ : option Z) :
  pack_algo.cls b = pack_algo.Guillotine f pack_algo.Maxas ->
  pack_algo.cuboids (fst (bin.add_cub b w h d rid_)) = pack_algo.cuboids b /\
  forall c, snd (bin.add_cub b w h d rid_) <> Ret (Some c).
Proof.
  intros Hcls.
  pose proof (bin_add_cub_post b w h d rid_) as P. unfold placed_by in P.
  assert (N : forall c, snd (bin.add_cub b w h d rid_) <> Ret (Some c)).
  { unfold bin.add_cub. rewrite Hcls. unfold guillotine.add_cub.
    destruct (negb _); [cbn; congruence|].
    destruct (guillotine._select_fittest_section f b w h d) as [[sec rot]|];
      [|cbn; congruence].
    destruct (if rot then (h, w) else (w, h)) as [w1 h1].
    destruct (guillotine.remove sec _) as [secs|]; [|cbn; congruence].
    pose proof (guillotine_split_snd pack_algo.Maxas
                  (pack_algo.set_sections b secs) sec w1 h1 d) as S.
    destruct (guillotine._split pack_algo.Maxas _ sec w1 h1 d) as [b2 o].
    cbn [snd] in S. subst o. cbn. congruence. }
  split; [|exact N].
  destruct (bin.add_cub b w h d rid_) as [b' r]. cbn [fst snd] in *.
  destruct r as [[c|]|e|]; [exfalso; now apply (N c)|now subst|exact P|exact P].
Qed.

(** X15 ([GuillotineMaxas._split], [Guillotine.add_cub]). A GuillotineMaxas
    bin never holds a cuboid: after any sequence of add_cub calls on a fresh
    bin the list of placed cuboids is empty. *)
Theorem maxas_bins_stay_empty (f : pack_algo.selection) (W H D : Z)
    (r m : bool) (b0 : pack_algo.PackingAlgorithm)
    (items : list packer.cub_item) :
  bin.init (pack_algo.Guillotine f pack_algo.Maxas) W H D r m = Ret b0 ->
  pack_algo.cuboids (add_cubs b0 items) = [].
Proof.
  intros E.
  destruct (init_shape _ W H D r m b0 E) as [Hc [Hcls _]].
  rewrite <- Hc. clear E Hc. revert b0 Hcls.
  induction items as [|[[[w h] d] rid_] items IH]; intros b Hcls;
    [reflexivity|].
  cbn [add_cubs].
  destruct (maxas_add_cub_cuboids f b w h d rid_ Hcls) as [Hs _].
  rewrite <- Hs. apply IH.
  destruct (bin_add_cub_kind b w h d rid_) as [K _]. congruence.
Qed.

Lemma maxas_bins_stay_empty_witness :
  pack_algo.cuboids
    (add_cubs
       (bin.reset
          (pack_algo.mkPackingAlgorithm
             (pack_algo.Guillotine pack_algo.Bssf pack_algo.Maxas) 10 10 10
             true [] (Cuboid_ 0 0 0 10 10 10) true [] []))
       [(4, 4, 4, Some 1); (6, 6, 6, Some 2)])
  = [].
Proof.
  apply (maxas_bins_stay_empty pack_algo.Bssf 10 10 10 true true).
  reflexivity.
Defined.

(** ** validate_packing *)

Lemma nth_error_item (l : list Cuboid) (i : nat) :
  (i < List.length l)%nat -> nth_error l i = Some (pack_algo.item l i).
Proof.
  intros H. unfold pack_algo.item. now apply nth_error_nth'.
Qed.

(** X16 ([PackingAlgorithm.validate_packing], [Guillotine.add_cub],
    [MaxCubs.add_cub]). For a bin whose depth does not exceed its width,
    validate_packing returns normally after any sequence of add_cub calls on
    the fresh bin. *)
Theorem validate_packing_accepts (c : pack_algo.algo) (W H D : Z)
    (r m : bool) (b0 : pack_algo.PackingAlgorithm)
    (items : list packer.cub_item) :
  bin.init c W H D r m = Ret b0 -> D <= W ->
  pack_algo.validate_packing (add_cubs b0 items) = Ret tt.
Proof.
  intros E HDW.
  destruct (init_shape c W H D r m b0 E) as [_ [_ [Hw [Hh [Hd _]]]]].
  pose proof (add_cubs_volume items b0) as V.
  pose proof (good_placed_ok _ (add_cubs_good items b0 (init_good _ _ _ _ _ _ _ E)))
    as [_ [Hs Ha]].
  set (b := add_cubs b0 items) in *.
  unfold bin_volume in V. rewrite Hw, Hh, Hd in V.
  injection V as Vw Vh Vd.
  unfold pack_algo.validate_packing.
  replace (existsb _ (pack_algo.cuboids b)) with false.
  2: { symmetry. apply not_true_is_false. intros X.
       apply existsb_exists in X. destruct X as [q [Hq X]].
       rewrite Forall_forall in Hs. specialize (Hs q Hq).
       apply negb_true_iff in X. revert X Hs.
       unfold bin_volume. rewrite Vw, Vh, Vd. boxes. lia. }
  destruct (_ <=? 1)%nat; [reflexivity|].
  replace (existsb _ (pack_algo.range 0 _)) with false; [reflexivity|].
  symmetry. apply not_true_is_false. intros X.
  apply existsb_exists in X. destruct X as [i [Hi X]].
  apply existsb_exists in X. destruct X as [j [Hj X]].
  unfold pack_algo.range in Hi, Hj. apply in_seq in Hi, Hj.
  assert (Hij : i <> j) by lia.
  assert (Ei : nth_error (pack_algo.cuboids b) i
               = Some (pack_algo.item (pack_algo.cuboids b) i))
    by (apply nth_error_item; lia).
  assert (Ej : nth_error (pack_algo.cuboids b) j
               = Some (pack_algo.item (pack_algo.cuboids b) j))
    by (apply nth_error_item; lia).
  pose proof (FOP_nth apart _ Ha apart_sym i j _ _ Hij Ei Ej) as Hap.
  apply apart_intersects in Hap. congruence.
Qed.

Lemma validate_packing_accepts_witness :
  pack_algo.validate_packing
    (add_cubs
       (bin.reset
          (pack_algo.mkPackingAlgorithm bin.GuillotineBssfSas 10 10 8 true []
             (Cuboid_ 0 0 0 10 10 8) true [] []))
       [(4, 4, 4, Some 1); (6, 6, 6, Some 2); (4, 6, 8, None)])
  = Ret tt.
Proof.
  apply (validate_packing_accepts bin.GuillotineBssfSas 10 10 8 true true);
    [reflexivity|lia].
Defined.

(** ** Used volume *)

Lemma sum_upto_ext (n : nat) (f g : Z -> Z) :
  (forall i, 0 <= i < Z.of_nat n -> f i = g i) ->
  sum_upto n f = sum_upto n g.
Proof.
  induction n as [|n IH]; intros H; [reflexivity|].
  cbn [sum_upto]. rewrite IH, H; [reflexivity|lia|].
  intros i Hi. apply H. lia.
Qed.

Lemma sum_upto_le (n : nat) (f g : Z -> Z) :
  (forall i, 0 <= i < Z.of_nat n -> f i <= g i) ->
  sum_upto n f <= sum_upto n g.
Proof.
  induction n as [|n IH]; intros H; [reflexivity|].
  cbn [sum_upto].
  assert (sum_upto n f <= sum_upto n g) by (apply IH; intros i Hi; apply H; lia).
  assert (f (Z.of_nat n) <= g (Z.of_nat n)) by (apply H; lia).
  lia.
Qed.

Lemma sum_upto_plus (n : nat) (f g : Z -> Z) :
  sum_upto n (fun i => f i + g i) = sum_upto n f + sum_upto n g.
Proof. induction n as [|n IH]; cbn [sum_upto]; [reflexivity|]. rewrite IH. ring. Qed.

Lemma sum_upto_scale (n : nat) (a : Z) (f : Z -> Z) :
  sum_upto n (fun i => a * f i) = a * sum_upto n f.
Proof. induction n as [|n IH]; cbn [sum_upto]; [ring|]. rewrite IH. ring. Qed.

Lemma sum_upto_const (n : nat) (a : Z) :
  sum_upto n (fun _ => a) = Z.of_nat n * a.
Proof.
  induction n as [|n IH]; cbn [sum_upto]; [ring|].
  rewrite IH, Nat2Z.inj_succ. ring.
Qed.

Lemma sum_upto_zero (n : nat) : sum_upto n (fun _ => 0) = 0.
Proof. rewrite sum_upto_const. ring. Qed.

Lemma sum_in_range_gen (n : nat) (lo len : Z) :
  0 <= lo -> 0 <= len ->
  sum_upto n (in_range lo len)
    = Z.max 0 (Z.min (Z.of_nat n) (lo + len) - lo).
Proof.
  intros Hlo Hlen. induction n as [|n IH]; cbn [sum_upto]; [lia|].
  rewrite IH, Nat2Z.inj_succ. unfold in_range.
  destruct ((lo <=? Z.of_nat n) && (Z.of_nat n <? lo + len)) eqn:E; lia.
Qed.

Lemma sum_in_range (n : nat) (lo len : Z) :
  0 <= lo -> 0 <= len -> lo + len <= Z.of_nat n ->
  sum_upto n (in_range lo len) = len.
Proof. intros. rewrite sum_in_range_gen by assumption. lia. Qed.

Lemma cells_cuboid (W H D : nat) (c : Cuboid) :
  well_formed c ->
  sub c (Cuboid_ 0 0 0 (Z.of_nat W) (Z.of_nat H) (Z.of_nat D)) ->
  cells W H D (cell c) = volume c.
Proof.
  intros Hw Hs. unfold cells, cell, volume.
  rewrite (sum_upto_ext W _
             (fun i => (height c * depth c) * in_range (x c) (width c) i)).
  - rewrite sum_upto_scale, sum_in_range; [ring| | |];
      revert Hw Hs; boxes; unfold well_formed; lia.
  - intros i _.
    rewrite (sum_upto_ext H _
               (fun j => (in_range (x c) (width c) i * depth c)
                         * in_range (y c) (height c) j)).
    + rewrite sum_upto_scale, sum_in_range; [ring| | |];
        revert Hw Hs; boxes; unfold well_formed; lia.
    + intros j _. rewrite sum_upto_scale, sum_in_range; [ring| | |];
        revert Hw Hs; boxes; unfold well_formed; lia.
Qed.

Lemma cells_le (W H D : nat) (f g : Z -> Z -> Z -> Z) :
  (forall i j k, f i j k <= g i j k) -> cells W H D f <= cells W H D g.
Proof.
  intros L. unfold cells.
  apply sum_upto_le. intros i _. apply sum_upto_le. intros j _.
  apply sum_upto_le. intros k _. apply L.
Qed.

Lemma cells_plus (W H D : nat) (f g : Z -> Z -> Z -> Z) :
  cells W H D (fun i j k => f i j k + g i j k)
    = cells W H D f + cells W H D g.
Proof.
  unfold cells. rewrite <- sum_upto_plus.
  apply sum_upto_ext. intros i _. rewrite <- sum_upto_plus.
  apply sum_upto_ext. intros j _. apply sum_upto_plus.
Qed.

Lemma cells_const (W H D : nat) (a : Z) :
  cells W H D (fun _ _ _ => a) = Z.of_nat W * Z.of_nat H * Z.of_nat D * a.
Proof.
  unfold cells.
  rewrite (sum_upto_ext W _ (fun _ => Z.of_nat H * (Z.of_nat D * a))).
  - rewrite sum_upto_const. ring.
  - intros i _.
    rewrite (sum_upto_ext H _ (fun _ => Z.of_nat D * a)).
    + apply sum_upto_const.
    + intros j _. apply sum_upto_const.
Qed.

Lemma in_range_01 (lo len i : Z) : in_range lo len i = 0 \/ in_range lo len i = 1.
Proof. unfold in_range. destruct (_ && _); auto. Qed.

Lemma cell_01 (c : Cuboid) (i j k : Z) : cell c i j k = 0 \/ cell c i j k = 1.
Proof.
  unfold cell.
  destruct (in_range_01 (x c) (width c) i) as [->| ->];
  destruct (in_range_01 (y c) (height c) j) as [->| ->];
  destruct (in_range_01 (z c) (depth c) k) as [->| ->]; auto.
Qed.

Lemma cell_1 (c : Cuboid) (i j k : Z) :
  cell c i j k = 1 ->
  x c <= i < x c + width c /\ y c <= j < y c + height c /\
  z c <= k < z c + depth c.
Proof.
  unfold cell, in_range.
  destruct ((x c <=? i) && (i <? x c + width c)) eqn:E1;
  destruct ((y c <=? j) && (j <? y c + height c)) eqn:E2;
  destruct ((z c <=? k) && (k <? z c + depth c)) eqn:E3;
  cbn; try discriminate; intros _; lia.
Qed.

Lemma cell_apart (a b : Cuboid) (i j k : Z) :
  apart a b -> cell a i j k = 1 -> cell b i j k = 0.
Proof.
  intros Hap Ha. destruct (cell_01 b i j k) as [H|H]; [exact H|].
  exfalso. apply cell_1 in Ha, H. apply Hap. boxes. lia.
Qed.

Lemma cover_apart (l : list Cuboid) (a : Cuboid) (i j k : Z) :
  Forall (fun b => apart a b) l -> cell a i j k = 1 -> cover l i j k = 0.
Proof.
  induction 1 as [|b l Hb _ IH]; intros Ha; [reflexivity|].
  cbn [cover fold_right]. fold (cover l i j k).
  rewrite (cell_apart a b i j k Hb Ha), IH by assumption. reflexivity.
Qed.

Lemma cover_le_1 (l : list Cuboid) (i j k : Z) :
  ForallOrdPairs apart l -> 0 <= cover l i j k <= 1.
Proof.
  induction 1 as [|a l Ha _ IH]; [cbn; lia|].
  cbn [cover fold_right]. fold (cover l i j k).
  destruct (cell_01 a i j k) as [E|E]; rewrite E; [lia|].
  rewrite (cover_apart l a i j k Ha E). lia.
Qed.

Lemma cells_cover (W H D : nat) (l : list Cuboid) :
  Forall well_formed l ->
  Forall (fun c => sub c (Cuboid_ 0 0 0 (Z.of_nat W) (Z.of_nat H) (Z.of_nat D)))
    l ->
  cells W H D (cover l) = fold_right (fun c acc => volume c + acc) 0 l.
Proof.
  induction l as [|c l IH]; intros Hw Hs.
  - cbn [fold_right]. unfold cover. cbn [fold_right].
    rewrite cells_const. ring.
  - inversion Hw; subst. inversion Hs; subst.
    cbn [fold_right]. rewrite <- IH by assumption.
    rewrite <- (cells_cuboid W H D c) by assumption.
    rewrite <- cells_plus. reflexivity.
Qed.

(** Cuboids that lie in a box and are pairwise apart take no more
    volume than the box has. *)
Lemma packed_volume (W H D : Z) (l : list Cuboid) :
  0 <= W -> 0 <= H -> 0 <= D ->
  Forall well_formed l ->
  Forall (fun c => sub c (Cuboid_ 0 0 0 W H D)) l ->
  ForallOrdPairs apart l ->
  fold_right (fun c acc => volume c + acc) 0 l <= W * H * D.
Proof.
  intros HW HH HD Hw Hs Ha.
  rewrite <- (Z2Nat.id W), <- (Z2Nat.id H), <- (Z2Nat.id D) in Hs by assumption.
  rewrite <- (cells_cover _ _ _ l Hw Hs).
  etransitivity.
  - apply (cells_le _ _ _ _ (fun _ _ _ => 1)).
    intros i j k. apply cover_le_1, Ha.
  - rewrite cells_const, !Z2Nat.id by assumption. lia.
Qed.

Lemma solid_well_formed (c : Cuboid) : solid c -> well_formed c.
Proof. unfold solid, well_formed. lia. Qed.

(** X17 ([PackingAlgorithm.used_volume], [Guillotine.add_cub],
    [MaxCubs.add_cub]). used_volume of a bin never exceeds width * height *
    depth of the bin, after any sequence of add_cub calls on the fresh bin. *)
Theorem used_volume_bounded (c : pack_algo.algo) (W H D : Z)
    (r m : bool) (b0 : pack_algo.PackingAlgorithm)
    (items : list packer.cub_item) :
  bin.init c W H D r m = Ret b0 ->
  pack_algo.used_volume (add_cubs b0 items) <= W * H * D.
Proof.
  intros E.
  destruct (init_shape c W H D r m b0 E) as [_ [_ [Hw [Hh [Hd _]]]]].
  destruct (init_dims c W H D r m b0 E) as [HW [HH HD]].
  pose proof (add_cubs_volume items b0) as V.
  pose proof (good_placed_ok _ (add_cubs_good items b0 (init_good _ _ _ _ _ _ _ E)))
    as [Hso [Hs Ha]].
  unfold bin_volume in V, Hs. rewrite Hw, Hh, Hd in V. rewrite V in Hs.
  unfold pack_algo.used_volume.
  apply packed_volume; try assumption.
  eapply Forall_impl; [|exact Hso]. apply solid_well_formed.
Qed.

Lemma used_volume_bounded_witness :
  pack_algo.used_volume
    (add_cubs
       (bin.reset
          (pack_algo.mkPackingAlgorithm bin.MaxCubsBssf_ 10 10 10 true []
             (Cuboid_ 0 0 0 10 10 10) true [] []))
       [(4, 4, 4, Some 1); (6, 6, 6, Some 2); (6, 6, 6, None)])
  <= 10 * 10 * 10.
Proof.
  apply (used_volume_bounded bin.MaxCubsBssf_ 10 10 10 true true).
  reflexivity.
Defined.

(** ** Guillotine: the volume of the sections *)

Lemma total_volume_app (l l' : list Cuboid) :
  total_volume (l ++ l') = total_volume l + total_volume l'.
Proof.
  unfold total_volume.
  induction l as [|c l IH]; cbn [fold_right app]; [reflexivity|].
  rewrite IH. ring.
Qed.

Lemma total_volume_cons (c : Cuboid) (l : list Cuboid) :
  total_volume (c :: l) = volume c + total_volume l.
Proof. reflexivity. Qed.

Lemma join_step_volume (b : pack_algo.PackingAlgorithm) (sec s sec1 : Cuboid)
    (joined : bool) :
  join sec s = (joined, sec1) -> free_ok b sec -> free_ok b s ->
  apart sec s ->
  volume sec1 = volume sec + (if joined then volume s else 0).
Proof.
  intros E Hsec Hs Hap. pose proof (join_inv sec s) as J. rewrite E in J.
  inversion J as [H|H|H|H1 H2 Hm Hx Hz|H1 H2 Hm Hy Hz|H1 H2 Hm Hx Hy|];
    subst; clear J E.
  - exfalso. revert H Hsec Hs Hap. boxes. lia.
  - exfalso. revert H Hsec Hs Hap. boxes. lia.
  - lia.
  - unfold volume. cbn [width height depth].
    assert (E1 : Z.max (top sec) (top s) - Z.min (bottom sec) (bottom s)
                 = height sec + height s)
      by (revert Hsec Hs Hap Hm Hx Hz; boxes; lia).
    assert (E2 : width s = width sec)
      by (revert Hx; boxes; lia).
    assert (E3 : depth s = depth sec)
      by (revert Hsec Hs Hz; boxes; lia).
    rewrite E1, E2, E3. ring.
  - unfold volume. cbn [width height depth].
    assert (E1 : Z.max (right sec) (right s) - Z.min (left sec) (left s)
                 = width sec + width s)
      by (revert Hsec Hs Hap Hm Hy Hz; boxes; lia).
    assert (E2 : height s = height sec)
      by (revert Hy; boxes; lia).
    assert (E3 : depth s = depth sec)
      by (revert Hsec Hs Hz; boxes; lia).
    rewrite E1, E2, E3. ring.
  - exfalso. revert Hsec Hs Hap Hm Hx Hy. boxes. lia.
  - lia.
Qed.

Lemma join_pass_volume (b : pack_algo.PackingAlgorithm) (secs : list Cuboid) :
  forall sec sec' kept,
    guillotine.join_pass sec secs = (sec', kept) ->
    free_ok b sec -> sections_ok b secs -> clear_of sec secs ->
    volume sec' + total_volume kept = volume sec + total_volume secs.
Proof.
  induction secs as [|s rest IH]; intros sec sec' kept E Hsec [Hok Hap] Hcl.
  - cbn in E. inversion E; subst. reflexivity.
  - cbn [guillotine.join_pass] in E.
    destruct (join sec s) as [joined sec1] eqn:EJ.
    destruct (guillotine.join_pass sec1 rest) as [sec2 kept'] eqn:EP.
    inversion E; subst; clear E.
    inversion Hok as [|? ? Hs_ok Hrest_ok]; subst.
    inversion Hap as [|? ? Hs_ap Hrest_ap]; subst.
    inversion Hcl as [|? ? Hs_cl Hrest_cl]; subst.
    destruct (join_step b sec s sec1 joined EJ Hsec Hs_ok) as [H1 [H2 H3]].
    assert (Hcl1 : clear_of sec1 rest).
    { unfold clear_of. rewrite Forall_forall in *. intros r Hr.
      apply apart_sym. apply H3.
      - apply (Hrest_ok r Hr).
      - apply apart_sym. auto.
      - auto. }
    pose proof (IH sec1 sec' kept' EP H1 (conj Hrest_ok Hrest_ap) Hcl1) as V.
    pose proof (join_step_volume b sec s sec1 joined EJ Hsec Hs_ok
                  (apart_sym _ _ Hs_cl)) as V1.
    rewrite total_volume_cons.
    destruct joined; rewrite ?total_volume_cons; lia.
Qed.

Lemma merge_loop_volume (b : pack_algo.PackingAlgorithm) (fuel : nat) :
  forall merge plen sec secs sec' secs',
    guillotine.merge_loop fuel merge plen sec secs = (sec', secs') ->
    free_ok b sec -> sections_ok b secs -> clear_of sec secs ->
    volume sec' + total_volume secs' = volume sec + total_volume secs.
Proof.
  induction fuel as [|fuel IH]; intros merge plen sec secs sec' secs' E
    Hsec Hok Hcl; cbn [guillotine.merge_loop] in E.
  - inversion E; subst. reflexivity.
  - destruct (_ && _ && _).
    + destruct (guillotine.join_pass sec secs) as [sec1 secs1] eqn:EP.
      destruct (join_pass_spec b secs sec sec1 secs1 EP Hsec Hok Hcl)
        as [H1 [H2 [H3 _]]].
      pose proof (join_pass_volume b secs sec sec1 secs1 EP Hsec Hok Hcl) as V.
      pose proof (IH _ _ _ _ _ _ E H1 H2 H3) as V'. lia.
    + inversion E; subst. reflexivity.
Qed.

Lemma add_step_volume (b : pack_algo.PackingAlgorithm) (L : list Cuboid)
    (n : Cuboid) :
  sections_ok b L -> free_ok b n -> clear_of n L ->
  total_volume
    (pack_algo._sections (guillotine._add_section (pack_algo.set_sections b L) n))
  = total_volume L + volume n.
Proof.
  intros Hok Hn Hcl. unfold guillotine._add_section.
  cbn [pack_algo._sections pack_algo.set_sections pack_algo._merge].
  destruct (guillotine.merge_loop _ _ _ _ _) as [sec1 secs1] eqn:E.
  apply (merge_loop_volume b) in E; [| | exact Hok |].
  - cbn [pack_algo._sections pack_algo.set_sections].
    rewrite total_volume_app, total_volume_cons.
    cbn [total_volume fold_right].
    replace (volume (set_rid n (Some 0))) with (volume n) in E by reflexivity.
    lia.
  - revert Hn. boxes. lia.
  - revert Hcl. unfold clear_of. apply Forall_impl. intros a. boxes. lia.
Qed.

Lemma add_step_if_volume (c : bool) (b : pack_algo.PackingAlgorithm)
    (L : list Cuboid) (n : Cuboid) :
  sections_ok b L -> (c = true -> free_ok b n /\ clear_of n L) ->
  total_volume
    (pack_algo._sections
       (if c then guillotine._add_section (pack_algo.set_sections b L) n
        else pack_algo.set_sections b L))
  = total_volume L + (if c then volume n else 0).
Proof.
  intros Hok Hc. destruct c.
  - destruct (Hc eq_refl). now apply add_step_volume.
  - cbn [pack_algo._sections pack_algo.set_sections]. lia.
Qed.

Lemma three_adds_volume (b : pack_algo.PackingAlgorithm) (S0 : list Cuboid)
    (sec cub : Cuboid) (c1 c2 c3 : bool) (n1 n2 n3 : Cuboid) :
  sections_ok b S0 -> clear_of sec S0 -> solid cub -> sub cub sec ->
  (c1 = true -> free_ok b n1 /\ sub n1 sec /\ apart n1 cub) ->
  (c2 = true -> free_ok b n2 /\ sub n2 sec /\ apart n2 cub) ->
  (c3 = true -> free_ok b n3 /\ sub n3 sec /\ apart n3 cub) ->
  (c1 = true -> c2 = true -> apart n1 n2) ->
  (c1 = true -> c3 = true -> apart n1 n3) ->
  (c2 = true -> c3 = true -> apart n2 n3) ->
  total_volume
    (pack_algo._sections
       (let self1 :=
          if c1 then guillotine._add_section (pack_algo.set_sections b S0) n1
          else pack_algo.set_sections b S0 in
        let self2 :=
          if c2 then guillotine._add_section self1 n2 else self1 in
        if c3 then guillotine._add_section self2 n3 else self2))
  = total_volume S0 + (if c1 then volume n1 else 0)
    + (if c2 then volume n2 else 0) + (if c3 then volume n3 else 0).
Proof.
  intros Hok Hcl Hcub Hsub H1 H2 H3 H12 H13 H23.
  assert (P1 : c1 = true -> free_ok b n1 /\ clear_of n1 S0).
  { intros C. destruct (H1 C) as [G1 [G2 _]]. split; [assumption|].
    eapply clear_of_sub; eassumption. }
  destruct (add_step_if c1 b S0 n1 Hok P1) as [L1 [E1 [Ok1 Cov1]]].
  pose proof (add_step_if_volume c1 b S0 n1 Hok P1) as V1.
  assert (P2 : c2 = true -> free_ok b n2 /\ clear_of n2 L1).
  { intros C. destruct (H2 C) as [G1 [G2 _]]. split; [assumption|].
    apply Cov1; [apply G1|auto|]. eapply clear_of_sub; eassumption. }
  destruct (add_step_if c2 b L1 n2 Ok1 P2) as [L2 [E2 [Ok2 Cov2]]].
  pose proof (add_step_if_volume c2 b L1 n2 Ok1 P2) as V2.
  assert (P3 : c3 = true -> free_ok b n3 /\ clear_of n3 L2).
  { intros C. destruct (H3 C) as [G1 [G2 _]]. split; [assumption|].
    apply Cov2; [apply G1|auto|].
    apply Cov1; [apply G1|auto|]. eapply clear_of_sub; eassumption. }
  pose proof (add_step_if_volume c3 b L2 n3 Ok2 P3) as V3.
  cbv zeta. rewrite E1 in V1 |- *. rewrite E2 in V2 |- *.
  cbn [pack_algo._sections pack_algo.set_sections] in V1, V2.
  lia.
Qed.

Lemma split_volume (horizontal : bool) (b : pack_algo.PackingAlgorithm)
    (S0 : list Cuboid) (sec : Cuboid) (w1 h1 d : Z) :
  sections_ok b S0 -> free_ok b sec -> clear_of sec S0 ->
  0 < w1 -> 0 < h1 -> 0 < d -> holds sec w1 h1 d ->
  total_volume
    (pack_algo._sections
       (if horizontal
        then guillotine._split_horizontal (pack_algo.set_sections b S0)
               sec w1 h1 d
        else guillotine._split_vertical (pack_algo.set_sections b S0)
               sec w1 h1 d))
    + w1 * h1 * d
  = total_volume S0 + volume sec.
Proof.
  intros Hok Hsec Hcl Hw Hh Hd Hholds.
  destruct horizontal;
    [unfold guillotine._split_horizontal|unfold guillotine._split_vertical];
    (rewrite three_adds_volume
       with (sec := sec) (cub := mkCuboid (x sec) (y sec) (z sec) w1 h1 d None);
     [| auto | auto | | | | | | | |];
     [| try (intros C); try (intros C'); boxes; lia ..]).
  - unfold volume, Cuboid_. cbn [width height depth].
    unfold holds in Hholds.
    destruct (h1 <? height sec) eqn:C1; destruct (w1 <? width sec) eqn:C2;
      destruct (d <? depth sec) eqn:C3;
      try (assert (h1 = height sec) by lia; subst h1);
      try (assert (w1 = width sec) by lia; subst w1);
      try (assert (d = depth sec) by lia; subst d); ring.
  - unfold volume, Cuboid_. cbn [width height depth].
    unfold holds in Hholds.
    destruct (h1 <? height sec) eqn:C1; destruct (w1 <? width sec) eqn:C2;
      destruct (d <? depth sec) eqn:C3;
      try (assert (h1 = height sec) by lia; subst h1);
      try (assert (w1 = width sec) by lia; subst w1);
      try (assert (d = depth sec) by lia; subst d); ring.
Qed.

Lemma remove_volume (sec : Cuboid) (l : list Cuboid) :
  forall secs, guillotine.remove sec l = Some secs ->
    total_volume l = total_volume secs + volume sec.
Proof.
  induction l as [|s l IH]; intros secs E; [discriminate|].
  cbn [guillotine.remove] in E. destruct (Cuboid_eq s sec) eqn:Q.
  - inversion E; subst. rewrite total_volume_cons.
    assert (volume s = volume sec)
      by (unfold volume; unfold Cuboid_eq in Q;
          assert (width s = width sec) by lia;
          assert (height s = height sec) by lia;
          assert (depth s = depth sec) by lia; congruence).
    lia.
  - destruct (guillotine.remove sec l) as [rest|]; [|discriminate].
    inversion E; subst. rewrite !total_volume_cons.
    specialize (IH rest eq_refl). lia.
Qed.

Lemma guillotine_split_form (rule : pack_algo.split_rule)
    (b : pack_algo.PackingAlgorithm) (sec : Cuboid) (w h d : Z) :
  rule <> pack_algo.Maxas ->
  exists hz : bool,
    guillotine._split rule b sec w h d =
    ((if hz then guillotine._split_horizontal b sec w h d
      else guillotine._split_vertical b sec w h d), Ret tt).
Proof.
  intros N. unfold guillotine._split.
  destruct rule; try congruence;
    match goal with
    | |- context [if ?c then _ else _] =>
        destruct c; [exists true|exists false]; reflexivity
    end.
Qed.

Lemma guillotine_add_cub_conserved (f : pack_algo.selection)
    (rule : pack_algo.split_rule) (b : pack_algo.PackingAlgorithm)
    (w h d : Z) (rid_ : option Z) :
  pack_algo.cls b = pack_algo.Guillotine f rule -> rule <> pack_algo.Maxas ->
  inv b -> conserved b -> 0 < w -> 0 < h -> 0 < d ->
  conserved (fst (guillotine.add_cub f rule b w h d rid_)).
Proof.
  intros Hcls N I C Hw Hh Hd. unfold guillotine.add_cub.
  destruct (negb _); [exact C|].
  destruct (guillotine._select_fittest_section f b w h d)
    as [[sec rotated]|] eqn:E; [|exact C].
  apply select_fittest_spec in E. destruct E as [Hin Hholds].
  destruct (inv_guillotine_elim b f rule Hcls I) as [Hok Hplaced].
  destruct (remove_spec b sec _ Hok Hin) as [secs [ER [Hok1 [Hcl1 Hincl]]]].
  rewrite ER. apply remove_volume in ER.
  assert (Hsec : free_ok b sec).
  { destruct Hok as [Hok _]. rewrite Forall_forall in Hok. auto. }
  set (w1 := if rotated then h else w) in *.
  set (h1 := if rotated then w else h) in *.
  assert (Hw1 : 0 < w1) by (subst w1; destruct rotated; assumption).
  assert (Hh1 : 0 < h1) by (subst h1; destruct rotated; assumption).
  replace (if rotated then (h, w) else (w, h)) with (w1, h1)
    by (subst w1 h1; destruct rotated; reflexivity).
  destruct (guillotine_split_form rule (pack_algo.set_sections b secs)
              sec w1 h1 d N) as [hz ES].
  rewrite ES. cbn [fst].
  pose proof (split_volume hz b secs sec w1 h1 d Hok1 Hsec Hcl1 Hw1 Hh1 Hd
                Hholds) as V.
  pose proof (guillotine_split_cuboids rule (pack_algo.set_sections b secs)
                sec w1 h1 d) as K.
  pose proof (guillotine_split_volume rule (pack_algo.set_sections b secs)
                sec w1 h1 d) as B.
  rewrite ES in K, B. cbn [fst] in K, B.
  set (b2 := if hz then _ else _) in *.
  unfold conserved in *. unfold pack_algo.used_volume in *.
  cbn [pack_algo.cuboids pack_algo.set_cuboids pack_algo._sections
       pack_algo.width pack_algo.height pack_algo.depth
       pack_algo.set_sections] in *.
  unfold bin_volume in B. injection B as Bw Bh Bd.
  cbn [pack_algo.width pack_algo.height pack_algo.depth
       pack_algo.set_sections] in Bw, Bh, Bd.
  rewrite Bw, Bh, Bd, K.
  fold (total_volume (pack_algo.cuboids b ++
                      [mkCuboid (x sec) (y sec) (z sec) w1 h1 d rid_])).
  fold (total_volume (pack_algo.cuboids b)) in C.
  rewrite total_volume_app, total_volume_cons.
  unfold total_volume at 2. cbn [fold_right].
  unfold volume at 1. cbn [width height depth]. lia.
Qed.

Lemma bin_add_cub_conserved (f : pack_algo.selection)
    (rule : pack_algo.split_rule) (b : pack_algo.PackingAlgorithm)
    (w h d : Z) (rid_ : option Z) :
  pack_algo.cls b = pack_algo.Guillotine f rule -> rule <> pack_algo.Maxas ->
  good b -> conserved b ->
  conserved (fst (bin.add_cub b w h d rid_)).
Proof.
  intros Hcls N G C.
  destruct (pack_algo.positive_dims w h d) eqn:P.
  2: { rewrite add_cub_not_positive by assumption. exact C. }
  assert (Hpos : 0 < w /\ 0 < h /\ 0 < d)
    by (unfold pack_algo.positive_dims in P; lia).
  destruct G as [I|[Hc Hf]].
  - unfold bin.add_cub. rewrite Hcls. destruct Hpos as [Hw [Hh Hd]].
    now apply guillotine_add_cub_conserved.
  - rewrite (single_bin_unplaceable w h d Hpos b rid_); [exact C|].
    intros s Hs. rewrite Forall_forall in Hf. specialize (Hf s Hs).
    split; [|intros _]; intros Hh'; apply Hf; revert Hh'; boxes; lia.
Qed.

(** X18 ([Guillotine._split_horizontal], [Guillotine._split_vertical],
    [Guillotine._add_section], [Guillotine.add_cub],
    [PackingAlgorithm.used_volume]). In a Guillotine bin of any class but
    Maxas, the used volume plus the volumes of the free sections is the
    volume of the bin after any sequence of add_cub calls: splitting and
    merging sections neither lose nor duplicate space. *)
Theorem guillotine_conserves_volume (f : pack_algo.selection)
    (rule : pack_algo.split_rule) (W H D : Z) (r m : bool)
    (b0 : pack_algo.PackingAlgorithm) (items : list packer.cub_item) :
  bin.init (pack_algo.Guillotine f rule) W H D r m = Ret b0 ->
  is_maxas (pack_algo.Guillotine f rule) = false ->
  pack_algo.used_volume (add_cubs b0 items)
    + total_volume (pack_algo._sections (add_cubs b0 items))
  = W * H * D.
Proof.
  intros E M.
  assert (N : rule <> pack_algo.Maxas) by (intros ->; discriminate).
  destruct (init_shape _ W H D r m b0 E)
    as [Hc [Hcls [Hw [Hh [Hd [rid0 Hf]]]]]].
  pose proof (init_good _ _ _ _ _ _ _ E) as G.
  assert (C : conserved b0).
  { unfold conserved, pack_algo.used_volume. rewrite Hc, Hw, Hh, Hd.
    unfold free_regions in Hf. rewrite Hcls in Hf. rewrite Hf.
    cbn. unfold volume. cbn. ring. }
  rewrite <- Hw, <- Hh, <- Hd.
  clear E Hc Hw Hh Hd Hf.
  revert b0 Hcls G C.
  induction items as [|[[[w h] d] rid_] items IH]; intros b Hcls G C;
    [exact C|].
  cbn [add_cubs].
  destruct (bin_add_cub_kind b w h d rid_) as [K1 [_ K3]].
  unfold bin_volume in K3. injection K3 as Kw Kh Kd.
  rewrite <- Kw, <- Kh, <- Kd. apply IH.
  - congruence.
  - now apply bin_add_cub_good.
  - now apply (bin_add_cub_conserved f rule).
Qed.

Lemma guillotine_conserves_volume_witness :
  pack_algo.used_volume
    (add_cubs
       (bin.reset
          (pack_algo.mkPackingAlgorithm bin.GuillotineBssfSas 10 10 10 true []
             (Cuboid_ 0 0 0 10 10 10) true [] []))
       [(4, 4, 4, Some 1); (6, 6, 6, Some 2); (4, 6, 10, None)])
    + total_volume
        (pack_algo._sections
           (add_cubs
              (bin.reset
                 (pack_algo.mkPackingAlgorithm bin.GuillotineBssfSas 10 10 10
                    true [] (Cuboid_ 0 0 0 10 10 10) true [] []))
              [(4, 4, 4, Some 1); (6, 6, 6, Some 2); (4, 6, 10, None)]))
  = 10 * 10 * 10.
Proof.
  apply (guillotine_conserves_volume pack_algo.Bssf pack_algo.Sas 10 10 10
           true true); reflexivity.
Defined.

(** ** MaxCubs: maximal cuboids contained in others *)

Lemma combinations2_In (l : list Cuboid) (a c : Cuboid) :
  In (a, c) (maxcubs.combinations2 l) <->
  exists i j, (i < j)%nat /\ nth_error l i = Some a /\ nth_error l j = Some c.
Proof.
  induction l as [|s l IH]; cbn [maxcubs.combinations2].
  - split; [contradiction|]. intros [i [j [_ [H _]]]]. destruct i; discriminate.
  - rewrite in_app_iff, in_map_iff, IH. split.
    + intros [[c' [E Hc]]|[i [j [Hij [Hi Hj]]]]].
      * inversion E; subst. apply In_nth_error in Hc. destruct Hc as [j Hj].
        exists O, (S j). repeat split; [lia|assumption].
      * exists (S i), (S j). repeat split; [lia|assumption|assumption].
    + intros [i [j [Hij [Hi Hj]]]].
      destruct j as [|j]; [lia|]. cbn in Hj.
      destruct i as [|i]; cbn in Hi.
      * inversion Hi; subst. left. exists c. split; [reflexivity|].
        eapply nth_error_In; eassumption.
      * right. exists i, j. repeat split; [lia|assumption|assumption].
Qed.

Lemma marked_In (ps : list (Cuboid * Cuboid)) :
  forall acc q,
    In q (fold_left mark ps acc) <->
    In q acc \/
    exists m1 m2, In (m1, m2) ps /\
      ((contains m1 m2 = true /\ q = m2) \/
       (contains m1 m2 = false /\ contains m2 m1 = true /\ q = m1)).
Proof.
  induction ps as [|[m1 m2] ps IH]; intros acc q; cbn [fold_left].
  - split; [auto|]. intros [H|[? [? [[] _]]]]. exact H.
  - rewrite IH. cbn [mark].
    split.
    + intros [H|[a [c [Hin H]]]].
      * destruct (contains m1 m2) eqn:C1.
        -- destruct H as [E|H]; [|auto].
           right. exists m1, m2. split; [now left|]. left. auto.
        -- destruct (contains m2 m1) eqn:C2; [|auto].
           destruct H as [E|H]; [|auto].
           right. exists m1, m2. split; [now left|]. right. auto.
      * right. exists a, c. split; [now right|assumption].
    + intros [H|[a [c [[E|Hin] H]]]].
      * left. destruct (contains m1 m2); [now right|].
        destruct (contains m2 m1); [now right|assumption].
      * inversion E; subst. left.
        destruct H as [[C1 ->]|[C1 [C2 ->]]].
        -- rewrite C1. now left.
        -- rewrite C1, C2. now left.
      * right. exists a, c. auto.
Qed.

Lemma Cuboid_eq_sym (a b : Cuboid) : Cuboid_eq a b = Cuboid_eq b a.
Proof. unfold Cuboid_eq. lia. Qed.

Lemma Cuboid_eq_contains (a b c : Cuboid) :
  Cuboid_eq a b = true -> contains c a = contains c b.
Proof. unfold Cuboid_eq, contains. intros H. lia. Qed.

Lemma Cuboid_eq_mutual (a b : Cuboid) :
  contains a b = true -> contains b a = true -> Cuboid_eq a b = true.
Proof. unfold Cuboid_eq, contains. lia. Qed.

Lemma Cuboid_eq_trans (a b c : Cuboid) :
  Cuboid_eq a b = true -> Cuboid_eq b c = true -> Cuboid_eq a c = true.
Proof. unfold Cuboid_eq. lia. Qed.

(** X19 ([MaxCubs._remove_duplicates]). _remove_duplicates keeps the
    remaining maximal cuboids in their order and drops exactly the entries
    equal to a cuboid that another entry of the list contains; two equal
    entries are therefore both dropped. *)
Theorem remove_duplicates_keeps_the_unshadowed
    (b : pack_algo.PackingAlgorithm) (m : Cuboid) :
  (exists keep, pack_algo._max_cubs (maxcubs._remove_duplicates b)
                = filter keep (pack_algo._max_cubs b)) /\
  (In m (pack_algo._max_cubs (maxcubs._remove_duplicates b)) <->
   In m (pack_algo._max_cubs b) /\ ~ shadowed (pack_algo._max_cubs b) m).
Proof.
  unfold maxcubs._remove_duplicates.
  cbn [pack_algo._max_cubs pack_algo.set_max_cubs].
  set (l := pack_algo._max_cubs b).
  change (fun (acc : list Cuboid) (p : Cuboid * Cuboid) =>
            let '(m1, m2) := p in
            if contains m1 m2 then m2 :: acc
            else if contains m2 m1 then m1 :: acc else acc) with mark.
  set (contained := fold_left mark (maxcubs.combinations2 l) []).
  split; [eexists; reflexivity|].
  rewrite filter_In, negb_true_iff.
  assert (M : maxcubs.member m contained = true <-> shadowed l m).
  { unfold maxcubs.member. rewrite existsb_exists. split.
    - intros [q [Hq E]]. subst contained. apply marked_In in Hq.
      destruct Hq as [[]|[m1 [m2 [Hin H]]]].
      apply combinations2_In in Hin. destruct Hin as [i [j [Hij [Hi Hj]]]].
      rewrite Cuboid_eq_sym in E.
      destruct H as [[C ->]|[_ [C ->]]].
      + exists j, i, m2, m1. repeat split; auto. lia.
      + exists i, j, m1, m2. repeat split; auto. lia.
    - intros [i [j [a [c [Hij [Hi [Hj [E C]]]]]]]].
      rewrite Cuboid_eq_sym in E.
      destruct (Nat.lt_ge_cases i j) as [L|L].
      + destruct (contains a c) eqn:C1.
        * exists c. split.
          -- subst contained. apply marked_In. right. exists a, c.
             split; [apply combinations2_In; eauto|]. left. auto.
          -- eapply Cuboid_eq_trans; [exact E|].
             now apply Cuboid_eq_mutual.
        * exists a. split; [|exact E].
          subst contained. apply marked_In. right. exists a, c.
          split; [apply combinations2_In; eauto|]. right. auto.
      + exists a. split; [|exact E].
        subst contained. apply marked_In. right. exists c, a.
        split; [apply combinations2_In; exists j, i; repeat split; auto; lia|].
        left. auto. }
  split.
  - intros [Hin F]. split; [assumption|]. intros S. apply M in S. congruence.
  - intros [Hin S]. split; [assumption|].
    destruct (maxcubs.member m contained); [|reflexivity].
    exfalso. apply S, M. reflexivity.
Qed.

(** ** An invariant of every bin and factory of a packer *)

Lemma create_bin_template (f f' : bin_factory.BinFactory) :
  template f' = template f ->
  bin_factory._create_bin f' = bin_factory._create_bin f.
Proof.
  unfold template, bin_factory._create_bin. intros E.
  inversion E as [[E1 E2 E3 E4 E5 E6]]. now rewrite E1, E2, E3, E4, E5, E6.
Qed.

Lemma ref_bin_template (f : bin_factory.BinFactory) :
  template (fst (bin_factory.ref_bin f)) = template f.
Proof.
  unfold bin_factory.ref_bin.
  destruct (negb _); [destruct (bin_factory._create_bin f)|
                      destruct (bin_factory._ref_bin f)]; reflexivity.
Qed.

Lemma fits_inside_template (f : bin_factory.BinFactory) (w h d : Z) :
  template (fst (bin_factory.fits_inside f w h d)) = template f.
Proof.
  unfold bin_factory.fits_inside.
  pose proof (ref_bin_template f) as R.
  destruct (bin_factory.ref_bin f) as [f1 o]. cbn [fst] in R.
  destruct o; exact R.
Qed.

Lemma new_bin_template (f : bin_factory.BinFactory) :
  template (fst (bin_factory.new_bin f)) = template f /\
  forall b, snd (bin_factory.new_bin f) = Ret (Some b) ->
    bin_factory._create_bin f = Ret b.
Proof.
  unfold bin_factory.new_bin.
  destruct (bin_factory._count f >? 0); [|split; [reflexivity|discriminate]].
  assert (E : bin_factory._create_bin
                (bin_factory.set_count f (bin_factory._count f - 1))
              = bin_factory._create_bin f) by reflexivity.
  rewrite E. destruct (bin_factory._create_bin f) as [b0|e|]; cbn [fst snd abort];
    (split; [reflexivity|]); intros b Hb; congruence.
Qed.

Lemma a_cuboid_fits_template (remaining : list (nat * packer.cub_item)) :
  forall f, template (fst (packer.a_cuboid_fits f remaining)) = template f.
Proof.
  induction remaining as [|[k [[[w h] d] r]] rest IH]; intros f;
    cbn [packer.a_cuboid_fits packer.dims]; [reflexivity|].
  pose proof (fits_inside_template f w h d) as T.
  destruct (bin_factory.fits_inside f w h d) as [f1 r1]. cbn [fst] in T.
  destruct r1 as [[|]|e|]; cbn [fst]; try exact T.
  now rewrite IH.
Qed.

Section PackerInvariant.

Variable Q : pack_algo.PackingAlgorithm -> Prop.

Variable F : bin_factory.BinFactory -> Prop.

Variable Nw : pack_algo.PackingAlgorithm -> Prop.

Hypothesis Q_add : forall b w h d r, Q b -> Q (fst (bin.add_cub b w h d r)).

Hypothesis F_create :
  forall f b, F f -> bin_factory._create_bin f = Ret b -> Q b.

Hypothesis F_new :
  forall f b, F f -> bin_factory._create_bin f = Ret b -> Nw b.

Hypothesis F_template :
  forall f f', template f' = template f -> F f -> F f'.

Lemma scan_factories_keeps (facs : list (nat * bin_factory.BinFactory))
    (w h d : Z) :
  facs_ok F facs ->
  facs_ok F (fst (fst (packer.scan_factories facs w h d))) /\
  forall b, snd (packer.scan_factories facs w h d) = Ret (Some b) ->
    Q b /\ Nw b.
Proof.
  unfold facs_ok.
  induction facs as [|[key f] rest IH]; cbn [packer.scan_factories];
    intros H.
  - cbn. split; [constructor|discriminate].
  - inversion H as [|? ? Hf Hrest]; subst. cbn [snd] in Hf.
    specialize (IH Hrest).
    pose proof (fits_inside_template f w h d) as T.
    destruct (bin_factory.fits_inside f w h d) as [f1 r1]. cbn [fst] in T.
    assert (Hf1 : F f1) by (eapply F_template; eassumption).
    destruct (packer.scan_factories rest w h d) as [[rest1 del] res].
    cbn [fst snd] in IH. destruct IH as [I1 I2].
    destruct r1 as [[|]|e|]; cbn [fst snd abort].
    + destruct (new_bin_template f1) as [N1 N2].
      destruct (bin_factory.new_bin f1) as [f2 r2]. cbn [fst snd] in N1, N2.
      assert (Hf2 : F f2) by (eapply F_template; eassumption).
      destruct r2 as [[b|]|e|]; cbn [fst snd abort].
      * split; [constructor; cbn [snd]; assumption|].
        intros b' E. inversion E; subst.
        split; [apply (F_create f1)|apply (F_new f1)]; auto.
      * split; [constructor; cbn [snd]; assumption|assumption].
      * split; [constructor; cbn [snd]; assumption|discriminate].
      * split; [constructor; cbn [snd]; assumption|discriminate].
    + split; [constructor; cbn [snd]; assumption|assumption].
    + split; [constructor; cbn [snd]; assumption|discriminate].
    + split; [constructor; cbn [snd]; assumption|discriminate].
Qed.

Lemma scan_factories_global_keeps (facs : list (nat * bin_factory.BinFactory))
    (remaining : list (nat * packer.cub_item)) :
  facs_ok F facs ->
  facs_ok F (fst (fst (packer.scan_factories_global facs remaining))) /\
  forall b, snd (packer.scan_factories_global facs remaining) = Ret (Some b) ->
    Q b /\ Nw b.
Proof.
  unfold facs_ok.
  induction facs as [|[key f] rest IH]; cbn [packer.scan_factories_global];
    intros H.
  - cbn. split; [constructor|discriminate].
  - inversion H as [|? ? Hf Hrest]; subst. cbn [snd] in Hf.
    specialize (IH Hrest).
    pose proof (a_cuboid_fits_template remaining f) as T.
    destruct (packer.a_cuboid_fits f remaining) as [f1 r1]. cbn [fst] in T.
    assert (Hf1 : F f1) by (eapply F_template; eassumption).
    destruct (packer.scan_factories_global rest remaining)
      as [[rest1 del] res].
    cbn [fst snd] in IH. destruct IH as [I1 I2].
    destruct r1 as [[|]|e|]; cbn [fst snd abort].
    + destruct (new_bin_template f1) as [N1 N2].
      destruct (bin_factory.new_bin f1) as [f2 r2]. cbn [fst snd] in N1, N2.
      assert (Hf2 : F f2) by (eapply F_template; eassumption).
      destruct r2 as [[b|]|e|]; cbn [fst snd abort].
      * split; [constructor; cbn [snd]; assumption|].
        intros b' E. inversion E; subst.
        split; [apply (F_create f1)|apply (F_new f1)]; auto.
      * split; [constructor; cbn [snd]; assumption|assumption].
      * split; [constructor; cbn [snd]; assumption|discriminate].
      * split; [constructor; cbn [snd]; assumption|discriminate].
    + split; [constructor; cbn [snd]; assumption|assumption].
    + split; [constructor; cbn [snd]; assumption|discriminate].
    + split; [constructor; cbn [snd]; assumption|discriminate].
Qed.

Lemma delete_keys_keeps (del : list nat)
    (facs : list (nat * bin_factory.BinFactory)) :
  facs_ok F facs -> facs_ok F (packer.delete_keys del facs).
Proof.
  unfold facs_ok, packer.delete_keys. rewrite !Forall_forall.
  intros H kf Hin. apply filter_In in Hin. apply H, Hin.
Qed.

Lemma scan_opened (p : packer.PackerOnline)
    (res : list (nat * bin_factory.BinFactory) * list nat
           * outcome (option pack_algo.PackingAlgorithm)) :
  keeps Q F p ->
  facs_ok F (fst (fst res)) ->
  (forall b, snd res = Ret (Some b) -> Q b /\ Nw b) ->
  opened Q F Nw p
    (match res with
     | (facs, del, Ret None) =>
         (packer.set_empty_bins p (packer.delete_keys del facs), Ret None)
     | (facs, del, Ret (Some b)) =>
         (packer.set_empty_bins
            (packer.set_open_bins p (packer._open_bins p ++ [b]))
            (packer.delete_keys del facs),
          Ret (Some b))
     | (facs, _, o) => (packer.set_empty_bins p facs, o)
     end).
Proof.
  destruct res as [[facs del] r]. cbn [fst snd].
  intros [K1 [K2 K3]] Hf Hb.
  pose proof (delete_keys_keeps del facs Hf) as D.
  destruct r as [[b|]|e|]; unfold opened, keeps;
    cbn [packer._closed_bins packer._open_bins packer._empty_bins
           packer.set_empty_bins packer.set_open_bins];
    repeat split; auto; try (now apply Hb).
  apply Forall_app. split; [assumption|]. constructor; [|constructor].
  now apply Hb.
Qed.

Lemma new_open_bin_opened (p : packer.PackerOnline) (w h d : Z) :
  keeps Q F p -> opened Q F Nw p (packer._new_open_bin p w h d).
Proof.
  intros K. unfold packer._new_open_bin.
  destruct (scan_factories_keeps (packer._empty_bins p) w h d)
    as [S1 S2]; [apply K|].
  apply (scan_opened p); assumption.
Qed.

Lemma Global_new_open_bin_opened (p : packer.PackerOnline)
    (remaining : list (nat * packer.cub_item)) :
  keeps Q F p -> opened Q F Nw p (packer.Global_new_open_bin p remaining).
Proof.
  intros K. unfold packer.Global_new_open_bin.
  destruct (scan_factories_global_keeps (packer._empty_bins p) remaining)
    as [S1 S2]; [apply K|].
  apply (scan_opened p); assumption.
Qed.

Lemma call_new_open_bin_opened (k : packer.bin_algo) (p : packer.PackerOnline)
    (w h d : Z) :
  keeps Q F p -> opened Q F Nw p (packer.call_new_open_bin k p w h d).
Proof.
  intros K. destruct k; try now apply new_open_bin_opened.
  cbn. repeat split; auto; apply K.
Qed.

Lemma BNF_loop_keeps (k : packer.bin_algo) (w h d : Z) (rid_ : option Z)
    (fuel : nat) :
  forall p, keeps Q F p -> keeps Q F (fst (packer.BNF_loop fuel k p w h d rid_)).
Proof.
  induction fuel as [|fuel IH]; intros p K; [exact K|].
  assert (Turn : forall p1, keeps Q F p1 ->
    keeps Q F (fst
      (match packer._open_bins p1 with
       | [] => (p1, Raise IndexError)
       | b :: others =>
           match bin.add_cub b w h d rid_ with
           | (b1, Ret (Some cub)) =>
               (packer.set_open_bins p1 (b1 :: others), Ret (PyCub cub))
           | (b1, Ret None) =>
               packer.BNF_loop fuel k
                 (packer.set_closed_bins (packer.set_open_bins p1 others)
                    (packer._closed_bins p1 ++ [b1]))
                 w h d rid_
           | (b1, o) => (packer.set_open_bins p1 (b1 :: others), abort o)
           end
       end))).
  { intros p1 [K1 [K2 K3]].
    destruct (packer._open_bins p1) as [|b others] eqn:Ho;
      [cbn [fst]; repeat split; auto; rewrite Ho; constructor|].
    inversion K2 as [|? ? Hb Hothers]; subst.
    pose proof (Q_add b w h d rid_ Hb) as Hb1.
    destruct (bin.add_cub b w h d rid_) as [b1 o]. cbn [fst] in Hb1.
    destruct o as [[cub|]|e|]; cbn [fst abort].
    - repeat split; cbn; auto.
    - apply IH. repeat split; cbn; auto.
      apply Forall_app. split; [assumption|]. constructor; auto.
    - repeat split; cbn; auto.
    - repeat split; cbn; auto. }
  cbn [packer.BNF_loop].
  destruct (packer._open_bins p) as [|b others] eqn:Ho.
  - pose proof (call_new_open_bin_opened k p w h d K) as O.
    destruct (packer.call_new_open_bin k p w h d) as [p1 r1].
    unfold opened in O. destruct O as [O1 _].
    destruct r1 as [[b|]|e|]; cbn [fst abort]; try exact O1.
    now apply Turn.
  - specialize (Turn p K). rewrite Ho in Turn. exact Turn.
Qed.

Lemma first_fit_keeps (w h d : Z) (rid_ : option Z)
    (open : list pack_algo.PackingAlgorithm) :
  Forall Q open -> Forall Q (fst (packer.first_fit open w h d rid_)).
Proof.
  induction open as [|b others IH]; cbn [packer.first_fit]; intros H;
    [constructor|].
  inversion H as [|? ? Hb Hothers]; subst.
  pose proof (Q_add b w h d rid_ Hb) as Hb1.
  destruct (bin.add_cub b w h d rid_) as [b1 o]. cbn [fst] in Hb1.
  destruct o as [[cub|]|e|]; cbn [fst]; try (constructor; assumption).
  specialize (IH Hothers).
  destruct (packer.first_fit others w h d rid_) as [others1 r].
  cbn [fst] in *. constructor; assumption.
Qed.

Lemma set_last_open_keeps (p : packer.PackerOnline)
    (b : pack_algo.PackingAlgorithm) :
  keeps Q F p -> Q b -> keeps Q F (packer.set_last_open p b).
Proof.
  intros [K1 [K2 K3]] Hb. unfold packer.set_last_open.
  repeat split; cbn; auto.
  apply Forall_app. split; [|constructor; auto].
  rewrite Forall_forall in *. intros a Ha. apply K2.
  destruct (packer._open_bins p) as [|c l] eqn:E; [contradiction|].
  assert (N : c :: l <> []) by discriminate.
  rewrite (app_removelast_last c N). apply in_or_app. now left.
Qed.

Lemma new_bins_loop_keeps (k : packer.bin_algo) (w h d : Z) (rid_ : option Z)
    (fuel : nat) :
  forall p, keeps Q F p ->
    keeps Q F (fst (packer.BFF_loop fuel k p w h d rid_)) /\
    keeps Q F (fst (packer.BBF_loop fuel k p w h d rid_)).
Proof.
  induction fuel as [|fuel IH]; intros p K; [split; exact K|].
  cbn [packer.BFF_loop packer.BBF_loop].
  pose proof (call_new_open_bin_opened k p w h d K) as O.
  destruct (packer.call_new_open_bin k p w h d) as [p1 r1].
  unfold opened in O. destruct O as [O1 [_ O2]].
  destruct r1 as [[b|]|e|]; cbn [fst abort]; try (split; exact O1).
  destruct O2 as [_ [Hb _]].
  pose proof (Q_add b w h d rid_ Hb) as Hb1.
  destruct (bin.add_cub b w h d rid_) as [b1 o]. cbn [fst] in Hb1.
  pose proof (set_last_open_keeps p1 b1 O1 Hb1) as L.
  destruct o as [[cub|]|e|]; cbn [fst abort]; try (split; exact L).
  now apply IH.
Qed.

Lemma update_keeps (l : list pack_algo.PackingAlgorithm) :
  forall i b, Forall Q l -> Q b -> Forall Q (packer.update l i b).
Proof.
  induction l as [|a l IH]; intros i b H Hb; cbn [packer.update];
    [constructor|].
  inversion H; subst. destruct i; constructor; auto.
Qed.

Lemma add_cub_keeps (k : packer.bin_algo) (p : packer.PackerOnline)
    (w h d : Z) (rid_ : option Z) :
  keeps Q F p -> keeps Q F (fst (packer.add_cub k p w h d rid_)).
Proof.
  intros K.
  assert (B : forall k', keeps Q F (fst (packer.BNF_add_cub k' p w h d rid_)))
    by (intros k'; now apply BNF_loop_keeps).
  destruct k; cbn [packer.add_cub]; try apply B.
  - unfold packer.BFF_add_cub.
    pose proof (first_fit_keeps w h d rid_ (packer._open_bins p)) as FF.
    destruct K as [K1 [K2 K3]]. specialize (FF K2).
    destruct (packer.first_fit _ w h d rid_) as [open o]. cbn [fst] in FF.
    assert (K' : keeps Q F (packer.set_open_bins p open))
      by (repeat split; cbn; auto).
    destruct o as [[cub|]|e|]; cbn [fst abort]; try exact K'.
    now apply new_bins_loop_keeps.
  - unfold packer.BBF_add_cub.
    destruct (packer.fit_open _ 0 w h d) as [fit|e|]; try exact K.
    destruct (min_by_key fit) as [[f i]|];
      [|now apply new_bins_loop_keeps].
    destruct (nth_error (packer._open_bins p) i) as [best|] eqn:EN;
      [|exact K].
    destruct K as [K1 [K2 K3]].
    assert (Hbest : Q best).
    { apply nth_error_In in EN. rewrite Forall_forall in K2. auto. }
    pose proof (Q_add best w h d rid_ Hbest) as Hb1.
    destruct (bin.add_cub best w h d rid_) as [b1 o]. cbn [fst] in Hb1.
    assert (K' : keeps Q F (packer.set_open_bins p
                          (packer.update (packer._open_bins p) i b1))).
    { repeat split; cbn; auto. now apply update_keeps. }
    destruct o as [v|e|]; cbn [fst abort]; try exact K'.
    destruct e; cbn [fst abort]; try exact K'.
    now apply new_bins_loop_keeps.
Qed.

Lemma add_bin_keeps (p : packer.PackerOnline) (W H D count : Z)
    (m : option bool) :
  keeps Q F p ->
  F (bin_factory.mkBinFactory W H D count (packer._pack_algo p)
       (packer._rotation p) m None) ->
  keeps Q F (packer.add_bin p W H D count m).
Proof.
  intros [K1 [K2 K3]] Hf. unfold packer.add_bin. repeat split; cbn; auto.
  apply Forall_app. split; [assumption|]. constructor; [exact Hf|constructor].
Qed.

Lemma pack_sorted_keeps (k : packer.bin_algo) (l : list packer.cub_item) :
  forall p, keeps Q F p -> keeps Q F (fst (packer.pack_sorted k p l)).
Proof.
  induction l as [|[[[w h] d] r] l IH]; intros p K; [exact K|].
  cbn [packer.pack_sorted].
  pose proof (add_cub_keeps k p w h d r K) as A.
  destruct (packer.add_cub k p w h d r) as [p1 o]. cbn [fst] in A.
  destruct o; cbn [fst]; auto.
Qed.

Lemma Global_fill_keeps (fuel : nat) :
  forall p remaining, keeps Q F p ->
    keeps Q F (fst (fst (packer.Global_fill fuel p remaining))).
Proof.
  induction fuel as [|fuel IH]; intros p remaining K; [exact K|].
  cbn [packer.Global_fill].
  destruct (packer.last_error (packer._open_bins p)) as [pbin|]; [|exact K].
  destruct (packer._find_best_fit pbin remaining) as [[key|]|e|];
    cbn [fst]; try exact K.
  - destruct (packer.lookup key remaining) as [[[[w h] d] r]|]; [|exact K].
    pose proof (BNF_loop_keeps packer.Global w h d r
                  (S (List.length (packer._open_bins p)
                      + packer.stock (packer._empty_bins p))) p K) as A.
    fold (packer.BNF_add_cub packer.Global p w h d r) in A.
    destruct (packer.BNF_add_cub packer.Global p w h d r) as [p1 o].
    cbn [fst] in A. destruct o; cbn [fst]; auto.
  - destruct K as [K1 [K2 K3]].
    destruct (packer._open_bins p) as [|c others] eqn:Ho; cbn [fst].
    + repeat split; auto. rewrite Ho. constructor.
    + inversion K2; subst. repeat split; cbn; auto.
      apply Forall_app. split; [assumption|]. constructor; auto.
Qed.

Lemma Global_loop_keeps (fuel : nat) :
  forall p remaining, keeps Q F p ->
    keeps Q F (fst (fst (packer.Global_loop fuel p remaining))).
Proof.
  induction fuel as [|fuel IH]; intros p remaining K; [exact K|].
  cbn [packer.Global_loop].
  destruct (negb _); [|exact K].
  pose proof (Global_new_open_bin_opened p remaining K) as O.
  destruct (packer.Global_new_open_bin p remaining) as [p1 r1].
  unfold opened in O. destruct O as [O1 _].
  destruct r1 as [[b|]|e|]; cbn [fst abort]; try exact O1.
  pose proof (Global_fill_keeps (S (List.length remaining)) p1 remaining O1)
    as A.
  destruct (packer.Global_fill _ p1 remaining) as [[p2 rem2] o].
  cbn [fst] in A. destruct o; cbn [fst]; auto.
Qed.

End PackerInvariant.

(** ** Every bin of a packer is valid *)

Lemma sound_bin_add (b : pack_algo.PackingAlgorithm) (w h d : Z)
    (r : option Z) :
  sound_bin b -> sound_bin (fst (bin.add_cub b w h d r)).
Proof.
  intros [G D]. split; [now apply bin_add_cub_good|].
  pose proof (bin_add_cub_volume b w h d r) as V.
  unfold bin_volume in V. injection V as -> -> ->. exact D.
Qed.

Lemma sound_bin_create (f : bin_factory.BinFactory)
    (b : pack_algo.PackingAlgorithm) :
  True -> bin_factory._create_bin f = Ret b -> sound_bin b.
Proof.
  intros _ E. unfold bin_factory._create_bin in E.
  split; [eapply init_good; eassumption|].
  destruct (init_shape _ _ _ _ _ _ _ E) as [_ [_ [-> [-> [-> _]]]]].
  eapply init_dims; eassumption.
Qed.

Lemma sound_bin_valid (b : pack_algo.PackingAlgorithm) :
  sound_bin b -> valid_bin b.
Proof.
  intros [G [HW [HH HD]]].
  pose proof (good_placed_ok b G) as P.
  split; [now apply placed_ok_packing_ok|].
  destruct P as [Hso [Hs Ha]].
  unfold pack_algo.used_volume. apply packed_volume; try assumption.
  eapply Forall_impl; [|exact Hso]. apply solid_well_formed.
Qed.

Lemma sound_bins (p : packer.PackerOnline) :
  sound p -> Forall valid_bin (packer.bins p).
Proof.
  intros [K1 [K2 _]]. unfold packer.bins. apply Forall_app.
  split; (eapply Forall_impl; [|eassumption]); apply sound_bin_valid.
Qed.

Lemma sound_add_cub (k : packer.bin_algo) (p : packer.PackerOnline)
    (w h d : Z) (r : option Z) :
  sound p -> sound (fst (packer.add_cub k p w h d r)).
Proof.
  apply (add_cub_keeps sound_bin (fun _ => True) (fun _ => True)
           sound_bin_add sound_bin_create (fun _ _ _ _ => I)
           (fun _ _ _ t => t)).
Qed.

Lemma sound_reset (p : packer.PackerOnline) : sound (packer.reset p).
Proof. repeat split; constructor. Qed.

Lemma sound_add_bin (p : packer.PackerOnline) (W H D count : Z)
    (m : option bool) :
  sound p -> sound (packer.add_bin p W H D count m).
Proof. intros K. now apply (add_bin_keeps sound_bin (fun _ => True)). Qed.

Lemma sound_add_avail_bins (l : list packer.bin_item) :
  forall p, sound p -> sound (packer.add_avail_bins p l).
Proof.
  unfold packer.add_avail_bins.
  induction l as [|[[[[W H] D] count] m] l IH]; intros p K; [exact K|].
  cbn [fold_left]. apply IH. now apply sound_add_bin.
Qed.

(** X20 ([PackerBNFMixin.add_cub], [PackerBFFMixin.add_cub],
    [PackerBBFMixin.add_cub], [PackerOnline._new_open_bin],
    [PackerOnline.add_bin], [PackerOnline.__iter__]). After any sequence of
    add_bin and add_cub calls on an on-line packer of any heuristic, in
    every bin of the packer the placed cuboids lie inside the bin, no two of
    them strictly intersect, and their total volume does not exceed the
    volume of the bin. *)
Theorem online_bins_are_valid (k : packer.bin_algo)
    (pack_algo_ : pack_algo.algo) (rotation : bool)
    (calls : list online_call) :
  Forall valid_bin (packer.bins (online_run k pack_algo_ rotation calls)).
Proof.
  apply sound_bins. unfold online_run.
  assert (S0 : sound (packer.PackerOnline_init pack_algo_ rotation))
    by apply sound_reset.
  revert S0. generalize (packer.PackerOnline_init pack_algo_ rotation).
  induction calls as [|c calls IH]; intros p K; [exact K|].
  cbn [fold_left]. apply IH.
  destruct c; cbn [do_online];
    [now apply sound_add_bin|now apply sound_add_cub].
Qed.

(** X21 ([Packer.pack], [PackerGlobal.pack], [PackerGlobal._new_open_bin]).
    After pack() on an off-line packer in any state and of any heuristic
    (Global included), in every bin the placed cuboids lie inside the bin,
    no two of them strictly intersect, and their total volume does not
    exceed the volume of the bin. *)
Theorem packed_bins_are_valid (p : packer.Packer) :
  Forall valid_bin (packer.bins (packer.base (fst (packer.pack p)))).
Proof.
  apply sound_bins. unfold packer.pack.
  assert (S1 : sound (packer.add_avail_bins (packer.reset (packer.base p))
                        (packer._avail_bins p)))
    by apply sound_add_avail_bins, sound_reset.
  destruct (packer.heuristic p) eqn:Hk;
    unfold packer.Packer_pack, packer.PackerGlobal_pack;
    cbn [packer.base packer.set_base packer._avail_bins packer._avail_cub
         packer._sort_algo packer.heuristic packer.set_sorted_cub];
    (destruct (negb _); [cbn [fst packer.base packer.set_base]; apply sound_reset|]).
  1-3: rewrite Hk;
    match goal with
    | |- context [packer.pack_sorted ?k ?b ?l] =>
        pose proof (pack_sorted_keeps sound_bin (fun _ => True) (fun _ => True)
                      sound_bin_add sound_bin_create (fun _ _ _ _ => I)
                      (fun _ _ _ t => t) k l b S1) as A;
        destruct (packer.pack_sorted k b l) as [b2 r]
    end; exact A.
  match goal with
  | |- context [packer.Global_loop ?n ?b ?l] =>
      pose proof (Global_loop_keeps sound_bin (fun _ => True) (fun _ => True)
                    sound_bin_add sound_bin_create (fun _ _ _ _ => I)
                    (fun _ _ _ t => t) n b l S1) as A;
      destruct (packer.Global_loop n b l) as [[b2 rem] r]
  end; exact A.
Qed.

(** ** What a dispatching [add_cub] changes *)

Lemma init_rot (c : pack_algo.algo) (W H D : Z) (r m : bool)
    (b0 : pack_algo.PackingAlgorithm) :
  bin.init c W H D r m = Ret b0 -> pack_algo.rot b0 = r.
Proof.
  unfold bin.init. destruct (negb _); [discriminate|].
  intros E. inversion E; subst; clear E.
  unfold bin.reset. destruct c as [f rule|v]; cbn [pack_algo.cls].
  - unfold guillotine.reset.
    destruct (add_section_kind
                (pack_algo.set_sections
                   (pack_algo.reset
                      (pack_algo.mkPackingAlgorithm (pack_algo.Guillotine f rule)
                         W H D r [] (Cuboid_ 0 0 0 W H D) m [] [])) [])
                (Cuboid_ 0 0 0 W H D)) as [_ [Hr _]].
    exact Hr.
  - reflexivity.
Qed.

Section Dispatch.

Variable R : bool.

Variables w h d : Z.

Variable rid_ : option Z.

Let Qr := fun b : pack_algo.PackingAlgorithm => pack_algo.rot b = R.

Let Fr := fun f : bin_factory.BinFactory => bin_factory._rot f = R.

Let Nr := fun b : pack_algo.PackingAlgorithm => pack_algo.cuboids b = [].

(** [subst] that leaves the variables of the section alone. *)
Local Ltac subst_items :=
  repeat match goal with
  | H : ?a = ?b |- _ =>
      first
        [ is_var a;
          lazymatch a with
          | R => fail | w => fail | h => fail | d => fail | rid_ => fail
          | _ => subst a
          end
        | is_var b;
          lazymatch b with
          | R => fail | w => fail | h => fail | d => fail | rid_ => fail
          | _ => subst b
          end ]
  end.

Lemma Qr_add (b : pack_algo.PackingAlgorithm) (w' h' d' : Z) (r : option Z) :
  Qr b -> Qr (fst (bin.add_cub b w' h' d' r)).
Proof.
  unfold Qr. intros H. destruct (bin_add_cub_kind b w' h' d' r) as [_ [K _]].
  congruence.
Qed.

Lemma Fr_create (f : bin_factory.BinFactory) (b : pack_algo.PackingAlgorithm) :
  Fr f -> bin_factory._create_bin f = Ret b -> Qr b.
Proof.
  unfold Fr, Qr, bin_factory._create_bin. intros H E.
  apply init_rot in E. congruence.
Qed.

Lemma Fr_new (f : bin_factory.BinFactory) (b : pack_algo.PackingAlgorithm) :
  Fr f -> bin_factory._create_bin f = Ret b -> Nr b.
Proof.
  unfold Nr, bin_factory._create_bin. intros _ E.
  eapply init_cuboids; eassumption.
Qed.

Lemma Fr_template (f f' : bin_factory.BinFactory) :
  template f' = template f -> Fr f -> Fr f'.
Proof.
  unfold template, Fr. intros E H. inversion E. congruence.
Qed.

Lemma dispatched_from (p0 p : packer.PackerOnline)
    (res : packer.PackerOnline * outcome (pyval Cuboid)) :
  placed p = placed p0 ->
  (exists cl, packer._closed_bins p = packer._closed_bins p0 ++ cl) ->
  dispatched R w h d rid_ p res -> dispatched R w h d rid_ p0 res.
Proof.
  destruct res as [p' r]. intros Hp [cl0 Hc] [K [[cl Hcl] [oc [H1 [H2 H3]]]]].
  split; [assumption|]. split.
  - exists (cl0 ++ cl). rewrite Hcl, Hc. now rewrite app_assoc.
  - exists oc. rewrite <- Hp. auto.
Qed.

Lemma placed_open (p : packer.PackerOnline)
    (l : list pack_algo.PackingAlgorithm) :
  placed (packer.set_open_bins p l)
    = flat_map pack_algo.cuboids (packer._closed_bins p)
      ++ flat_map pack_algo.cuboids l.
Proof. unfold placed, packer.bins. cbn. apply flat_map_app. Qed.

Lemma placed_split (p : packer.PackerOnline) :
  placed p = flat_map pack_algo.cuboids (packer._closed_bins p)
             ++ flat_map pack_algo.cuboids (packer._open_bins p).
Proof. unfold placed, packer.bins. apply flat_map_app. Qed.

(** One [add_cub] on a bin of rotation flag [R]. *)
Lemma bin_step (b : pack_algo.PackingAlgorithm) :
  pack_algo.rot b = R ->
  let '(b1, o) := bin.add_cub b w h d rid_ in
  pack_algo.rot b1 = R /\
  match o with
  | Ret (Some c) =>
      pack_algo.cuboids b1 = pack_algo.cuboids b ++ [c] /\
      oriented R w h d rid_ c
  | Ret None => b1 = b
  | _ => pack_algo.cuboids b1 = pack_algo.cuboids b
  end.
Proof.
  intros Hr.
  pose proof (bin_add_cub_post b w h d rid_) as P.
  pose proof (Qr_add b w h d rid_ Hr) as K.
  destruct (bin.add_cub b w h d rid_) as [b1 o]. cbn [fst] in K.
  split; [exact K|]. unfold placed_by in P.
  destruct o as [[c|]|e|]; try exact P.
  destruct P as [P1 [P2 _]]. rewrite Hr in P2. auto.
Qed.

Lemma BNF_loop_dispatched (k : packer.bin_algo) (fuel : nat) :
  forall p, rot_ok R p ->
    dispatched R w h d rid_ p (packer.BNF_loop fuel k p w h d rid_) /\
    ((List.length (packer._open_bins p) <= 1)%nat ->
     (List.length (packer._open_bins
                     (fst (packer.BNF_loop fuel k p w h d rid_))) <= 1)%nat).
Proof.
  induction fuel as [|fuel IH]; intros p K.
  { cbn [packer.BNF_loop fst]. split; [|auto].
    split; [assumption|]. split; [exists []; now rewrite app_nil_r|].
    exists None. cbn. auto using eq_refl. split; [reflexivity|].
    split; [reflexivity|discriminate]. }
  assert (Turn : forall p1 b others,
    rot_ok R p1 -> packer._open_bins p1 = b :: others ->
    let res :=
      match bin.add_cub b w h d rid_ with
      | (b1, Ret (Some cub)) =>
          (packer.set_open_bins p1 (b1 :: others), Ret (PyCub cub))
      | (b1, Ret None) =>
          packer.BNF_loop fuel k
            (packer.set_closed_bins (packer.set_open_bins p1 others)
               (packer._closed_bins p1 ++ [b1]))
            w h d rid_
      | (b1, o) => (packer.set_open_bins p1 (b1 :: others), abort o)
      end in
    dispatched R w h d rid_ p1 res /\
    ((List.length others <= 0)%nat ->
     (List.length (packer._open_bins (fst res)) <= 1)%nat)).
  { intros p1 b others K1 Ho. cbv zeta.
    destruct K1 as [C1 [C2 C3]]. rewrite Ho in C2.
    inversion C2 as [|? ? Hb Hothers]; subst_items.
    pose proof (bin_step b Hb) as S.
    destruct (bin.add_cub b w h d rid_) as [b1 o].
    destruct S as [Hb1 S].
    assert (K' : rot_ok R (packer.set_open_bins p1 (b1 :: others)))
      by (repeat split; cbn; auto).
    destruct o as [[cub|]|e|]; cbn [abort fst].
    - destruct S as [S1 S2]. split; [|cbn; lia].
      split; [exact K'|]. split; [exists []; cbn; now rewrite app_nil_r|].
      exists (Some cub). split; [reflexivity|]. split.
      + rewrite placed_open, placed_split, Ho. cbn [flat_map grows].
        rewrite S1.
        exists (flat_map pack_algo.cuboids (packer._closed_bins p1)
                ++ pack_algo.cuboids b),
               (flat_map pack_algo.cuboids others).
        rewrite <- !app_assoc. cbn [app]. auto.
      + intros c E. inversion E; subst_items. exact S2.
    - subst b1.
      set (p2 := packer.set_closed_bins (packer.set_open_bins p1 others)
                   (packer._closed_bins p1 ++ [b])).
      assert (K2 : rot_ok R p2).
      { repeat split; cbn; auto. apply Forall_app. split; auto. }
      destruct (IH p2 K2) as [I1 I2]. split.
      + apply (dispatched_from p1 p2); [| |exact I1].
        * rewrite (placed_split p1), Ho. unfold placed, packer.bins. cbn.
          rewrite !flat_map_app. cbn. rewrite app_nil_r, <- app_assoc.
          reflexivity.
        * exists [b]. reflexivity.
      + intros L. apply I2. cbn. lia.
    - split; [|cbn; lia].
      split; [exact K'|]. split; [exists []; cbn; now rewrite app_nil_r|].
      exists None. split; [reflexivity|]. split; [|discriminate].
      cbn [grows]. rewrite placed_open, placed_split, Ho. cbn [flat_map].
      now rewrite S.
    - split; [|cbn; lia].
      split; [exact K'|]. split; [exists []; cbn; now rewrite app_nil_r|].
      exists None. split; [reflexivity|]. split; [|discriminate].
      cbn [grows]. rewrite placed_open, placed_split, Ho. cbn [flat_map].
      now rewrite S. }
  cbn [packer.BNF_loop].
  destruct (packer._open_bins p) as [|b others] eqn:Ho.
  - pose proof (call_new_open_bin_opened Qr Fr Nr Fr_create Fr_new
                  Fr_template k p w h d K) as O.
    destruct (packer.call_new_open_bin k p w h d) as [p1 r1].
    unfold opened in O. destruct O as [O1 [O2 O3]].
    assert (Same : packer._open_bins p1 = packer._open_bins p ->
                   placed p1 = placed p).
    { intros E. rewrite !placed_split. now rewrite E, O2. }
    destruct r1 as [[b|]|e|]; cbn [abort fst].
    + destruct O3 as [O3 [_ O4]]. rewrite Ho in O3. cbn [app] in O3.
      destruct (Turn p1 b [] O1 O3) as [T1 T2]. cbv zeta in T1, T2.
      rewrite O3.
      split; [|intros _; apply T2; cbn; lia].
      apply (dispatched_from p p1); [| |exact T1].
      * rewrite !placed_split, O2, O3, Ho. cbn. unfold Nr in O4.
        now rewrite O4.
      * exists []. now rewrite app_nil_r.
    + rewrite Ho in O3. split; [|rewrite O3; cbn; lia].
      split; [exact O1|]. split; [exists []; now rewrite app_nil_r|].
      exists None. split; [reflexivity|]. split; [|discriminate].
      apply Same. now rewrite Ho.
    + rewrite Ho in O3. split; [|rewrite O3; cbn; lia].
      split; [exact O1|]. split; [exists []; now rewrite app_nil_r|].
      exists None. split; [reflexivity|]. split; [|discriminate].
      apply Same. now rewrite Ho.
    + rewrite Ho in O3. split; [|rewrite O3; cbn; lia].
      split; [exact O1|]. split; [exists []; now rewrite app_nil_r|].
      exists None. split; [reflexivity|]. split; [|discriminate].
      apply Same. now rewrite Ho.
  - destruct (Turn p b others K Ho) as [T1 T2]. cbv zeta in T1, T2.
    split; [exact T1|]. intros L. apply T2. cbn in L. lia.
Qed.

(** The [for] loop of First-Fit over the open bins. *)
Lemma first_fit_dispatched (open : list pack_algo.PackingAlgorithm) :
  Forall Qr open ->
  let '(open', r) := packer.first_fit open w h d rid_ in
  Forall Qr open' /\
  exists oc,
    match r with Ret (Some c) => oc = Some c | _ => oc = None end /\
    grows oc (flat_map pack_algo.cuboids open)
      (flat_map pack_algo.cuboids open') /\
    forall c, oc = Some c -> oriented R w h d rid_ c.
Proof.
  induction open as [|b others IH]; cbn [packer.first_fit]; intros H.
  - split; [constructor|]. exists None.
    split; [reflexivity|split; [reflexivity|discriminate]].
  - inversion H as [|? ? Hb Hothers]; subst_items.
    pose proof (bin_step b Hb) as S.
    destruct (bin.add_cub b w h d rid_) as [b1 o].
    destruct S as [Hb1 S].
    destruct o as [[c|]|e|].
    + destruct S as [S1 S2]. split; [constructor; assumption|].
      exists (Some c). split; [reflexivity|]. split.
      * cbn [flat_map grows]. rewrite S1.
        exists (pack_algo.cuboids b), (flat_map pack_algo.cuboids others).
        rewrite <- app_assoc. auto.
      * intros c' E. inversion E; subst_items. exact S2.
    + subst b1. specialize (IH Hothers).
      destruct (packer.first_fit others w h d rid_) as [others1 r].
      destruct IH as [I1 [oc [I2 [I3 I4]]]].
      split; [constructor; assumption|].
      exists oc. split; [exact I2|]. split; [|exact I4].
      cbn [flat_map]. destruct oc as [c|]; cbn [grows] in *.
      * destruct I3 as [l1 [l2 [E1 E2]]].
        exists (pack_algo.cuboids b ++ l1), l2.
        rewrite E1, E2, <- !app_assoc. auto.
      * now rewrite I3.
    + split; [constructor; assumption|].
      exists None. split; [reflexivity|]. split; [|discriminate].
      cbn [flat_map grows]. now rewrite S.
    + split; [constructor; assumption|].
      exists None. split; [reflexivity|]. split; [|discriminate].
      cbn [flat_map grows]. now rewrite S.
Qed.

Lemma set_last_open_snoc (p : packer.PackerOnline)
    (l : list pack_algo.PackingAlgorithm) (b b1 : pack_algo.PackingAlgorithm) :
  packer._open_bins p = l ++ [b] ->
  packer._open_bins (packer.set_last_open p b1) = l ++ [b1] /\
  packer._closed_bins (packer.set_last_open p b1) = packer._closed_bins p.
Proof.
  intros E. unfold packer.set_last_open. cbn. now rewrite E, removelast_last.
Qed.

Local Ltac five := split; [split|split; [|split]].

(** The loops of First-Fit and Best-Fit over the factories. *)
Lemma new_bins_loop_dispatched (k : packer.bin_algo) (fuel : nat) :
  forall p, rot_ok R p ->
    (dispatched R w h d rid_ p (packer.BFF_loop fuel k p w h d rid_) /\
     packer._closed_bins (fst (packer.BFF_loop fuel k p w h d rid_))
       = packer._closed_bins p) /\
    (match snd (packer.BBF_loop fuel k p w h d rid_) with
     | Ret (PyCub _) | Ret PyNone => False
     | _ => True
     end /\
     dispatched R w h d rid_ p (packer.BBF_loop fuel k p w h d rid_) /\
     packer._closed_bins (fst (packer.BBF_loop fuel k p w h d rid_))
       = packer._closed_bins p).
Proof.
  induction fuel as [|fuel IH]; intros p K.
  { cbn [packer.BFF_loop packer.BBF_loop fst snd].
    assert (D0 : forall r : outcome (pyval Cuboid),
               r = Unreached -> dispatched R w h d rid_ p (p, r)).
    { intros r ->. split; [assumption|].
      split; [exists []; now rewrite app_nil_r|].
      exists None. split; [reflexivity|]. split; [reflexivity|discriminate]. }
    five; auto. }
  cbn [packer.BFF_loop packer.BBF_loop].
  pose proof (call_new_open_bin_opened Qr Fr Nr Fr_create Fr_new
                Fr_template k p w h d K) as O.
  destruct (packer.call_new_open_bin k p w h d) as [p1 r1].
  unfold opened in O. destruct O as [O1 [O2 O3]].
  assert (Quiet : forall r : outcome (pyval Cuboid),
            packer._open_bins p1 = packer._open_bins p ->
            match r with
            | Ret (PyCub _) | Ret (PyBool true) => False
            | _ => True
            end ->
            dispatched R w h d rid_ p (p1, r)).
  { intros r E Hr. split; [exact O1|].
    split; [exists []; now rewrite app_nil_r|].
    exists None. split; [destruct r as [[|?|[|]]|?|]; try reflexivity; contradiction|].
    split; [|discriminate]. cbn [grows]. rewrite !placed_split.
    now rewrite E, O2. }
  destruct r1 as [[b|]|e|]; cbn [abort fst snd];
    try (five; auto; apply Quiet; auto; fail).
  destruct O3 as [O3 [Hb O4]]. unfold Nr in O4.
  pose proof (bin_step b Hb) as S.
  destruct (bin.add_cub b w h d rid_) as [b1 o].
  destruct S as [Hb1 S].
  destruct (set_last_open_snoc p1 _ b b1 O3) as [L1 L2].
  pose proof (set_last_open_keeps Qr Fr p1 b1 O1 Hb1) as KL.
  assert (P1 : placed (packer.set_last_open p1 b1)
               = placed p ++ pack_algo.cuboids b1).
  { rewrite !placed_split, L1, L2, O2, flat_map_app. cbn.
    now rewrite app_nil_r, app_assoc. }
  assert (Stay : forall r : outcome (pyval Cuboid),
            pack_algo.cuboids b1 = [] ->
            match r with
            | Ret (PyCub _) | Ret (PyBool true) => False
            | _ => True
            end ->
            dispatched R w h d rid_ p (packer.set_last_open p1 b1, r)).
  { intros r E Hr. split; [exact KL|].
    split; [exists []; rewrite L2, O2; now rewrite app_nil_r|].
    exists None. split; [destruct r as [[|?|[|]]|?|]; try reflexivity; contradiction|].
    split; [|discriminate]. cbn [grows]. rewrite P1, E. apply app_nil_r. }
  assert (Put : forall (r : outcome (pyval Cuboid)) c,
            pack_algo.cuboids b1 = pack_algo.cuboids b ++ [c] ->
            oriented R w h d rid_ c ->
            reported r (Some c) ->
            dispatched R w h d rid_ p (packer.set_last_open p1 b1, r)).
  { intros r c E Ho Hr. split; [exact KL|].
    split; [exists []; rewrite L2, O2; now rewrite app_nil_r|].
    exists (Some c). split; [exact Hr|]. split.
    - cbn [grows]. exists (placed p), []. rewrite P1, E, O4, app_nil_r.
      auto.
    - intros c' E'. inversion E'; subst_items. exact Ho. }
  destruct o as [[c|]|e|]; cbn [abort fst snd].
  - destruct S as [S1 S2].
    five; try (rewrite L2; exact O2); try exact I.
    + apply (Put _ c); auto. reflexivity.
    + apply (Put _ c); auto. cbn. eauto.
  - subst b1.
    destruct (IH (packer.set_last_open p1 b) KL) as [[I1 I2] [I3 [I4 I5]]].
    assert (PP : placed (packer.set_last_open p1 b) = placed p)
      by (rewrite P1, O4; apply app_nil_r).
    assert (CC : exists cl, packer._closed_bins (packer.set_last_open p1 b)
                            = packer._closed_bins p ++ cl)
      by (exists []; rewrite L2, O2; now rewrite app_nil_r).
    five.
    + apply (dispatched_from p _ _ PP CC I1).
    + rewrite I2, L2. exact O2.
    + exact I3.
    + apply (dispatched_from p _ _ PP CC I4).
    + rewrite I5, L2. exact O2.
  - five; try (rewrite L2; exact O2); try exact I;
      apply Stay; try exact I; rewrite S; exact O4.
  - five; try (rewrite L2; exact O2); try exact I;
      apply Stay; try exact I; rewrite S; exact O4.
Qed.

(** A bin that rates an item takes it or fails; it does not answer
    [None]. *)
Lemma fitness_some_not_none (b : pack_algo.PackingAlgorithm) (v : Z) :
  bin.fitness b w h d = Ret (Some v) ->
  snd (bin.add_cub b w h d rid_) <> Ret None.
Proof.
  intros E.
  destruct (pack_algo.positive_dims w h d) eqn:Hpos.
  - assert (0 < w /\ 0 < h /\ 0 < d) as [Hw [Hh Hd]]
      by (unfold pack_algo.positive_dims in Hpos; lia).
    destruct (bin_add_cub_cases b w h d rid_ Hw Hh Hd)
      as [[C [E1 E2]]|[C [_ E1]]]; [congruence|].
    destruct (is_maxas (pack_algo.cls b)).
    + rewrite E1. discriminate.
    + destruct E1 as [c ->]. discriminate.
  - rewrite (add_cub_not_positive b w h d rid_ Hpos). discriminate.
Qed.

Lemma fit_open_In (open : list pack_algo.PackingAlgorithm) :
  forall i l f j,
    packer.fit_open open i w h d = Ret l -> In (f, j) l ->
    exists b, (i <= j)%nat /\ nth_error open (j - i) = Some b /\
              bin.fitness b w h d = Ret (Some f).
Proof.
  induction open as [|b others IH]; intros i l f j E Hin;
    cbn [packer.fit_open] in E.
  - inversion E; subst_items. destruct Hin.
  - destruct (bin.fitness b w h d) as [v|e|] eqn:Hf; try discriminate.
    destruct (packer.fit_open others (S i) w h d) as [l'|e|] eqn:Hl;
      try discriminate.
    inversion E; subst_items; clear E.
    assert (Rest : In (f, j) l' ->
              exists b0, (i <= j)%nat /\
                nth_error (b :: others) (j - i) = Some b0 /\
                bin.fitness b0 w h d = Ret (Some f)).
    { intros H0. destruct (IH (S i) l' f j Hl H0) as [b0 [L [N Fb]]].
      exists b0. split; [lia|]. split; [|exact Fb].
      replace (j - i)%nat with (S (j - S i)) by lia. exact N. }
    destruct v as [f0|]; [|auto].
    destruct Hin as [E|Hin]; [|auto].
    inversion E; subst_items. exists b. split; [lia|].
    replace (j - j)%nat with 0%nat by lia. auto.
Qed.

Lemma update_split (l : list pack_algo.PackingAlgorithm) :
  forall i b b1, nth_error l i = Some b ->
    exists l1 l2, l = l1 ++ b :: l2 /\ packer.update l i b1 = l1 ++ b1 :: l2.
Proof.
  induction l as [|a l IH]; intros i b b1 E; destruct i; cbn in E;
    try discriminate.
  - inversion E; subst_items. exists [], l. auto.
  - destruct (IH i b b1 E) as [l1 [l2 [E1 E2]]].
    exists (a :: l1), l2. cbn. now rewrite <- E1, E2.
Qed.

(** Putting bins [open'] in place of the open ones. *)
Lemma open_step (p : packer.PackerOnline)
    (open' : list pack_algo.PackingAlgorithm) (oc : option Cuboid) :
  rot_ok R p -> Forall Qr open' ->
  grows oc (flat_map pack_algo.cuboids (packer._open_bins p))
    (flat_map pack_algo.cuboids open') ->
  rot_ok R (packer.set_open_bins p open') /\
  grows oc (placed p) (placed (packer.set_open_bins p open')).
Proof.
  intros [K1 [K2 K3]] Ho G.
  split; [split; [exact K1|split; [exact Ho|exact K3]]|].
  rewrite placed_open, placed_split.
  destruct oc as [c|]; cbn [grows] in *.
  - destruct G as [l1 [l2 [E1 E2]]].
    exists (flat_map pack_algo.cuboids (packer._closed_bins p) ++ l1), l2.
    rewrite E1, E2, <- !app_assoc. auto.
  - now rewrite G.
Qed.

Lemma BFF_add_cub_dispatched (k : packer.bin_algo) (p : packer.PackerOnline) :
  rot_ok R p ->
  dispatched R w h d rid_ p (packer.BFF_add_cub k p w h d rid_) /\
  packer._closed_bins (fst (packer.BFF_add_cub k p w h d rid_))
    = packer._closed_bins p.
Proof.
  intros K. unfold packer.BFF_add_cub.
  pose proof (first_fit_dispatched (packer._open_bins p)
                (proj1 (proj2 K))) as FF.
  destruct (packer.first_fit (packer._open_bins p) w h d rid_) as [open' r].
  destruct FF as [Ho [oc [Hr [G Or]]]].
  destruct (open_step p open' oc K Ho G) as [K' G'].
  assert (Done : forall r' : outcome (pyval Cuboid),
            reported r' oc ->
            dispatched R w h d rid_ p (packer.set_open_bins p open', r') /\
            packer._closed_bins (fst (packer.set_open_bins p open', r'))
              = packer._closed_bins p).
  { intros r' Hr'. split; [|reflexivity].
    split; [exact K'|]. split; [exists []; cbn; now rewrite app_nil_r|].
    exists oc. auto. }
  destruct r as [[c|]|e|]; cbn [abort].
  - apply Done. exact Hr.
  - subst oc. cbn [grows] in G'.
    destruct (new_bins_loop_dispatched k
                (S (packer.stock (packer._empty_bins
                                    (packer.set_open_bins p open'))))
                (packer.set_open_bins p open') K') as [[I1 I2] _].
    split.
    + apply (dispatched_from p (packer.set_open_bins p open')); auto.
      exists []. cbn. now rewrite app_nil_r.
    + rewrite I2. reflexivity.
  - apply Done. exact Hr.
  - apply Done. exact Hr.
Qed.

Lemma BBF_add_cub_dispatched (k : packer.bin_algo) (p : packer.PackerOnline) :
  rot_ok R p ->
  match snd (packer.BBF_add_cub k p w h d rid_) with
  | Ret (PyCub _) | Ret PyNone => False
  | _ => True
  end /\
  dispatched R w h d rid_ p (packer.BBF_add_cub k p w h d rid_) /\
  packer._closed_bins (fst (packer.BBF_add_cub k p w h d rid_))
    = packer._closed_bins p.
Proof.
  intros K. unfold packer.BBF_add_cub.
  assert (Quiet : forall r : outcome (pyval Cuboid),
            match r with
            | Ret (PyCub _) | Ret (PyBool true) => False
            | _ => True
            end ->
            dispatched R w h d rid_ p (p, r)).
  { intros r Hr. split; [exact K|].
    split; [exists []; now rewrite app_nil_r|].
    exists None.
    split; [destruct r as [[|?|[|]]|?|]; try reflexivity; contradiction|].
    split; [reflexivity|discriminate]. }
  destruct (packer.fit_open (packer._open_bins p) 0 w h d) as [fit|e|] eqn:Hfit;
    cbn [abort fst snd];
    try (split; [exact I|split; [apply Quiet; exact I|reflexivity]]).
  destruct (min_by_key fit) as [[f i]|] eqn:Hmin.
  2:{ destruct (new_bins_loop_dispatched k
                  (S (packer.stock (packer._empty_bins p))) p K)
        as [_ [I3 [I4 I5]]]. auto. }
  apply min_by_key_In in Hmin.
  destruct (fit_open_In _ _ _ _ _ Hfit Hmin) as [b [_ [Hn Hf]]].
  rewrite Nat.sub_0_r in Hn. rewrite Hn.
  destruct (update_split _ i b b Hn) as [l1 [l2 [E1 _]]].
  assert (Hb : Qr b).
  { destruct K as [_ [K2 _]]. rewrite Forall_forall in K2. apply K2.
    rewrite E1. apply in_or_app. right. left. reflexivity. }
  pose proof (bin_step b Hb) as St.
  pose proof (fitness_some_not_none b f Hf) as NN.
  destruct (bin.add_cub b w h d rid_) as [b1 o]. cbn [snd] in NN.
  destruct St as [Hb1 St].
  destruct (update_split _ i b b1 Hn) as [m1 [m2 [M1 M2]]].
  assert (Ho : Forall Qr (packer.update (packer._open_bins p) i b1))
    by (apply update_keeps; [exact (proj1 (proj2 K))|exact Hb1]).
  assert (G : forall oc,
            match oc with
            | Some c => pack_algo.cuboids b1 = pack_algo.cuboids b ++ [c]
            | None => pack_algo.cuboids b1 = pack_algo.cuboids b
            end ->
            grows oc (flat_map pack_algo.cuboids (packer._open_bins p))
              (flat_map pack_algo.cuboids
                 (packer.update (packer._open_bins p) i b1))).
  { intros oc Hoc. rewrite M2, M1, !flat_map_app. cbn [flat_map].
    destruct oc as [c|]; cbn [grows]; rewrite Hoc.
    - exists (flat_map pack_algo.cuboids m1 ++ pack_algo.cuboids b),
        (flat_map pack_algo.cuboids m2).
      rewrite <- !app_assoc. cbn. auto.
    - reflexivity. }
  assert (Done : forall (r : outcome (pyval Cuboid)) oc,
            match oc with
            | Some c => pack_algo.cuboids b1 = pack_algo.cuboids b ++ [c] /\
                        oriented R w h d rid_ c
            | None => pack_algo.cuboids b1 = pack_algo.cuboids b
            end ->
            reported r oc ->
            dispatched R w h d rid_ p
              (packer.set_open_bins p
                 (packer.update (packer._open_bins p) i b1), r)).
  { intros r oc Hoc Hr.
    assert (Hoc' : match oc with
                   | Some c =>
                       pack_algo.cuboids b1 = pack_algo.cuboids b ++ [c]
                   | None => pack_algo.cuboids b1 = pack_algo.cuboids b
                   end) by (destruct oc; tauto).
    destruct (open_step p _ oc K Ho (G oc Hoc')) as [K' G'].
    split; [exact K'|]. split; [exists []; cbn; now rewrite app_nil_r|].
    exists oc. split; [exact Hr|]. split; [exact G'|].
    intros c E. subst oc. tauto. }
  destruct o as [[c|]|e|]; cbn [abort fst snd].
  - split; [exact I|]. split; [|reflexivity].
    apply (Done _ (Some c)); [exact St|]. cbn. eauto.
  - congruence.
  - assert (Fail : forall r : outcome (pyval Cuboid),
              reported r None ->
              match r with
              | Ret (PyCub _) | Ret PyNone => False
              | _ => True
              end ->
              match snd (packer.set_open_bins p
                      (packer.update (packer._open_bins p) i b1), r) with
              | Ret (PyCub _) | Ret PyNone => False
              | _ => True
              end /\
              dispatched R w h d rid_ p
                (packer.set_open_bins p
                   (packer.update (packer._open_bins p) i b1), r) /\
              packer._closed_bins
                (fst (packer.set_open_bins p
                        (packer.update (packer._open_bins p) i b1), r))
                = packer._closed_bins p).
    { intros r Hr Hm. split; [exact Hm|]. split; [|reflexivity].
      apply (Done r None); auto. }
    destruct e; try (apply Fail; [reflexivity|exact I]).
    destruct (open_step p _ None K Ho (G None St)) as [K' G'].
    destruct (new_bins_loop_dispatched k
                (S (packer.stock (packer._empty_bins
                   (packer.set_open_bins p
                      (packer.update (packer._open_bins p) i b1)))))
                _ K') as [_ [I3 [I4 I5]]].
    split; [exact I3|]. split.
    + apply (dispatched_from p _ _ G'); [|exact I4].
      exists []. cbn. now rewrite app_nil_r.
    + rewrite I5. reflexivity.
  - split; [exact I|]. split; [|reflexivity].
    apply (Done _ None); [exact St|reflexivity].
Qed.

Lemma BNF_loop_returns (k : packer.bin_algo) (fuel : nat) :
  forall p,
    match snd (packer.BNF_loop fuel k p w h d rid_) with
    | Ret (PyBool _) => False
    | _ => True
    end.
Proof.
  induction fuel as [|fuel IH]; intros p; cbn [packer.BNF_loop snd];
    [exact I|].
  assert (Turn : forall p1,
            match snd (match packer._open_bins p1 with
                       | [] => (p1, Raise IndexError)
                       | b :: others =>
                           let (b1, o) := bin.add_cub b w h d rid_ in
                           match o with
                           | Ret (Some cub) =>
                               (packer.set_open_bins p1 (b1 :: others),
                                Ret (PyCub cub))
                           | Ret None =>
                               packer.BNF_loop fuel k
                                 (packer.set_closed_bins
                                    (packer.set_open_bins p1 others)
                                    (packer._closed_bins p1 ++ [b1]))
                                 w h d rid_
                           | _ => (packer.set_open_bins p1 (b1 :: others),
                                   abort o)
                           end
                       end) with
            | Ret (PyBool _) => False
            | _ => True
            end).
  { intros p1. destruct (packer._open_bins p1) as [|b others];
      [exact I|].
    destruct (bin.add_cub b w h d rid_) as [b1 [[c|]|e|]];
      cbn [snd abort]; try exact I. apply IH. }
  destruct (packer._open_bins p) as [|b others] eqn:Ho.
  - destruct (packer.call_new_open_bin k p w h d) as [p1 [[nb|]|e|]];
      cbn [snd abort]; try exact I. apply Turn.
  - specialize (Turn p). rewrite Ho in Turn. exact Turn.
Qed.

Lemma BFF_loop_returns (k : packer.bin_algo) (fuel : nat) :
  forall p,
    match snd (packer.BFF_loop fuel k p w h d rid_) with
    | Ret (PyBool _) => False
    | _ => True
    end.
Proof.
  induction fuel as [|fuel IH]; intros p; cbn [packer.BFF_loop snd];
    [exact I|].
  destruct (packer.call_new_open_bin k p w h d) as [p1 [[nb|]|e|]];
    cbn [snd abort]; try exact I.
  destruct (bin.add_cub nb w h d rid_) as [b1 [[c|]|e|]];
    cbn [snd abort]; try exact I. apply IH.
Qed.

Lemma add_cub_dispatched (k : packer.bin_algo) (p : packer.PackerOnline) :
  rot_ok R p ->
  dispatched R w h d rid_ p (packer.add_cub k p w h d rid_) /\
  returns_of k (snd (packer.add_cub k p w h d rid_)).
Proof.
  intros K. destruct k; cbn [packer.add_cub].
  - split.
    + apply BNF_loop_dispatched. exact K.
    + pose proof (BNF_loop_returns packer.BNF
                    (S (List.length (packer._open_bins p)
                        + packer.stock (packer._empty_bins p))) p) as H.
      unfold packer.BNF_add_cub. cbn [returns_of].
      destruct (snd _) as [[| |]|e|]; auto.
  - split.
    + apply BFF_add_cub_dispatched. exact K.
    + unfold packer.BFF_add_cub.
      destruct (packer.first_fit (packer._open_bins p) w h d rid_)
        as [open' [[c|]|e|]]; cbn [snd abort returns_of]; try exact I.
      pose proof (BFF_loop_returns packer.BFF
                    (S (packer.stock (packer._empty_bins
                          (packer.set_open_bins p open'))))
                    (packer.set_open_bins p open')) as H.
      destruct (snd _) as [[| |]|e|]; auto.
  - destruct (BBF_add_cub_dispatched packer.BBF p K) as [H1 [H2 _]].
    split; [exact H2|]. cbn [returns_of].
    destruct (snd _) as [[| |]|e|]; auto.
  - split.
    + apply BNF_loop_dispatched. exact K.
    + pose proof (BNF_loop_returns packer.Global
                    (S (List.length (packer._open_bins p)
                        + packer.stock (packer._empty_bins p))) p) as H.
      unfold packer.BNF_add_cub. cbn [returns_of].
      destruct (snd _) as [[| |]|e|]; auto.
Qed.

End Dispatch.

(** ** The result of [add_cub] and the items of [pack] *)

Lemma rot_add_cub (R : bool) (k : packer.bin_algo) (p : packer.PackerOnline)
    (w h d : Z) (rid_ : option Z) :
  uniform R p -> uniform R (fst (packer.add_cub k p w h d rid_)).
Proof.
  intros [E K]. split.
  - pose proof (add_cub_config k p w h d rid_) as C.
    unfold config in C. injection C as C _. now rewrite C.
  - destruct (add_cub_dispatched R w h d rid_ k p K) as [D _].
    destruct (packer.add_cub k p w h d rid_) as [p' r].
    exact (proj1 D).
Qed.

Lemma rot_add_bin (R : bool) (p : packer.PackerOnline) (W H D count : Z)
    (m : option bool) :
  uniform R p -> uniform R (packer.add_bin p W H D count m).
Proof.
  intros [E K]. split; [exact E|].
  apply (add_bin_keeps (fun b => pack_algo.rot b = R)
           (fun f => bin_factory._rot f = R)); [exact K|exact E].
Qed.

Lemma rot_reset (p : packer.PackerOnline) :
  uniform (packer._rotation p) (packer.reset p).
Proof. split; [reflexivity|]. repeat split; constructor. Qed.

Lemma rot_add_avail_bins (R : bool) (l : list packer.bin_item) :
  forall p, uniform R p -> uniform R (packer.add_avail_bins p l).
Proof.
  unfold packer.add_avail_bins.
  induction l as [|[[[[W H] D] count] m] l IH]; intros p K; [exact K|].
  cbn [fold_left]. apply IH. now apply rot_add_bin.
Qed.

Lemma online_run_uniform (k : packer.bin_algo) (a : pack_algo.algo)
    (rotation : bool) (calls : list online_call) :
  uniform rotation (online_run k a rotation calls).
Proof.
  unfold online_run.
  assert (S0 : uniform rotation (packer.PackerOnline_init a rotation))
    by (apply (rot_reset (packer.mkPackerOnline rotation a [] [] [] 0))).
  revert S0. generalize (packer.PackerOnline_init a rotation).
  induction calls as [|c calls IH]; intros p K; [exact K|].
  cbn [fold_left]. apply IH.
  destruct c; cbn [do_online];
    [now apply rot_add_bin|now apply rot_add_cub].
Qed.

(** X22 ([PackerBNFMixin.add_cub], [PackerBFFMixin.add_cub],
    [PackerBBFMixin.add_cub]). On an on-line packer, add_cub of Next-Fit and
    First-Fit returns a cuboid or None and add_cub of Best-Fit a boolean; a
    returned cuboid, or True, means that exactly one cuboid was added to the
    placed cuboids, with the rid and depth of the item and its width and
    height (swapped only under rotation), and any other outcome leaves the
    placed cuboids as they were. *)
Theorem add_cub_reports_placement (k : packer.bin_algo)
    (a : pack_algo.algo) (rotation : bool) (calls : list online_call)
    (w h d : Z) (rid_ : option Z) :
  let p := online_run k a rotation calls in
  let '(p', r) := packer.add_cub k p w h d rid_ in
  returns_of k r /\
  match r with
  | Ret (PyCub c) =>
      oriented rotation w h d rid_ c /\
      exists l1 l2, placed p = l1 ++ l2 /\ placed p' = l1 ++ c :: l2
  | Ret (PyBool true) =>
      exists c, oriented rotation w h d rid_ c /\
      exists l1 l2, placed p = l1 ++ l2 /\ placed p' = l1 ++ c :: l2
  | _ => placed p' = placed p
  end.
Proof.
  intros p.
  destruct (add_cub_dispatched rotation w h d rid_ k p
              (proj2 (online_run_uniform k a rotation calls))) as [D T].
  destruct (packer.add_cub k p w h d rid_) as [p' r]. cbn [snd] in T.
  split; [exact T|].
  destruct D as [_ [_ [oc [Hr [G Or]]]]].
  destruct r as [[|c|[|]]|e|]; cbn [reported] in Hr.
  - subst oc. exact G.
  - subst oc. split; [now apply Or|exact G].
  - destruct Hr as [c ->]. exists c. split; [now apply Or|exact G].
  - subst oc. exact G.
  - subst oc. exact G.
  - subst oc. exact G.
Qed.

Lemma online_discipline (k : packer.bin_algo) (R : bool)
    (calls : list online_call) :
  forall p, uniform R p ->
    ((List.length (packer._open_bins p) <= 1)%nat ->
     k = packer.BNF ->
     (List.length (packer._open_bins (fold_left (do_online k) calls p))
        <= 1)%nat) /\
    (packer._closed_bins p = [] ->
     k = packer.BFF \/ k = packer.BBF ->
     packer._closed_bins (fold_left (do_online k) calls p) = []).
Proof.
  induction calls as [|c calls IH]; intros p U; [split; auto|].
  cbn [fold_left].
  assert (U' : uniform R (do_online k p c))
    by (destruct c; cbn [do_online];
        [now apply rot_add_bin|now apply rot_add_cub]).
  destruct (IH _ U') as [I1 I2].
  split.
  - intros L ->. apply I1; [|reflexivity].
    destruct c as [W H D count m|w h d r]; cbn [do_online]; [exact L|].
    cbn [packer.add_cub]. unfold packer.BNF_add_cub.
    apply (BNF_loop_dispatched R w h d r); [exact (proj2 U)|exact L].
  - intros C Hk. apply I2; [|exact Hk].
    destruct c as [W H D count m|w h d r]; cbn [do_online]; [exact C|].
    destruct Hk as [-> | ->]; cbn [packer.add_cub].
    + rewrite (proj2 (BFF_add_cub_dispatched R w h d r packer.BFF p
                        (proj2 U))). exact C.
    + rewrite (proj2 (proj2 (BBF_add_cub_dispatched R w h d r packer.BBF p
                               (proj2 U)))). exact C.
Qed.

(** X23 ([PackerBNFMixin.add_cub], [PackerBFFMixin.add_cub],
    [PackerBBFMixin.add_cub], [PackerOnline._new_open_bin]). An on-line
    Next-Fit packer never has more than one open bin; on-line First-Fit and
    Best-Fit packers never close a bin. *)
Theorem open_and_closed_bins_by_heuristic (a : pack_algo.algo)
    (rotation : bool) (calls : list online_call) :
  (List.length
     (packer._open_bins (online_run packer.BNF a rotation calls)) <= 1)%nat /\
  packer._closed_bins (online_run packer.BFF a rotation calls) = [] /\
  packer._closed_bins (online_run packer.BBF a rotation calls) = [].
Proof.
  unfold online_run.
  assert (S0 : uniform rotation (packer.PackerOnline_init a rotation))
    by (apply (rot_reset (packer.mkPackerOnline rotation a [] [] [] 0))).
  split; [|split].
  - apply (online_discipline packer.BNF rotation calls _ S0);
      [cbn; lia|reflexivity].
  - apply (online_discipline packer.BFF rotation calls _ S0); auto.
  - apply (online_discipline packer.BBF rotation calls _ S0); auto.
Qed.

Lemma accounted_start (rot : bool) (items : list packer.cub_item) :
  accounted rot items items [].
Proof. exists [], []. split; [reflexivity|constructor]. Qed.

Lemma accounted_todo (rot : bool) (items todo todo' : list packer.cub_item)
    (cubs : list Cuboid) :
  Permutation todo todo' ->
  accounted rot items todo cubs -> accounted rot items todo' cubs.
Proof.
  intros P [taken [rest [E F]]]. exists taken, rest. split; [|exact F].
  rewrite E. now rewrite P.
Qed.

Lemma accounted_step (rot : bool) (items todo : list packer.cub_item)
    (w h d : Z) (rid_ : option Z) (cubs cubs' : list Cuboid)
    (oc : option Cuboid) :
  accounted rot items ((w, h, d, rid_) :: todo) cubs ->
  grows oc cubs cubs' ->
  (forall c, oc = Some c -> oriented rot w h d rid_ c) ->
  accounted rot items todo cubs'.
Proof.
  intros [taken [rest [E F]]] G Or.
  destruct oc as [c|]; cbn [grows] in G.
  - destruct G as [l1 [l2 [-> ->]]].
    apply Forall2_app_inv_r in F. destruct F as [t1 [t2 [F1 [F2 ->]]]].
    exists (t1 ++ (w, h, d, rid_) :: t2), rest. split.
    + rewrite E. rewrite <- !app_assoc. apply Permutation_app_head.
      cbn. rewrite !app_assoc. symmetry. apply Permutation_middle.
    + apply Forall2_app; [exact F1|]. constructor; [|exact F2].
      cbn. now apply Or.
  - subst cubs'. exists taken, (rest ++ [(w, h, d, rid_)]).
    split; [|exact F]. rewrite E, <- !app_assoc. reflexivity.
Qed.

Lemma accounted_end (rot : bool) (items todo : list packer.cub_item)
    (cubs : list Cuboid) :
  accounted rot items todo cubs ->
  exists taken rest,
    Permutation items (taken ++ rest) /\ Forall2 (placement rot) taken cubs.
Proof.
  intros [taken [rest [E F]]]. exists taken, (rest ++ todo). auto.
Qed.

Lemma pack_sorted_accounted (R : bool) (k : packer.bin_algo)
    (items : list packer.cub_item) (l : list packer.cub_item) :
  forall p, rot_ok R p -> accounted R items l (placed p) ->
    exists todo,
      accounted R items todo (placed (fst (packer.pack_sorted k p l))).
Proof.
  induction l as [|[[[w h] d] r] l IH]; intros p K A;
    cbn [packer.pack_sorted].
  - exists []. exact A.
  - destruct (add_cub_dispatched R w h d r k p K) as [D _].
    destruct (packer.add_cub k p w h d r) as [p1 o].
    destruct D as [K1 [_ [oc [_ [G Or]]]]].
    pose proof (accounted_step R items l w h d r _ _ oc A G Or) as A1.
    destruct o as [v|e|]; cbn [fst abort]; [apply IH; assumption| |];
      exists l; exact A1.
Qed.

Lemma Global_new_open_bin_placed (R : bool) (p : packer.PackerOnline)
    (remaining : list (nat * packer.cub_item)) :
  rot_ok R p ->
  rot_ok R (fst (packer.Global_new_open_bin p remaining)) /\
  placed (fst (packer.Global_new_open_bin p remaining)) = placed p.
Proof.
  intros K.
  pose proof (Global_new_open_bin_opened
                (fun b => pack_algo.rot b = R)
                (fun f => bin_factory._rot f = R)
                (fun b => pack_algo.cuboids b = [])
                (Fr_create R) (Fr_new R) (Fr_template R) p remaining K) as O.
  destruct (packer.Global_new_open_bin p remaining) as [p1 r].
  destruct O as [O1 [O2 O3]]. cbn [fst]. split; [exact O1|].
  rewrite !placed_split, O2. f_equal.
  destruct r as [[b|]|e|]; try (now rewrite O3).
  destruct O3 as [-> [_ Hb]]. rewrite flat_map_app. cbn.
  now rewrite Hb, !app_nil_r.
Qed.

Lemma lookup_delete (key : nat) (remaining : list (nat * packer.cub_item)) :
  forall it,
    NoDup (map fst remaining) ->
    packer.lookup key remaining = Some it ->
    Permutation (map snd remaining)
      (it :: map snd (packer.delete key remaining)) /\
    NoDup (map fst (packer.delete key remaining)).
Proof.
  unfold packer.delete.
  induction remaining as [|[k c] rest IH]; intros it N E;
    cbn [packer.lookup] in E; [discriminate|].
  cbn [map fst] in N. inversion N as [|? ? Hk Hrest]; subst.
  cbn [filter fst map snd].
  destruct (Nat.eqb k key) eqn:Ek; cbn [negb].
  - inversion E; subst; clear E. apply Nat.eqb_eq in Ek. subst k.
    assert (Same : filter (fun kc : nat * packer.cub_item =>
                             negb (Nat.eqb (fst kc) key)) rest = rest).
    { clear IH N Hrest. induction rest as [|[k' c'] rest IH]; [reflexivity|].
      cbn [filter fst map] in *.
      destruct (Nat.eqb k' key) eqn:E'.
      - apply Nat.eqb_eq in E'. subst. exfalso. apply Hk. now left.
      - cbn [negb]. f_equal. apply IH. intros H. apply Hk. now right. }
    rewrite Same. split; [reflexivity|exact Hrest].
  - destruct (IH it Hrest E) as [P N']. cbn [map fst snd]. split.
    + rewrite P. apply perm_swap.
    + constructor; [|exact N'].
      intros H. apply Hk. apply in_map_iff in H.
      destruct H as [[k' c'] [E1 H]]. cbn in E1. subst k'.
      apply filter_In in H. apply in_map_iff. exists (k, c').
      split; [reflexivity|tauto].
Qed.

Lemma close_first_placed (p : packer.PackerOnline)
    (b : pack_algo.PackingAlgorithm)
    (others : list pack_algo.PackingAlgorithm) :
  packer._open_bins p = b :: others ->
  placed (packer.set_closed_bins (packer.set_open_bins p others)
            (packer._closed_bins p ++ [b])) = placed p.
Proof.
  intros E. rewrite !placed_split. cbn. rewrite E, flat_map_app. cbn.
  now rewrite app_nil_r, <- app_assoc.
Qed.

Lemma Global_fill_accounted (R : bool) (items : list packer.cub_item)
    (fuel : nat) :
  forall p remaining, global_ok R items p remaining ->
    global_ok R items
      (fst (fst (packer.Global_fill fuel p remaining)))
      (snd (fst (packer.Global_fill fuel p remaining))).
Proof.
  induction fuel as [|fuel IH]; intros p remaining J; [exact J|].
  cbn [packer.Global_fill].
  destruct (packer.last_error (packer._open_bins p)) as [pbin|]; [|exact J].
  destruct (packer._find_best_fit pbin remaining) as [[key|]|e|];
    cbn [fst snd]; try exact J.
  - destruct (packer.lookup key remaining) as [[[[w h] d] r]|] eqn:L;
      [|exact J].
    destruct J as [K [N A]].
    destruct (lookup_delete key remaining _ N L) as [P N'].
    unfold packer.BNF_add_cub.
    destruct (BNF_loop_dispatched R w h d r packer.Global
                (S (List.length (packer._open_bins p)
                    + packer.stock (packer._empty_bins p))) p K) as [D _].
    destruct (packer.BNF_loop _ packer.Global p w h d r) as [p1 o].
    destruct D as [K1 [_ [oc [_ [G Or]]]]].
    assert (J1 : global_ok R items p1 (packer.delete key remaining)).
    { split; [exact K1|]. split; [exact N'|].
      apply (accounted_step R items _ w h d r (placed p) _ oc); auto.
      apply (accounted_todo R items (map snd remaining)); assumption. }
    destruct o as [v|e|]; cbn [fst snd abort]; [apply IH|..]; exact J1.
  - destruct (packer._open_bins p) as [|b others] eqn:Ho; [exact J|].
    cbn [fst snd]. destruct J as [K [N A]].
    split; [|split; [exact N|]].
    + destruct K as [K1 [K2 K3]]. rewrite Ho in K2.
      inversion K2; subst.
      split; [|split]; cbn; auto.
      apply Forall_app. split; [exact K1|]. constructor; auto.
    + rewrite (close_first_placed p b others Ho). exact A.
Qed.

Lemma Global_loop_accounted (R : bool) (items : list packer.cub_item)
    (fuel : nat) :
  forall p remaining, global_ok R items p remaining ->
    global_ok R items
      (fst (fst (packer.Global_loop fuel p remaining)))
      (snd (fst (packer.Global_loop fuel p remaining))).
Proof.
  induction fuel as [|fuel IH]; intros p remaining J; [exact J|].
  cbn [packer.Global_loop].
  destruct (negb _); [|exact J].
  destruct J as [K [N A]].
  destruct (Global_new_open_bin_placed R p remaining K) as [K1 P1].
  destruct (packer.Global_new_open_bin p remaining) as [p1 r1].
  cbn [fst] in K1, P1.
  assert (J1 : global_ok R items p1 remaining)
    by (split; [exact K1|split; [exact N|now rewrite P1]]).
  destruct r1 as [[b|]|e|]; cbn [fst snd abort]; try exact J1.
  pose proof (Global_fill_accounted R items (S (List.length remaining)) p1
                remaining J1) as J2.
  destruct (packer.Global_fill (S (List.length remaining)) p1 remaining)
    as [[p2 rem2] r2].
  cbn [fst snd] in J2.
  destruct r2 as [u|e|]; cbn [fst snd]; [apply IH|..]; exact J2.
Qed.

Lemma enumerate_keys (l : list packer.cub_item) :
  NoDup (map fst (packer.enumerate l)) /\ map snd (packer.enumerate l) = l.
Proof.
  unfold packer.enumerate.
  assert (G : forall n, map fst (combine (seq n (List.length l)) l)
                          = seq n (List.length l) /\
                        map snd (combine (seq n (List.length l)) l) = l).
  { induction l as [|a l IH]; intros n; [split; reflexivity|].
    cbn. destruct (IH (S n)) as [E1 E2]. now rewrite E1, E2. }
  destruct (G 0%nat) as [E1 E2]. rewrite E1, E2.
  split; [apply seq_NoDup|reflexivity].
Qed.

(** X24 ([Packer.pack], [PackerGlobal.pack], [PackerGlobal._find_best_fit],
    [Packer.add_cub]). If the sort function of an off-line packer returns a
    permutation of its input, then after pack() the placed cuboids
    correspond one to one to distinct queued items: each has the rid and
    depth of its item and its width and height, swapped only under rotation.
    No item is placed twice and no cuboid is invented. *)
Theorem pack_places_each_item_at_most_once (p : packer.Packer) :
  (forall l, Permutation (packer._sort_algo p l) l) ->
  exists taken rest,
    Permutation (packer._avail_cub p) (taken ++ rest) /\
    Forall2 (placement (packer._rotation (packer.base p))) taken
      (placed (packer.base (fst (packer.pack p)))).
Proof.
  intros Sorts.
  set (R := packer._rotation (packer.base p)).
  set (items := packer._avail_cub p).
  assert (U : uniform R (packer.add_avail_bins (packer.reset (packer.base p))
                           (packer._avail_bins p)))
    by (apply rot_add_avail_bins, rot_reset).
  assert (P0 : placed (packer.add_avail_bins (packer.reset (packer.base p))
                         (packer._avail_bins p)) = []).
  { generalize (packer._avail_bins p).
    assert (G : forall l q, placed q = [] ->
                placed (packer.add_avail_bins q l) = []).
    { unfold packer.add_avail_bins.
      induction l as [|[[[[W H] D] count] m] l IH]; intros q E;
        [exact E|].
      cbn [fold_left]. apply IH. exact E. }
    intros l. apply G. reflexivity. }
  assert (A0 : accounted R items (packer._sort_algo p items) []).
  { apply (accounted_todo R items items); [symmetry; apply Sorts|].
    apply accounted_start. }
  assert (Empty : exists taken rest,
            Permutation items (taken ++ rest) /\
            Forall2 (placement R) taken
              (placed (packer.reset (packer.base p))))
    by (exists [], items; split; [reflexivity|constructor]).
  unfold packer.pack.
  destruct (packer.heuristic p) eqn:Hk;
    unfold packer.Packer_pack, packer.PackerGlobal_pack;
    cbn [packer.base packer.set_base packer._avail_bins packer._avail_cub
         packer._sort_algo packer.heuristic packer.set_sorted_cub];
    (destruct (negb _); [exact Empty|]).
  1-3: rewrite Hk;
    match goal with
    | |- context [packer.pack_sorted ?k ?b ?l] =>
        destruct (pack_sorted_accounted R k items l b (proj2 U))
          as [todo A]; [rewrite P0; exact A0|];
        destruct (packer.pack_sorted k b l) as [b2 r];
        cbn [fst packer.base packer.set_base packer.set_sorted_cub];
        cbn [fst] in A; exact (accounted_end R items todo _ A)
    end.
  match goal with
  | |- context [packer.Global_loop ?n ?b ?l] =>
      pose proof (Global_loop_accounted R items n b l) as J;
      destruct (packer.Global_loop n b l) as [[b2 rem2] r]
  end.
  cbn [fst snd packer.base packer.set_base packer.set_sorted_cub] in *.
  destruct (enumerate_keys (packer._sort_algo p items)) as [N E].
  destruct J as [_ [_ A]].
  - split; [exact (proj2 U)|]. split; [exact N|].
    fold items. rewrite E, P0. exact A0.
  - exact (accounted_end R items _ _ A).
Qed.

Lemma pack_places_each_item_at_most_once_witness :
  exists taken rest,
    Permutation [(4, 4, 4, Some 1); (6, 6, 6, Some 2)] (taken ++ rest) /\
    Forall2 (placement true) taken
      (placed
         (packer.base
            (fst (packer.pack
                    (do_calls
                       (packer.Packer_init packer.BBF bin.MaxCubsBssf_
                          packer.SORT_NONE true)
                       [AddBin 10 10 10 1 None; AddCub 4 4 4 (Some 1);
                        AddCub 6 6 6 (Some 2)]))))).
Proof.
  apply (pack_places_each_item_at_most_once
           (do_calls
              (packer.Packer_init packer.BBF bin.MaxCubsBssf_
                 packer.SORT_NONE true)
              [AddBin 10 10 10 1 None; AddCub 4 4 4 (Some 1);
               AddCub 6 6 6 (Some 2)])).
  intros l. reflexivity.
Defined.

(** ** The number of bins *)

Ltac fields :=
  cbn [packer._closed_bins packer._open_bins packer._empty_bins
         packer.set_open_bins packer.set_closed_bins packer.set_empty_bins
         packer.set_last_open packer.add_bin packer.reset
         packer.PackerOnline_init List.length].

Lemma cap_eq (p : packer.PackerOnline) :
  cap p = (List.length (packer._closed_bins p)
           + List.length (packer._open_bins p)
           + packer.stock (packer._empty_bins p))%nat.
Proof. unfold cap, packer.bins. now rewrite length_app. Qed.

Lemma cap_open (p : packer.PackerOnline)
    (res : packer.PackerOnline * outcome (option pack_algo.PackingAlgorithm)) :
  open_ok p res -> (cap (fst res) <= cap p)%nat.
Proof.
  destruct res as [p' r]. intros [_ [O2 [O3 O4]]]. cbn [fst].
  rewrite !cap_eq, O2.
  destruct r as [[b|]|e|]; try (rewrite O4; lia).
  destruct O4 as [-> O4]. rewrite length_app. cbn. lia.
Qed.

Lemma set_last_open_cap (p : packer.PackerOnline)
    (l : list pack_algo.PackingAlgorithm) (b b1 : pack_algo.PackingAlgorithm) :
  packer._open_bins p = l ++ [b] ->
  cap (packer.set_last_open p b1) = cap p.
Proof.
  intros E. rewrite !cap_eq. unfold packer.set_last_open. fields.
  now rewrite E, removelast_last, !length_app.
Qed.

Section Cap.

Variables w h d : Z.

Variable rid_ : option Z.

Lemma BNF_loop_cap (k : packer.bin_algo) (fuel : nat) :
  forall p, (cap (fst (packer.BNF_loop fuel k p w h d rid_)) <= cap p)%nat.
Proof.
  induction fuel as [|fuel IH]; intros p; [cbn; lia|].
  cbn [packer.BNF_loop].
  assert (Turn : forall p1,
            (cap (fst (match packer._open_bins p1 with
                       | [] => (p1, Raise IndexError)
                       | b :: others =>
                           let (b1, o) := bin.add_cub b w h d rid_ in
                           match o with
                           | Ret (Some cub) =>
                               (packer.set_open_bins p1 (b1 :: others),
                                Ret (PyCub cub))
                           | Ret None =>
                               packer.BNF_loop fuel k
                                 (packer.set_closed_bins
                                    (packer.set_open_bins p1 others)
                                    (packer._closed_bins p1 ++ [b1]))
                                 w h d rid_
                           | _ => (packer.set_open_bins p1 (b1 :: others),
                                   abort o)
                           end
                       end)) <= cap p1)%nat).
  { intros p1. destruct (packer._open_bins p1) as [|b others] eqn:Ho;
      [cbn [fst]; lia|].
    destruct (bin.add_cub b w h d rid_) as [b1 [[c|]|e|]]; cbn [fst];
      try (rewrite !cap_eq; fields; rewrite Ho; fields; lia).
    etransitivity; [apply IH|].
    rewrite !cap_eq. fields. rewrite Ho, length_app. cbn [List.length]. lia. }
  destruct (packer._open_bins p) as [|b others] eqn:Ho.
  - pose proof (cap_open p _ (call_new_open_bin_ok k p w h d)) as O.
    destruct (packer.call_new_open_bin k p w h d) as [p1 [[nb|]|e|]];
      cbn [fst] in *; try exact O.
    etransitivity; [apply Turn|exact O].
  - specialize (Turn p). rewrite Ho in Turn. exact Turn.
Qed.

Lemma new_bins_loop_cap (k : packer.bin_algo) (fuel : nat) :
  forall p,
    (cap (fst (packer.BFF_loop fuel k p w h d rid_)) <= cap p)%nat /\
    (cap (fst (packer.BBF_loop fuel k p w h d rid_)) <= cap p)%nat.
Proof.
  induction fuel as [|fuel IH]; intros p; [cbn; lia|].
  cbn [packer.BFF_loop packer.BBF_loop].
  pose proof (call_new_open_bin_ok k p w h d) as OK.
  pose proof (cap_open p _ OK) as O.
  destruct (packer.call_new_open_bin k p w h d) as [p1 [[nb|]|e|]];
    cbn [fst] in *; try (split; exact O).
  destruct OK as [_ [_ [_ [Ho _]]]].
  destruct (bin.add_cub nb w h d rid_) as [b1 [[c|]|e|]]; cbn [fst];
    try (rewrite (set_last_open_cap p1 _ nb b1 Ho); split; exact O).
  destruct (IH (packer.set_last_open p1 b1)) as [I1 I2].
  rewrite (set_last_open_cap p1 _ nb b1 Ho) in I1, I2. split; lia.
Qed.

Lemma first_fit_length (open : list pack_algo.PackingAlgorithm) :
  List.length (fst (packer.first_fit open w h d rid_)) = List.length open.
Proof.
  induction open as [|b others IH]; [reflexivity|].
  cbn [packer.first_fit].
  destruct (bin.add_cub b w h d rid_) as [b1 [[c|]|e|]]; try reflexivity.
  destruct (packer.first_fit others w h d rid_) as [others1 r].
  cbn [fst] in *. cbn. now rewrite IH.
Qed.

Lemma update_length (l : list pack_algo.PackingAlgorithm) :
  forall i b, List.length (packer.update l i b) = List.length l.
Proof.
  induction l as [|a l IH]; intros i b; [reflexivity|].
  destruct i; cbn; [reflexivity|now rewrite IH].
Qed.

Lemma set_open_cap (p : packer.PackerOnline)
    (l : list pack_algo.PackingAlgorithm) :
  List.length l = List.length (packer._open_bins p) ->
  cap (packer.set_open_bins p l) = cap p.
Proof. intros E. rewrite !cap_eq. fields. now rewrite E. Qed.

Lemma add_cub_cap (k : packer.bin_algo) (p : packer.PackerOnline) :
  (cap (fst (packer.add_cub k p w h d rid_)) <= cap p)%nat.
Proof.
  destruct k; cbn [packer.add_cub]; try apply BNF_loop_cap.
  - unfold packer.BFF_add_cub.
    pose proof (first_fit_length (packer._open_bins p)) as L.
    destruct (packer.first_fit (packer._open_bins p) w h d rid_)
      as [open' r]. cbn [fst] in L.
    pose proof (set_open_cap p open' L) as C.
    destruct r as [[c|]|e|]; cbn [fst]; try lia.
    rewrite <- C. apply new_bins_loop_cap.
  - unfold packer.BBF_add_cub.
    destruct (packer.fit_open (packer._open_bins p) 0 w h d) as [fit|e|];
      cbn [fst]; try lia.
    destruct (min_by_key fit) as [[f i]|]; [|apply new_bins_loop_cap].
    destruct (nth_error (packer._open_bins p) i) as [best|]; [|cbn; lia].
    destruct (bin.add_cub best w h d rid_) as [b1 o].
    pose proof (set_open_cap p _ (update_length (packer._open_bins p) i b1))
      as C.
    destruct o as [v|e|]; cbn [fst abort]; try lia.
    destruct e; cbn [fst]; try lia.
    rewrite <- C. apply new_bins_loop_cap.
Qed.

End Cap.

Lemma stock_app (l1 l2 : list (nat * bin_factory.BinFactory)) :
  packer.stock (l1 ++ l2) = (packer.stock l1 + packer.stock l2)%nat.
Proof.
  induction l1 as [|[k f] l1 IH]; [reflexivity|].
  cbn [app]. rewrite !stock_cons, IH. lia.
Qed.

Lemma add_bin_cap (p : packer.PackerOnline) (W H D count : Z)
    (m : option bool) :
  cap (packer.add_bin p W H D count m) = (cap p + Z.to_nat count)%nat.
Proof.
  rewrite !cap_eq. unfold packer.add_bin. fields.
  rewrite stock_app, stock_cons. cbn. lia.
Qed.

Lemma add_avail_bins_cap (l : list packer.bin_item) :
  forall p, cap (packer.add_avail_bins p l) = (cap p + supply l)%nat.
Proof.
  unfold packer.add_avail_bins.
  induction l as [|[[[[W H] D] count] m] l IH]; intros p;
    [cbn; lia|].
  cbn [fold_left supply fold_right]. rewrite IH, add_bin_cap.
  fold (supply l). lia.
Qed.

Lemma pack_sorted_cap (k : packer.bin_algo) (l : list packer.cub_item) :
  forall p, (cap (fst (packer.pack_sorted k p l)) <= cap p)%nat.
Proof.
  induction l as [|[[[w h] d] r] l IH]; intros p; [cbn; lia|].
  cbn [packer.pack_sorted].
  pose proof (add_cub_cap w h d r k p) as A.
  destruct (packer.add_cub k p w h d r) as [p1 o]. cbn [fst] in A.
  destruct o; cbn [fst abort]; try exact A.
  etransitivity; [apply IH|exact A].
Qed.

Lemma Global_fill_cap (fuel : nat) :
  forall p remaining,
    (cap (fst (fst (packer.Global_fill fuel p remaining))) <= cap p)%nat.
Proof.
  induction fuel as [|fuel IH]; intros p remaining; [cbn; lia|].
  cbn [packer.Global_fill].
  destruct (packer.last_error (packer._open_bins p)) as [pbin|];
    [|cbn; lia].
  destruct (packer._find_best_fit pbin remaining) as [[key|]|e|];
    cbn [fst]; try lia.
  - destruct (packer.lookup key remaining) as [[[[w h] d] r]|];
      [|cbn; lia].
    unfold packer.BNF_add_cub.
    pose proof (BNF_loop_cap w h d r packer.Global
                  (S (List.length (packer._open_bins p)
                      + packer.stock (packer._empty_bins p))) p) as A.
    destruct (packer.BNF_loop _ packer.Global p w h d r) as [p1 o].
    cbn [fst] in A.
    destruct o; cbn [fst abort]; try exact A.
    etransitivity; [apply IH|exact A].
  - destruct (packer._open_bins p) as [|b others] eqn:Ho; cbn [fst];
      [lia|].
    rewrite !cap_eq. fields. rewrite Ho, length_app. cbn [List.length]. lia.
Qed.

Lemma Global_loop_cap (fuel : nat) :
  forall p remaining,
    (cap (fst (fst (packer.Global_loop fuel p remaining))) <= cap p)%nat.
Proof.
  induction fuel as [|fuel IH]; intros p remaining; [cbn; lia|].
  cbn [packer.Global_loop].
  destruct (negb _); [|cbn; lia].
  pose proof (cap_open p _ (Global_new_open_bin_ok p remaining)) as O.
  destruct (packer.Global_new_open_bin p remaining) as [p1 [[b|]|e|]];
    cbn [fst] in *; try exact O.
  pose proof (Global_fill_cap (S (List.length remaining)) p1 remaining) as F.
  destruct (packer.Global_fill (S (List.length remaining)) p1 remaining)
    as [[p2 rem2] r2].
  cbn [fst] in F.
  destruct r2; cbn [fst]; try lia.
  etransitivity; [apply IH|lia].
Qed.

Lemma online_run_cap (k : packer.bin_algo) (calls : list online_call) :
  forall p,
    (cap (fold_left (do_online k) calls p) <= cap p + online_supply calls)%nat.
Proof.
  induction calls as [|c calls IH]; intros p; [cbn; lia|].
  cbn [fold_left online_supply fold_right].
  fold (online_supply calls).
  etransitivity; [apply IH|].
  destruct c as [W H D count m|w h d r]; cbn [do_online].
  - rewrite add_bin_cap. lia.
  - pose proof (add_cub_cap w h d r k p). lia.
Qed.

(** X25 ([PackerOnline._new_open_bin], [BinFactory.new_bin],
    [PackerOnline.add_bin], [PackerOnline.__len__]). len(packer) of an on-
    line packer, the number of its closed and open bins, never exceeds the
    sum of the counts passed to add_bin (a count below one adds nothing). *)
Theorem online_bins_within_supply (k : packer.bin_algo)
    (a : pack_algo.algo) (rotation : bool) (calls : list online_call) :
  (packer.PackerOnline_len (online_run k a rotation calls)
     <= online_supply calls)%nat.
Proof.
  pose proof (online_run_cap k calls (packer.PackerOnline_init a rotation))
    as C.
  fold (online_run k a rotation calls) in C.
  rewrite !cap_eq in C. cbn in C. unfold packer.PackerOnline_len. lia.
Qed.

(** X26 ([Packer.pack], [PackerGlobal.pack], [PackerGlobal._new_open_bin],
    [BinFactory.new_bin]). After pack() on an off-line packer of any
    heuristic, the number of bins in use never exceeds the sum of the counts
    of the queued add_bin calls. *)
Theorem pack_bins_within_supply (p : packer.Packer) :
  (packer.PackerOnline_len (packer.base (fst (packer.pack p)))
     <= supply (packer._avail_bins p))%nat.
Proof.
  assert (L : forall q, (packer.PackerOnline_len q <= cap q)%nat)
    by (intros q; rewrite cap_eq; unfold packer.PackerOnline_len; lia).
  assert (C1 : cap (packer.add_avail_bins (packer.reset (packer.base p))
                      (packer._avail_bins p))
               = supply (packer._avail_bins p))
    by (rewrite add_avail_bins_cap; reflexivity).
  unfold packer.pack.
  destruct (packer.heuristic p) eqn:Hk;
    unfold packer.Packer_pack, packer.PackerGlobal_pack;
    cbn [packer.base packer.set_base packer._avail_bins packer._avail_cub
         packer._sort_algo packer.heuristic packer.set_sorted_cub];
    (destruct (negb _); [cbn; lia|]).
  1-3: rewrite Hk;
    match goal with
    | |- context [packer.pack_sorted ?k ?b ?l] =>
        pose proof (pack_sorted_cap k l b) as A;
        destruct (packer.pack_sorted k b l) as [b2 r];
        cbn [fst packer.base packer.set_base packer.set_sorted_cub] in *;
        specialize (L b2); lia
    end.
  match goal with
  | |- context [packer.Global_loop ?n ?b ?l] =>
      pose proof (Global_loop_cap n b l) as A;
      destruct (packer.Global_loop n b l) as [[b2 rem2] r]
  end.
  cbn [fst snd packer.base packer.set_base packer.set_sorted_cub] in *.
  specialize (L b2). lia.
Qed.

(** ** Indexing a packer *)

(** X27 ([PackerOnline.__getitem__], [PackerOnline.__iter__],
    [PackerOnline.__len__]). packer[key] for an int key is list indexing
    into the closed bins followed by the open bins, the order of iteration:
    the same bin, the same rule for negative keys, and IndexError in the
    same cases. *)
Theorem packer_getitem_indexes_bins (p : packer.PackerOnline) (key : Z) :
  packer.PackerOnline_getitem p (packer.IntKey key)
  = getitem (packer.bins p) key.
Proof.
  unfold packer.PackerOnline_getitem, packer.PackerOnline_len, packer.bins.
  set (cl := packer._closed_bins p). set (op := packer._open_bins p).
  rewrite Nat2Z.inj_add.
  pose proof (Nat2Z.is_nonneg (List.length cl)) as Hc.
  pose proof (Nat2Z.is_nonneg (List.length op)) as Ho.
  set (n := Z.of_nat (List.length cl)) in *.
  set (m := Z.of_nat (List.length op)) in *.
  assert (Shift : forall i, 0 <= i < n + m ->
            (if i <? n then getitem cl i else getitem op (i - n))
            = getitem (cl ++ op) i).
  { intros i Hi. destruct (i <? n) eqn:E.
    - symmetry. apply getitem_app_front. fold n. lia.
    - unfold getitem. rewrite length_app, Nat2Z.inj_add.
      fold n m.
      destruct (i - n <? 0) eqn:E1; [exfalso; lia|].
      destruct (i <? 0) eqn:E2; [exfalso; lia|].
      destruct ((i - n <? 0) || (i - n >=? m)) eqn:E3; [exfalso; lia|].
      destruct ((i <? 0) || (i >=? n + m)) eqn:E4; [exfalso; lia|].
      rewrite nth_error_app2 by (unfold n in *; lia).
      replace (Z.to_nat i - List.length cl)%nat with (Z.to_nat (i - n))
        by (unfold n; lia).
      reflexivity. }
  destruct (key <? 0) eqn:Ek.
  - destruct (negb _) eqn:E.
    + symmetry. apply getitem_out. rewrite length_app, Nat2Z.inj_add.
      fold n m. lia.
    + rewrite (Shift (key + (n + m))) by lia.
      unfold getitem. cbv zeta. rewrite length_app, Nat2Z.inj_add.
      rewrite Ek. cbv iota. unfold n, m in *.
      match goal with
      | |- context [?a <? 0] =>
          let E1 := fresh in
          destruct (a <? 0) eqn:E1; [exfalso; lia|];
          cbv iota; rewrite ?E1
      end.
      reflexivity.
  - destruct (negb _) eqn:E.
    + symmetry. apply getitem_out. rewrite length_app, Nat2Z.inj_add.
      fold n m. lia.
    + apply Shift. lia.
Qed.

(** ** Sort keys *)

Lemma key_gtb_irrefl (a : list Z) : packer.key_gtb a a = false.
Proof.
  induction a as [|p a IH]; [reflexivity|].
  cbn [packer.key_gtb]. rewrite IH, Z.eqb_refl.
  destruct (p >? p) eqn:E; [exfalso; lia|reflexivity].
Qed.

Lemma key_gtb_asym : forall a b, packer.key_gtb a b = true -> packer.key_gtb b a = false.
Proof.
  induction a as [|p a IH]; intros [|q b] H; cbn [packer.key_gtb] in *;
    try reflexivity; try discriminate.
  apply orb_true_iff in H. apply orb_false_iff.
  destruct H as [H|H].
  - split; [lia|]. destruct (q =? p) eqn:E; [exfalso; lia|reflexivity].
  - apply andb_true_iff in H. destruct H as [H1 H2].
    split; [lia|]. rewrite (IH _ H2). apply andb_false_r.
Qed.

Lemma key_gtb_trans_le :
  forall a b c, packer.key_gtb a b = false -> packer.key_gtb b c = false ->
    packer.key_gtb a c = false.
Proof.
  induction a as [|p a IH]; intros [|q b] [|r c] H1 H2;
    cbn [packer.key_gtb] in *; try reflexivity; try discriminate.
  apply orb_false_iff in H1, H2. destruct H1 as [A1 B1], H2 as [A2 B2].
  apply orb_false_iff. split; [lia|].
  destruct (p =? r) eqn:E; [|reflexivity].
  assert (p = q) by lia. assert (q = r) by lia. subst.
  rewrite Z.eqb_refl in B1, B2. cbn [andb] in *. eapply IH; eauto.
Qed.

Lemma insert_desc_perm (key : packer.cub_item -> list Z)
    (c : packer.cub_item) (l : list packer.cub_item) :
  Permutation (packer.insert_desc key c l) (c :: l).
Proof.
  induction l as [|c' l IH]; [reflexivity|].
  cbn [packer.insert_desc].
  destruct (packer.key_gtb (key c') (key c)); [|reflexivity].
  rewrite IH. apply perm_swap.
Qed.

Lemma insert_desc_sorted (key : packer.cub_item -> list Z)
    (c : packer.cub_item) (l : list packer.cub_item) :
  StronglySorted (key_ge key) l ->
  StronglySorted (key_ge key) (packer.insert_desc key c l).
Proof.
  induction l as [|c' l IH]; intros S; cbn [packer.insert_desc].
  - repeat constructor.
  - inversion S as [|? ? S' F]; subst.
    destruct (packer.key_gtb (key c') (key c)) eqn:E.
    + constructor; [apply IH; exact S'|].
      apply (Permutation_Forall (x := c :: l));
        [symmetry; apply insert_desc_perm|].
      constructor; [|exact F]. unfold key_ge. now apply key_gtb_asym.
    + constructor; [exact S|]. constructor; [exact E|].
      eapply Forall_impl; [|exact F].
      intros x Hx. unfold key_ge in *.
      eapply key_gtb_trans_le; eassumption.
Qed.

Lemma insert_desc_stable (key : packer.cub_item -> list Z) (k : list Z)
    (c : packer.cub_item) (l : list packer.cub_item) :
  filter (of_key key k) (packer.insert_desc key c l)
  = filter (of_key key k) (c :: l).
Proof.
  induction l as [|c' l IH]; [reflexivity|].
  cbn [packer.insert_desc].
  destruct (packer.key_gtb (key c') (key c)) eqn:E; [|reflexivity].
  cbn [filter] in *. rewrite IH.
  unfold of_key.
  destruct (list_eq_dec Z.eq_dec (key c) k) as [E1|E1];
    destruct (list_eq_dec Z.eq_dec (key c') k) as [E2|E2]; try reflexivity.
  rewrite E1, E2, key_gtb_irrefl in E. discriminate.
Qed.

(** X28 ([SORT_VOLUME], [SORT_AREA], [SORT_DIFF], [SORT_SSIDE],
    [SORT_LSIDE]). The sort keys SORT_VOLUME, SORT_AREA, SORT_DIFF,
    SORT_SSIDE and SORT_LSIDE (sorted with reverse=True and a key) return a
    permutation of the cuboid list, in non-increasing order of the key, and
    cuboids of equal key keep their relative order. *)
Theorem sorted_desc_rearranges (key : packer.cub_item -> list Z)
    (l : list packer.cub_item) :
  Permutation (packer.sorted_desc key l) l /\
  StronglySorted (key_ge key) (packer.sorted_desc key l) /\
  forall k, filter (of_key key k) (packer.sorted_desc key l)
            = filter (of_key key k) l.
Proof.
  unfold packer.sorted_desc.
  induction l as [|c l [IH1 [IH2 IH3]]]; cbn [fold_right].
  - split; [reflexivity|]. split; [constructor|reflexivity].
  - split; [|split].
    + rewrite insert_desc_perm. now constructor.
    + now apply insert_desc_sorted.
    + intros k. rewrite insert_desc_stable. cbn [filter]. now rewrite IH3.
Qed.

(** ** Segments *)

(** X29 ([Segment.length_squared], [Segment.top], [Segment.bottom],
    [Segment.right], [Segment.left], [Segment.ineye], [Segment.outeye]).
    Segment.length_squared is (right - left)^2 + (top - bottom)^2 + (ineye -
    outeye)^2: the squared diagonal of the extents the segment reports. *)
Theorem length_squared_of_extents (s : Segment.Segment) :
  Segment.length_squared s
  = (Segment.right s - Segment.left s) ^ 2
    + (Segment.top s - Segment.bottom s) ^ 2
    + (Segment.ineye s - Segment.outeye s) ^ 2.
Proof.
  unfold Segment.length_squared, Point.distance_squared, Segment.right,
    Segment.left, Segment.top, Segment.bottom, Segment.ineye, Segment.outeye.
  destruct s as [[x1 y1 z1] [x2 y2 z2]].
  cbn [Segment.start Segment.end_ Point.x Point.y Point.z].
  assert (Sq : forall a b, (a - b) ^ 2 = (Z.max a b - Z.min a b) ^ 2).
  { intros a b. destruct (Z.le_ge_cases a b).
    - rewrite Z.max_r, Z.min_l by lia. ring.
    - rewrite Z.max_l, Z.min_r by lia. ring. }
  now rewrite (Sq x1 x2), (Sq y1 y2), (Sq z1 z2).
Qed.

(** X30 ([HSegment.__init__], [HSegment.length], [VSegment.__init__],
    [VSegment.length]). HSegment(start, n).length and VSegment(start,
    n).length are n and length_squared is n^2; the segment has no extent on
    the other axes and extent |n| on its own; start is its left (bottom) end
    exactly when n is not negative. *)
Theorem axis_segments_keep_their_length (p : Point.Point) (n : Z) :
  (Segment.HSegment_length (Segment.HSegment p n) = n /\
   Segment.length_squared (Segment.HSegment p n) = n ^ 2 /\
   Segment.top (Segment.HSegment p n) = Segment.bottom (Segment.HSegment p n) /\
   Segment.right (Segment.HSegment p n) - Segment.left (Segment.HSegment p n)
     = Z.abs n /\
   (Segment.left (Segment.HSegment p n) = Point.x p <-> 0 <= n)) /\
  (Segment.VSegment_length (Segment.VSegment p n) = n /\
   Segment.length_squared (Segment.VSegment p n) = n ^ 2 /\
   Segment.left (Segment.VSegment p n) = Segment.right (Segment.VSegment p n) /\
   Segment.top (Segment.VSegment p n) - Segment.bottom (Segment.VSegment p n)
     = Z.abs n /\
   (Segment.bottom (Segment.VSegment p n) = Point.y p <-> 0 <= n)).
Proof.
  destruct p as [x0 y0 z0].
  unfold Segment.HSegment_length, Segment.VSegment_length,
    Segment.length_squared, Point.distance_squared, Segment.HSegment,
    Segment.VSegment, Segment.top, Segment.bottom, Segment.left,
    Segment.right.
  cbn [Segment.start Segment.end_ Point.x Point.y Point.z].
  repeat split; try lia; try ring.
Qed.
